(** * Personal finance dashboard: ledger, budgets, analytics and upload

    A shallow embedding of the request handlers of the backend
    (controllers/transactionController.js, accountController.js,
    budgetController.js, analyticsController.js, uploadController.js, the
    route validators and the Account / Transaction schemas) together with the
    properties the specification states about them.

    Conventions of the embedding.
    - A JavaScript Number is an exact rational ([Q]); [Math.round] is
      [floor (x + 1/2)], which is what it computes on every number that is
      representable exactly.  Equality of numbers is [Qeq] ([==]).  The
      runtime computes in binary floating point: the two agree on whole
      numbers of moderate size ([Ledger.exact_size]), and wherever a
      result in whole cents passes through the rounding setter of a
      schema; the properties below are stated for such numbers.  NaN is
      [None]; no value of the embedding is infinite.
    - Text is a sequence of code units below 256 (Latin-1), which [ascii]
      numbers: white space and capitals are the ones of that range.
    - A MongoDB collection is the list of its documents in insertion order;
      an ObjectId is a [nat]; a Date is its number of milliseconds ([Z]).
    - A handler is a function from the database (and the request) to a
      response and the database it leaves behind.  An exception thrown
      inside a handler's [try] is the response with status 500 and the
      database as it was when the exception was thrown.
    - A JSON value of a request body is a [JsVal].  Text is classified by
      what it spells: a numeric string is the number it spells ([JNum]), a
      24-digit hexadecimal identifier is the ObjectId it spells ([JId]), an
      ISO 8601 date is the instant it spells ([JDate]); [JStr] is any other
      text.
    - Schema paths no property depends on (colour, icon, bank, notes,
      attachments, the recurrence descriptor, timestamps) are left out of
      the records; the properties of update payloads are stated for
      payloads that name paths of the records only. *)

From Stdlib Require Import ZArith QArith Qround Qabs Qminmax Lqa Lia.
From Stdlib Require Import List String Ascii Bool Arith Permutation.
Import ListNotations.

Local Open Scope Q_scope.
Local Open Scope string_scope.

(* ================================================================== *)
(** ** JavaScript numbers *)
(* ================================================================== *)

Module JS.

(** [Math.round]: the nearest integer, halves going up. *)
Definition Math_round (x : Q) : Z := Qfloor (x + (1 # 2)).

Definition Math_abs (x : Q) : Q := Qabs x.
Definition Math_min (x y : Q) : Q := Qmin x y.
Definition Math_max (x y : Q) : Q := Qmax x y.

(** [x < y] and [x <= y], [x > y] on numbers. *)
Definition ltb (x y : Q) : bool := negb (Qle_bool y x).
Definition leb (x y : Q) : bool := Qle_bool x y.
Definition gtb (x y : Q) : bool := ltb y x.

(** The setter shared by [Account.balance] and [Transaction.amount]:
    [Math.round(val * 100) / 100]. *)
Definition round2 (val : Q) : Q := inject_Z (Math_round (val * 100)) / 100.

(** JSON values of a request body, text classified by what it spells. *)
Inductive JsVal : Type :=
| JUndefined
| JNull
| JBool (b : bool)
| JNum (q : Q)
| JId (n : nat)
| JDate (d : Z)
| JStr (s : string)
| JArr (l : list string).

(** The characters [String.prototype.trim] removes and [\s] matches:
    space, tab, the line terminators, and the no-break space U+00A0. *)
Definition is_space (c : ascii) : bool :=
  let n := nat_of_ascii c in
  ((n =? 32) || (n =? 9) || (n =? 10) || (n =? 11) || (n =? 12) || (n =? 13)
   || (n =? 160))%nat.

Fixpoint trimStart (s : string) : string :=
  match s with
  | EmptyString => EmptyString
  | String c s' => if is_space c then trimStart s' else s
  end.

(** [trimEnd s]: drop the trailing run of white space. *)
Fixpoint trimEnd (s : string) : string :=
  match s with
  | EmptyString => EmptyString
  | String c s' =>
      match trimEnd s' with
      | EmptyString => if is_space c then EmptyString else String c EmptyString
      | r => String c r
      end
  end.

Definition trim (s : string) : string := trimEnd (trimStart s).

(** A capital: A to Z, and U+00C0 to U+00DE but for the multiplication
    sign U+00D7. *)
Definition is_upper (c : ascii) : bool :=
  let n := nat_of_ascii c in
  ((65 <=? n) && (n <=? 90) || (192 <=? n) && (n <=? 222) && negb (n =? 215))%nat.

Definition lower_char (c : ascii) : ascii :=
  if is_upper c then ascii_of_nat (nat_of_ascii c + 32) else c.

Fixpoint toLowerCase (s : string) : string :=
  match s with
  | EmptyString => EmptyString
  | String c s' => String (lower_char c) (toLowerCase s')
  end.

(** [s.includes(sub)] *)
Fixpoint includes (s sub : string) : bool :=
  if prefix sub s then true
  else match s with
       | EmptyString => false
       | String _ s' => includes s' sub
       end.

(** Truthiness, as [!v] and [v || d] and [if (v)] test it. *)
Definition truthy (v : JsVal) : bool :=
  match v with
  | JUndefined | JNull => false
  | JBool b => b
  | JNum q => negb (Qeq_bool q 0)
  | JId _ | JDate _ => true
  | JStr s => negb (String.eqb s "")
  | JArr _ => true
  end.

(** [Number(v)]; [None] is NaN. *)
Definition Number (v : JsVal) : option Q :=
  match v with
  | JNum q => Some q
  | JNull => Some 0
  | JBool b => Some (if b then 1 else 0)
  | JStr s => if String.eqb (trim s) "" then Some 0 else None
  | JArr [] => Some 0
  | _ => None
  end.

Definition is_digit (c : ascii) : bool :=
  let n := nat_of_ascii c in ((48 <=? n) && (n <=? 57))%nat.

(** The leading run of decimal digits of [s]: its value after [acc], the
    number of digits read on top of [count], and the rest of the text. *)
Fixpoint digits (s : string) (acc : Z) (count : nat) : Z * nat * string :=
  match s with
  | EmptyString => (acc, count, s)
  | String c s' =>
      if is_digit c
      then digits s' (acc * 10 + Z.of_nat (nat_of_ascii c - 48)) (S count)
      else (acc, count, s)
  end.

(** The exponent part at the head of [s]: [e] or [E], a sign or none, and
    at least one digit; 0 when there is none. *)
Definition exponent (s : string) : Z :=
  match s with
  | String c s' =>
      if ((nat_of_ascii c =? 101) || (nat_of_ascii c =? 69))%nat then
        let '(negative, s'') :=
          match s' with
          | String sign r =>
              if (nat_of_ascii sign =? 45)%nat then (true, r)
              else if (nat_of_ascii sign =? 43)%nat then (false, r)
              else (false, s')
          | EmptyString => (false, s')
          end in
        let '(v, n, _) := digits s'' 0 0 in
        if (n =? 0)%nat then 0%Z else if negative then (- v)%Z else v
      else 0%Z
  | EmptyString => 0%Z
  end.

(** The number spelled by the longest prefix of [s] that is a decimal
    literal without sign: digits, a fraction or none, an exponent or none;
    [None] when no prefix is one. *)
Definition decimal_prefix (s : string) : option Q :=
  let '(int_part, int_digits, rest) := digits s 0 0 in
  let '(frac_part, frac_digits, rest) :=
    match rest with
    | String c r => if (nat_of_ascii c =? 46)%nat then digits r 0 0 else (0%Z, 0%nat, rest)
    | EmptyString => (0%Z, 0%nat, rest)
    end in
  if (int_digits + frac_digits =? 0)%nat then None
  else
    let scale := (10 ^ Z.of_nat frac_digits)%Z in
    Some (inject_Z (int_part * scale + frac_part) / inject_Z scale
          * Qpower 10 (exponent rest)).

(** [parseFloat] of a text: leading white space is skipped, then a sign or
    none, then the longest decimal literal. *)
Definition parseFloat_text (s : string) : option Q :=
  match trimStart s with
  | String c r =>
      if (nat_of_ascii c =? 45)%nat
      then match decimal_prefix r with Some q => Some (- q) | None => None end
      else if (nat_of_ascii c =? 43)%nat then decimal_prefix r
      else decimal_prefix (String c r)
  | EmptyString => None
  end.

(** [parseFloat(v)]; [None] is NaN.  The argument is read as text: a
    number reads as itself, an array as its first element.  [JsVal] keeps
    neither the spelling of an identifier or of a date nor an infinite
    number: a value that is one of these, and a text that spells
    [Infinity], are read as NaN here. *)
Definition parseFloat (v : JsVal) : option Q :=
  match v with
  | JNum q => Some q
  | JStr s => parseFloat_text s
  | JArr (s :: _) => parseFloat_text s
  | _ => None
  end.

(** express-validator's [isFloat()], [isFloat({ gt: 0 })] and
    [isFloat({ min: 0 })]: the value must spell a number, within the bound. *)
Definition isFloat (v : JsVal) : bool :=
  match v with JNum _ => true | _ => false end.

Definition isFloat_gt (bound : Q) (v : JsVal) : bool :=
  match v with JNum q => gtb q bound | _ => false end.

Definition isFloat_min (bound : Q) (v : JsVal) : bool :=
  match v with JNum q => leb bound q | _ => false end.

Definition isMongoId (v : JsVal) : bool :=
  match v with JId _ => true | _ => false end.

Definition isISO8601 (v : JsVal) : bool :=
  match v with JDate _ => true | _ => false end.

(** A request body: the object's own keys in order, each once. *)
Definition Obj : Type := list (string * JsVal).

Fixpoint get (o : Obj) (key : string) : JsVal :=
  match o with
  | [] => JUndefined
  | (k, v) :: o' => if String.eqb k key then v else get o' key
  end.

Definition keys (o : Obj) : list string := map fst o.

Definition has (o : Obj) (key : string) : bool :=
  existsb (String.eqb key) (keys o).

(** express-validator's [.optional()]: the rule is skipped for a field
    that is [undefined]. *)
Definition optional (rule : JsVal -> bool) (v : JsVal) : bool :=
  match v with JUndefined => true | _ => rule v end.

End JS.

Import JS.

(* ================================================================== *)
(** ** Data model (models/Account.js, Transaction.js, Category.js) *)
(* ================================================================== *)

Abbreviation ObjectId := nat (only parsing).
Abbreviation Date := Z (only parsing).

Inductive AccountType := checking | savings | credit | investment | cash.
Inductive TxType := income | expense.

Definition AccountType_eqb (x y : AccountType) : bool :=
  match x, y with
  | checking, checking | savings, savings | credit, credit
  | investment, investment | cash, cash => true
  | _, _ => false
  end.

Definition TxType_eqb (x y : TxType) : bool :=
  match x, y with
  | income, income | expense, expense => true
  | _, _ => false
  end.

Record Account := mkAccount {
  a_id : ObjectId;
  a_userId : ObjectId;
  a_name : string;
  a_type : AccountType;
  a_balance : Q;
  a_initialBalance : Q;
  a_description : option string;
  a_isActive : bool;
  a_creditLimit : Q
}.

Record Transaction := mkTransaction {
  t_id : ObjectId;
  t_userId : ObjectId;
  t_accountId : ObjectId;
  t_categoryId : ObjectId;
  t_amount : Q;
  t_description : string;
  t_date : Date;
  t_type : TxType;
  t_tags : list string
}.

Record Category := mkCategory {
  c_id : ObjectId;
  c_userId : ObjectId;
  c_name : string;
  c_type : TxType;
  c_isDefault : bool;
  c_isActive : bool
}.

(** Modelled from the spec: the Budget schema (models/Budget.js is not among
    the sources).  The spec gives a budget an owner, one category, an
    amount, a start and an end date, an alert threshold and the active flag
    the controllers query; a budget is active unless it was set otherwise. *)
Record Budget := mkBudget {
  b_id : ObjectId;
  b_userId : ObjectId;
  b_categoryId : ObjectId;
  b_name : string;
  b_amount : Q;
  b_period : string;
  b_startDate : Date;
  b_endDate : Date;
  b_alertThreshold : Q;
  b_isActive : bool
}.

(** The database: one list per collection and the next fresh ObjectId. *)
Record Db := mkDb {
  accounts : list Account;
  transactions : list Transaction;
  categories : list Category;
  budgets : list Budget;
  nextId : ObjectId
}.

Definition with_accounts (db : Db) (l : list Account) : Db :=
  mkDb l (transactions db) (categories db) (budgets db) (nextId db).
Definition with_transactions (db : Db) (l : list Transaction) : Db :=
  mkDb (accounts db) l (categories db) (budgets db) (nextId db).
Definition with_budgets (db : Db) (l : list Budget) : Db :=
  mkDb (accounts db) (transactions db) (categories db) l (nextId db).
Definition bump (db : Db) : Db :=
  mkDb (accounts db) (transactions db) (categories db) (budgets db) (S (nextId db)).

(** Field updates on documents. *)
Definition set_balance (a : Account) (val : Q) : Account :=
  mkAccount (a_id a) (a_userId a) (a_name a) (a_type a) (round2 val)
            (a_initialBalance a) (a_description a) (a_isActive a) (a_creditLimit a).
Definition set_initialBalance (a : Account) (val : Q) : Account :=
  mkAccount (a_id a) (a_userId a) (a_name a) (a_type a) (a_balance a)
            val (a_description a) (a_isActive a) (a_creditLimit a).
Definition inc_balance (a : Account) (change : Q) : Account :=
  mkAccount (a_id a) (a_userId a) (a_name a) (a_type a) (a_balance a + change)
            (a_initialBalance a) (a_description a) (a_isActive a) (a_creditLimit a).

(** Collection primitives. *)
Definition replace_by {A : Type} (id : A -> ObjectId) (x : A) (l : list A) : list A :=
  map (fun y => if (id y =? id x)%nat then x else y) l.

Definition remove_by {A : Type} (id : A -> ObjectId) (i : ObjectId) (l : list A) : list A :=
  filter (fun y => negb (id y =? i)%nat) l.

Definition strlen_le (s : string) (n : nat) : bool := (String.length s <=? n)%nat.
Definition nonempty (s : string) : bool := negb (String.eqb s "").

(** What [save] sends for one path of a document read from the collection:
    Mongoose sets the paths whose value the assignments changed, so the
    stored document gets the value in memory where it differs from the
    value that was read, and keeps its own elsewhere. *)
Definition changed {A : Type} (eqb : A -> A -> bool) (before after stored : A) : A :=
  if eqb before after then stored else after.

Definition option_eqb {A : Type} (eqb : A -> A -> bool) (x y : option A) : bool :=
  match x, y with
  | Some a, Some b => eqb a b
  | None, None => true
  | _, _ => false
  end.

Fixpoint list_eqb {A : Type} (eqb : A -> A -> bool) (x y : list A) : bool :=
  match x, y with
  | [], [] => true
  | a :: x', b :: y' => eqb a b && list_eqb eqb x' y'
  | _, _ => false
  end.

Module AccountModel.

(** [accountSchema.pre('save')]: the initial balance is taken on first save. *)
Definition pre_save (isNew : bool) (this : Account) : Account :=
  if isNew then set_initialBalance this (a_balance this) else this.

(** Schema validation run by [save]: required name of at most 100
    characters, description of at most 500, credit limit not negative. *)
Definition validate (a : Account) : bool :=
  nonempty (a_name a) && strlen_le (a_name a) 100
  && match a_description a with Some d => strlen_le d 500 | None => true end
  && leb 0 (a_creditLimit a).

Definition findOne (db : Db) (p : Account -> bool) : option Account :=
  find p (accounts db).

Definition findById (db : Db) (i : ObjectId) : option Account :=
  find (fun a => (a_id a =? i)%nat) (accounts db).

Definition find_all (db : Db) (p : Account -> bool) : list Account :=
  filter p (accounts db).

(** [account.save()] of a document read from the collection; [None] when
    validation throws. *)
Definition save (db : Db) (a : Account) : option Db :=
  let a := pre_save false a in
  if validate a then Some (with_accounts db (replace_by a_id a (accounts db)))
  else None.

(** [account.save()] after the assignments of an update handler to the
    document [before], which was read from the collection.  The write goes
    to the stored document that has the [_id] the document has now: the
    document itself, unless a payload key [_id] has redirected it - then
    the changed paths are set on that other document, and the call throws
    when there is none. *)
Definition save_changes (db : Db) (before after : Account) : option Db :=
  if (a_id after =? a_id before)%nat then save db after
  else
    let after := pre_save false after in
    if validate after then
      match findById db (a_id after) with
      | Some stored =>
          Some (with_accounts db
                  (replace_by a_id
                     (mkAccount (a_id stored)
                        (changed Nat.eqb (a_userId before) (a_userId after) (a_userId stored))
                        (changed String.eqb (a_name before) (a_name after) (a_name stored))
                        (changed AccountType_eqb (a_type before) (a_type after)
                                 (a_type stored))
                        (changed Qeq_bool (a_balance before) (a_balance after)
                                 (a_balance stored))
                        (changed Qeq_bool (a_initialBalance before) (a_initialBalance after)
                                 (a_initialBalance stored))
                        (changed (option_eqb String.eqb) (a_description before)
                                 (a_description after) (a_description stored))
                        (changed Bool.eqb (a_isActive before) (a_isActive after)
                                 (a_isActive stored))
                        (changed Qeq_bool (a_creditLimit before) (a_creditLimit after)
                                 (a_creditLimit stored)))
                     (accounts db)))
      | None => None
      end
    else None.

(** [account.save()] of a document made by [new Account(...)]: the
    document gets a fresh ObjectId. *)
Definition save_new (db : Db) (a : Account) : option (Account * Db) :=
  let a := pre_save true a in
  if validate a then
    let a := mkAccount (nextId db) (a_userId a) (a_name a) (a_type a) (a_balance a)
                       (a_initialBalance a) (a_description a) (a_isActive a)
                       (a_creditLimit a) in
    Some (a, bump (with_accounts db (accounts db ++ [a])))
  else None.

(** [Account.findByIdAndUpdate(id, { $inc: { balance: change } })]:
    Mongoose casts the operand of [$inc] through the setter of the path,
    and the server adds the result to the stored balance of the document
    with that ObjectId; the sum is stored as it is. *)
Definition findByIdAndUpdate_inc (db : Db) (i : ObjectId) (change : Q) : Db :=
  match findById db i with
  | Some a => with_accounts db (replace_by a_id (inc_balance a (round2 change)) (accounts db))
  | None => db
  end.

End AccountModel.

Module TransactionModel.

(** Schema validation run by [save] and [insertMany]: amount not negative,
    required description of at most 500 characters, tags of at most 50. *)
Definition validate (t : Transaction) : bool :=
  leb 0 (t_amount t)
  && nonempty (t_description t) && strlen_le (t_description t) 500
  && forallb (fun tag => strlen_le tag 50) (t_tags t).

Definition findOne (db : Db) (p : Transaction -> bool) : option Transaction :=
  find p (transactions db).

(** The plain object handed to [new Transaction(...)] or [insertMany];
    [i_date] is [None] for an Invalid Date. *)
Record TxnInput := mkTxnInput {
  i_userId : ObjectId;
  i_accountId : ObjectId;
  i_categoryId : ObjectId;
  i_amount : Q;
  i_description : string;
  i_date : option Date;
  i_type : TxType;
  i_tags : list string
}.

(** Casting a plain object to a document: the amount goes through its
    setter; an Invalid Date does not cast ([None]), which [save] and
    [insertMany] report by throwing. *)
Definition construct (i : TxnInput) : option Transaction :=
  match i_date i with
  | Some d => Some (mkTransaction 0%nat (i_userId i) (i_accountId i) (i_categoryId i)
                      (round2 (i_amount i)) (i_description i) d (i_type i) (i_tags i))
  | None => None
  end.

Definition save (db : Db) (t : Transaction) : option Db :=
  if validate t then Some (with_transactions db (replace_by t_id t (transactions db)))
  else None.

(** [transaction.save()] after the assignments of the update handler to
    the document [before]: as for an account, the write goes to the stored
    document that has the [_id] the document has now. *)
Definition save_changes (db : Db) (before after : Transaction) : option Db :=
  if (t_id after =? t_id before)%nat then save db after
  else if validate after then
    match find (fun t => (t_id t =? t_id after)%nat) (transactions db) with
    | Some stored =>
        Some (with_transactions db
                (replace_by t_id
                   (mkTransaction (t_id stored)
                      (changed Nat.eqb (t_userId before) (t_userId after) (t_userId stored))
                      (changed Nat.eqb (t_accountId before) (t_accountId after)
                               (t_accountId stored))
                      (changed Nat.eqb (t_categoryId before) (t_categoryId after)
                               (t_categoryId stored))
                      (changed Qeq_bool (t_amount before) (t_amount after) (t_amount stored))
                      (changed String.eqb (t_description before) (t_description after)
                               (t_description stored))
                      (changed Z.eqb (t_date before) (t_date after) (t_date stored))
                      (changed TxType_eqb (t_type before) (t_type after) (t_type stored))
                      (changed (list_eqb String.eqb) (t_tags before) (t_tags after)
                               (t_tags stored)))
                   (transactions db)))
    | None => None
    end
  else None.

Definition with_id (i : ObjectId) (t : Transaction) : Transaction :=
  mkTransaction i (t_userId t) (t_accountId t) (t_categoryId t) (t_amount t)
                (t_description t) (t_date t) (t_type t) (t_tags t).

Definition save_new (db : Db) (t : Transaction) : option (Transaction * Db) :=
  if validate t then
    let t := with_id (nextId db) t in
    Some (t, bump (with_transactions db (transactions db ++ [t])))
  else None.

Definition findByIdAndDelete (db : Db) (i : ObjectId) : Db :=
  with_transactions db (remove_by t_id i (transactions db)).

(** [Transaction.insertMany(docs)]: every document is validated first; one
    invalid document makes the call throw with nothing inserted. *)
Fixpoint insert_all (db : Db) (docs : list Transaction) : Db * list Transaction :=
  match docs with
  | [] => (db, [])
  | t :: rest =>
      let t' := with_id (nextId db) t in
      let db1 := bump (with_transactions db (transactions db ++ [t'])) in
      let '(db2, ins) := insert_all db1 rest in
      (db2, t' :: ins)
  end.

Fixpoint construct_all (docs : list TxnInput) : option (list Transaction) :=
  match docs with
  | [] => Some []
  | i :: rest =>
      match construct i, construct_all rest with
      | Some t, Some ts => Some (t :: ts)
      | _, _ => None
      end
  end.

Definition insertMany (db : Db) (docs : list TxnInput) : option (Db * list Transaction) :=
  match construct_all docs with
  | Some ts => if forallb validate ts then Some (insert_all db ts) else None
  | None => None
  end.

End TransactionModel.

Module CategoryModel.

Definition findOne (db : Db) (p : Category -> bool) : option Category :=
  find p (categories db).

Definition find_all (db : Db) (p : Category -> bool) : list Category :=
  filter p (categories db).

End CategoryModel.

(** The answer of a handler: the HTTP status and the message or error text. *)
Record Response := mkResponse { status : nat; message : string }.

Definition validation_failed : Response := mkResponse 400 "validation errors".

(* ================================================================== *)
(** ** Transactions (routes/transactions.js, transactionController.js) *)
(* ================================================================== *)

Module TransactionController.

Import TransactionModel.

(** The [type] field of a body or a document path of enum
    ['income', 'expense']. *)
Definition TxType_of_js (v : JsVal) : option TxType :=
  match v with
  | JStr s => if String.eqb s "income" then Some income
              else if String.eqb s "expense" then Some expense else None
  | _ => None
  end.

Definition isIn_type (v : JsVal) : bool :=
  match TxType_of_js v with Some _ => true | None => false end.

(** [.trim().isLength({ min: 1, max: 500 })] on a text field. *)
Definition isLength_trimmed (lo hi : nat) (v : JsVal) : bool :=
  match v with
  | JStr s => (lo <=? String.length (trim s))%nat && (String.length (trim s) <=? hi)%nat
  | _ => false
  end.

Definition isArray (v : JsVal) : bool :=
  match v with JArr _ => true | _ => false end.

(** [createTransactionValidation] *)
Definition createTransactionValidation (body : Obj) : bool :=
  isMongoId (get body "accountId")
  && isMongoId (get body "categoryId")
  && isFloat_gt 0 (get body "amount")
  && isLength_trimmed 1 500 (get body "description")
  && isISO8601 (get body "date")
  && isIn_type (get body "type")
  && optional isArray (get body "tags").

(** [updateTransactionValidation] *)
Definition updateTransactionValidation (body : Obj) : bool :=
  optional isMongoId (get body "accountId")
  && optional isMongoId (get body "categoryId")
  && optional (isFloat_gt 0) (get body "amount")
  && optional (isLength_trimmed 1 500) (get body "description")
  && optional isISO8601 (get body "date")
  && optional isIn_type (get body "type").

(** [Array.isArray(tags) ? tags.map(tag => tag.trim()).filter(Boolean) : []] *)
Definition clean_tags (v : JsVal) : list string :=
  match v with
  | JArr l => filter nonempty (map trim l)
  | _ => []
  end.

Definition id_of (v : JsVal) : option ObjectId :=
  match v with JId n => Some n | _ => None end.

Definition date_of (v : JsVal) : option Date :=
  match v with
  | JDate d => Some d
  | JNum q => Some (Qfloor q)
  | JBool true => Some 1%Z
  | _ => None
  end.

Definition text_of (v : JsVal) : option string :=
  match v with JStr s => Some s | _ => None end.

(** The signed effect of a transaction on a balance, written as the
    handlers write it: [balance += amount] for income, [balance -= amount]
    otherwise. *)
Definition apply_effect (ty : TxType) (amount : Q) (a : Account) : Account :=
  match ty with
  | income => set_balance a (a_balance a + amount)
  | expense => set_balance a (a_balance a - amount)
  end.

Definition reverse_effect (ty : TxType) (amount : Q) (a : Account) : Account :=
  match ty with
  | income => set_balance a (a_balance a - amount)
  | expense => set_balance a (a_balance a + amount)
  end.

Definition server_error (what : string) : Response :=
  mkResponse 500 ("Server error while " ++ what).

(** [createTransaction]: the body has passed through
    [createTransactionValidation], whose verdict the handler reads first. *)
Definition createTransaction (db : Db) (user : ObjectId) (body : Obj) : Response * Db :=
  if negb (createTransactionValidation body) then (validation_failed, db) else
  let accountId := get body "accountId" in
  let categoryId := get body "categoryId" in
  let type := TxType_of_js (get body "type") in
  match AccountModel.findOne db (fun a =>
          match id_of accountId with Some i => (a_id a =? i)%nat | None => false end
          && (a_userId a =? user)%nat && a_isActive a) with
  | None => (mkResponse 404 "Account not found or inactive", db)
  | Some account =>
    match CategoryModel.findOne db (fun c =>
            match id_of categoryId with Some i => (c_id c =? i)%nat | None => false end
            && (c_userId c =? user)%nat
            && match type with Some ty => TxType_eqb (c_type c) ty | None => false end
            && c_isActive c) with
    | None => (mkResponse 404 "Category not found, inactive, or type mismatch", db)
    | Some category =>
      match Number (get body "amount"), type, id_of accountId, id_of categoryId,
            text_of (get body "description"), date_of (get body "date") with
      | Some n, Some ty, Some acc_id, Some cat_id, Some description, Some date =>
        let transactionAmount := Math_abs n in
        if leb transactionAmount 0
        then (mkResponse 400 "Amount must be greater than 0", db)
        else
          let transaction :=
            construct (mkTxnInput user acc_id cat_id transactionAmount
                         (trim description) (Some date) ty (clean_tags (get body "tags"))) in
          match match transaction with Some t => save_new db t | None => None end with
          | None => (server_error "creating transaction", db)
          | Some (_, db1) =>
            let account := apply_effect ty transactionAmount account in
            match AccountModel.save db1 account with
            | None => (server_error "creating transaction", db1)
            | Some db2 => (mkResponse 201 "Transaction created successfully", db2)
            end
          end
      | _, _, _, _, _, _ => (server_error "creating transaction", db)
      end
    end
  end.

(** One step of [Object.keys(updates).forEach(key => ...)] on the
    transaction document; [None] when the assignment throws or leaves the
    document invalid for [save].  A key that names no path of the schema
    is dropped by Mongoose and leaves the document as it is; so does, here,
    a key of a path left out of the record. *)
Definition assign (t : Transaction) (kv : string * JsVal) : option Transaction :=
  let '(key, v) := kv in
  if String.eqb key "amount" then
    match Number v with
    | Some n => Some (mkTransaction (t_id t) (t_userId t) (t_accountId t) (t_categoryId t)
                        (round2 (Math_abs n)) (t_description t) (t_date t) (t_type t) (t_tags t))
    | None => None
    end
  else if String.eqb key "description" then
    match text_of v with
    | Some s => Some (mkTransaction (t_id t) (t_userId t) (t_accountId t) (t_categoryId t)
                        (t_amount t) (trim s) (t_date t) (t_type t) (t_tags t))
    | None => None
    end
  else if String.eqb key "tags" then
    Some (mkTransaction (t_id t) (t_userId t) (t_accountId t) (t_categoryId t)
            (t_amount t) (t_description t) (t_date t) (t_type t) (clean_tags v))
  else if String.eqb key "accountId" then
    match id_of v with
    | Some i => Some (mkTransaction (t_id t) (t_userId t) i (t_categoryId t)
                        (t_amount t) (t_description t) (t_date t) (t_type t) (t_tags t))
    | None => None
    end
  else if String.eqb key "categoryId" then
    match id_of v with
    | Some i => Some (mkTransaction (t_id t) (t_userId t) (t_accountId t) i
                        (t_amount t) (t_description t) (t_date t) (t_type t) (t_tags t))
    | None => None
    end
  else if String.eqb key "userId" then
    match id_of v with
    | Some i => Some (mkTransaction (t_id t) i (t_accountId t) (t_categoryId t)
                        (t_amount t) (t_description t) (t_date t) (t_type t) (t_tags t))
    | None => None
    end
  else if String.eqb key "type" then
    match TxType_of_js v with
    | Some ty => Some (mkTransaction (t_id t) (t_userId t) (t_accountId t) (t_categoryId t)
                         (t_amount t) (t_description t) (t_date t) ty (t_tags t))
    | None => None
    end
  else if String.eqb key "date" then
    match date_of v with
    | Some d => Some (mkTransaction (t_id t) (t_userId t) (t_accountId t) (t_categoryId t)
                        (t_amount t) (t_description t) d (t_type t) (t_tags t))
    | None => None
    end
  else if String.eqb key "_id" then
    match id_of v with
    | Some i => Some (mkTransaction i (t_userId t) (t_accountId t) (t_categoryId t)
                        (t_amount t) (t_description t) (t_date t) (t_type t) (t_tags t))
    | None => None
    end
  else Some t.

Fixpoint assign_all (t : Transaction) (updates : Obj) : option Transaction :=
  match updates with
  | [] => Some t
  | kv :: rest =>
      match assign t kv with
      | Some t' => assign_all t' rest
      | None => None
      end
  end.

(** [updates.accountId !== oldAccountId] *)
Definition differs_from (v : JsVal) (i : ObjectId) : bool :=
  match v with JId n => negb (n =? i)%nat | _ => true end.

(** [updateTransaction] *)
Definition updateTransaction (db : Db) (user : ObjectId) (transactionId : ObjectId)
    (updates : Obj) : Response * Db :=
  if negb (updateTransactionValidation updates) then (validation_failed, db) else
  match findOne db (fun t => (t_id t =? transactionId)%nat && (t_userId t =? user)%nat) with
  | None => (mkResponse 404 "Transaction not found", db)
  | Some existingTransaction =>
    let oldAmount := t_amount existingTransaction in
    let oldType := t_type existingTransaction in
    let oldAccountId := t_accountId existingTransaction in
    let account_ok :=
      if truthy (get updates "accountId") && differs_from (get updates "accountId") oldAccountId
      then match AccountModel.findOne db (fun a =>
                   match id_of (get updates "accountId") with
                   | Some i => (a_id a =? i)%nat | None => false end
                   && (a_userId a =? user)%nat && a_isActive a) with
           | Some _ => true
           | None => false
           end
      else true in
    if negb account_ok then (mkResponse 404 "New account not found or inactive", db) else
    let category_ok :=
      if truthy (get updates "categoryId")
      then match CategoryModel.findOne db (fun c =>
                   match id_of (get updates "categoryId") with
                   | Some i => (c_id c =? i)%nat | None => false end
                   && (c_userId c =? user)%nat
                   && match (if truthy (get updates "type")
                             then TxType_of_js (get updates "type")
                             else Some (t_type existingTransaction)) with
                      | Some ty => TxType_eqb (c_type c) ty
                      | None => false
                      end
                   && c_isActive c) with
           | Some _ => true
           | None => false
           end
      else true in
    if negb category_ok
    then (mkResponse 404 "New category not found, inactive, or type mismatch", db) else
    match assign_all existingTransaction updates with
    | None => (server_error "updating transaction", db)
    | Some updated =>
      match save_changes db existingTransaction updated with
      | None => (server_error "updating transaction", db)
      | Some db1 =>
        let existingTransaction := updated in
        let newAccountId := t_accountId existingTransaction in
        match AccountModel.findById db1 oldAccountId with
        | None => (server_error "updating transaction", db1)
        | Some oldAccount =>
          if (oldAccountId =? newAccountId)%nat then
            (* newAccount is oldAccount: both adjustments hit one document *)
            let oldAccount := reverse_effect oldType oldAmount oldAccount in
            let newAccount := apply_effect (t_type existingTransaction)
                                           (t_amount existingTransaction) oldAccount in
            match AccountModel.save db1 newAccount with
            | None => (server_error "updating transaction", db1)
            | Some db2 => (mkResponse 200 "Transaction updated successfully", db2)
            end
          else
            match AccountModel.findById db1 newAccountId with
            | None => (server_error "updating transaction", db1)
            | Some newAccount =>
              let oldAccount := reverse_effect oldType oldAmount oldAccount in
              let newAccount := apply_effect (t_type existingTransaction)
                                             (t_amount existingTransaction) newAccount in
              match AccountModel.save db1 oldAccount with
              | None => (server_error "updating transaction", db1)
              | Some db2 =>
                match AccountModel.save db2 newAccount with
                | None => (server_error "updating transaction", db2)
                | Some db3 => (mkResponse 200 "Transaction updated successfully", db3)
                end
              end
            end
        end
      end
    end
  end.

(** [deleteTransaction] *)
Definition deleteTransaction (db : Db) (user : ObjectId) (transactionId : ObjectId)
    : Response * Db :=
  match findOne db (fun t => (t_id t =? transactionId)%nat && (t_userId t =? user)%nat) with
  | None => (mkResponse 404 "Transaction not found", db)
  | Some transaction =>
    let after_account :=
      match AccountModel.findById db (t_accountId transaction) with
      | Some account =>
          AccountModel.save db (reverse_effect (t_type transaction) (t_amount transaction) account)
      | None => Some db
      end in
    match after_account with
    | None => (server_error "deleting transaction", db)
    | Some db1 =>
        (mkResponse 200 "Transaction deleted successfully",
         findByIdAndDelete db1 (t_id transaction))
    end
  end.

(** *** Bulk import *)

Record BulkData := mkBulkData {
  imported : nat;
  errors : nat;
  total : nat;
  details : list (nat * string)
}.

Inductive BulkResponse :=
| BulkFailed (r : Response)
| BulkDone (d : BulkData).

(** [s.split(',')] *)
Fixpoint split_comma (s : string) : list string :=
  match s with
  | EmptyString => [EmptyString]
  | String c s' =>
      match split_comma s' with
      | [] => [String c EmptyString]
      | w :: ws => if (nat_of_ascii c =? 44)%nat then EmptyString :: w :: ws
                   else String c w :: ws
      end
  end.

Definition type_name (ty : TxType) : string :=
  match ty with income => "income" | expense => "expense" end.

(** The body of the [for] loop for the row at index [i] (from 0): the
    object pushed on [validTransactions], or the entry pushed on [errors].
    A [TypeError] raised by a method call on a value that is not text is
    caught by the row's own [try] and reported with its message. *)
Definition process_row (user : ObjectId) (userCategories : list Category)
    (account : Account) (i : nat) (txn : Obj) : TxnInput + (nat * string) :=
  if negb (truthy (get txn "amount")) || negb (truthy (get txn "description"))
     || negb (truthy (get txn "date"))
  then inr (S i, "Missing required fields")
  else
    match parseFloat (get txn "amount") with
    | None => inr (S i, "Invalid amount")
    | Some raw =>
      let amount := Math_abs raw in
      if leb amount 0 then inr (S i, "Invalid amount") else
      let type := if leb 0 raw then income else expense in
      let wanted :=
        if truthy (get txn "category") then text_of (get txn "category")
        else Some "other" in
      match wanted, userCategories with
      | None, _ :: _ => inr (S i, "(txn.category || 'other').toLowerCase is not a function")
      | _, _ =>
        let by_name :=
          match wanted with
          | Some w => find (fun cat => includes (toLowerCase (c_name cat)) (toLowerCase w)
                                       && TxType_eqb (c_type cat) type) userCategories
          | None => None
          end in
        let category :=
          match by_name with
          | Some c => Some c
          | None => find (fun cat => TxType_eqb (c_type cat) type) userCategories
          end in
        match category with
        | None => inr (S i, "No " ++ type_name type ++ " category found")
        | Some category =>
          match text_of (get txn "description") with
          | None => inr (S i, "txn.description.trim is not a function")
          | Some description =>
            let tags :=
              if truthy (get txn "tags")
              then match get txn "tags" with
                   | JStr s => Some (filter nonempty (map trim (split_comma s)))
                   | _ => None
                   end
              else Some [] in
            match tags with
            | None => inr (S i, "txn.tags.split is not a function")
            | Some tags =>
                inl (mkTxnInput user (a_id account) (c_id category) amount
                       (trim description) (date_of (get txn "date")) type tags)
            end
          end
        end
      end
    end.

(** The [for] loop: [validTransactions] and [errors], both in row order. *)
Fixpoint process_rows (user : ObjectId) (userCategories : list Category)
    (account : Account) (i : nat) (rows : list Obj)
    : list TxnInput * list (nat * string) :=
  match rows with
  | [] => ([], [])
  | txn :: rest =>
      let '(valid, errs) := process_rows user userCategories account (S i) rest in
      match process_row user userCategories account i txn with
      | inl v => (v :: valid, errs)
      | inr e => (valid, e :: errs)
      end
  end.

(** The [Map] of balance changes, keyed by account, in insertion order. *)
Definition UpdateMap := list (ObjectId * Q).

Fixpoint Map_get (m : UpdateMap) (k : ObjectId) : option Q :=
  match m with
  | [] => None
  | (k', v) :: m' => if (k' =? k)%nat then Some v else Map_get m' k
  end.

Fixpoint Map_set (m : UpdateMap) (k : ObjectId) (v : Q) : UpdateMap :=
  match m with
  | [] => [(k, v)]
  | (k', v') :: m' => if (k' =? k)%nat then (k, v) :: m' else (k', v') :: Map_set m' k v
  end.

(** [for (const txn of validTransactions) { ... accountUpdates.set(...) }] *)
Definition accountUpdates_step (accountUpdates : UpdateMap) (txn : TxnInput) : UpdateMap :=
  let accountId := i_accountId txn in
  let currentUpdate := match Map_get accountUpdates accountId with
                       | Some v => v
                       | None => 0
                       end in
  match i_type txn with
  | income => Map_set accountUpdates accountId (currentUpdate + i_amount txn)
  | expense => Map_set accountUpdates accountId (currentUpdate - i_amount txn)
  end.

Definition accountUpdates (validTransactions : list TxnInput) : UpdateMap :=
  fold_left accountUpdates_step validTransactions [].

(** [for (const [accountId, balanceChange] of accountUpdates) { $inc }] *)
Definition apply_updates (db : Db) (m : UpdateMap) : Db :=
  fold_left (fun d kv => AccountModel.findByIdAndUpdate_inc d (fst kv) (snd kv)) m db.

(** [bulkImportTransactions]; [transactions] is [None] when the body
    field is not an array. *)
Definition bulkImportTransactions (db : Db) (user : ObjectId)
    (transactions : option (list Obj)) : BulkResponse * Db :=
  match transactions with
  | None | Some [] => (BulkFailed (mkResponse 400 "Invalid transactions data"), db)
  | Some rows =>
    let userAccounts :=
      AccountModel.find_all db (fun a => (a_userId a =? user)%nat && a_isActive a) in
    let userCategories :=
      CategoryModel.find_all db (fun c => (c_userId c =? user)%nat && c_isActive c) in
    match userAccounts with
    | [] => (BulkFailed (mkResponse 400
               "No active accounts found. Please create an account first."), db)
    | account :: _ =>
      let '(validTransactions, errs) := process_rows user userCategories account 0 rows in
      match validTransactions with
      | [] => (BulkDone (mkBulkData 0 (List.length errs) (List.length rows) errs), db)
      | _ :: _ =>
        match insertMany db validTransactions with
        | None => (BulkFailed (mkResponse 500 "Server error during bulk import"), db)
        | Some (db1, insertedTransactions) =>
            let db2 := apply_updates db1 (accountUpdates validTransactions) in
            (BulkDone (mkBulkData (List.length insertedTransactions) (List.length errs)
                                  (List.length rows) errs), db2)
        end
      end
    end
  end.

End TransactionController.

(* ================================================================== *)
(** ** Accounts (routes/accounts.js, accountController.js) *)
(* ================================================================== *)

Module AccountController.

Import TransactionController.

Definition AccountType_of_js (v : JsVal) : option AccountType :=
  match v with
  | JStr s =>
      if String.eqb s "checking" then Some checking
      else if String.eqb s "savings" then Some savings
      else if String.eqb s "credit" then Some credit
      else if String.eqb s "investment" then Some investment
      else if String.eqb s "cash" then Some cash
      else None
  | _ => None
  end.

Definition isIn_accountType (v : JsVal) : bool :=
  match AccountType_of_js v with Some _ => true | None => false end.

(** [createAccountValidation] *)
Definition createAccountValidation (body : Obj) : bool :=
  isLength_trimmed 1 100 (get body "name")
  && isIn_accountType (get body "type")
  && optional isFloat (get body "balance")
  && optional (isFloat_min 0) (get body "creditLimit").

(** [updateAccountValidation] *)
Definition updateAccountValidation (body : Obj) : bool :=
  optional (isLength_trimmed 1 100) (get body "name")
  && optional isIn_accountType (get body "type")
  && optional isFloat (get body "balance").

(** [v?.trim()]: [Some None] is [undefined]; [None] is the [TypeError] of
    calling [trim] on a value that is not text. *)
Definition optional_trim (v : JsVal) : option (option string) :=
  match v with
  | JUndefined | JNull => Some None
  | JStr s => Some (Some (trim s))
  | _ => None
  end.

(** A destructuring default: [const { balance = 0 } = req.body]. *)
Definition default_to (d v : JsVal) : JsVal :=
  match v with JUndefined => d | _ => v end.

(** [createAccount] *)
Definition createAccount (db : Db) (user : ObjectId) (body : Obj)
    : Response * option Account * Db :=
  if negb (createAccountValidation body) then (validation_failed, None, db) else
  let balance := default_to (JNum 0) (get body "balance") in
  let creditLimit := default_to (JNum 0) (get body "creditLimit") in
  match text_of (get body "name"), AccountType_of_js (get body "type") with
  | Some name, Some type =>
    match AccountModel.findOne db (fun a =>
            (a_userId a =? user)%nat && String.eqb (a_name a) (trim name)
            && a_isActive a) with
    | Some _ => (mkResponse 400 "Account with this name already exists", None, db)
    | None =>
      match Number balance, optional_trim (get body "description"),
            (if AccountType_eqb type credit then Number creditLimit else Some 0) with
      | Some bal, Some description, Some limit =>
        let account :=
          set_balance (mkAccount 0%nat user (trim name) type 0 0 description true limit) bal in
        match AccountModel.save_new db account with
        | Some (saved, db1) => (mkResponse 201 "Account created successfully", Some saved, db1)
        | None => (server_error "creating account", None, db)
        end
      | _, _, _ => (server_error "creating account", None, db)
      end
    end
  | _, _ => (server_error "creating account", None, db)
  end.

(** Casting to a Boolean path. *)
Definition bool_of (v : JsVal) : option bool :=
  match v with
  | JBool b => Some b
  | JNull => Some false
  | JNum q => if Qeq_bool q 1 then Some true else if Qeq_bool q 0 then Some false else None
  | JStr s => if String.eqb s "true" || String.eqb s "yes" then Some true
              else if String.eqb s "false" || String.eqb s "no" then Some false
              else None
  | _ => None
  end.

(** Casting to a Number path that has no setter. *)
Definition number_of (v : JsVal) : option Q :=
  match v with
  | JNum q => Some q
  | JBool b => Some (if b then 1 else 0)
  | JNull => Some 0
  | _ => None
  end.

(** One step of [Object.keys(updates).forEach(key => ...)] on the account
    document; [None] when the step throws or leaves a value [save]
    rejects.  A key that names no path of the schema is dropped by Mongoose
    and leaves the document as it is; so does, here, a key of a path left
    out of the record. *)
Definition assign (a : Account) (kv : string * JsVal) : option Account :=
  let '(key, v) := kv in
  if String.eqb key "name" then
    match optional_trim v with
    | Some (Some s) => Some (mkAccount (a_id a) (a_userId a) s (a_type a) (a_balance a)
                               (a_initialBalance a) (a_description a) (a_isActive a)
                               (a_creditLimit a))
    | _ => None
    end
  else if String.eqb key "description" then
    match optional_trim v with
    | Some d => Some (mkAccount (a_id a) (a_userId a) (a_name a) (a_type a) (a_balance a)
                        (a_initialBalance a) d (a_isActive a) (a_creditLimit a))
    | None => None
    end
  else if String.eqb key "balance" then
    match Number v with
    | Some n => Some (set_balance a n)
    | None => None
    end
  else if String.eqb key "creditLimit" then
    match Number v with
    | Some n => Some (mkAccount (a_id a) (a_userId a) (a_name a) (a_type a) (a_balance a)
                        (a_initialBalance a) (a_description a) (a_isActive a) n)
    | None => None
    end
  else if String.eqb key "type" then
    match AccountType_of_js v with
    | Some ty => Some (mkAccount (a_id a) (a_userId a) (a_name a) ty (a_balance a)
                         (a_initialBalance a) (a_description a) (a_isActive a)
                         (a_creditLimit a))
    | None => None
    end
  else if String.eqb key "isActive" then
    match bool_of v with
    | Some b => Some (mkAccount (a_id a) (a_userId a) (a_name a) (a_type a) (a_balance a)
                        (a_initialBalance a) (a_description a) b (a_creditLimit a))
    | None => None
    end
  else if String.eqb key "initialBalance" then
    match number_of v with
    | Some n => Some (set_initialBalance a n)
    | None => None
    end
  else if String.eqb key "userId" then
    match id_of v with
    | Some i => Some (mkAccount (a_id a) i (a_name a) (a_type a) (a_balance a)
                        (a_initialBalance a) (a_description a) (a_isActive a)
                        (a_creditLimit a))
    | None => None
    end
  else if String.eqb key "_id" then
    match id_of v with
    | Some i => Some (mkAccount i (a_userId a) (a_name a) (a_type a) (a_balance a)
                        (a_initialBalance a) (a_description a) (a_isActive a)
                        (a_creditLimit a))
    | None => None
    end
  else Some a.

Fixpoint assign_all (a : Account) (updates : Obj) : option Account :=
  match updates with
  | [] => Some a
  | kv :: rest =>
      match assign a kv with
      | Some a' => assign_all a' rest
      | None => None
      end
  end.

(** [updateAccount] *)
Definition updateAccount (db : Db) (user : ObjectId) (accountId : ObjectId)
    (updates : Obj) : Response * Db :=
  if negb (updateAccountValidation updates) then (validation_failed, db) else
  match AccountModel.findOne db (fun a => (a_id a =? accountId)%nat
                                          && (a_userId a =? user)%nat) with
  | None => (mkResponse 404 "Account not found", db)
  | Some account =>
    let name_taken :=
      match get updates "name" with
      | JStr name =>
          if truthy (JStr name) && negb (String.eqb (trim name) (a_name account))
          then match AccountModel.findOne db (fun a =>
                       (a_userId a =? user)%nat && String.eqb (a_name a) (trim name)
                       && a_isActive a && negb (a_id a =? accountId)%nat) with
               | Some _ => true
               | None => false
               end
          else false
      | _ => false
      end in
    if name_taken then (mkResponse 400 "Account with this name already exists", db) else
    match assign_all account updates with
    | None => (server_error "updating account", db)
    | Some updated =>
      match AccountModel.save_changes db account updated with
      | None => (server_error "updating account", db)
      | Some db1 => (mkResponse 200 "Account updated successfully", db1)
      end
    end
  end.

End AccountController.

(* ================================================================== *)
(** ** Budgets (routes/budgets.js, budgetController.js) *)
(* ================================================================== *)

Module BudgetController.

Import TransactionController AccountController.

Definition isInt_range (lo hi : Z) (v : JsVal) : bool :=
  match v with
  | JNum q => Qeq_bool q (inject_Z (Qfloor q)) && (lo <=? Qfloor q)%Z && (Qfloor q <=? hi)%Z
  | _ => false
  end.

Definition isIn_period (v : JsVal) : bool :=
  match v with
  | JStr s => String.eqb s "weekly" || String.eqb s "monthly" || String.eqb s "yearly"
  | _ => false
  end.

(** [createBudgetValidation] *)
Definition createBudgetValidation (body : Obj) : bool :=
  isMongoId (get body "categoryId")
  && isLength_trimmed 1 100 (get body "name")
  && isFloat_gt 0 (get body "amount")
  && optional isIn_period (get body "period")
  && isISO8601 (get body "startDate")
  && isISO8601 (get body "endDate")
  && optional (isInt_range 0 100) (get body "alertThreshold").

(** [updateBudgetValidation] *)
Definition updateBudgetValidation (body : Obj) : bool :=
  optional isMongoId (get body "categoryId")
  && optional (isLength_trimmed 1 100) (get body "name")
  && optional (isFloat_gt 0) (get body "amount")
  && optional isISO8601 (get body "startDate")
  && optional isISO8601 (get body "endDate").

Definition findOne (db : Db) (p : Budget -> bool) : option Budget :=
  find p (budgets db).

(** [budget.save()]; the schema is not among the sources, the values have
    passed the route validators, and the save is taken to succeed. *)
Definition save (db : Db) (b : Budget) : Db :=
  with_budgets db (replace_by b_id b (budgets db)).

Definition save_new (db : Db) (b : Budget) : Budget * Db :=
  let b := mkBudget (nextId db) (b_userId b) (b_categoryId b) (b_name b) (b_amount b)
                    (b_period b) (b_startDate b) (b_endDate b) (b_alertThreshold b)
                    (b_isActive b) in
  (b, bump (with_budgets db (budgets db ++ [b]))).

(** The query of the overlap check:
    [{ userId, categoryId, isActive: true,
       $or: [{ startDate: { $lte: endDate }, endDate: { $gte: startDate } }] }] *)
Definition overlap_query (user categoryId : ObjectId) (startDate endDate : Date)
    (b : Budget) : bool :=
  (b_userId b =? user)%nat && (b_categoryId b =? categoryId)%nat && b_isActive b
  && (b_startDate b <=? endDate)%Z && (b_endDate b >=? startDate)%Z.

(** [createBudget] *)
Definition createBudget (db : Db) (user : ObjectId) (body : Obj) : Response * Db :=
  if negb (createBudgetValidation body) then (validation_failed, db) else
  let period := default_to (JStr "monthly") (get body "period") in
  let alertThreshold := default_to (JNum 80) (get body "alertThreshold") in
  match id_of (get body "categoryId"), date_of (get body "startDate"),
        date_of (get body "endDate") with
  | Some categoryId, Some startDate, Some endDate =>
    match CategoryModel.findOne db (fun c =>
            (c_id c =? categoryId)%nat && (c_userId c =? user)%nat
            && TxType_eqb (c_type c) expense && c_isActive c) with
    | None => (mkResponse 404 "Category not found or not an expense category", db)
    | Some category =>
      match findOne db (overlap_query user categoryId startDate endDate) with
      | Some overlappingBudget =>
          (mkResponse 400
             "A budget for this category already exists in the specified date range", db)
      | None =>
        if (startDate >=? endDate)%Z
        then (mkResponse 400 "End date must be after start date", db)
        else
          match text_of (get body "name"), Number (get body "amount"),
                text_of period, Number alertThreshold with
          | Some name, Some amount, Some period, Some alertThreshold =>
              let budget := mkBudget 0%nat user categoryId (trim name) amount period
                                     startDate endDate alertThreshold true in
              (mkResponse 201 "Budget created successfully", snd (save_new db budget))
          | _, _, _, _ => (server_error "creating budget", db)
          end
      end
    end
  | _, _, _ => (server_error "creating budget", db)
  end.

(** One step of [Object.keys(updates).forEach(key => ...)] on the budget;
    [None] when the step throws or the value does not cast. *)
Definition assign (b : Budget) (kv : string * JsVal) : option Budget :=
  let '(key, v) := kv in
  if String.eqb key "name" then
    match text_of v with
    | Some s => Some (mkBudget (b_id b) (b_userId b) (b_categoryId b) (trim s) (b_amount b)
                        (b_period b) (b_startDate b) (b_endDate b) (b_alertThreshold b)
                        (b_isActive b))
    | None => None
    end
  else if String.eqb key "amount" then
    match Number v with
    | Some n => Some (mkBudget (b_id b) (b_userId b) (b_categoryId b) (b_name b) n
                        (b_period b) (b_startDate b) (b_endDate b) (b_alertThreshold b)
                        (b_isActive b))
    | None => None
    end
  else if String.eqb key "alertThreshold" then
    match Number v with
    | Some n => Some (mkBudget (b_id b) (b_userId b) (b_categoryId b) (b_name b) (b_amount b)
                        (b_period b) (b_startDate b) (b_endDate b) n (b_isActive b))
    | None => None
    end
  else if String.eqb key "startDate" then
    match date_of v with
    | Some d => Some (mkBudget (b_id b) (b_userId b) (b_categoryId b) (b_name b) (b_amount b)
                        (b_period b) d (b_endDate b) (b_alertThreshold b) (b_isActive b))
    | None => None
    end
  else if String.eqb key "endDate" then
    match date_of v with
    | Some d => Some (mkBudget (b_id b) (b_userId b) (b_categoryId b) (b_name b) (b_amount b)
                        (b_period b) (b_startDate b) d (b_alertThreshold b) (b_isActive b))
    | None => None
    end
  else if String.eqb key "categoryId" then
    match id_of v with
    | Some i => Some (mkBudget (b_id b) (b_userId b) i (b_name b) (b_amount b)
                        (b_period b) (b_startDate b) (b_endDate b) (b_alertThreshold b)
                        (b_isActive b))
    | None => None
    end
  else if String.eqb key "isActive" then
    match bool_of v with
    | Some a => Some (mkBudget (b_id b) (b_userId b) (b_categoryId b) (b_name b) (b_amount b)
                        (b_period b) (b_startDate b) (b_endDate b) (b_alertThreshold b) a)
    | None => None
    end
  else if String.eqb key "period" then
    match text_of v with
    | Some p => Some (mkBudget (b_id b) (b_userId b) (b_categoryId b) (b_name b) (b_amount b)
                        p (b_startDate b) (b_endDate b) (b_alertThreshold b) (b_isActive b))
    | None => None
    end
  else if String.eqb key "userId" then
    match id_of v with
    | Some i => Some (mkBudget (b_id b) i (b_categoryId b) (b_name b) (b_amount b)
                        (b_period b) (b_startDate b) (b_endDate b) (b_alertThreshold b)
                        (b_isActive b))
    | None => None
    end
  else Some b.

Fixpoint assign_all (b : Budget) (updates : Obj) : option Budget :=
  match updates with
  | [] => Some b
  | kv :: rest =>
      match assign b kv with
      | Some b' => assign_all b' rest
      | None => None
      end
  end.

(** [updateBudget] *)
Definition updateBudget (db : Db) (user : ObjectId) (budgetId : ObjectId)
    (updates : Obj) : Response * Db :=
  if negb (updateBudgetValidation updates) then (validation_failed, db) else
  match findOne db (fun b => (b_id b =? budgetId)%nat && (b_userId b =? user)%nat) with
  | None => (mkResponse 404 "Budget not found", db)
  | Some budget =>
    let category_ok :=
      if truthy (get updates "categoryId")
         && differs_from (get updates "categoryId") (b_categoryId budget)
      then match CategoryModel.findOne db (fun c =>
                   match id_of (get updates "categoryId") with
                   | Some i => (c_id c =? i)%nat | None => false end
                   && (c_userId c =? user)%nat
                   && TxType_eqb (c_type c) expense && c_isActive c) with
           | Some _ => true
           | None => false
           end
      else true in
    if negb category_ok
    then (mkResponse 404 "New category not found or not an expense category", db) else
    let newStartDate :=
      if truthy (get updates "startDate") then date_of (get updates "startDate")
      else Some (b_startDate budget) in
    let newEndDate :=
      if truthy (get updates "endDate") then date_of (get updates "endDate")
      else Some (b_endDate budget) in
    match newStartDate, newEndDate with
    | Some s, Some e =>
      if (s >=? e)%Z then (mkResponse 400 "End date must be after start date", db) else
      match assign_all budget updates with
      | None => (server_error "updating budget", db)
      | Some budget => (mkResponse 200 "Budget updated successfully", save db budget)
      end
    | _, _ => (server_error "updating budget", db)
    end
  end.

End BudgetController.

(* ================================================================== *)
(** ** Analytics (analyticsController.js) *)
(* ================================================================== *)

Module AnalyticsController.

(** [array.reduce((sum, x) => sum + f(x), 0)] *)
Definition sum_of {A : Type} (f : A -> Q) (l : list A) : Q :=
  fold_left (fun sum x => sum + f x) l 0.

(** [{ $group: { _id: '$type', total: { $sum: '$amount' } } }]: one group
    for each type that occurs among the matched documents. *)
Definition group_by_type (docs : list Transaction) : list (TxType * Q) :=
  let group ty :=
    match filter (fun t => TxType_eqb (t_type t) ty) docs with
    | [] => []
    | g => [(ty, sum_of t_amount g)]
    end in
  group income ++ group expense.

(** [data.find(d => d._id === ty)?.total || 0] *)
Definition total_of (data : list (TxType * Q)) (ty : TxType) : Q :=
  match find (fun d => TxType_eqb (fst d) ty) data with
  | Some d => snd d
  | None => 0
  end.

Definition savingsRate (income expenses : Q) : Q :=
  if gtb income 0 then ((income - expenses) / income) * 100 else 0.

Definition expenseRatio (income expenses : Q) : Q :=
  if gtb income 0 then (expenses / income) * 100 else 100.

Definition emergencyFundRatio (totalBalance monthlyExpenses : Q) : Q :=
  if gtb monthlyExpenses 0 then totalBalance / (monthlyExpenses * 3) else 1.

Definition debtToIncomeRatio (income totalDebt : Q) : Q :=
  if gtb income 0 then (totalDebt / income) * 100 else 0.

(** What the budget currently spent: the sum of the owner's expenses of
    the budget's category dated within the budget's window. *)
Definition spent_on (db : Db) (user : ObjectId) (budget : Budget) : Q :=
  sum_of t_amount
    (filter (fun t => (t_userId t =? user)%nat
                      && (t_categoryId t =? b_categoryId budget)%nat
                      && TxType_eqb (t_type t) expense
                      && (b_startDate budget <=? t_date t)%Z
                      && (t_date t <=? b_endDate budget)%Z)
            (transactions db)).

Definition budgetScore (db : Db) (user : ObjectId) (budgets : list Budget) : Q :=
  match budgets with
  | [] => 100
  | _ :: _ =>
      let totalBudgetVariance :=
        fold_left (fun total budget =>
                     total + Math_abs (spent_on db user budget - b_amount budget)
                             / b_amount budget)
                  budgets 0 in
      Math_max 0 (100 - (totalBudgetVariance / inject_Z (Z.of_nat (List.length budgets))) * 100)
  end.

Record Scores := mkScores {
  s_savingsRate : Q;
  s_budgetAdherence : Z;
  s_emergencyFund : Q;
  s_expenseControl : Q;
  s_debtManagement : Q
}.

(** [const scores = { ... }] *)
Definition scores_of (savingsRate budgetScore emergencyFundRatio expenseRatio
                      debtToIncomeRatio : Q) : Scores :=
  mkScores (Math_min 100 (Math_max 0 (savingsRate * 5)))
           (Math_round budgetScore)
           (Math_min 100 (emergencyFundRatio * 100))
           (Math_max 0 (100 - expenseRatio))
           (Math_max 0 (100 - debtToIncomeRatio * 2)).

(** [const overallScore = ...], the weighted sum before rounding. *)
Definition weighted (scores : Scores) : Q :=
  s_savingsRate scores * (25 # 100)
  + inject_Z (s_budgetAdherence scores) * (25 # 100)
  + s_emergencyFund scores * (2 # 10)
  + s_expenseControl scores * (15 # 100)
  + s_debtManagement scores * (15 # 100).

Record Health := mkHealth {
  overallScore : Z;
  scores : Scores;
  insights : list string;
  period_income : Q;
  period_expenses : Q
}.

(** The titles of the insights, in the order they are pushed. *)
Definition insights_of (savingsRate emergencyFundRatio budgetScore debtToIncomeRatio : Q)
    : list string :=
  let l :=
    ((if ltb savingsRate 10 then ["Low Savings Rate"]
      else if leb 20 savingsRate then ["Excellent Savings Rate"] else [])
     ++ (if ltb emergencyFundRatio 1 then ["Insufficient Emergency Fund"] else [])
     ++ (if ltb budgetScore 70 then ["Budget Variance"] else [])
     ++ (if gtb debtToIncomeRatio 30 then ["High Debt-to-Income Ratio"] else []))%list in
  match l with
  | [] => ["Strong Financial Health"]
  | _ => l
  end.

(** The figures the score is computed from, read from the database as
    [getFinancialHealth] reads them.  [lastMonth] and [thisMonth] are the
    first instants of the previous and of the current calendar month. *)
Definition lastMonthData (db : Db) (user : ObjectId) (lastMonth thisMonth : Date)
    : list (TxType * Q) :=
  group_by_type
    (filter (fun t => (t_userId t =? user)%nat
                      && (lastMonth <=? t_date t)%Z && (t_date t <? thisMonth)%Z)
            (transactions db)).

Definition active_accounts (db : Db) (user : ObjectId) : list Account :=
  AccountModel.find_all db (fun a => (a_userId a =? user)%nat && a_isActive a).

Definition current_budgets (db : Db) (user : ObjectId) (currentDate : Date) : list Budget :=
  filter (fun b => (b_userId b =? user)%nat && b_isActive b
                   && (b_startDate b <=? currentDate)%Z && (b_endDate b >=? currentDate)%Z)
         (budgets db).

Definition creditAccounts (accounts : list Account) : list Account :=
  filter (fun acc => AccountType_eqb (a_type acc) credit) accounts.

(** [getFinancialHealth] *)
Definition getFinancialHealth (db : Db) (user : ObjectId)
    (currentDate lastMonth thisMonth : Date) : Health :=
  let data := lastMonthData db user lastMonth thisMonth in
  let income := total_of data income in
  let expenses := total_of data expense in
  let savingsRate := savingsRate income expenses in
  let expenseRatio := expenseRatio income expenses in
  let accounts := active_accounts db user in
  let totalBalance := sum_of a_balance accounts in
  let monthlyExpenses := expenses in
  let emergencyFundRatio := emergencyFundRatio totalBalance monthlyExpenses in
  let budgets := current_budgets db user currentDate in
  let budgetScore := budgetScore db user budgets in
  let totalDebt := sum_of (fun acc => Math_abs (a_balance acc)) (creditAccounts accounts) in
  let debtToIncomeRatio := debtToIncomeRatio income totalDebt in
  let scores := scores_of savingsRate budgetScore emergencyFundRatio expenseRatio
                          debtToIncomeRatio in
  mkHealth (Math_round (weighted scores)) scores
           (insights_of savingsRate emergencyFundRatio budgetScore debtToIncomeRatio)
           (round2 income) (round2 expenses).

End AnalyticsController.

(* ================================================================== *)
(** ** Upload (routes/upload.js, uploadController.js) *)
(* ================================================================== *)

Module UploadController.

(** A CSV row after column-name normalisation, and what csv-parser makes
    of a stored file: its rows, or the error the stream emits. *)
Definition CsvRow := list (string * string).

Inductive Parsed :=
| Rows (csvData : list CsvRow)
| StreamError (msg : string).

(** The uploads directory: the stored files, each with what it parses to. *)
Definition Fs := list (string * Parsed).

Definition exists_in (fs : Fs) (path : string) : bool :=
  existsb (fun f => String.eqb (fst f) path) fs.

(** [fs.unlink(path)] *)
Definition unlink (fs : Fs) (path : string) : Fs :=
  filter (fun f => negb (String.eqb (fst f) path)) fs.

(** The part of [s] from its last occurrence of character [n] on. *)
Fixpoint from_last (n : nat) (s : string) : option string :=
  match s with
  | EmptyString => None
  | String c s' =>
      match from_last n s' with
      | Some e => Some e
      | None => if (nat_of_ascii c =? n)%nat then Some s else None
      end
  end.

Definition basename (p : string) : string :=
  match from_last 47 p with
  | Some (String _ b) => b
  | _ => p
  end.

(** [path.extname]: from the last dot of the base name on; empty when
    there is no dot, when the only dot leads the name, and for [..]. *)
Definition extname (p : string) : string :=
  match basename p with
  | EmptyString => EmptyString
  | String c rest =>
      if String.eqb (String c rest) ".." then EmptyString
      else match from_last 46 rest with
           | Some e => e
           | None => EmptyString
           end
  end.

Record IncomingFile := mkIncoming {
  fieldname : string;
  originalname : string;
  parsed : Parsed
}.

Record StoredFile := mkStored {
  file_originalname : string;
  file_path : string
}.

(** [fileFilter] *)
Definition fileFilter (file : IncomingFile) : bool :=
  let allowedTypes := [".csv"; ".xlsx"; ".xls"] in
  let ext := toLowerCase (extname (originalname file)) in
  existsb (String.eqb ext) allowedTypes.

Section Handler.

(** [mapCsvToTransactions]: it maps each row inside its own [try], so it
    returns for every input; what the preview holds is of no concern here. *)
Variable Preview : Type.
Variable mapCsvToTransactions : list CsvRow -> list Preview.

(** The answer of the error-handling middleware (not among the sources)
    to an error passed on by multer. *)
Variable errorHandler : string -> Response.

(** [parseCsvFile(filePath)].  The promise is rejected by an error of the
    parser.  A path that holds no file is read here as such an error; in
    the handler the read stream itself has no error listener, and the
    route stores the file before the handler runs, so that the case does
    not arise there. *)
Definition parseCsvFile (fs : Fs) (filePath : string) : Parsed :=
  match find (fun f => String.eqb (fst f) filePath) fs with
  | Some f => snd f
  | None => StreamError "ENOENT: no such file or directory"
  end.

(** [uploadTransactions] *)
Definition uploadTransactions (fs : Fs) (file : option StoredFile) : Response * Fs :=
  match file with
  | None => (mkResponse 400 "No file uploaded", fs)
  | Some file =>
    let filePath := file_path file in
    if String.eqb (toLowerCase (extname (file_originalname file))) ".csv" then
      match parseCsvFile fs filePath with
      | Rows csvData =>
          let transactions := mapCsvToTransactions csvData in
          let fs := unlink fs filePath in
          match transactions with
          | [] => (mkResponse 400 "No valid transactions found in file", fs)
          | _ :: _ => (mkResponse 200 "", fs)
          end
      | StreamError msg =>
          (mkResponse 500 ("Error processing file: " ++ msg), unlink fs filePath)
      end
    else (mkResponse 400 "Excel files not yet supported", fs)
  end.

(** The route [POST /transactions]: multer's [upload.single('file')], which
    stores an accepted file under a fresh name, and then the handler. *)
Definition post_transactions (fs : Fs) (uniqueSuffix : string)
    (incoming : option IncomingFile) : Response * Fs :=
  match incoming with
  | None => uploadTransactions fs None
  | Some f =>
      if fileFilter f then
        let path := "uploads/" ++ fieldname f ++ "-" ++ uniqueSuffix ++ extname (originalname f) in
        uploadTransactions ((path, parsed f) :: fs) (Some (mkStored (originalname f) path))
      else (errorHandler "Only CSV and Excel files are allowed", fs)
  end.

End Handler.

End UploadController.

(* ================================================================== *)
(** ** Accounts: deletion and balance history (accountController.js) *)
(* ================================================================== *)

Module AccountHandlers.

Import TransactionController AccountController.

(** [Transaction.countDocuments(query)] *)
Definition countDocuments (db : Db) (p : Transaction -> bool) : nat :=
  List.length (filter p (transactions db)).

Definition set_isActive (a : Account) (b : bool) : Account :=
  mkAccount (a_id a) (a_userId a) (a_name a) (a_type a) (a_balance a)
            (a_initialBalance a) (a_description a) b (a_creditLimit a).

(** [Account.findByIdAndDelete(accountId)] *)
Definition findByIdAndDelete (db : Db) (i : ObjectId) : Db :=
  with_accounts db (remove_by a_id i (accounts db)).

(** [deleteAccount]: an account with transactions of the requester is
    deactivated, one without is removed. *)
Definition deleteAccount (db : Db) (user accountId : ObjectId) : Response * Db :=
  match AccountModel.findOne db (fun a => (a_id a =? accountId)%nat
                                          && (a_userId a =? user)%nat) with
  | None => (mkResponse 404 "Account not found", db)
  | Some account =>
    let transactionCount :=
      countDocuments db (fun t => (t_accountId t =? accountId)%nat
                                  && (t_userId t =? user)%nat) in
    if (0 <? transactionCount)%nat then
      match AccountModel.save db (set_isActive account false) with
      | Some db1 =>
          (mkResponse 200 "Account deactivated successfully (transactions preserved)", db1)
      | None => (server_error "deleting account", db)
      end
    else (mkResponse 200 "Account deleted successfully", findByIdAndDelete db accountId)
  end.

(** [.sort({ date: 1 })]: ascending by date; documents of one date stay in
    the order of the collection. *)
Fixpoint insert_by_date (t : Transaction) (l : list Transaction) : list Transaction :=
  match l with
  | [] => [t]
  | x :: l' => if (t_date t <=? t_date x)%Z then t :: l else x :: insert_by_date t l'
  end.

Definition sort_date_asc (l : list Transaction) : list Transaction :=
  fold_right insert_by_date [] l.

Record HistoryPoint := mkPoint {
  p_date : Date;
  p_balance : Q;
  p_transaction : option Transaction
}.

(** The body shared by the two [forEach] loops: the running balance after
    one more transaction. *)
Definition step_balance (runningBalance : Q) (txn : Transaction) : Q :=
  match t_type txn with
  | income => runningBalance + t_amount txn
  | expense => runningBalance - t_amount txn
  end.

(** [transactions.forEach(txn => { ...; balanceHistory.push(...) })] *)
Fixpoint daily_balances (runningBalance : Q) (txns : list Transaction)
    : list HistoryPoint :=
  match txns with
  | [] => []
  | txn :: rest =>
      let runningBalance := step_balance runningBalance txn in
      mkPoint (t_date txn) runningBalance (Some txn) :: daily_balances runningBalance rest
  end.

Record BalanceHistory := mkHistory {
  currentBalance : Q;
  history : list HistoryPoint
}.

(** [getAccountBalanceHistory]; [startDate] is the instant [days] days
    before the request, as the runtime computes it, [None] when the [days]
    parameter spells no number (an Invalid Date, which the queries
    reject). *)
Definition getAccountBalanceHistory (db : Db) (user accountId : ObjectId)
    (startDate : option Date) : Response * option BalanceHistory :=
  match AccountModel.findOne db (fun a => (a_id a =? accountId)%nat
                                          && (a_userId a =? user)%nat) with
  | None => (mkResponse 404 "Account not found", None)
  | Some account =>
    match startDate with
    | None => (server_error "fetching balance history", None)
    | Some startDate =>
      let txns :=
        sort_date_asc
          (filter (fun t => (t_accountId t =? accountId)%nat && (t_userId t =? user)%nat
                            && (startDate <=? t_date t)%Z)
                  (transactions db)) in
      let earlierTransactions :=
        filter (fun t => (t_accountId t =? accountId)%nat && (t_userId t =? user)%nat
                         && (t_date t <? startDate)%Z)
               (transactions db) in
      let runningBalance :=
        fold_left step_balance earlierTransactions (a_initialBalance account) in
      let balanceHistory :=
        mkPoint startDate runningBalance None :: daily_balances runningBalance txns in
      (mkResponse 200 "", Some (mkHistory (a_balance account) balanceHistory))
    end
  end.

End AccountHandlers.

(* ================================================================== *)
(** ** Transactions: the balance static and the listing *)
(* ================================================================== *)

Module TransactionQueries.

Import TransactionController AnalyticsController.

(** [transactionSchema.statics.getUserBalance]: income minus expenses of
    the user, on one account when [accountId] is given. *)
Definition getUserBalance (db : Db) (userId : ObjectId) (accountId : option ObjectId) : Q :=
  let results :=
    group_by_type
      (filter (fun t => (t_userId t =? userId)%nat
                        && match accountId with
                           | Some i => (t_accountId t =? i)%nat
                           | None => true
                           end)
              (transactions db)) in
  total_of results income - total_of results expense.

(** [transactionSchema.virtual('formattedAmount')] *)
Definition formattedAmount (this : Transaction) : Q :=
  match t_type this with
  | expense => - t_amount this
  | income => t_amount this
  end.


Record Group := mkGroup { g_id : TxType; g_total : Q; g_count : nat }.

(** [{ $group: { _id: '$type', total: { $sum: '$amount' }, count: { $sum: 1 } } }] *)
Definition stats_by_type (docs : list Transaction) : list Group :=
  let group ty :=
    match filter (fun t => TxType_eqb (t_type t) ty) docs with
    | [] => []
    | g => [mkGroup ty (sum_of t_amount g) (List.length g)]
    end in
  (group income ++ group expense)%list.

Record Summary := mkSummary {
  totalIncome : Q;
  totalExpenses : Q;
  transactionCount : nat;
  netAmount : Q
}.



Section Listing.

(** The server's regular-expression match of the [search] text against a
    description, ignoring case; [None] when the text is no regular
    expression. *)
Variable regex : string -> option (string -> bool).

(** The server's sort by the field [sortBy], ascending or descending. *)
Variable sort_by : string -> bool -> list Transaction -> list Transaction.




End Listing.

End TransactionQueries.

(* ================================================================== *)
(** ** Categories (models/Category.js, routes/categories.js,
       categoryController.js) and the defaults of a new user
       (authController.js) *)
(* ================================================================== *)

Module CategoryWrites.

Definition with_categories (db : Db) (l : list Category) : Db :=
  mkDb (accounts db) (transactions db) l (budgets db) (nextId db).

Inductive SaveResult :=
| Saved (db : Db)
| ValidationError
| DuplicateKey.

(** [categorySchema.pre('save')]: a default category cannot be inactive. *)
Definition pre_save_ok (this : Category) : bool :=
  negb (c_isDefault this && negb (c_isActive this)).

(** Schema validation of the paths of the record: required name of at
    most 100 characters. *)
Definition validate (c : Category) : bool :=
  nonempty (c_name c) && strlen_le (c_name c) 100.

(** [categorySchema.index({ userId: 1, name: 1 }, { unique: true })]:
    another document of the same owner has the name. *)
Definition duplicate (db : Db) (c : Category) : bool :=
  existsb (fun d => negb (c_id d =? c_id c)%nat && (c_userId d =? c_userId c)%nat
                    && String.eqb (c_name d) (c_name c))
          (categories db).

(** [category.save()] of a stored document.  The handlers trim the name
    they assign; the [trim] setter of the schema finds nothing left to do. *)
Definition save (db : Db) (c : Category) : SaveResult :=
  if negb (validate c) then ValidationError
  else if negb (pre_save_ok c) then ValidationError
  else if duplicate db c then DuplicateKey
  else Saved (with_categories db (replace_by c_id c (categories db))).

(** [category.save()] after the assignments of the update handler to the
    document [before]: the write goes to the stored document that has the
    [_id] the document has now, the middleware and the validation having
    seen the document in memory; [ValidationError] stands here also for
    the error thrown when no stored document has that [_id]. *)
Definition save_changes (db : Db) (before after : Category) : SaveResult :=
  if (c_id after =? c_id before)%nat then save db after
  else if negb (validate after) then ValidationError
  else if negb (pre_save_ok after) then ValidationError
  else
    match find (fun c => (c_id c =? c_id after)%nat) (categories db) with
    | Some stored =>
        let written :=
          mkCategory (c_id stored)
            (changed Nat.eqb (c_userId before) (c_userId after) (c_userId stored))
            (changed String.eqb (c_name before) (c_name after) (c_name stored))
            (changed TxType_eqb (c_type before) (c_type after) (c_type stored))
            (changed Bool.eqb (c_isDefault before) (c_isDefault after) (c_isDefault stored))
            (changed Bool.eqb (c_isActive before) (c_isActive after) (c_isActive stored)) in
        if duplicate db written then DuplicateKey
        else Saved (with_categories db (replace_by c_id written (categories db)))
    | None => ValidationError
    end.

Definition with_id (i : ObjectId) (c : Category) : Category :=
  mkCategory i (c_userId c) (c_name c) (c_type c) (c_isDefault c) (c_isActive c).

(** [category.save()] of a new document. *)
Definition save_new (db : Db) (c : Category) : SaveResult :=
  let c := with_id (nextId db) c in
  if negb (validate c) then ValidationError
  else if negb (pre_save_ok c) then ValidationError
  else if duplicate db c then DuplicateKey
  else Saved (bump (with_categories db (categories db ++ [c]))).

(** The [trim] setter of the name, at construction. *)
Definition cast (c : Category) : Category :=
  mkCategory (c_id c) (c_userId c) (trim (c_name c)) (c_type c) (c_isDefault c) (c_isActive c).

(** [Category.insertMany(docs)]: the documents are cast and validated, then
    written in order; the write stops at the first duplicate key, and what
    was written before stays.  The flag tells whether all were written.
    No [save] middleware runs. *)
Fixpoint insert_ordered (db : Db) (docs : list Category) : Db * bool :=
  match docs with
  | [] => (db, true)
  | c :: rest =>
      let c := with_id (nextId db) c in
      if duplicate db c then (db, false)
      else insert_ordered (bump (with_categories db (categories db ++ [c]))) rest
  end.

Definition insertMany (db : Db) (docs : list Category) : Db * bool :=
  let docs := map cast docs in
  if forallb validate docs then insert_ordered db docs else (db, false).

Definition findByIdAndDelete (db : Db) (i : ObjectId) : Db :=
  with_categories db (remove_by c_id i (categories db)).

End CategoryWrites.

Module CategoryController.

Import TransactionController AccountController CategoryWrites.

(** [/^#([A-Fa-f0-9]{6}|[A-Fa-f0-9]{3})$/] *)
Definition is_hex (c : ascii) : bool :=
  let n := nat_of_ascii c in
  ((48 <=? n) && (n <=? 57) || (65 <=? n) && (n <=? 70) || (97 <=? n) && (n <=? 102))%nat.

Fixpoint all_hex (s : string) : bool :=
  match s with
  | EmptyString => true
  | String c s' => is_hex c && all_hex s'
  end.

Definition matches_hex_color (v : JsVal) : bool :=
  match v with
  | JStr (String c rest) =>
      (nat_of_ascii c =? 35)%nat && all_hex rest
      && ((String.length rest =? 6)%nat || (String.length rest =? 3)%nat)
  | _ => false
  end.

Definition isLength_max (hi : nat) (v : JsVal) : bool :=
  match v with
  | JStr s => (String.length s <=? hi)%nat
  | _ => false
  end.

(** [createCategoryValidation] *)
Definition createCategoryValidation (body : Obj) : bool :=
  isLength_trimmed 1 100 (get body "name")
  && isIn_type (get body "type")
  && matches_hex_color (get body "color")
  && optional (isLength_max 50) (get body "icon").

(** [updateCategoryValidation] *)
Definition updateCategoryValidation (body : Obj) : bool :=
  optional (isLength_trimmed 1 100) (get body "name")
  && optional isIn_type (get body "type")
  && optional matches_hex_color (get body "color").

Section Handlers.

(** Whether the values a payload gives to the paths left out of the record
    (description, icon, sort order, parent reference) are taken by the
    handler and the schema: [description?.trim()] does not throw, the sort
    order is a number, the lengths are within the limits. *)
Variable other_paths_ok : Obj -> bool.

(** [createCategory] *)
Definition createCategory (db : Db) (user : ObjectId) (body : Obj) : Response * Db :=
  if negb (createCategoryValidation body) then (validation_failed, db) else
  match text_of (get body "name"), TxType_of_js (get body "type") with
  | Some name, Some type =>
    match CategoryModel.findOne db (fun c =>
            (c_userId c =? user)%nat && String.eqb (c_name c) (trim name)
            && TxType_eqb (c_type c) type && c_isActive c) with
    | Some _ => (mkResponse 400 "Category with this name already exists for this type", db)
    | None =>
      let parent_check :=
        if truthy (get body "parentCategory")
        then match id_of (get body "parentCategory") with
             | Some p =>
                 match CategoryModel.findOne db (fun c =>
                         (c_id c =? p)%nat && (c_userId c =? user)%nat
                         && TxType_eqb (c_type c) type && c_isActive c) with
                 | Some _ => Some true
                 | None => Some false
                 end
             | None => None
             end
        else Some true in
      match parent_check with
      | None => (server_error "creating category", db)
      | Some false => (mkResponse 400 "Invalid parent category", db)
      | Some true =>
        if negb (other_paths_ok body) then (server_error "creating category", db) else
        match save_new db (mkCategory 0%nat user (trim name) type false true) with
        | Saved db1 => (mkResponse 201 "Category created successfully", db1)
        | DuplicateKey => (mkResponse 400 "Category with this name already exists", db)
        | ValidationError => (server_error "creating category", db)
        end
      end
    end
  | _, _ => (server_error "creating category", db)
  end.

(** One step of [Object.keys(updates).forEach(key => ...)] on the category
    document, for the paths of the record. *)
Definition assign (c : Category) (kv : string * JsVal) : option Category :=
  let '(key, v) := kv in
  if String.eqb key "name" then
    match optional_trim v with
    | Some (Some s) => Some (mkCategory (c_id c) (c_userId c) s (c_type c)
                               (c_isDefault c) (c_isActive c))
    | _ => None
    end
  else if String.eqb key "type" then
    match TxType_of_js v with
    | Some ty => Some (mkCategory (c_id c) (c_userId c) (c_name c) ty
                         (c_isDefault c) (c_isActive c))
    | None => None
    end
  else if String.eqb key "isActive" then
    match bool_of v with
    | Some b => Some (mkCategory (c_id c) (c_userId c) (c_name c) (c_type c)
                        (c_isDefault c) b)
    | None => None
    end
  else if String.eqb key "isDefault" then
    match bool_of v with
    | Some b => Some (mkCategory (c_id c) (c_userId c) (c_name c) (c_type c)
                        b (c_isActive c))
    | None => None
    end
  else if String.eqb key "userId" then
    match id_of v with
    | Some i => Some (mkCategory (c_id c) i (c_name c) (c_type c)
                        (c_isDefault c) (c_isActive c))
    | None => None
    end
  else if String.eqb key "_id" then
    match id_of v with
    | Some i => Some (mkCategory i (c_userId c) (c_name c) (c_type c)
                        (c_isDefault c) (c_isActive c))
    | None => None
    end
  else Some c.

Fixpoint assign_all (c : Category) (updates : Obj) : option Category :=
  match updates with
  | [] => Some c
  | kv :: rest =>
      match assign c kv with
      | Some c' => assign_all c' rest
      | None => None
      end
  end.

(** [updates.type || category.type] *)
Definition type_or (updates : Obj) (category : Category) : option TxType :=
  if truthy (get updates "type") then TxType_of_js (get updates "type")
  else Some (c_type category).

(** [updateCategory].  The query of the parent check is written with two
    [_id] keys; the object keeps the second, [{ $ne: categoryId }], so the
    check asks for any other active category of the owner and the type. *)
Definition updateCategory (db : Db) (user categoryId : ObjectId) (updates : Obj)
    : Response * Db :=
  if negb (updateCategoryValidation updates) then (validation_failed, db) else
  match CategoryModel.findOne db (fun c => (c_id c =? categoryId)%nat
                                           && (c_userId c =? user)%nat) with
  | None => (mkResponse 404 "Category not found", db)
  | Some category =>
    if c_isDefault category && (truthy (get updates "name") || truthy (get updates "type"))
    then (mkResponse 400 "Cannot modify name or type of default categories", db) else
    let name_taken :=
      match get updates "name" with
      | JStr name =>
          if truthy (JStr name) && negb (String.eqb (trim name) (c_name category))
          then match CategoryModel.findOne db (fun c =>
                       (c_userId c =? user)%nat && String.eqb (c_name c) (trim name)
                       && match type_or updates category with
                          | Some ty => TxType_eqb (c_type c) ty
                          | None => false
                          end
                       && c_isActive c && negb (c_id c =? categoryId)%nat) with
               | Some _ => true
               | None => false
               end
          else false
      | _ => false
      end in
    if name_taken then (mkResponse 400 "Category with this name already exists", db) else
    let parent_ok :=
      if truthy (get updates "parentCategory")
      then match CategoryModel.findOne db (fun c =>
                   (c_userId c =? user)%nat
                   && match type_or updates category with
                      | Some ty => TxType_eqb (c_type c) ty
                      | None => false
                      end
                   && c_isActive c && negb (c_id c =? categoryId)%nat) with
           | Some _ => true
           | None => false
           end
      else true in
    if negb parent_ok then (mkResponse 400 "Invalid parent category", db) else
    match assign_all category updates with
    | None => (server_error "updating category", db)
    | Some updated =>
      if negb (other_paths_ok updates) then (server_error "updating category", db) else
      match save_changes db category updated with
      | Saved db1 => (mkResponse 200 "Category updated successfully", db1)
      | _ => (server_error "updating category", db)
      end
    end
  end.

End Handlers.

(** [deleteCategory] *)
Definition deleteCategory (db : Db) (user categoryId : ObjectId) : Response * Db :=
  match CategoryModel.findOne db (fun c => (c_id c =? categoryId)%nat
                                           && (c_userId c =? user)%nat) with
  | None => (mkResponse 404 "Category not found", db)
  | Some category =>
    if c_isDefault category then (mkResponse 400 "Cannot delete default categories", db)
    else
      let transactionCount :=
        AccountHandlers.countDocuments db (fun t => (t_categoryId t =? categoryId)%nat
                                                    && (t_userId t =? user)%nat) in
      if (0 <? transactionCount)%nat then
        match save db (mkCategory (c_id category) (c_userId category) (c_name category)
                                  (c_type category) (c_isDefault category) false) with
        | Saved db1 =>
            (mkResponse 200 "Category deactivated successfully (transactions preserved)", db1)
        | _ => (server_error "deleting category", db)
        end
      else (mkResponse 200 "Category deleted successfully", findByIdAndDelete db categoryId)
  end.

End CategoryController.

(* ================================================================== *)
(** ** What a new user starts with (authController.js) *)
(* ================================================================== *)

Module AuthController.

(** The names and types of [defaultCategories]. *)
Definition defaultCategories : list (string * TxType) :=
  [("Food & Dining", expense); ("Transportation", expense); ("Shopping", expense);
   ("Entertainment", expense); ("Bills & Utilities", expense); ("Healthcare", expense);
   ("Education", expense); ("Groceries", expense); ("Other Expenses", expense);
   ("Salary", income); ("Freelance", income); ("Investment", income);
   ("Business", income); ("Other Income", income)].

(** [createDefaultCategories]; the flag is false when [insertMany] throws. *)
Definition createDefaultCategories (db : Db) (userId : ObjectId) : Db * bool :=
  CategoryWrites.insertMany db
    (map (fun cat => mkCategory 0%nat userId (fst cat) (snd cat) true true)
         defaultCategories).

(** [Account.insertMany(docs)]: no [save] middleware runs, so the initial
    balance stays at the default of the schema. *)
Fixpoint insert_accounts (db : Db) (docs : list Account) : Db :=
  match docs with
  | [] => db
  | a :: rest =>
      let a := mkAccount (nextId db) (a_userId a) (a_name a) (a_type a) (a_balance a)
                         (a_initialBalance a) (a_description a) (a_isActive a)
                         (a_creditLimit a) in
      insert_accounts (bump (with_accounts db (accounts db ++ [a]))) rest
  end.

Definition Account_insertMany (db : Db) (docs : list Account) : Db * bool :=
  if forallb AccountModel.validate docs then (insert_accounts db docs, true)
  else (db, false).

(** A plain object of [defaultAccounts], cast by the schema: the balance
    goes through its setter, the other paths take their defaults. *)
Definition default_account (userId : ObjectId) (name : string) (type : AccountType)
    (balance : Q) : Account :=
  set_balance (mkAccount 0%nat userId (trim name) type 0 0 None true 0) balance.

(** [createDefaultAccounts] *)
Definition createDefaultAccounts (db : Db) (userId : ObjectId) : Db * bool :=
  Account_insertMany db
    [default_account userId "Main Checking" checking 0;
     default_account userId "Savings" savings 0].

End AuthController.

(* ================================================================== *)
(** ** Column names of an uploaded CSV file (uploadController.js) *)
(* ================================================================== *)

Module UploadParsing.

Import UploadController.

(** Every character of [s] passes [p]. *)
Fixpoint every (p : ascii -> bool) (s : string) : bool :=
  match s with
  | EmptyString => true
  | String c s' => p c && every p s'
  end.

Definition is_ascii (c : ascii) : bool := (nat_of_ascii c <? 128)%nat.

(** [s.replace(/\s+/g, '_')]: every maximal run of white space becomes one
    underscore; [in_run] tells that the previous character was white
    space. *)
Fixpoint replace_runs (in_run : bool) (s : string) : string :=
  match s with
  | EmptyString => EmptyString
  | String c s' =>
      if is_space c
      then (if in_run then replace_runs true s' else String "_" (replace_runs true s'))
      else String c (replace_runs false s')
  end.

(** [key.toLowerCase().trim().replace(/\s+/g, '_')] *)
Definition normalizedKey (key : string) : string :=
  replace_runs false (trim (toLowerCase key)).

(** A property name that spells an array index: a decimal numeral without
    leading zero, below 2^32 - 1. *)
Definition array_index (key : string) : option Z :=
  match key with
  | EmptyString => None
  | String c rest =>
      if every is_digit key
         && (negb (nat_of_ascii c =? 48)%nat || String.eqb rest EmptyString)
      then let v := fst (fst (digits key 0 0)) in
           if (v <? 4294967295)%Z then Some v else None
      else None
  end.

Fixpoint insert_index (i : Z) (kv : string * string) (l : list (Z * (string * string)))
    : list (Z * (string * string)) :=
  match l with
  | [] => [(i, kv)]
  | (j, kv') :: l' => if (i <? j)%Z then (i, kv) :: l else (j, kv') :: insert_index i kv l'
  end.

(** The properties of [data] as [Object.keys(data)] lists them: the array
    indices first, in ascending order, then the other names in the order of
    their creation.  [data] holds the properties in the order of their
    creation, which for csv-parser is the order of the columns. *)
Definition own_properties (data : CsvRow) : CsvRow :=
  let indexed :=
    fold_left (fun l kv => match array_index (fst kv) with
                           | Some i => insert_index i kv l
                           | None => l
                           end) data [] in
  (map snd indexed
   ++ filter (fun kv => match array_index (fst kv) with Some _ => false | None => true end)
             data)%list.

(** [normalizedData[k] = v] on a plain object, and the reading of a
    property. *)
Fixpoint set (o : CsvRow) (k v : string) : CsvRow :=
  match o with
  | [] => [(k, v)]
  | (k', v') :: o' => if String.eqb k' k then (k, v) :: o' else (k', v') :: set o' k v
  end.

Fixpoint lookup (o : CsvRow) (k : string) : option string :=
  match o with
  | [] => None
  | (k', v) :: o' => if String.eqb k' k then Some v else lookup o' k
  end.

(** The [data] handler of [parseCsvFile]: the row with its column names
    normalised. *)
Definition normalizedData (data : CsvRow) : CsvRow :=
  fold_left (fun normalizedData kv => set normalizedData (normalizedKey (fst kv)) (snd kv))
            (own_properties data) [].

End UploadParsing.

(* ================================================================== *)
(** ** The page of one account (accountController.js) *)
(* ================================================================== *)

Module AccountPages.

Import TransactionQueries.

Record Stats := mkStats {
  totalIncome : Q;
  totalExpenses : Q;
  transactionCount : nat
}.

Record Page := mkPage {
  account : Account;
  recentTransactions : list Transaction;
  stats : Stats
}.

Section Page.

(** The server's sort by the field [sortBy], ascending or descending. *)
Variable sort_by : string -> bool -> list Transaction -> list Transaction.

(** [getAccount] *)
Definition getAccount (db : Db) (user accountId : ObjectId) : Response * option Page :=
  match AccountModel.findOne db (fun a => (a_id a =? accountId)%nat
                                          && (a_userId a =? user)%nat) with
  | None => (mkResponse 404 "Account not found", None)
  | Some account =>
    let matched :=
      filter (fun t => (t_accountId t =? a_id account)%nat && (t_userId t =? user)%nat)
             (transactions db) in
    let recentTransactions := firstn 5 (sort_by "date" false matched) in
    let stats := stats_by_type matched in
    let accountStats :=
      mkStats (match find (fun s => TxType_eqb (g_id s) income) stats with
               | Some s => g_total s
               | None => 0
               end)
              (match find (fun s => TxType_eqb (g_id s) expense) stats with
               | Some s => g_total s
               | None => 0
               end)
              (fold_left (fun sum s => (sum + g_count s)%nat) stats 0%nat) in
    (mkResponse 200 "", Some (mkPage account recentTransactions accountStats))
  end.

End Page.

End AccountPages.

(* ================================================================== *)
(** ** From CSV rows to the preview (uploadController.js) *)
(* ================================================================== *)

Module UploadMapping.

Import TransactionController UploadController UploadParsing.

(** An entry of the preview; an amount [None] is NaN, a date [None] an
    Invalid Date. *)
Record Mapped := mkMapped {
  m_amount : option Q;
  m_description : string;
  m_date : option Date;
  m_category : string;
  m_type : TxType;
  m_tags : list string
}.

(** [a || d] on a property of a row: the text when there is one and it is
    not empty. *)
Definition or_else (v : option string) (d : string) : string :=
  match v with
  | Some s => if String.eqb s "" then d else s
  | None => d
  end.

(** [row.k1 || row.k2 || ... || d] *)
Definition first_of (row : CsvRow) (names : list string) (d : string) : string :=
  fold_right (fun k rest => or_else (lookup row k) rest) d names.

Definition is_text (v : option string) (s : string) : bool :=
  match v with Some w => String.eqb w s | None => false end.

Section Mapping.

(** What the runtime makes of a text: [parseFloat], [new Date(text)], the
    date of the request as [toISOString().split('T')[0]] gives it, and the
    numeral a template literal writes for a number. *)
Variable parseFloat_text : string -> option Q.
Variable Date_of_text : string -> option Date.
Variable today : string.
Variable numeral : nat -> string.

(** The callback of [csvData.map]; nothing in it throws on a row of
    texts. *)
Definition map_row (row : CsvRow) (index : nat) : Mapped :=
  let amount :=
    parseFloat_text
      (first_of row ["amount"; "debit"; "credit"; "transaction_amount"] "0") in
  let description :=
    first_of row ["description"; "memo"; "payee"; "transaction_description"]
             ("Transaction " ++ numeral (index + 1)) in
  let date := first_of row ["date"; "transaction_date"; "posting_date"] today in
  let category := first_of row ["category"; "type"; "transaction_type"] "Other" in
  let transactionType :=
    if match amount with Some a => gtb a 0 | None => false end
       || is_text (lookup row "type") "income"
       || is_text (lookup row "transaction_type") "credit"
    then income else expense in
  mkMapped (option_map Math_abs amount) (trim description) (Date_of_text date)
           (trim category) transactionType
           (match lookup row "tags" with
            | Some tags => if String.eqb tags "" then [] else map trim (split_comma tags)
            | None => []
            end).

Fixpoint map_from (index : nat) (csvData : list CsvRow) : list Mapped :=
  match csvData with
  | [] => []
  | row :: rest => map_row row index :: map_from (S index) rest
  end.

(** [mapCsvToTransactions]: [filter(Boolean)] drops the [null] of a row
    whose mapping threw, and none does. *)
Definition mapCsvToTransactions (csvData : list CsvRow) : list Mapped :=
  map_from 0 csvData.

End Mapping.

End UploadMapping.

(* ================================================================== *)
(** ** Spending analytics: the totals by category (analyticsController.js) *)
(* ================================================================== *)

Module SpendingAnalytics.

Import AnalyticsController.

(** The [dateRange] of the request: both bounds when the request gives
    both dates, a lower bound for a known period, and the empty object
    for an unknown period, which as a [$match] on [date] selects
    nothing. *)
Inductive DateRange :=
| Between (gte lte : Date)
| Since (gte : Date)
| NoBounds.

Definition in_range (dateRange : DateRange) (d : Date) : bool :=
  match dateRange with
  | Between gte lte => (gte <=? d)%Z && (d <=? lte)%Z
  | Since gte => (gte <=? d)%Z
  | NoBounds => false
  end.

(** A group of [{ $group: { _id: '$categoryId', totalAmount: { $sum },
    transactionCount: { $sum: 1 } } }]. *)
Record CategoryGroup := mkCategoryGroup {
  cg_id : ObjectId;
  cg_totalAmount : Q;
  cg_transactionCount : nat
}.

Fixpoint add_to_groups (groups : list CategoryGroup) (t : Transaction) : list CategoryGroup :=
  match groups with
  | [] => [mkCategoryGroup (t_categoryId t) (0 + t_amount t) 1]
  | g :: rest =>
      if (cg_id g =? t_categoryId t)%nat
      then mkCategoryGroup (cg_id g) (cg_totalAmount g + t_amount t)
                           (S (cg_transactionCount g)) :: rest
      else g :: add_to_groups rest t
  end.

Definition group_by_category (docs : list Transaction) : list CategoryGroup :=
  fold_left add_to_groups docs [].

(** A row of [spendingByCategory] or [incomeByCategory], without the
    colour and the icon copied from the category; the average is there for
    the spending only. *)
Record CategoryRow := mkCategoryRow {
  r_id : ObjectId;
  categoryName : string;
  totalAmount : Q;
  r_transactionCount : nat;
  avgAmount : option Q
}.

Record Summary := mkSummary {
  totalIncome : Q;
  totalExpenses : Q;
  netIncome : Q
}.

Record Analytics := mkAnalytics {
  spendingByCategory : list CategoryRow;
  incomeByCategory : list CategoryRow;
  summary : Summary
}.

Section Pipeline.

(** The server's [$round] to two places and its [$sort] by [totalAmount],
    descending. *)
Variable round_2 : Q -> Q.
Variable sort_by_totalAmount : list CategoryRow -> list CategoryRow.

(** [$match], [$group], [$lookup] with [$unwind] - one row for each stored
    category of the group's ObjectId, none when there is none -,
    [$project] and [$sort]. *)
Definition by_category (db : Db) (userId : ObjectId) (type : TxType)
    (dateRange : DateRange) : list CategoryRow :=
  let matched :=
    filter (fun t => (t_userId t =? userId)%nat && TxType_eqb (t_type t) type
                     && in_range dateRange (t_date t))
           (transactions db) in
  let joined :=
    flat_map (fun g =>
                map (fun category =>
                       mkCategoryRow (cg_id g) (c_name category)
                         (round_2 (cg_totalAmount g)) (cg_transactionCount g)
                         (match type with
                          | expense =>
                              Some (round_2 (cg_totalAmount g
                                             / inject_Z (Z.of_nat (cg_transactionCount g))))
                          | income => None
                          end))
                    (filter (fun c => (c_id c =? cg_id g)%nat) (categories db)))
             (group_by_category matched) in
  sort_by_totalAmount joined.

(** [getSpendingAnalytics], as far as the rows by category and the totals
    of the summary go. *)
Definition getSpendingAnalytics (db : Db) (userId : ObjectId) (dateRange : DateRange)
    : Analytics :=
  let spendingByCategory := by_category db userId expense dateRange in
  let incomeByCategory := by_category db userId income dateRange in
  let totalIncome := sum_of totalAmount incomeByCategory in
  let totalExpenses := sum_of totalAmount spendingByCategory in
  let netIncome := totalIncome - totalExpenses in
  mkAnalytics spendingByCategory incomeByCategory
              (mkSummary (round2 totalIncome) (round2 totalExpenses) (round2 netIncome)).

End Pipeline.

End SpendingAnalytics.

(* ================================================================== *)
(** ** What the specification states, as predicates on the database *)
(* ================================================================== *)

Module Ledger.

(** The sum of the amounts of the transactions of type [ty] linked to
    account [i]. *)
Definition linked_sum (ty : TxType) (i : ObjectId) (txns : list Transaction) : Q :=
  fold_right (fun t s => t_amount t + s) 0
    (filter (fun t => (t_accountId t =? i)%nat && TxType_eqb (t_type t) ty) txns).

(** [balance == initialBalance + sum(income) - sum(expense)] over the
    transactions currently linked to the account. *)
Definition balanced (db : Db) (a : Account) : Prop :=
  a_balance a ==
  a_initialBalance a + linked_sum income (a_id a) (transactions db)
                     - linked_sum expense (a_id a) (transactions db).

Definition ledger_ok (db : Db) : Prop :=
  forall a, In a (accounts db) -> balanced db a.

(** What a transaction adds to the balance of account [i]. *)
Definition effect_on (i : ObjectId) (t : Transaction) : Q :=
  if (t_accountId t =? i)%nat
  then match t_type t with income => t_amount t | expense => - t_amount t end
  else 0.

(** Income minus expenses over the transactions linked to account [i]. *)
Definition net (i : ObjectId) (txns : list Transaction) : Q :=
  linked_sum income i txns - linked_sum expense i txns.

(** The ledger between two writes of one handler: every balance is off by
    [f] of its account. *)
Definition ledger_off (db : Db) (f : ObjectId -> Q) : Prop :=
  forall a, In a (accounts db) ->
    a_balance a + f (a_id a) == a_initialBalance a + net (a_id a) (transactions db).

(** The initial balance of every stored account, by ObjectId. *)
Definition initials (db : Db) : list (ObjectId * Q) :=
  map (fun a => (a_id a, a_initialBalance a)) (accounts db).

(** A number of whole cents. *)
Definition whole_cents (x : Q) : Prop := exists c : Z, x == inject_Z c / 100.

(** What the handlers rely on and keep: ObjectIds are unique and older
    than the next fresh one, stored accounts pass their schema and hold a
    balance in whole cents, stored transactions hold an amount in whole cents
    and are linked to a stored account. *)
Definition sound (db : Db) : Prop :=
  NoDup (map a_id (accounts db))
  /\ NoDup (map t_id (transactions db))
  /\ (forall t, In t (transactions db) -> (t_id t < nextId db)%nat)
  /\ (forall a, In a (accounts db) ->
         AccountModel.validate a = true /\ whole_cents (a_balance a))
  /\ (forall t, In t (transactions db) ->
         whole_cents (t_amount t)
         /\ exists a, In a (accounts db) /\ a_id a = t_accountId t).

(** The signed effect of a valid bulk row. *)
Definition signed (t : TransactionModel.TxnInput) : Q :=
  match TransactionModel.i_type t with
  | income => TransactionModel.i_amount t
  | expense => - TransactionModel.i_amount t
  end.

(** The sum of the signed effects of the rows destined to account [i]. *)
Definition signed_sum (i : ObjectId) (rows : list TransactionModel.TxnInput) : Q :=
  fold_right (fun t s => signed t + s) 0
    (filter (fun t => (TransactionModel.i_accountId t =? i)%nat) rows).

(** What the [Map] of balance changes holds after the rows [done] have
    been folded in: each account once, exactly the accounts of the rows,
    each with the sum of the signed amounts of its rows. *)
Definition aggregates (m : TransactionController.UpdateMap)
    (done : list TransactionModel.TxnInput) : Prop :=
  NoDup (map fst m)
  /\ (forall k, In k (map fst m)
                <-> exists t, In t done /\ TransactionModel.i_accountId t = k)
  /\ (forall k v, TransactionController.Map_get m k = Some v -> v == signed_sum k done).

(** What every request other than account creation keeps: the initial
    balances, and a next ObjectId that does not go down. *)
Definition keeps (db db' : Db) : Prop :=
  initials db' = initials db /\ (nextId db <= nextId db')%nat.

(** The same account but for the balance. *)
Definition balance_apart (a b : Account) : Prop :=
  a_id a = a_id b /\ a_userId a = a_userId b /\ a_name a = a_name b
  /\ a_type a = a_type b /\ a_initialBalance a = a_initialBalance b
  /\ a_description a = a_description b /\ a_isActive a = a_isActive b
  /\ a_creditLimit a = a_creditLimit b.

(** A whole number. *)
Definition whole (x : Q) : bool := Qeq_bool x (inject_Z (Qfloor x)).

(** The size up to which whole numbers add up exactly in floating point
    and pass the rounding setters unchanged, their hundredfold being exact
    too: 2^53 / 100, rounded down. *)
Definition exact_size : Q := 90071992547409.

(** The amount of a bulk row that is a whole number, or is missing. *)
Definition whole_amount (v : JsVal) : Prop :=
  match v with
  | JNum q => whole q = true
  | JUndefined | JNull => True
  | _ => False
  end.

Definition amount_size (row : Obj) : Q :=
  match get row "amount" with JNum q => Qabs q | _ => 0 end.

(** Rows that the runtime adds up on [balance] without rounding error:
    whole numbers, the balance too, of sizes within [exact_size]
    together.  The increment of a bulk import is added by the server as it
    is, without the rounding setter, so that on other numbers the stored
    sum can be off in its last binary digit. *)
Definition adds_exactly (balance : Q) (rows : list Obj) : Prop :=
  whole balance = true
  /\ (forall row, In row rows -> whole_amount (get row "amount"))
  /\ Qabs balance + fold_right (fun row s => amount_size row + s) 0 rows
     <= exact_size.

End Ledger.

(** Update payloads. *)
Module Payload.

(** The paths of the account record and of the transaction record. *)
Definition account_paths : list string :=
  ["name"; "description"; "balance"; "creditLimit"; "type"; "isActive";
   "initialBalance"; "userId"].

Definition transaction_paths : list string :=
  ["amount"; "description"; "tags"; "accountId"; "categoryId"; "userId"; "type"; "date"].

(** A payload that names paths of the record only: not [_id], and none of
    the schema paths the record leaves out. *)
Definition names_only (paths : list string) (updates : Obj) : bool :=
  forallb (fun key => existsb (String.eqb key) paths) (keys updates).

End Payload.

(** The requests that touch accounts and transactions, and the database
    each leaves behind. *)
Module Api.

Import TransactionController AccountController.

Inductive Request :=
| CreateAccount (user : ObjectId) (body : Obj)
| UpdateAccount (user accountId : ObjectId) (updates : Obj)
| CreateTransaction (user : ObjectId) (body : Obj)
| UpdateTransaction (user transactionId : ObjectId) (updates : Obj)
| DeleteTransaction (user transactionId : ObjectId)
| BulkImport (user : ObjectId) (rows : option (list Obj)).

Definition step (db : Db) (r : Request) : Db :=
  match r with
  | CreateAccount user body => snd (createAccount db user body)
  | UpdateAccount user accountId updates => snd (updateAccount db user accountId updates)
  | CreateTransaction user body => snd (createTransaction db user body)
  | UpdateTransaction user transactionId updates =>
      snd (updateTransaction db user transactionId updates)
  | DeleteTransaction user transactionId => snd (deleteTransaction db user transactionId)
  | BulkImport user rows => snd (bulkImportTransactions db user rows)
  end.

Definition run (db : Db) (requests : list Request) : Db := fold_left step requests db.

(** An account update whose payload has an [initialBalance] field. *)
Definition names_initialBalance (r : Request) : bool :=
  match r with
  | UpdateAccount _ _ updates => has updates "initialBalance"
  | _ => false
  end.

(** A transaction request as the front end sends it: a create request
    carries an amount in whole cents, an update payload has each key once
    and names paths of the transaction record only. *)
Definition plain_transaction_request (r : Request) : Prop :=
  match r with
  | CreateTransaction _ body =>
      forall q, get body "amount" = JNum q -> Ledger.whole_cents q
  | UpdateTransaction _ _ updates =>
      NoDup (keys updates)
      /\ Payload.names_only Payload.transaction_paths updates = true
  | DeleteTransaction _ _ => True
  | _ => False
  end.

(** Account ObjectIds are unique and older than the next fresh one. *)
Definition well_formed (db : Db) : Prop :=
  NoDup (map a_id (accounts db))
  /\ forall a, In a (accounts db) -> (a_id a < nextId db)%nat.

End Api.

Module BudgetSpec.

(** Two closed windows meet. *)
Definition overlap (x y : Budget) : Prop :=
  (b_startDate x <= b_endDate y)%Z /\ (b_startDate y <= b_endDate x)%Z.

(** No two distinct active budgets of one owner and one category have
    windows that meet.  Distinct means distinct positions in the
    collection. *)
Definition no_overlap (l : list Budget) : Prop :=
  forall i j x y,
    nth_error l i = Some x -> nth_error l j = Some y -> i <> j ->
    b_isActive x = true -> b_isActive y = true ->
    b_userId x = b_userId y -> b_categoryId x = b_categoryId y ->
    ~ overlap x y.

End BudgetSpec.

Module CategorySpec.

(** The category a transaction is linked to has the transaction's type. *)
Definition type_matches (db : Db) (t : Transaction) : Prop :=
  forall c, In c (categories db) -> c_id c = t_categoryId t -> c_type c = t_type t.

Definition types_match (db : Db) : Prop :=
  forall t, In t (transactions db) -> type_matches db t.

End CategorySpec.

(* ================================================================== *)
(** ** Scenarios *)
(* ================================================================== *)

Module Scenario.

Import TransactionController AccountController BudgetController
       AnalyticsController UploadController.

Definition alice : ObjectId := 7%nat.

Definition main_account : Account :=
  mkAccount 1%nat alice "Main" checking 0 0 None true 0.

Definition food : Category := mkCategory 2%nat alice "Food" expense false true.
Definition salary : Category := mkCategory 3%nat alice "Salary" income false true.

(** One account with nothing on it, one category of each type. *)
Definition fresh : Db := mkDb [main_account] [] [food; salary] [] 10%nat.

(** A create request for an expense of 0.125. *)
Definition half_cent_expense : Obj :=
  [("accountId", JId 1); ("categoryId", JId 2); ("amount", JNum (125 # 1000));
   ("description", JStr "coffee"); ("date", JDate 1000); ("type", JStr "expense")].

Definition create_with_amount (q : Q) : Obj :=
  [("accountId", JId 1); ("categoryId", JId 2); ("amount", JNum q);
   ("description", JStr "coffee"); ("date", JDate 1000); ("type", JStr "expense")].

(** The two-row batch of the specification; [d] is the instant the text
    2024-01-01 spells. *)
Definition two_rows (d : Z) : list Obj :=
  [[("amount", JNum 100); ("description", JStr "Pay"); ("date", JDate d)];
   [("amount", JNum (-1)); ("description", JStr ""); ("date", JStr "")]].

(** The fresh database without its income category. *)
Definition no_income : Db := mkDb [main_account] [] [food] [] 10%nat.

(** Last month: 2000 earned, 1600 spent; 4800 on the accounts; no credit
    account, no budget.  The month runs from instant 100 to instant 200. *)
Definition healthy : Db :=
  mkDb [mkAccount 1%nat alice "Main" checking 1800 0 None true 0;
        mkAccount 4%nat alice "Nest" savings 3000 3000 None true 0]
       [mkTransaction 5%nat alice 1%nat 3%nat 2000 "pay" 110%Z income [];
        mkTransaction 6%nat alice 1%nat 2%nat 1000 "rent" 120%Z expense [];
        mkTransaction 8%nat alice 1%nat 2%nat 600 "food" 130%Z expense [];
        mkTransaction 9%nat alice 1%nat 3%nat 1400 "old pay" 50%Z income []]
       [food; salary] [] 10%nat.

(** An overdrawn account and 100 spent last month. *)
Definition overdrawn : Db :=
  mkDb [mkAccount 1%nat alice "Main" checking (-300) 0 None true 0]
       [mkTransaction 5%nat alice 1%nat 2%nat 100 "rent" 120%Z expense []]
       [food; salary] [] 10%nat.

(** The account after one expense of 20 on food. *)
Definition one_expense : Db :=
  mkDb [mkAccount 1%nat alice "Main" checking (-20) 0 None true 0]
       [mkTransaction 5%nat alice 1%nat 2%nat 20 "lunch" 120%Z expense []]
       [food; salary] [] 10%nat.

(** The account of alice after her expense beside the account of another
    user, bob, with an income of his own. *)
Definition bob : ObjectId := 8%nat.

Definition shared : Db :=
  mkDb [mkAccount 1%nat alice "Main" checking (-20) 0 None true 0;
        mkAccount 20%nat bob "Main" checking 50 0 None true 0]
       [mkTransaction 5%nat alice 1%nat 2%nat 20 "lunch" 120%Z expense [];
        mkTransaction 21%nat bob 20%nat 22%nat 50 "gift" 125%Z income []]
       [food; salary; mkCategory 22%nat bob "Gifts" income false true] [] 30%nat.

(** An account opened with 0.125 and then updated with a payload that
    names [initialBalance]. *)
Definition open_account : Obj :=
  [("name", JStr "Cash"); ("type", JStr "cash"); ("balance", JNum (125 # 1000))].

Definition opened : Db := snd (createAccount fresh alice open_account).

(** An account opened with 12.50. *)
Definition open_with_cents : Obj :=
  [("name", JStr "Cash"); ("type", JStr "cash"); ("balance", JNum (1250 # 100))].

Definition rewrite_initial : Obj := [("initialBalance", JNum 999)].


Definition balance_only : Obj := [("name", JStr "Main"); ("balance", JNum (50125 # 1000))].


(** Two budget requests on food with windows apart, and the update that
    moves the start of the second into the first. *)
Definition budget_request (name : string) (s e : Z) : Obj :=
  [("categoryId", JId 2); ("name", JStr name); ("amount", JNum 300);
   ("startDate", JDate s); ("endDate", JDate e)].

Definition two_budgets : Db :=
  snd (createBudget (snd (createBudget fresh alice (budget_request "January" 100 200)))
                    alice (budget_request "February" 300 400)).

Definition move_start : Obj := [("startDate", JDate 150)].

(** An uploaded spreadsheet and an uploaded CSV file. *)
Definition spreadsheet : IncomingFile := mkIncoming "file" "statement.xlsx" (Rows []).
Definition csv_file (p : Parsed) : IncomingFile := mkIncoming "file" "statement.csv" p.

End Scenario.

(* ================================================================== *)
(** ** Predicates for the reading handlers *)
(* ================================================================== *)

Module Flows.

(** The sum of the signed amounts of a list of transactions, an expense
    counting below zero. *)
Definition signed_total (l : list Transaction) : Q :=
  fold_right (fun t s => TransactionQueries.formattedAmount t + s) 0 l.

(** Every transaction linked to a stored account belongs to the owner of
    the account. *)
Definition owners_agree (db : Db) : Prop :=
  forall t a, In t (transactions db) -> In a (accounts db) ->
    t_accountId t = a_id a -> t_userId t = a_userId a.

(** The same account but for the way its balance is written as a
    fraction. *)
Definition same_account (a b : Account) : Prop :=
  a_id a = a_id b /\ a_userId a = a_userId b /\ a_name a = a_name b
  /\ a_type a = a_type b /\ a_balance a == a_balance b
  /\ a_initialBalance a = a_initialBalance b /\ a_description a = a_description b
  /\ a_isActive a = a_isActive b /\ a_creditLimit a = a_creditLimit b.

(** The sum of the sizes of all initial balances and all amounts. *)
Definition volume (db : Db) : Q :=
  fold_right (fun a s => Qabs (a_initialBalance a) + s) 0 (accounts db)
  + fold_right (fun t s => Qabs (t_amount t) + s) 0 (transactions db).

(** Books in whole units of the currency, of a volume within
    [Ledger.exact_size]: on such books every sum the runtime computes in
    floating point is exact, with or without rounding. *)
Definition exact_sums (db : Db) : Prop :=
  (forall a, In a (accounts db) ->
     Ledger.whole (a_initialBalance a) = true /\ Ledger.whole (a_balance a) = true)
  /\ (forall t, In t (transactions db) -> Ledger.whole (t_amount t) = true)
  /\ volume db <= Ledger.exact_size.

End Flows.

(** What holds of the categories collection, and the requests that write
    to it. *)
Module CategoryRules.

(** No owner has two categories of one name. *)
Definition names_unique (db : Db) : Prop :=
  forall c d, In c (categories db) -> In d (categories db) ->
    c_userId c = c_userId d -> c_name c = c_name d -> c_id c = c_id d.

(** No default category is inactive. *)
Definition defaults_active (db : Db) : Prop :=
  forall c, In c (categories db) -> c_isDefault c = true -> c_isActive c = true.

(** Category ObjectIds are unique and older than the next fresh one. *)
Definition ids_ok (db : Db) : Prop :=
  NoDup (map c_id (categories db))
  /\ forall c, In c (categories db) -> (c_id c < nextId db)%nat.

Definition ok (db : Db) : Prop := ids_ok db /\ names_unique db /\ defaults_active db.

(** The category a transaction is linked to is stored, and is its
    owner's. *)
Definition linked (db : Db) : Prop :=
  forall t, In t (transactions db) ->
    exists c, In c (categories db) /\ c_id c = t_categoryId t /\ c_userId c = t_userId t.

(** The documents [docs] with the ObjectIds [n], [n + 1], ... in order. *)
Fixpoint numbered (n : nat) (docs : list Category) : list Category :=
  match docs with
  | [] => []
  | c :: rest => CategoryWrites.with_id n c :: numbered (S n) rest
  end.

Inductive Request :=
| Create (user : ObjectId) (body : Obj)
| Update (user categoryId : ObjectId) (updates : Obj)
| Delete (user categoryId : ObjectId)
| Register (userId : ObjectId).

Section Run.

Variable other_paths_ok : Obj -> bool.

Definition step (db : Db) (r : Request) : Db :=
  match r with
  | Create user body => snd (CategoryController.createCategory other_paths_ok db user body)
  | Update user categoryId updates =>
      snd (CategoryController.updateCategory other_paths_ok db user categoryId updates)
  | Delete user categoryId => snd (CategoryController.deleteCategory db user categoryId)
  | Register userId => fst (AuthController.createDefaultCategories db userId)
  end.

Definition run (db : Db) (requests : list Request) : Db := fold_left step requests db.

End Run.

(** An update payload that does not name [_id]. *)
Definition plain (r : Request) : Prop :=
  match r with
  | Update _ _ updates => has updates "_id" = false
  | _ => True
  end.

End CategoryRules.

Module Columns.

Import UploadParsing.

(** A character of a normalised name: no white space, no capital. *)
Definition clean (c : ascii) : bool := negb (is_space c) && negb (is_upper c).

(** The value of the last property of [data] whose name normalises to
    [k]. *)
Definition last_value (data : UploadController.CsvRow) (k : string) : option string :=
  fold_left (fun found kv => if String.eqb (normalizedKey (fst kv)) k then Some (snd kv)
                             else found)
            data None.

(** The row objects the property covers.  [data] is the object that the
    parser hands to the handler, its properties in the order of their
    creation: each name once, in ASCII, none that spells an array index -
    such names come first among the properties of an object, whenever they
    were created -, and none that normalises to the one property name an
    assignment to a plain object does not store. *)
Definition plain_names (data : UploadController.CsvRow) : Prop :=
  NoDup (map fst data)
  /\ forall kv, In kv data ->
       every is_ascii (fst kv) = true /\ array_index (fst kv) = None
       /\ normalizedKey (fst kv) <> "__proto__".

End Columns.

(** Requests and the documents of other users. *)
Module Tenancy.

Import Api.

(** The authenticated user a request comes from. *)
Definition sender (r : Request) : ObjectId :=
  match r with
  | CreateAccount user _ => user
  | UpdateAccount user _ _ => user
  | CreateTransaction user _ => user
  | UpdateTransaction user _ _ => user
  | DeleteTransaction user _ => user
  | BulkImport user _ => user
  end.

(** Every account and every transaction of a user other than [user] is
    still stored, as it was. *)
Definition others_kept (user : ObjectId) (db db' : Db) : Prop :=
  (forall a, In a (accounts db) -> a_userId a <> user -> In a (accounts db'))
  /\ (forall t, In t (transactions db) -> t_userId t <> user -> In t (transactions db')).

(** An update payload has each key once, as a parsed JSON object has, and
    names paths of the record only. *)
Definition plain_payload (r : Request) : Prop :=
  match r with
  | UpdateTransaction _ _ updates =>
      NoDup (keys updates)
      /\ Payload.names_only Payload.transaction_paths updates = true
  | UpdateAccount _ _ updates =>
      Payload.names_only Payload.account_paths updates = true
  | _ => True
  end.

End Tenancy.

(** All the requests that write accounts and transactions, and what they
    keep in order. *)
Module Books.

Import Api.

Inductive Request :=
| Of (r : Api.Request)
| DeleteAccount (user accountId : ObjectId)
| DefaultAccounts (userId : ObjectId).

Definition step (db : Db) (r : Request) : Db :=
  match r with
  | Of r => Api.step db r
  | DeleteAccount user accountId => snd (AccountHandlers.deleteAccount db user accountId)
  | DefaultAccounts userId => fst (AuthController.createDefaultAccounts db userId)
  end.

Definition run (db : Db) (requests : list Request) : Db := fold_left step requests db.

(** The requests of a client that sends amounts in whole cents, payloads
    with each key once that name paths of the record only, and in an
    update neither the owner of the document nor, for an account, its
    balances; a bulk import, whose increment is not rounded, is not one of
    them. *)
Definition plain (r : Request) : Prop :=
  match r with
  | Of (CreateAccount _ _) => True
  | Of (UpdateAccount _ _ updates) =>
      has updates "balance" = false /\ has updates "initialBalance" = false
      /\ has updates "userId" = false
      /\ Payload.names_only Payload.account_paths updates = true
  | Of (CreateTransaction _ body) =>
      forall q, get body "amount" = JNum q -> Ledger.whole_cents q
  | Of (UpdateTransaction _ _ updates) =>
      NoDup (keys updates) /\ has updates "userId" = false
      /\ Payload.names_only Payload.transaction_paths updates = true
  | Of (DeleteTransaction _ _) => True
  | Of (BulkImport _ _) => False
  | DeleteAccount _ _ => True
  | DefaultAccounts _ => True
  end.

(** The books are in order: ObjectIds are unique and older than the next
    one, stored documents are valid and in whole cents, every transaction
    sits on a stored account of its owner, and every balance is the initial
    balance plus the income minus the expenses linked to the account. *)
Definition in_order (db : Db) : Prop :=
  Ledger.sound db /\ Ledger.ledger_ok db /\ Flows.owners_agree db /\ Api.well_formed db.

End Books.

Module Totals.

(** The sum of the amounts of the transactions of [userId] of one type
    dated within a range. *)
Definition amount_of (db : Db) (userId : ObjectId) (type : TxType)
    (dateRange : SpendingAnalytics.DateRange) : Q :=
  fold_right (fun t s => t_amount t + s) 0
    (filter (fun t => (t_userId t =? userId)%nat && TxType_eqb (t_type t) type
                      && SpendingAnalytics.in_range dateRange (t_date t))
            (transactions db)).

(** The category every transaction is linked to is stored. *)
Definition categories_stored (db : Db) : Prop :=
  forall t, In t (transactions db) -> exists c, In c (categories db) /\ c_id c = t_categoryId t.

(** The totals of a list of groups and of a list of rows. *)
Definition group_total (groups : list SpendingAnalytics.CategoryGroup) : Q :=
  fold_right (fun g s => SpendingAnalytics.cg_totalAmount g + s) 0 groups.

Definition row_total (rows : list SpendingAnalytics.CategoryRow) : Q :=
  fold_right (fun r s => SpendingAnalytics.totalAmount r + s) 0 rows.

(** What the groups of some of the stored transactions look like: one
    group for an ObjectId, a total in whole cents, a stored category. *)
Definition groups_fine (db : Db) (groups : list SpendingAnalytics.CategoryGroup) : Prop :=
  NoDup (map SpendingAnalytics.cg_id groups)
  /\ forall g, In g groups ->
       Ledger.whole_cents (SpendingAnalytics.cg_totalAmount g)
       /\ exists c, In c (categories db) /\ c_id c = SpendingAnalytics.cg_id g.

End Totals.

(* ================================================================== *)
(** ** Numbers *)
(* ================================================================== *)

Lemma TxType_eqb_eq (x y : TxType) : TxType_eqb x y = true <-> x = y.
Proof. destruct x, y; simpl; split; congruence. Qed.

Lemma leb_le (x y : Q) : leb x y = true <-> x <= y.
Proof. unfold leb. apply Qle_bool_iff. Qed.

Lemma ltb_lt (x y : Q) : ltb x y = true <-> x < y.
Proof.
  unfold ltb. rewrite negb_true_iff. split; intro H.
  - apply Qnot_le_lt. intro Hle. apply Qle_bool_iff in Hle. congruence.
  - destruct (Qle_bool y x) eqn:E; [|reflexivity].
    apply Qle_bool_iff in E. exfalso. apply (Qlt_not_le _ _ H E).
Qed.

Lemma gtb_gt (x y : Q) : gtb x y = true <-> y < x.
Proof. unfold gtb. apply ltb_lt. Qed.

Lemma gtb_false (x y : Q) : gtb x y = false <-> x <= y.
Proof.
  split; intro H.
  - destruct (Qlt_le_dec y x) as [L|L]; [|exact L].
    apply gtb_gt in L. congruence.
  - destruct (gtb x y) eqn:E; [|reflexivity].
    apply gtb_gt in E. exfalso. apply (Qlt_not_le _ _ E H).
Qed.

Lemma Math_round_comp (x y : Q) : x == y -> Math_round x = Math_round y.
Proof. intro H. unfold Math_round. now rewrite H. Qed.

Lemma Math_min_spec (x y : Q) :
  (x <= y /\ Math_min x y == x) \/ (y < x /\ Math_min x y == y).
Proof.
  unfold Math_min. destruct (Q.min_spec x y) as [[H E]|[H E]].
  - left. split; [apply Qlt_le_weak; exact H | exact E].
  - destruct (Qle_lt_or_eq _ _ H) as [L|L].
    + right. split; assumption.
    + left. split; [rewrite L; apply Qle_refl | rewrite E; exact L].
Qed.

Lemma Math_max_spec (x y : Q) :
  (y <= x /\ Math_max x y == x) \/ (x < y /\ Math_max x y == y).
Proof.
  unfold Math_max. destruct (Q.max_spec x y) as [[H E]|[H E]].
  - right. split; assumption.
  - left. split; assumption.
Qed.

(** Eliminate every [Math_min] and [Math_max] of the goal and of the
    hypotheses by cases. *)
Ltac minmax_case_on t spec :=
  let H := fresh in
  let E := fresh in
  destruct spec as [[H E]|[H E]]; generalize dependent t; intros.

Ltac minmax_cases :=
  repeat match goal with
         | |- context [Math_min ?a ?b] =>
             minmax_case_on (Math_min a b) (Math_min_spec a b)
         | |- context [Math_max ?a ?b] =>
             minmax_case_on (Math_max a b) (Math_max_spec a b)
         | _ : context [Math_min ?a ?b] |- _ =>
             minmax_case_on (Math_min a b) (Math_min_spec a b)
         | _ : context [Math_max ?a ?b] |- _ =>
             minmax_case_on (Math_max a b) (Math_max_spec a b)
         end.

(* ================================================================== *)
(** ** Create requests with an amount that is not positive *)
(* ================================================================== *)

Section CreateValidation.

Import TransactionController.

Lemma isFloat_gt_nonpositive (q : Q) : q <= 0 -> isFloat_gt 0 (JNum q) = false.
Proof. intro H. simpl. apply gtb_false. exact H. Qed.

(** C2: a create request whose amount is a number that is not strictly
    positive -- -5 and 0 among them -- is answered with the validation
    failure, and the database (transactions and balances) stays as it was. *)
Theorem createTransaction_rejects_nonpositive_amount
    (db : Db) (user : ObjectId) (body : Obj) (q : Q) :
  get body "amount" = JNum q -> q <= 0 ->
  createTransaction db user body = (validation_failed, db).
Proof.
  intros Hget Hq. unfold createTransaction, createTransactionValidation.
  rewrite Hget, (isFloat_gt_nonpositive q Hq).
  rewrite !andb_false_r. reflexivity.
Qed.

Lemma createTransaction_rejects_minus_five_and_zero :
  createTransaction Scenario.fresh Scenario.alice (Scenario.create_with_amount (-5))
    = (validation_failed, Scenario.fresh)
  /\ createTransaction Scenario.fresh Scenario.alice (Scenario.create_with_amount 0)
    = (validation_failed, Scenario.fresh).
Proof.
  split.
  - apply (createTransaction_rejects_nonpositive_amount _ _ _ (-5)); [reflexivity|].
    vm_compute. discriminate.
  - apply (createTransaction_rejects_nonpositive_amount _ _ _ 0); [reflexivity|].
    vm_compute. discriminate.
Defined.

End CreateValidation.

(* ================================================================== *)
(** ** The financial-health score *)
(* ================================================================== *)

Section Health.

Import AnalyticsController.

Lemma savingsRate_2000_1600 (i e : Q) :
  i == 2000 -> e == 1600 -> savingsRate i e == 20.
Proof.
  intros Hi He. unfold savingsRate.
  assert (G : gtb i 0 = true) by (apply gtb_gt; rewrite Hi; reflexivity).
  rewrite G, Hi, He. reflexivity.
Qed.

Lemma expenseRatio_2000_1600 (i e : Q) :
  i == 2000 -> e == 1600 -> expenseRatio i e == 80.
Proof.
  intros Hi He. unfold expenseRatio.
  assert (G : gtb i 0 = true) by (apply gtb_gt; rewrite Hi; reflexivity).
  rewrite G, Hi, He. reflexivity.
Qed.

Lemma emergencyFundRatio_4800_1600 (b e : Q) :
  b == 4800 -> e == 1600 -> emergencyFundRatio b e == 1.
Proof.
  intros Hb He. unfold emergencyFundRatio.
  assert (G : gtb e 0 = true) by (apply gtb_gt; rewrite He; reflexivity).
  rewrite G, Hb, He. reflexivity.
Qed.

Lemma debtToIncomeRatio_no_debt (i : Q) : debtToIncomeRatio i 0 == 0.
Proof.
  unfold debtToIncomeRatio. destruct (gtb i 0); [|reflexivity].
  unfold Qdiv. rewrite Qmult_0_l. reflexivity.
Qed.

(** The sub-scores and the weighted sum for the figures of the example,
    whatever the representation of the figures. *)
Lemma scores_of_example (sr bs er xr dr : Q) :
  sr == 20 -> bs == 100 -> er == 1 -> xr == 80 -> dr == 0 ->
  let s := scores_of sr bs er xr dr in
  s_savingsRate s == 100 /\ s_expenseControl s == 20 /\ s_emergencyFund s == 100
  /\ s_debtManagement s == 100 /\ s_budgetAdherence s = 100%Z
  /\ Math_round (weighted s) = 88%Z.
Proof.
  intros Hsr Hbs Her Hxr Hdr s.
  assert (A : s_savingsRate s == 100).
  { unfold s, scores_of; simpl. minmax_cases; lra. }
  assert (B : s_expenseControl s == 20).
  { unfold s, scores_of; simpl. minmax_cases; lra. }
  assert (C : s_emergencyFund s == 100).
  { unfold s, scores_of; simpl. minmax_cases; lra. }
  assert (D : s_debtManagement s == 100).
  { unfold s, scores_of; simpl. minmax_cases; lra. }
  assert (E : s_budgetAdherence s = 100%Z).
  { unfold s, scores_of; simpl. rewrite (Math_round_comp bs 100 Hbs). reflexivity. }
  repeat split; try assumption.
  assert (W : weighted s == 88).
  { unfold weighted. rewrite A, B, C, D, E. reflexivity. }
  rewrite (Math_round_comp _ _ W). reflexivity.
Qed.

(** C4: prior-month income 2000 and expenses 1600, active accounts
    totalling 4800, no credit account and no active budget give the
    sub-scores savingsRate 100, expenseControl 20, emergencyFund 100,
    debtManagement 100, budgetAdherence 100 and the overall score 88. *)
Theorem getFinancialHealth_example
    (db : Db) (user : ObjectId) (currentDate lastMonth thisMonth : Date) :
  total_of (lastMonthData db user lastMonth thisMonth) income == 2000 ->
  total_of (lastMonthData db user lastMonth thisMonth) expense == 1600 ->
  sum_of a_balance (active_accounts db user) == 4800 ->
  creditAccounts (active_accounts db user) = [] ->
  current_budgets db user currentDate = [] ->
  let h := getFinancialHealth db user currentDate lastMonth thisMonth in
  s_savingsRate (scores h) == 100
  /\ s_expenseControl (scores h) == 20
  /\ s_emergencyFund (scores h) == 100
  /\ s_debtManagement (scores h) == 100
  /\ s_budgetAdherence (scores h) = 100%Z
  /\ overallScore h = 88%Z.
Proof.
  intros Hi He Hb Hc Hbud h.
  unfold h, getFinancialHealth. cbn [scores overallScore].
  rewrite Hc, Hbud. cbn [sum_of fold_left budgetScore].
  apply scores_of_example.
  - apply savingsRate_2000_1600; assumption.
  - reflexivity.
  - apply emergencyFundRatio_4800_1600; assumption.
  - apply expenseRatio_2000_1600; assumption.
  - apply debtToIncomeRatio_no_debt.
Qed.

Lemma getFinancialHealth_example_healthy :
  let h := getFinancialHealth Scenario.healthy Scenario.alice 210%Z 100%Z 200%Z in
  s_savingsRate (scores h) == 100
  /\ s_expenseControl (scores h) == 20
  /\ s_emergencyFund (scores h) == 100
  /\ s_debtManagement (scores h) == 100
  /\ s_budgetAdherence (scores h) = 100%Z
  /\ overallScore h = 88%Z.
Proof.
  apply (getFinancialHealth_example Scenario.healthy Scenario.alice 210%Z 100%Z 200%Z);
    vm_compute; reflexivity.
Defined.

(** The emergency-fund sub-score as [getFinancialHealth] computes it from
    the total balance and last month's expenses. *)
Lemma emergencyFund_le_100 (sr bs xr dr totalBalance expenses : Q) :
  s_emergencyFund (scores_of sr bs (emergencyFundRatio totalBalance expenses) xr dr) <= 100.
Proof. unfold scores_of; simpl. minmax_cases; lra. Qed.

Lemma emergencyFund_no_expenses (sr bs xr dr totalBalance expenses : Q) :
  expenses == 0 ->
  s_emergencyFund (scores_of sr bs (emergencyFundRatio totalBalance expenses) xr dr) == 100.
Proof.
  intro H. unfold scores_of, emergencyFundRatio; simpl.
  assert (G : gtb expenses 0 = false) by (apply gtb_false; rewrite H; apply Qle_refl).
  rewrite G. minmax_cases; lra.
Qed.

Lemma emergencyFund_nonnegative_balance (sr bs xr dr totalBalance expenses : Q) :
  0 <= totalBalance ->
  0 <= s_emergencyFund (scores_of sr bs (emergencyFundRatio totalBalance expenses) xr dr).
Proof.
  intro H. unfold scores_of, emergencyFundRatio; simpl.
  destruct (gtb expenses 0) eqn:G.
  - apply gtb_gt in G.
    assert (0 <= totalBalance / (expenses * 3)).
    { apply Qle_shift_div_l; [lra|]. lra. }
    minmax_cases; lra.
  - minmax_cases; lra.
Qed.

(** C5, at an overdrawn account: a total balance of -300 with 100 spent
    last month gives the emergency-fund sub-score -100, below the interval
    from 0 to 100. *)
Theorem emergencyFund_below_zero :
  let h := getFinancialHealth Scenario.overdrawn Scenario.alice 210%Z 100%Z 200%Z in
  s_emergencyFund (scores h) == -100 /\ ~ (0 <= s_emergencyFund (scores h)).
Proof.
  vm_compute. split; [reflexivity | intro H; apply H; reflexivity].
Qed.

End Health.

(* ================================================================== *)
(** ** The balance of an account and its linked transactions *)
(* ================================================================== *)

Section BalanceAtHalfCents.

Import TransactionController Ledger.

(** C1, at an expense of 0.125 on an account at 0: the request succeeds,
    the transaction is stored with amount 0.13 and the balance becomes
    -0.12, so the balance no longer equals the initial balance plus income
    minus expenses. *)
Theorem createTransaction_half_cent_expense_unbalanced :
  let r := createTransaction Scenario.fresh Scenario.alice Scenario.half_cent_expense in
  ledger_ok Scenario.fresh
  /\ status (fst r) = 201%nat
  /\ (exists a t, accounts (snd r) = [a] /\ transactions (snd r) = [t]
                  /\ t_accountId t = a_id a /\ t_type t = expense
                  /\ a_initialBalance a == 0
                  /\ t_amount t == 13 # 100 /\ a_balance a == - (12 # 100))
  /\ ~ ledger_ok (snd r).
Proof.
  intro r. split; [|split; [|split]].
  - intros a [<-|[]]. vm_compute. reflexivity.
  - reflexivity.
  - vm_compute. eexists. eexists. repeat split; reflexivity.
  - intro H.
    assert (B : balanced (snd r) (mkAccount 1%nat Scenario.alice "Main" checking
                                    (- (12 # 100)) 0 None true 0)).
    { apply H. vm_compute. left. reflexivity. }
    vm_compute in B. discriminate B.
Qed.

End BalanceAtHalfCents.

(* ================================================================== *)
(** ** The type of a transaction and of its category *)
(* ================================================================== *)

Section CategoryType.

Import TransactionController CategorySpec.

(** C7, at an update that carries only a type: the expense on food
    becomes an income while food stays an expense category, and the
    request succeeds. *)
Theorem updateTransaction_type_only_mismatch :
  let r := updateTransaction Scenario.one_expense Scenario.alice 5%nat
             [("type", JStr "income")] in
  types_match Scenario.one_expense
  /\ status (fst r) = 200%nat
  /\ ~ types_match (snd r).
Proof.
  intro r. split; [|split].
  - intros t [<-|[]] c [<-|[<-|[]]]; simpl; [reflexivity | discriminate].
  - reflexivity.
  - intro H.
    assert (M : type_matches (snd r)
                  (mkTransaction 5%nat Scenario.alice 1%nat 2%nat 20 "lunch" 120%Z income [])).
    { apply H. vm_compute. left. reflexivity. }
    specialize (M Scenario.food). simpl in M.
    assert (E : expense = income) by (apply M; [left|]; reflexivity).
    discriminate E.
Qed.

End CategoryType.

(* ================================================================== *)
(** ** Budgets of one category *)
(* ================================================================== *)

Section BudgetWindows.

Import BudgetController BudgetSpec.

(** C6, at an update of dates: two budgets on food are created with
    windows apart; moving the start of the second into the window of the
    first succeeds and leaves two active budgets whose windows meet. *)
Theorem updateBudget_overlap :
  let r := updateBudget Scenario.two_budgets Scenario.alice 11%nat Scenario.move_start in
  List.length (budgets Scenario.two_budgets) = 2%nat
  /\ no_overlap (budgets Scenario.two_budgets)
  /\ status (fst r) = 200%nat
  /\ ~ no_overlap (budgets (snd r)).
Proof.
  intro r. split; [|split; [|split]].
  - reflexivity.
  - intros i j x y Hi Hj Hij _ _ _ _ [O1 O2].
    destruct i as [|[|i]]; destruct j as [|[|j]]; try congruence;
      vm_compute in Hi, Hj;
      try discriminate Hi; try discriminate Hj;
      try (destruct i; discriminate Hi); try (destruct j; discriminate Hj);
      injection Hi as <-; injection Hj as <-; simpl in O1, O2; lia.
  - reflexivity.
  - intro H.
    apply (H 0%nat 1%nat
             (mkBudget 10%nat Scenario.alice 2%nat "January" 300 "monthly" 100 200 80 true)
             (mkBudget 11%nat Scenario.alice 2%nat "February" 300 "monthly" 150 400 80 true));
      try reflexivity; try discriminate.
    split; simpl; lia.
Qed.

End BudgetWindows.

(* ================================================================== *)
(** ** Temporary files of an upload *)
(* ================================================================== *)

Section UploadedFiles.

Import UploadController.

Variable Preview : Type.
Variable mapCsvToTransactions : list CsvRow -> list Preview.
Variable errorHandler : string -> Response.

(** C9, at a spreadsheet: the file passes multer's filter and is stored,
    the handler answers that Excel files are not supported, and the stored
    file is still in the uploads directory. *)
Theorem spreadsheet_upload_leaves_file :
  let r := post_transactions Preview mapCsvToTransactions errorHandler
             [] "1700000000000-42" (Some Scenario.spreadsheet) in
  fst r = mkResponse 400 "Excel files not yet supported"
  /\ exists_in (snd r) "uploads/file-1700000000000-42.xlsx" = true.
Proof. split; reflexivity. Qed.

(** X5: a stored CSV file is gone after the handler has answered, whether it
    parsed or not. *)
Lemma csv_upload_removes_file (fs : Fs) (originalname path : string) :
  toLowerCase (extname originalname) = ".csv" ->
  exists_in (snd (uploadTransactions Preview mapCsvToTransactions fs
                    (Some (mkStored originalname path)))) path = false.
Proof.
  intro Hext. unfold uploadTransactions. cbn [file_path file_originalname].
  rewrite Hext. cbn [String.eqb Ascii.eqb Bool.eqb].
  assert (U : exists_in (unlink fs path) path = false).
  { unfold exists_in, unlink. induction fs as [|f fs IH]; [reflexivity|].
    simpl. destruct (String.eqb (fst f) path) eqn:E; simpl; [exact IH|].
    rewrite E. exact IH. }
  destruct (parseCsvFile fs path); [destruct (mapCsvToTransactions csvData)|]; exact U.
Qed.

End UploadedFiles.

(* ================================================================== *)
(** ** Numbers in whole cents *)
(* ================================================================== *)

Section Cents.

Import Ledger.

Lemma round2_comp (x y : Q) : x == y -> round2 x = round2 y.
Proof.
  intro H. unfold round2. f_equal. f_equal. apply Math_round_comp.
  rewrite H. reflexivity.
Qed.

Lemma whole_cents_comp (x y : Q) : x == y -> whole_cents x -> whole_cents y.
Proof. intros H [c Hc]. exists c. rewrite <- H. exact Hc. Qed.

Lemma round2_whole_cents (x : Q) : whole_cents (round2 x).
Proof. exists (Math_round (x * 100)). reflexivity. Qed.

Lemma Math_round_Z (z : Z) : Math_round (inject_Z z) = z.
Proof.
  unfold Math_round, Qfloor, inject_Z, Qplus. cbn [Qnum Qden].
  rewrite Z.mul_1_l.
  change (Z.pos (1 * 2)) with 2%Z. change (Z.pos 2) with 2%Z. change (Z.pos 1) with 1%Z.
  symmetry. apply (Z.div_unique _ _ _ 1%Z); lia.
Qed.

Lemma round2_cents (x : Q) : whole_cents x -> round2 x == x.
Proof.
  intros [c Hc]. rewrite (round2_comp x (inject_Z c / 100) Hc). unfold round2.
  assert (E : inject_Z c / 100 * 100 == inject_Z c) by (field; discriminate).
  rewrite (Math_round_comp _ _ E), Math_round_Z. symmetry. exact Hc.
Qed.

Lemma whole_cents_0 : whole_cents 0.
Proof. exists 0%Z. reflexivity. Qed.

Lemma whole_cents_plus (x y : Q) : whole_cents x -> whole_cents y -> whole_cents (x + y).
Proof.
  intros [a Ha] [b Hb]. exists (a + b)%Z. rewrite Ha, Hb, inject_Z_plus. field.
Qed.

Lemma whole_cents_opp (x : Q) : whole_cents x -> whole_cents (- x).
Proof.
  intros [a Ha]. exists (- a)%Z. rewrite Ha, inject_Z_opp. field.
Qed.

Lemma whole_cents_minus (x y : Q) : whole_cents x -> whole_cents y -> whole_cents (x - y).
Proof. intros Hx Hy. apply whole_cents_plus; [exact Hx | apply whole_cents_opp; exact Hy]. Qed.

Lemma whole_cents_abs (x : Q) : whole_cents x -> whole_cents (Math_abs x).
Proof.
  intro H. unfold Math_abs. apply Qabs_case; intros _; [exact H | apply whole_cents_opp; exact H].
Qed.

End Cents.

(* ================================================================== *)
(** ** The initial balance of an account *)
(* ================================================================== *)

Section InitialBalance.

Import TransactionModel TransactionController AccountController Ledger Api.

Lemma NoDup_map_inj {A B : Type} (f : A -> B) (l : list A) (x y : A) :
  NoDup (map f l) -> In x l -> In y l -> f x = f y -> x = y.
Proof.
  induction l as [|z l IH]; simpl; intros ND Hx Hy E; [contradiction|].
  inversion ND as [|? ? Hnot ND']; subst.
  destruct Hx as [->|Hx], Hy as [->|Hy].
  - reflexivity.
  - exfalso. apply Hnot. rewrite E. now apply in_map.
  - exfalso. apply Hnot. rewrite <- E. now apply in_map.
  - now apply IH.
Qed.

Lemma map_replace_by {B : Type} (g : Account -> B) (x : Account) (l : list Account) :
  (forall y, In y l -> a_id y = a_id x -> g y = g x) ->
  map g (replace_by a_id x l) = map g l.
Proof.
  intro H. unfold replace_by. rewrite map_map. apply map_ext_in.
  intros y Hy. destruct (a_id y =? a_id x)%nat eqn:E; [|reflexivity].
  symmetry. apply H; [exact Hy | now apply Nat.eqb_eq].
Qed.

Lemma initials_ids (db : Db) : map fst (initials db) = map a_id (accounts db).
Proof. unfold initials. rewrite map_map. reflexivity. Qed.

Lemma findById_In (db : Db) (i : ObjectId) (a : Account) :
  AccountModel.findById db i = Some a -> In a (accounts db) /\ a_id a = i.
Proof.
  intro H. apply find_some in H. destruct H as [H E].
  split; [exact H | now apply Nat.eqb_eq].
Qed.

(** Saving a copy [x] of the stored account [x0] that still has the
    initial balance of [x0]; the copy may have been read before other
    accounts were saved. *)
Lemma save_keeps_initials (db0 db db' : Db) (x0 x : Account) :
  NoDup (map a_id (accounts db0)) -> initials db = initials db0 ->
  In x0 (accounts db0) -> a_id x = a_id x0 ->
  a_initialBalance x = a_initialBalance x0 ->
  AccountModel.save db x = Some db' ->
  initials db' = initials db0 /\ nextId db' = nextId db
  /\ transactions db' = transactions db.
Proof.
  intros ND Hinit Hin Hid Hib Hsave. unfold AccountModel.save in Hsave.
  cbn [AccountModel.pre_save] in Hsave.
  destruct (AccountModel.validate x); [|discriminate].
  injection Hsave as <-. cbn. split; [|split; reflexivity].
  rewrite <- Hinit. unfold initials. cbn.
  apply map_replace_by. intros y Hy Ey.
  assert (Hy' : In (a_id y, a_initialBalance y) (initials db0)).
  { rewrite <- Hinit. unfold initials.
    apply (in_map (fun a => (a_id a, a_initialBalance a))). exact Hy. }
  unfold initials in Hy'. apply in_map_iff in Hy'.
  destruct Hy' as [y0 [E0 Hy0]]. injection E0 as Eid Eib.
  assert (y0 = x0).
  { apply (NoDup_map_inj a_id (accounts db0)); try assumption. congruence. }
  subst y0. f_equal; congruence.
Qed.

Lemma apply_effect_frame (ty : TxType) (amount : Q) (a : Account) :
  a_id (apply_effect ty amount a) = a_id a
  /\ a_initialBalance (apply_effect ty amount a) = a_initialBalance a.
Proof. destruct ty; split; reflexivity. Qed.

Lemma reverse_effect_frame (ty : TxType) (amount : Q) (a : Account) :
  a_id (reverse_effect ty amount a) = a_id a
  /\ a_initialBalance (reverse_effect ty amount a) = a_initialBalance a.
Proof. destruct ty; split; reflexivity. Qed.

Lemma transaction_save_new_frame (db db1 : Db) (t t' : Transaction) :
  save_new db t = Some (t', db1) ->
  accounts db1 = accounts db /\ nextId db1 = S (nextId db).
Proof.
  unfold save_new. destruct (validate t); [|discriminate].
  intro H. injection H as _ <-. split; reflexivity.
Qed.

Lemma transaction_save_frame (db db1 : Db) (t : Transaction) :
  save db t = Some db1 -> accounts db1 = accounts db /\ nextId db1 = nextId db.
Proof.
  unfold save. destruct (validate t); [|discriminate].
  intro H. injection H as <-. split; reflexivity.
Qed.

Lemma transaction_save_changes_frame (db db1 : Db) (before after : Transaction) :
  save_changes db before after = Some db1 ->
  accounts db1 = accounts db /\ nextId db1 = nextId db.
Proof.
  unfold save_changes. destruct (t_id after =? t_id before)%nat;
    [apply transaction_save_frame|].
  destruct (validate after); [|discriminate].
  destruct (find _ (transactions db)); [|discriminate].
  intro H. injection H as <-. split; reflexivity.
Qed.

Lemma keeps_refl (db : Db) : keeps db db.
Proof. split; [reflexivity | apply Nat.le_refl]. Qed.

Lemma keeps_of_accounts (db db' : Db) :
  accounts db' = accounts db -> (nextId db <= nextId db')%nat -> keeps db db'.
Proof. intros H L. split; [unfold initials; now rewrite H | exact L]. Qed.

Lemma createTransaction_keeps (db : Db) (user : ObjectId) (body : Obj) :
  NoDup (map a_id (accounts db)) ->
  keeps db (snd (createTransaction db user body)).
Proof.
  intro ND. unfold createTransaction.
  destruct (negb (createTransactionValidation body)); [apply keeps_refl|].
  destruct (AccountModel.findOne db _) as [account|] eqn:Ha; [|apply keeps_refl].
  destruct (CategoryModel.findOne db _) as [category|]; [|apply keeps_refl].
  destruct (Number _) as [n|]; [|apply keeps_refl].
  destruct (TxType_of_js _) as [ty|]; [|apply keeps_refl].
  destruct (id_of (get body "accountId")) as [acc_id|]; [|apply keeps_refl].
  destruct (id_of (get body "categoryId")) as [cat_id|]; [|apply keeps_refl].
  destruct (text_of _) as [description|]; [|apply keeps_refl].
  destruct (date_of _) as [date|]; [|apply keeps_refl].
  destruct (leb (Math_abs n) 0); [apply keeps_refl|].
  destruct (construct _) as [t|]; [|apply keeps_refl].
  destruct (save_new db t) as [[t' db1]|] eqn:Hs; [|apply keeps_refl].
  apply transaction_save_new_frame in Hs. destruct Hs as [Hacc Hn].
  apply find_some in Ha. destruct Ha as [Hin _].
  destruct (AccountModel.save db1 _) as [db2|] eqn:Hsave; cbn [snd].
  - destruct (apply_effect_frame ty (Math_abs n) account) as [Eid Eib].
    destruct (save_keeps_initials db db1 db2 account _ ND
                (f_equal (map (fun a => (a_id a, a_initialBalance a))) Hacc)
                Hin Eid Eib Hsave) as [Hi [Hn2 _]].
    split; [exact Hi | lia].
  - apply keeps_of_accounts; [exact Hacc | lia].
Qed.

Lemma deleteTransaction_keeps (db : Db) (user transactionId : ObjectId) :
  NoDup (map a_id (accounts db)) ->
  keeps db (snd (deleteTransaction db user transactionId)).
Proof.
  intro ND. unfold deleteTransaction.
  destruct (findOne db _) as [transaction|]; [|apply keeps_refl].
  destruct (AccountModel.findById db (t_accountId transaction)) as [account|] eqn:Ha.
  - destruct (AccountModel.save db _) as [db1|] eqn:Hsave; [|apply keeps_refl].
    apply findById_In in Ha. destruct Ha as [Hin _].
    destruct (reverse_effect_frame (t_type transaction) (t_amount transaction) account)
      as [Eid Eib].
    destruct (save_keeps_initials db db db1 account _ ND eq_refl Hin Eid Eib Hsave)
      as [Hi [Hn _]].
    split; [exact Hi | unfold findByIdAndDelete; simpl; lia].
  - apply keeps_of_accounts; [reflexivity | apply Nat.le_refl].
Qed.

Lemma updateTransaction_keeps (db : Db) (user transactionId : ObjectId) (updates : Obj) :
  NoDup (map a_id (accounts db)) ->
  keeps db (snd (updateTransaction db user transactionId updates)).
Proof.
  intro ND. unfold updateTransaction.
  destruct (negb (updateTransactionValidation updates)); [apply keeps_refl|].
  destruct (findOne db _) as [existing|]; [|apply keeps_refl].
  match goal with |- context [if negb ?c then _ else _] => destruct c end;
    cbn [negb]; [|apply keeps_refl].
  match goal with |- context [if negb ?c then _ else _] => destruct c end;
    cbn [negb]; [|apply keeps_refl].
  destruct (TransactionController.assign_all existing updates) as [updated|]; [|apply keeps_refl].
  destruct (save_changes db existing updated) as [db1|] eqn:Hs; [|apply keeps_refl].
  apply transaction_save_changes_frame in Hs. destruct Hs as [Hacc Hn].
  assert (K1 : keeps db db1) by (apply keeps_of_accounts; [exact Hacc | lia]).
  assert (I1 : initials db1 = initials db) by apply K1.
  destruct (AccountModel.findById db1 (t_accountId existing)) as [oldAccount|] eqn:Hold;
    [|exact K1].
  apply findById_In in Hold. destruct Hold as [HinOld HidOld].
  rewrite Hacc in HinOld.
  destruct (t_accountId existing =? t_accountId updated)%nat.
  - destruct (AccountModel.save db1 _) as [db2|] eqn:Hsave; [|exact K1].
    destruct (reverse_effect_frame (t_type existing) (t_amount existing) oldAccount)
      as [Eid Eib].
    destruct (apply_effect_frame (t_type updated) (t_amount updated)
                (reverse_effect (t_type existing) (t_amount existing) oldAccount))
      as [Eid' Eib'].
    destruct (save_keeps_initials db db1 db2 oldAccount _ ND I1 HinOld
                (eq_trans Eid' Eid) (eq_trans Eib' Eib) Hsave) as [Hi [Hn2 _]].
    cbn. split; [exact Hi | lia].
  - destruct (AccountModel.findById db1 (t_accountId updated)) as [newAccount|] eqn:Hnew;
      [|exact K1].
    apply findById_In in Hnew. destruct Hnew as [HinNew HidNew].
    rewrite Hacc in HinNew.
    destruct (AccountModel.save db1 _) as [db2|] eqn:Hsave; [|exact K1].
    destruct (reverse_effect_frame (t_type existing) (t_amount existing) oldAccount)
      as [Eid Eib].
    destruct (save_keeps_initials db db1 db2 oldAccount _ ND I1 HinOld Eid Eib Hsave)
      as [Hi [Hn2 _]].
    destruct (AccountModel.save db2 _) as [db3|] eqn:Hsave2.
    + destruct (apply_effect_frame (t_type updated) (t_amount updated) newAccount)
        as [Eid' Eib'].
      destruct (save_keeps_initials db db2 db3 newAccount _ ND Hi HinNew Eid' Eib' Hsave2)
        as [Hi3 [Hn3 _]].
      cbn. split; [exact Hi3 | lia].
    + cbn. split; [exact Hi | lia].
Qed.

Lemma insert_all_frame (ts : list Transaction) (db : Db) :
  accounts (fst (insert_all db ts)) = accounts db
  /\ (nextId db <= nextId (fst (insert_all db ts)))%nat.
Proof.
  revert db. induction ts as [|t ts IH]; intro db; simpl.
  - split; [reflexivity | apply Nat.le_refl].
  - destruct (insert_all _ ts) as [db2 ins] eqn:E.
    specialize (IH (bump (with_transactions db (transactions db ++ [with_id (nextId db) t])))).
    rewrite E in IH. simpl in *. destruct IH as [A L]. split; [exact A | lia].
Qed.

Lemma inc_keeps (db : Db) (i : ObjectId) (change : Q) :
  NoDup (map a_id (accounts db)) ->
  keeps db (AccountModel.findByIdAndUpdate_inc db i change).
Proof.
  intro ND. unfold AccountModel.findByIdAndUpdate_inc.
  destruct (AccountModel.findById db i) as [a|] eqn:Ha; [|apply keeps_refl].
  apply findById_In in Ha. destruct Ha as [Hin _].
  split; [|apply Nat.le_refl].
  unfold initials. cbn. apply map_replace_by. intros y Hy Ey.
  assert (y = a) by (apply (NoDup_map_inj a_id (accounts db)); assumption).
  subst y. reflexivity.
Qed.

Lemma keeps_trans (db1 db2 db3 : Db) : keeps db1 db2 -> keeps db2 db3 -> keeps db1 db3.
Proof. intros [A B] [C D]. split; [congruence | lia]. Qed.

Lemma keeps_NoDup (db db' : Db) :
  keeps db db' -> NoDup (map a_id (accounts db)) -> NoDup (map a_id (accounts db')).
Proof. intros [H _] ND. rewrite <- initials_ids, H, initials_ids. exact ND. Qed.

Lemma apply_updates_keeps (m : UpdateMap) (db : Db) :
  NoDup (map a_id (accounts db)) -> keeps db (apply_updates db m).
Proof.
  revert db. induction m as [|[k v] m IH]; intros db ND; [apply keeps_refl|].
  unfold apply_updates. simpl.
  pose proof (inc_keeps db k v ND) as K.
  apply (keeps_trans _ _ _ K). apply IH. exact (keeps_NoDup _ _ K ND).
Qed.

Lemma bulkImportTransactions_keeps (db : Db) (user : ObjectId)
    (rows : option (list Obj)) :
  NoDup (map a_id (accounts db)) ->
  keeps db (snd (bulkImportTransactions db user rows)).
Proof.
  intro ND. unfold bulkImportTransactions.
  destruct rows as [[|row rows]|]; try apply keeps_refl.
  destruct (AccountModel.find_all db _) as [|account others]; [apply keeps_refl|].
  destruct (process_rows _ _ _ _ _) as [[|v valid] errs]; [apply keeps_refl|].
  unfold insertMany. destruct (construct_all _) as [ts|]; [|apply keeps_refl].
  destruct (forallb validate ts); [|apply keeps_refl].
  destruct (insert_all_frame ts db) as [A L].
  destruct (insert_all db ts) as [db1 inserted]. simpl in A, L. cbn [snd].
  assert (K : keeps db db1) by (apply keeps_of_accounts; assumption).
  apply (keeps_trans _ _ _ K). apply apply_updates_keeps.
  exact (keeps_NoDup _ _ K ND).
Qed.

(** Account updates. *)
Lemma account_assign_frame (a a' : Account) (key : string) (v : JsVal) :
  AccountController.assign a (key, v) = Some a' ->
  (key <> "_id" -> a_id a' = a_id a)
  /\ (key <> "initialBalance" -> a_initialBalance a' = a_initialBalance a)
  /\ (key <> "balance" -> a_balance a' = a_balance a).
Proof.
  unfold AccountController.assign.
  repeat match goal with
         | |- context [if String.eqb key ?k then _ else _] =>
             let E := fresh "E" in
             destruct (String.eqb key k) eqn:E;
             [apply String.eqb_eq in E; subst key|]
         end.
  all: repeat match goal with
              | |- context [match ?x with _ => _ end] => destruct x
              end.
  all: intro H; try discriminate H.
  all: injection H as <-; repeat split; intros; try reflexivity; congruence.
Qed.

Lemma account_assign_all_frame (updates : Obj) (a a' : Account) :
  AccountController.assign_all a updates = Some a' ->
  (has updates "_id" = false -> a_id a' = a_id a)
  /\ (has updates "initialBalance" = false -> a_initialBalance a' = a_initialBalance a)
  /\ (has updates "balance" = false -> a_balance a' = a_balance a).
Proof.
  revert a. induction updates as [|[k v] updates IH]; intros a H;
    cbn [AccountController.assign_all] in H.
  - injection H as <-. repeat split; reflexivity.
  - destruct (AccountController.assign a (k, v)) as [a1|] eqn:E; [|discriminate].
    destruct (account_assign_frame _ _ _ _ E) as [I1 [B1 C1]].
    destruct (IH _ H) as [I2 [B2 C2]].
    unfold has in *. simpl.
    split; [|split]; intro N; apply orb_false_iff in N; destruct N as [N1 N2].
    + rewrite (I2 N2). apply I1. intro K. subst k. simpl in N1. discriminate.
    + rewrite (B2 N2). apply B1. intro K. subst k. simpl in N1. discriminate.
    + rewrite (C2 N2). apply C1. intro K. subst k. simpl in N1. discriminate.
Qed.

(** A payload that names paths of the record only does not name [_id]. *)
Lemma names_only_has (paths : list string) (updates : Obj) (key : string) :
  Payload.names_only paths updates = true -> ~ In key paths -> has updates key = false.
Proof.
  intros N Hk. unfold has. destruct (existsb _ (keys updates)) eqn:E; [|reflexivity].
  exfalso. apply existsb_exists in E. destruct E as [k [Hin Ek]].
  apply String.eqb_eq in Ek. subst k.
  unfold Payload.names_only in N. rewrite forallb_forall in N.
  specialize (N key Hin). apply existsb_exists in N. destruct N as [p [Hp Ep]].
  apply String.eqb_eq in Ep. subst p. exact (Hk Hp).
Qed.

Lemma account_paths_no_id (updates : Obj) :
  Payload.names_only Payload.account_paths updates = true -> has updates "_id" = false.
Proof.
  intro N. apply (names_only_has _ _ _ N). cbn. intuition discriminate.
Qed.

Lemma transaction_paths_no_id (updates : Obj) :
  Payload.names_only Payload.transaction_paths updates = true -> has updates "_id" = false.
Proof.
  intro N. apply (names_only_has _ _ _ N). cbn. intuition discriminate.
Qed.

(** Without a redirection the changes are written to the document itself. *)
Lemma account_save_changes_same (db : Db) (before after : Account) :
  a_id after = a_id before ->
  AccountModel.save_changes db before after = AccountModel.save db after.
Proof. intro E. unfold AccountModel.save_changes. rewrite E, Nat.eqb_refl. reflexivity. Qed.

Lemma transaction_save_changes_same (db : Db) (before after : Transaction) :
  t_id after = t_id before ->
  save_changes db before after = save db after.
Proof. intro E. unfold save_changes. rewrite E, Nat.eqb_refl. reflexivity. Qed.

(** Whatever document the changes of an account update are written to, it
    keeps its initial balance when the payload does not name it. *)
Lemma account_save_changes_initials (db db' : Db) (before after : Account) :
  NoDup (map a_id (accounts db)) -> In before (accounts db) ->
  a_initialBalance after = a_initialBalance before ->
  AccountModel.save_changes db before after = Some db' ->
  initials db' = initials db /\ nextId db' = nextId db
  /\ transactions db' = transactions db.
Proof.
  intros ND Hin Hib. unfold AccountModel.save_changes.
  destruct (a_id after =? a_id before)%nat eqn:E.
  - apply Nat.eqb_eq in E.
    exact (save_keeps_initials db db db' before after ND eq_refl Hin E Hib).
  - cbn [AccountModel.pre_save].
    destruct (AccountModel.validate after); [|discriminate].
    destruct (AccountModel.findById db (a_id after)) as [stored|] eqn:F; [|discriminate].
    intro H. injection H as <-. cbn. split; [|split; reflexivity].
    apply findById_In in F. destruct F as [Hs _].
    unfold initials. apply map_replace_by. cbn [a_id a_initialBalance].
    intros y Hy Ey.
    assert (y = stored) by (apply (NoDup_map_inj a_id (accounts db)); assumption).
    subst y. f_equal. unfold changed. rewrite Hib.
    destruct (Qeq_bool (a_initialBalance before) (a_initialBalance before)) eqn:Q;
      [reflexivity|].
    exfalso. assert (T : Qeq_bool (a_initialBalance before) (a_initialBalance before) = true)
      by (apply Qeq_bool_iff; reflexivity).
    congruence.
Qed.

Lemma updateAccount_keeps (db : Db) (user accountId : ObjectId) (updates : Obj) :
  NoDup (map a_id (accounts db)) -> has updates "initialBalance" = false ->
  keeps db (snd (updateAccount db user accountId updates)).
Proof.
  intros ND Hno. unfold updateAccount.
  destruct (negb (updateAccountValidation updates)); [apply keeps_refl|].
  destruct (AccountModel.findOne db _) as [account|] eqn:Ha; [|apply keeps_refl].
  match goal with |- context [if ?c then (mkResponse 400 _, _) else _] => destruct c end;
    [apply keeps_refl|].
  destruct (AccountController.assign_all account updates) as [account'|] eqn:E;
    [|apply keeps_refl].
  destruct (AccountModel.save_changes db account account') as [db1|] eqn:Hsave;
    [|apply keeps_refl].
  apply find_some in Ha. destruct Ha as [Hin _].
  destruct (account_assign_all_frame _ _ _ E) as [_ [Eib _]].
  destruct (account_save_changes_initials db db1 account account' ND Hin (Eib Hno) Hsave)
    as [Hi [Hn _]].
  split; [exact Hi | cbn; lia].
Qed.

(** Account creation. *)
Lemma createAccount_spec (db db' : Db) (user : ObjectId) (body : Obj)
    (resp : Response) (saved : Account) :
  createAccount db user body = (resp, Some saved, db') ->
  exists supplied,
    Number (default_to (JNum 0) (get body "balance")) = Some supplied
    /\ a_balance saved = round2 supplied
    /\ a_initialBalance saved = round2 supplied
    /\ a_id saved = nextId db
    /\ accounts db' = (accounts db ++ [saved])%list
    /\ transactions db' = transactions db
    /\ nextId db' = S (nextId db).
Proof.
  unfold createAccount.
  destruct (negb (createAccountValidation body)); [discriminate|].
  destruct (text_of _) as [name|]; [|discriminate].
  destruct (AccountType_of_js _) as [type|]; [|discriminate].
  destruct (AccountModel.findOne db _); [discriminate|].
  destruct (Number (default_to _ _)) as [bal|]; [|discriminate].
  destruct (optional_trim _) as [description|]; [|discriminate].
  match goal with |- context [match ?x with Some _ => _ | None => _ end] =>
    destruct x as [limit|] end; [|discriminate].
  unfold AccountModel.save_new. cbn [AccountModel.pre_save].
  destruct (AccountModel.validate _); [|discriminate].
  intro H. injection H as _ <- <-.
  exists bal. repeat split; reflexivity.
Qed.

Lemma createAccount_unchanged (db : Db) (user : ObjectId) (body : Obj) :
  snd (fst (createAccount db user body)) = None ->
  snd (createAccount db user body) = db.
Proof.
  unfold createAccount.
  repeat match goal with
         | |- context [if ?c then _ else _] => destruct c
         | |- context [match ?x with _ => _ end] => destruct x
         end; simpl; intro H; try reflexivity; discriminate H.
Qed.

End InitialBalance.

Section SetOnce.

Import TransactionModel TransactionController AccountController Ledger Api.

Lemma keeps_well_formed (db db' : Db) :
  keeps db db' -> well_formed db -> well_formed db'.
Proof.
  intros K [ND B]. split; [exact (keeps_NoDup _ _ K ND)|].
  intros a' Hin. destruct K as [Hi L].
  assert (M : In (a_id a') (map a_id (accounts db'))) by now apply in_map.
  rewrite <- initials_ids, Hi, initials_ids in M.
  apply in_map_iff in M. destruct M as [a [E Ha]].
  specialize (B a Ha). lia.
Qed.

Lemma step_initials (db : Db) (r : Request) :
  well_formed db -> names_initialBalance r = false ->
  well_formed (step db r)
  /\ exists created, initials (step db r) = (initials db ++ created)%list.
Proof.
  intros WF Hr. pose proof WF as [ND B].
  assert (Keep : forall db', keeps db db' ->
            well_formed db' /\ exists created, initials db' = (initials db ++ created)%list).
  { intros db' K. split; [exact (keeps_well_formed _ _ K WF)|].
    exists []. rewrite app_nil_r. apply K. }
  destruct r as [user body|user accountId updates|user body|user tid updates|user tid|user rows];
    cbn [step].
  - destruct (createAccount db user body) as [[resp [saved|]] db'] eqn:E.
    + destruct (createAccount_spec _ _ _ _ _ _ E)
        as [supplied [_ [_ [Hib [Hid [Hacc [_ Hn]]]]]]].
      cbn [snd]. split.
      * split.
        -- rewrite Hacc, map_app. cbn [map]. rewrite Hid.
           apply NoDup_app. repeat split.
           ++ exact ND.
           ++ repeat constructor. intros [].
           ++ intros i Hi [Hj|[]]. subst i.
              apply in_map_iff in Hi. destruct Hi as [a [Ea Ha]].
              specialize (B a Ha). lia.
        -- intros a Ha. rewrite Hacc in Ha. apply in_app_or in Ha.
           destruct Ha as [Ha|[<-|[]]]; [specialize (B a Ha)|]; lia.
      * exists [(a_id saved, a_initialBalance saved)].
        unfold initials. rewrite Hacc, map_app. reflexivity.
    + pose proof (createAccount_unchanged db user body) as U.
      rewrite E in U. cbn [fst snd] in *. rewrite (U eq_refl).
      apply Keep, keeps_refl.
  - apply Keep. apply updateAccount_keeps; assumption.
  - apply Keep. apply createTransaction_keeps; assumption.
  - apply Keep. apply updateTransaction_keeps; assumption.
  - apply Keep. apply deleteTransaction_keeps; assumption.
  - apply Keep. apply bulkImportTransactions_keeps; assumption.
Qed.

Lemma run_initials (requests : list Request) (db : Db) :
  well_formed db ->
  forallb (fun r => negb (names_initialBalance r)) requests = true ->
  exists created, initials (run db requests) = (initials db ++ created)%list.
Proof.
  revert db. induction requests as [|r requests IH]; intros db WF Hall.
  - exists []. rewrite app_nil_r. reflexivity.
  - cbn [forallb] in Hall. apply andb_true_iff in Hall. destruct Hall as [Hr Hall].
    apply negb_true_iff in Hr.
    destruct (step_initials db r WF Hr) as [WF' [c1 E1]].
    destruct (IH (step db r) WF' Hall) as [c2 E2].
    exists (c1 ++ c2)%list. unfold run in *. cbn [fold_left].
    rewrite E2, E1, app_assoc. reflexivity.
Qed.

(** C8, as the code has it: a created account gets as initial balance the
    balance it is stored with, which is the supplied balance whenever that
    is in whole cents (0 when none is supplied); and over any sequence of
    account creations, account updates whose payload has no
    [initialBalance] field, transaction creations, updates and deletions
    and bulk imports, every account keeps the initial balance it had. *)
Theorem initialBalance_set_at_creation_and_kept :
  (forall db user body resp saved db',
      createAccount db user body = (resp, Some saved, db') ->
      In saved (accounts db')
      /\ a_initialBalance saved = a_balance saved
      /\ exists supplied,
           Number (default_to (JNum 0) (get body "balance")) = Some supplied
           /\ (whole_cents supplied -> a_initialBalance saved == supplied))
  /\ (forall db requests,
         well_formed db ->
         forallb (fun r => negb (names_initialBalance r)) requests = true ->
         exists created, initials (run db requests) = (initials db ++ created)%list).
Proof.
  split.
  - intros db user body resp saved db' E.
    destruct (createAccount_spec _ _ _ _ _ _ E) as [supplied [N [Hb [Hib [_ [Hacc _]]]]]].
    split; [rewrite Hacc; apply in_or_app; right; left; reflexivity|].
    split; [congruence|].
    exists supplied. split; [exact N|].
    intro W. rewrite Hib. apply round2_cents. exact W.
  - intros db requests. apply run_initials.
Qed.

Lemma well_formed_fresh : well_formed Scenario.fresh.
Proof.
  split.
  - repeat constructor. intros [].
  - intros a [<-|[]]. cbn. lia.
Qed.

(** An account opened with 12.50 keeps that initial balance, and the
    account there was keeps its own over a sequence of requests of every
    kind. *)
Lemma initialBalance_kept_in_scenario :
  (exists saved,
      fst (createAccount Scenario.fresh Scenario.alice Scenario.open_with_cents)
        = (mkResponse 201 "Account created successfully", Some saved)
      /\ a_initialBalance saved = a_balance saved
      /\ a_initialBalance saved == 1250 # 100)
  /\ exists created,
      initials (run Scenario.fresh
                  [CreateTransaction Scenario.alice Scenario.half_cent_expense;
                   UpdateAccount Scenario.alice 1 Scenario.balance_only;
                   CreateAccount Scenario.alice Scenario.open_account;
                   BulkImport Scenario.alice (Some (Scenario.two_rows 5));
                   UpdateTransaction Scenario.alice 10 [("amount", JNum 3)];
                   DeleteTransaction Scenario.alice 10])
      = (initials Scenario.fresh ++ created)%list.
Proof.
  split.
  - destruct (createAccount Scenario.fresh Scenario.alice Scenario.open_with_cents)
      as [[resp [saved|]] db'] eqn:E; [|discriminate E].
    destruct (proj1 initialBalance_set_at_creation_and_kept
                Scenario.fresh Scenario.alice Scenario.open_with_cents resp saved db' E)
      as (_ & Same & supplied & N & I).
    exists saved. split; [|split; [exact Same|]].
    + vm_compute in E. injection E as <- <- _. reflexivity.
    + injection N as <-. apply I. exists 1250%Z. reflexivity.
  - apply (proj2 initialBalance_set_at_creation_and_kept).
    + exact well_formed_fresh.
    + reflexivity.
Defined.

(** C8 as stated fails twice: an account opened with 0.125 gets the
    initial balance 0.13, and an update whose payload names
    [initialBalance] rewrites it. *)
Lemma initialBalance_rounded_and_rewritten :
  let r := updateAccount Scenario.opened Scenario.alice 10 Scenario.rewrite_initial in
  (exists a, In a (accounts Scenario.opened) /\ a_id a = 10%nat
             /\ a_initialBalance a == 13 # 100 /\ ~ a_initialBalance a == 125 # 1000)
  /\ status (fst r) = 200%nat
  /\ (exists a', In a' (accounts (snd r)) /\ a_id a' = 10%nat
                 /\ a_initialBalance a' == 999)
  /\ initials (snd r) <> initials Scenario.opened.
Proof.
  intro r. split; [|split; [|split]].
  - eexists. split; [right; left; reflexivity|]. vm_compute.
    repeat split; try reflexivity. discriminate.
  - reflexivity.
  - eexists. split; [right; left; reflexivity|]. split; reflexivity.
  - vm_compute. discriminate.
Qed.

End SetOnce.

(* ================================================================== *)
(** ** Account updates that carry a balance *)
(* ================================================================== *)

Section BalanceOverwrite.

Import AccountController.


Lemma get_In (o : Obj) (key : string) (v : JsVal) :
  NoDup (keys o) -> In (key, v) o -> get o key = v.
Proof.
  induction o as [|[k w] o IH]; intros ND Hin; [contradiction|].
  cbn [keys map fst] in ND. inversion ND as [|? ? Hnot ND']; subst.
  destruct Hin as [E|Hin].
  - injection E as -> ->. cbn [get]. now rewrite String.eqb_refl.
  - cbn [get]. destruct (String.eqb k key) eqn:E; [|now apply IH].
    apply String.eqb_eq in E. subst k. exfalso. apply Hnot.
    apply (in_map fst) in Hin. exact Hin.
Qed.





End BalanceOverwrite.

(* ================================================================== *)
(** ** Bulk import *)
(* ================================================================== *)

Section BulkImport.

Import TransactionModel TransactionController Ledger.

Lemma Map_get_set (m : UpdateMap) (k k' : ObjectId) (v : Q) :
  Map_get (Map_set m k v) k' = if (k =? k')%nat then Some v else Map_get m k'.
Proof.
  induction m as [|[k0 v0] m IH]; cbn [Map_set Map_get].
  - reflexivity.
  - destruct (k0 =? k)%nat eqn:E0; cbn [Map_get].
    + apply Nat.eqb_eq in E0. subst k0. destruct (k =? k')%nat; reflexivity.
    + rewrite IH. destruct (k0 =? k')%nat eqn:E1; [|reflexivity].
      apply Nat.eqb_eq in E1. subst k0. rewrite Nat.eqb_sym, E0. reflexivity.
Qed.

Lemma Map_set_keys (m : UpdateMap) (k k' : ObjectId) (v : Q) :
  In k' (map fst (Map_set m k v)) <-> k' = k \/ In k' (map fst m).
Proof.
  induction m as [|[k0 v0] m IH]; cbn [Map_set map fst In].
  - intuition.
  - destruct (k0 =? k)%nat eqn:E0; cbn [map fst In].
    + apply Nat.eqb_eq in E0. subst k0. intuition.
    + rewrite IH. intuition.
Qed.

Lemma Map_set_NoDup (m : UpdateMap) (k : ObjectId) (v : Q) :
  NoDup (map fst m) -> NoDup (map fst (Map_set m k v)).
Proof.
  induction m as [|[k0 v0] m IH]; cbn [Map_set map fst]; intro ND.
  - repeat constructor. intros [].
  - inversion ND as [|? ? Hnot ND']; subst.
    destruct (k0 =? k)%nat eqn:E0; cbn [map fst].
    + apply Nat.eqb_eq in E0. subst k0. constructor; assumption.
    + constructor; [|now apply IH].
      rewrite Map_set_keys. intros [E|Hin]; [|contradiction].
      subst k0. rewrite Nat.eqb_refl in E0. discriminate.
Qed.

Lemma Map_get_In (m : UpdateMap) (k : ObjectId) (v : Q) :
  NoDup (map fst m) -> In (k, v) m -> Map_get m k = Some v.
Proof.
  induction m as [|[k0 v0] m IH]; intros ND Hin; [contradiction|].
  cbn [map fst] in ND. inversion ND as [|? ? Hnot ND']; subst.
  cbn [Map_get]. destruct Hin as [E|Hin].
  - injection E as -> ->. now rewrite Nat.eqb_refl.
  - destruct (k0 =? k)%nat eqn:E0; [|now apply IH].
    apply Nat.eqb_eq in E0. subst k0. exfalso. apply Hnot.
    apply (in_map fst) in Hin. exact Hin.
Qed.

Lemma Map_get_None (m : UpdateMap) (k : ObjectId) :
  Map_get m k = None -> ~ In k (map fst m).
Proof.
  induction m as [|[k0 v0] m IH]; cbn [Map_get map fst In]; [tauto|].
  destruct (k0 =? k)%nat eqn:E0; [discriminate|].
  intros H [E|Hin]; [|exact (IH H Hin)].
  subst k0. rewrite Nat.eqb_refl in E0. discriminate.
Qed.

Lemma signed_sum_app (k : ObjectId) (l1 l2 : list TxnInput) :
  signed_sum k (l1 ++ l2) == signed_sum k l1 + signed_sum k l2.
Proof.
  unfold signed_sum. rewrite filter_app.
  induction (filter _ l1) as [|t l IH]; cbn [app fold_right].
  - rewrite Qplus_0_l. reflexivity.
  - rewrite IH. ring.
Qed.

Lemma signed_sum_absent (k : ObjectId) (l : list TxnInput) :
  (forall t, In t l -> i_accountId t <> k) -> signed_sum k l = 0.
Proof.
  intro H. unfold signed_sum.
  induction l as [|t l IH]; [reflexivity|]. cbn [filter].
  destruct (i_accountId t =? k)%nat eqn:E.
  - apply Nat.eqb_eq in E. exfalso. apply (H t); [left; reflexivity | exact E].
  - apply IH. intros t' Ht'. apply H. right. exact Ht'.
Qed.

Lemma accountUpdates_step_aggregates (m : UpdateMap) (done : list TxnInput) (t : TxnInput) :
  aggregates m done -> aggregates (accountUpdates_step m t) (done ++ [t]).
Proof.
  intros [ND [Keys Vals]].
  set (k := i_accountId t).
  assert (Cur : match Map_get m k with Some v => v | None => 0 end == signed_sum k done).
  { destruct (Map_get m k) as [v|] eqn:G; [exact (Vals k v G)|].
    rewrite signed_sum_absent; [reflexivity|].
    intros t' Ht' E. apply (Map_get_None _ _ G). apply Keys. exists t'. split; assumption. }
  assert (Shape : exists v, accountUpdates_step m t = Map_set m k v
                            /\ v == signed_sum k done + signed t).
  { unfold accountUpdates_step, signed. fold k. destruct (i_type t); eexists; split;
      try reflexivity; rewrite Cur; ring. }
  destruct Shape as [v [-> Hv]]. split; [|split].
  - apply Map_set_NoDup. exact ND.
  - intro k'. rewrite Map_set_keys, Keys. split.
    + intros [->|[t' [Ht' E]]].
      * exists t. split; [apply in_or_app; right; left; reflexivity | reflexivity].
      * exists t'. split; [apply in_or_app; left; exact Ht' | exact E].
    + intros [t' [Ht' E]]. apply in_app_or in Ht'. destruct Ht' as [Ht'|[<-|[]]].
      * right. exists t'. split; assumption.
      * left. symmetry. exact E.
  - intros k' v'. rewrite Map_get_set, signed_sum_app.
    unfold signed_sum at 2. cbn [filter]. fold k.
    destruct (k =? k')%nat eqn:E.
    + apply Nat.eqb_eq in E. subst k'. intro H. injection H as <-.
      cbn [fold_right]. rewrite Hv. ring.
    + intro H. rewrite (Vals k' v' H). cbn [fold_right]. ring.
Qed.

Lemma accountUpdates_fold (rows : list TxnInput) (m : UpdateMap) (done : list TxnInput) :
  aggregates m done ->
  aggregates (fold_left accountUpdates_step rows m) (done ++ rows).
Proof.
  revert m done. induction rows as [|t rows IH]; intros m done A; cbn [fold_left].
  - rewrite app_nil_r. exact A.
  - replace (done ++ t :: rows)%list with ((done ++ [t]) ++ rows)%list
      by (rewrite <- app_assoc; reflexivity).
    apply IH. apply accountUpdates_step_aggregates. exact A.
Qed.

(** The [Map] built from the valid rows has each account once, exactly the
    accounts some row is destined to, each with the sum of the signed
    amounts of its rows. *)
Lemma accountUpdates_spec (validTransactions : list TxnInput) :
  NoDup (map fst (accountUpdates validTransactions))
  /\ (forall t, In t validTransactions ->
                In (i_accountId t) (map fst (accountUpdates validTransactions)))
  /\ (forall k v, In (k, v) (accountUpdates validTransactions) ->
                  v == signed_sum k validTransactions
                  /\ exists t, In t validTransactions /\ i_accountId t = k).
Proof.
  assert (A : aggregates (accountUpdates validTransactions) validTransactions).
  { apply (accountUpdates_fold validTransactions [] []).
    split; [constructor|]. split.
    - intro k. split; [intros [] | intros [t [[] _]]].
    - intros k v H. discriminate H. }
  destruct A as [ND [Keys Vals]]. split; [exact ND|]. split.
  - intros t Ht. apply Keys. exists t. split; [exact Ht | reflexivity].
  - intros k v Hin. split.
    + apply Vals. apply Map_get_In; assumption.
    + apply Keys. apply (in_map fst) in Hin. exact Hin.
Qed.

(** Every valid row is destined to the account the loop was given. *)
Lemma process_row_account (user : ObjectId) (cats : list Category) (account : Account)
    (i : nat) (txn : Obj) (v : TxnInput) :
  process_row user cats account i txn = inl v -> i_accountId v = a_id account.
Proof.
  unfold process_row.
  repeat match goal with
         | |- context [if ?c then _ else _] => destruct c
         | |- context [match ?x with _ => _ end] => destruct x
         end; intro H; try discriminate H; injection H as <-; reflexivity.
Qed.

Lemma process_rows_account (user : ObjectId) (cats : list Category) (account : Account)
    (rows : list Obj) (i : nat) (v : TxnInput) :
  In v (fst (process_rows user cats account i rows)) -> i_accountId v = a_id account.
Proof.
  revert i. induction rows as [|txn rows IH]; intros i H; [contradiction|].
  cbn [process_rows] in H.
  destruct (process_rows user cats account (S i) rows) as [valid errs] eqn:E.
  specialize (IH (S i)). rewrite E in IH.
  destruct (process_row user cats account i txn) as [w|e] eqn:R; cbn [fst] in H.
  - destruct H as [<-|H]; [exact (process_row_account _ _ _ _ _ _ R) | exact (IH H)].
  - exact (IH H).
Qed.

Lemma process_rows_lengths (user : ObjectId) (cats : list Category) (account : Account)
    (rows : list Obj) (i : nat) :
  (List.length (fst (process_rows user cats account i rows))
   + List.length (snd (process_rows user cats account i rows)) = List.length rows)%nat.
Proof.
  revert i. induction rows as [|txn rows IH]; intro i; [reflexivity|].
  cbn [process_rows]. specialize (IH (S i)).
  destruct (process_rows user cats account (S i) rows) as [valid errs].
  destruct (process_row user cats account i txn); cbn [fst snd List.length] in *; lia.
Qed.

End BulkImport.

Section BulkImportExample.

Import TransactionModel TransactionController Ledger.

Lemma find_first_of_type (cats : list Category) (ty : TxType) (c : Category) :
  In c cats -> c_type c = ty ->
  exists c', find (fun cat => TxType_eqb (c_type cat) ty) cats = Some c'.
Proof.
  intros Hin Hty. destruct (find _ cats) as [c'|] eqn:F; [now exists c'|].
  exfalso. pose proof (find_none _ _ F c Hin) as N. cbn in N.
  rewrite Hty in N. destruct ty; discriminate N.
Qed.

(** The first row of the example is valid as soon as the user has an
    active income category. *)
Lemma process_row_pay (user : ObjectId) (cats : list Category) (account : Account)
    (d : Z) (c : Category) :
  In c cats -> c_type c = income ->
  exists category,
    process_row user cats account 0
      [("amount", JNum 100); ("description", JStr "Pay"); ("date", JDate d)]
    = inl (mkTxnInput user (a_id account) (c_id category) 100 "Pay" (Some d) income []).
Proof.
  intros Hin Hty. unfold process_row.
  cbn [get String.eqb Ascii.eqb Bool.eqb truthy negb orb parseFloat text_of date_of].
  change (leb (Math_abs 100) 0) with false.
  change (leb 0 100) with true.
  change (negb (Qeq_bool 100 0)) with true.
  cbn [negb orb].
  destruct (find_first_of_type cats income c Hin Hty) as [c' F].
  destruct (find (fun cat => includes (toLowerCase (c_name cat)) (toLowerCase "other")
                             && TxType_eqb (c_type cat) income) cats) as [c1|].
  - exists c1. reflexivity.
  - rewrite F. exists c'. reflexivity.
Qed.

Lemma findById_unique (db : Db) (a : Account) :
  NoDup (map a_id (accounts db)) -> In a (accounts db) ->
  AccountModel.findById db (a_id a) = Some a.
Proof.
  intros ND Hin. unfold AccountModel.findById.
  destruct (find _ (accounts db)) as [x|] eqn:F.
  - apply find_some in F. destruct F as [Hx E]. apply Nat.eqb_eq in E.
    f_equal. apply (NoDup_map_inj a_id (accounts db)); assumption.
  - pose proof (find_none _ _ F a Hin) as N. cbn in N.
    rewrite Nat.eqb_refl in N. discriminate N.
Qed.

End BulkImportExample.

(* ================================================================== *)
(** ** What creation guarantees for budgets and categories *)
(* ================================================================== *)

Section CreationGuards.

Import TransactionModel TransactionController BudgetController BudgetSpec CategorySpec.

(** X2: a budget is created only when no active budget of the owner and the
    category has a window that meets the new one; otherwise the budgets
    stay as they were. *)
Lemma createBudget_no_overlap (db : Db) (user : ObjectId) (body : Obj) :
  no_overlap (budgets db) -> no_overlap (budgets (snd (createBudget db user body))).
Proof.
  intro Inv. unfold createBudget.
  destruct (negb (createBudgetValidation body)); [exact Inv|].
  destruct (id_of _) as [categoryId|]; [|exact Inv].
  destruct (date_of (get body "startDate")) as [startDate|]; [|exact Inv].
  destruct (date_of (get body "endDate")) as [endDate|]; [|exact Inv].
  destruct (CategoryModel.findOne db _); [|exact Inv].
  destruct (findOne db _) eqn:F; [exact Inv|].
  destruct (startDate >=? endDate)%Z; [exact Inv|].
  destruct (text_of (get body "name")) as [name|]; [|exact Inv].
  destruct (Number (get body "amount")) as [amount|]; [|exact Inv].
  destruct (text_of _) as [period|]; [|exact Inv].
  destruct (Number _) as [alertThreshold|]; [|exact Inv].
  cbn [snd save_new budgets bump with_budgets].
  set (new := mkBudget (nextId db) user categoryId (trim name) amount period
                       startDate endDate alertThreshold true).
  assert (Q : forall b, In b (budgets db) -> b_isActive b = true ->
                        b_userId b = user -> b_categoryId b = categoryId ->
                        ~ ((b_startDate b <= endDate)%Z /\ (startDate <= b_endDate b)%Z)).
  { intros b Hb Ha Hu Hc [O1 O2].
    pose proof (find_none _ _ F b Hb) as N. unfold overlap_query in N.
    rewrite Hu, Hc, Ha, !Nat.eqb_refl in N. cbn [andb] in N.
    apply andb_false_iff in N. destruct N as [N|N].
    - apply Z.leb_gt in N. lia.
    - rewrite Z.geb_leb in N. apply Z.leb_gt in N. lia. }
  intros i j x y Hi Hj Hij Ax Ay Hu Hc [O1 O2].
  destruct (Nat.lt_ge_cases i (List.length (budgets db))) as [Li|Li];
    destruct (Nat.lt_ge_cases j (List.length (budgets db))) as [Lj|Lj].
  - rewrite nth_error_app1 in Hi, Hj by assumption.
    apply (Inv i j x y); try assumption. split; assumption.
  - rewrite nth_error_app1 in Hi by assumption.
    rewrite nth_error_app2 in Hj by assumption.
    destruct (j - List.length (budgets db))%nat as [|n]; cbn in Hj;
      [|destruct n; discriminate Hj].
    injection Hj as <-. cbn in *.
    apply (Q x (nth_error_In _ _ Hi) Ax Hu Hc). split; assumption.
  - rewrite nth_error_app2 in Hi by assumption.
    rewrite nth_error_app1 in Hj by assumption.
    destruct (i - List.length (budgets db))%nat as [|n]; cbn in Hi;
      [|destruct n; discriminate Hi].
    injection Hi as <-. cbn in *.
    apply (Q y (nth_error_In _ _ Hj) Ay (eq_sym Hu) (eq_sym Hc)). split; assumption.
  - rewrite nth_error_app2 in Hi, Hj by assumption.
    destruct (i - List.length (budgets db))%nat as [|n] eqn:Ei; cbn in Hi;
      [|destruct n; discriminate Hi].
    destruct (j - List.length (budgets db))%nat as [|m] eqn:Ej; cbn in Hj;
      [|destruct m; discriminate Hj].
    lia.
Qed.

(** X3: a budget request whose window meets the window of an active
    budget of the requester on the same category is turned down, and
    the database stays as it was. *)
Lemma createBudget_rejects_overlap (db : Db) (user : ObjectId) (body : Obj)
    (categoryId : ObjectId) (startDate endDate : Date) (b : Budget) :
  id_of (get body "categoryId") = Some categoryId ->
  date_of (get body "startDate") = Some startDate ->
  date_of (get body "endDate") = Some endDate ->
  In b (budgets db) -> b_isActive b = true ->
  b_userId b = user -> b_categoryId b = categoryId ->
  (b_startDate b <= endDate)%Z -> (startDate <= b_endDate b)%Z ->
  snd (createBudget db user body) = db
  /\ status (fst (createBudget db user body)) <> 201%nat.
Proof.
  intros Hc Hs He Hb Ha Hu Hcat O1 O2. unfold createBudget.
  destruct (negb (createBudgetValidation body)); [split; [reflexivity | discriminate]|].
  rewrite Hc, Hs, He.
  destruct (CategoryModel.findOne db _); [|split; [reflexivity | discriminate]].
  destruct (findOne db _) eqn:F; [split; [reflexivity | discriminate]|].
  exfalso. pose proof (find_none _ _ F b Hb) as N. unfold overlap_query in N.
  rewrite Hu, Hcat, Ha, !Nat.eqb_refl in N. cbn [andb] in N.
  apply andb_false_iff in N. destruct N as [N|N].
  - apply Z.leb_gt in N. lia.
  - rewrite Z.geb_leb in N. apply Z.leb_gt in N. lia.
Qed.

(** X4: a transaction is created only with an active category of the owner
    that has the type of the transaction. *)
Lemma createTransaction_category_type (db : Db) (user : ObjectId) (body : Obj) :
  status (fst (createTransaction db user body)) = 201%nat ->
  exists t c,
    transactions (snd (createTransaction db user body)) = (transactions db ++ [t])%list
    /\ In c (categories db) /\ c_id c = t_categoryId t /\ c_type c = t_type t
    /\ c_userId c = user /\ c_isActive c = true.
Proof.
  unfold createTransaction.
  destruct (negb (createTransactionValidation body)); [discriminate|].
  destruct (AccountModel.findOne db _) as [account|]; [|discriminate].
  destruct (CategoryModel.findOne db _) as [category|] eqn:Hc; [|discriminate].
  destruct (Number _) as [n|]; [|discriminate].
  destruct (TxType_of_js _) as [ty|]; [|discriminate].
  destruct (id_of (get body "accountId")) as [acc_id|]; [|discriminate].
  destruct (id_of (get body "categoryId")) as [cat_id|]; [|discriminate].
  destruct (text_of _) as [description|]; [|discriminate].
  destruct (date_of _) as [date|]; [|discriminate].
  destruct (leb (Math_abs n) 0); [discriminate|].
  cbn [construct i_date i_userId i_accountId i_categoryId i_amount i_description
       i_type i_tags].
  unfold TransactionModel.save_new.
  match goal with
  | |- context [if TransactionModel.validate ?t then _ else _] =>
      destruct (TransactionModel.validate t)
  end; [|discriminate].
  unfold AccountModel.save.
  match goal with
  | |- context [if AccountModel.validate ?a then _ else _] =>
      destruct (AccountModel.validate a)
  end; [|discriminate].
  intros _. cbn.
  apply find_some in Hc. destruct Hc as [Hin Hp].
  apply andb_true_iff in Hp. destruct Hp as [Hp Hact].
  apply andb_true_iff in Hp. destruct Hp as [Hp Hty].
  apply andb_true_iff in Hp. destruct Hp as [Hid Hu].
  apply Nat.eqb_eq in Hid, Hu. apply TxType_eqb_eq in Hty.
  eexists. exists category. repeat split; try eassumption; try reflexivity.
Qed.

End CreationGuards.

(* ================================================================== *)
(** ** The balance invariant on amounts in whole cents *)
(* ================================================================== *)

Section WholeCents.

Import Ledger.

Lemma net_cons (i : ObjectId) (t : Transaction) (l : list Transaction) :
  net i (t :: l) == effect_on i t + net i l.
Proof.
  unfold net, linked_sum, effect_on. cbn [filter].
  destruct (t_accountId t =? i)%nat; destruct (t_type t); cbn [andb TxType_eqb fold_right]; ring.
Qed.

Lemma net_nil (i : ObjectId) : net i [] == 0.
Proof. reflexivity. Qed.

Lemma net_app (i : ObjectId) (l1 l2 : list Transaction) :
  net i (l1 ++ l2) == net i l1 + net i l2.
Proof.
  induction l1 as [|t l1 IH]; cbn [app].
  - rewrite net_nil. ring.
  - rewrite !net_cons, IH. ring.
Qed.

Lemma replace_by_absent {A : Type} (id : A -> ObjectId) (x : A) (l : list A) :
  (forall y, In y l -> id y <> id x) -> replace_by id x l = l.
Proof.
  intro H. unfold replace_by. rewrite <- (map_id l) at 2. apply map_ext_in.
  intros y Hy. destruct (id y =? id x)%nat eqn:E; [|reflexivity].
  apply Nat.eqb_eq in E. exfalso. exact (H y Hy E).
Qed.

Lemma remove_by_absent {A : Type} (id : A -> ObjectId) (i : ObjectId) (l : list A) :
  (forall y, In y l -> id y <> i) -> remove_by id i l = l.
Proof.
  intro H. unfold remove_by. induction l as [|y l IH]; [reflexivity|]. cbn [filter].
  destruct (id y =? i)%nat eqn:E.
  - apply Nat.eqb_eq in E. exfalso. apply (H y); [left; reflexivity | exact E].
  - cbn [negb]. f_equal. apply IH. intros z Hz. apply H. right. exact Hz.
Qed.

Lemma net_replace (i : ObjectId) (e u : Transaction) (l : list Transaction) :
  NoDup (map t_id l) -> In e l -> t_id u = t_id e ->
  net i (replace_by t_id u l) == net i l - effect_on i e + effect_on i u.
Proof.
  intros ND Hin Hid. induction l as [|t l IH]; [contradiction|].
  cbn [map] in ND. inversion ND as [|? ? Hnot ND']; subst.
  change (replace_by t_id u (t :: l))
    with ((if (t_id t =? t_id u)%nat then u else t) :: replace_by t_id u l).
  destruct Hin as [->|Hin].
  - rewrite Hid, Nat.eqb_refl.
    rewrite replace_by_absent.
    + rewrite !net_cons. ring.
    + intros y Hy E. apply Hnot. rewrite Hid in E. rewrite <- E. now apply in_map.
  - destruct (t_id t =? t_id u)%nat eqn:E.
    + apply Nat.eqb_eq in E. exfalso. apply Hnot. rewrite E, Hid. now apply in_map.
    + rewrite !net_cons, (IH ND' Hin). ring.
Qed.

Lemma net_remove (i : ObjectId) (e : Transaction) (l : list Transaction) :
  NoDup (map t_id l) -> In e l ->
  net i (remove_by t_id (t_id e) l) == net i l - effect_on i e.
Proof.
  intros ND Hin. induction l as [|t l IH]; [contradiction|].
  cbn [map] in ND. inversion ND as [|? ? Hnot ND']; subst.
  unfold remove_by. cbn [filter]. fold (remove_by t_id (t_id e) l).
  destruct Hin as [->|Hin].
  - rewrite Nat.eqb_refl. cbn [negb]. rewrite remove_by_absent.
    + rewrite net_cons. ring.
    + intros y Hy E. apply Hnot. rewrite <- E. now apply in_map.
  - destruct (t_id t =? t_id e)%nat eqn:E.
    + apply Nat.eqb_eq in E. exfalso. apply Hnot. rewrite E. now apply in_map.
    + cbn [negb]. rewrite !net_cons, (IH ND' Hin). ring.
Qed.

Lemma ledger_ok_off (db : Db) (f : ObjectId -> Q) :
  (forall i, f i == 0) -> (ledger_off db f <-> ledger_ok db).
Proof.
  intro Hf. unfold ledger_off, ledger_ok, balanced, net. split; intros H a Ha.
  - specialize (H a Ha). rewrite Hf in H. rewrite Qplus_0_r in H. rewrite H. ring.
  - rewrite Hf, (H a Ha). ring.
Qed.

End WholeCents.

Section LedgerSteps.

Import Ledger TransactionModel TransactionController.

(** The signed amount of a transaction of type [ty]. *)
Lemma effect_on_spec (i : ObjectId) (t : Transaction) :
  effect_on i t ==
  if (i =? t_accountId t)%nat
  then match t_type t with income => t_amount t | expense => - t_amount t end
  else 0.
Proof. unfold effect_on. rewrite Nat.eqb_sym. reflexivity. Qed.

Lemma apply_effect_balance (ty : TxType) (amount : Q) (a : Account) :
  whole_cents (a_balance a) -> whole_cents amount ->
  a_balance (apply_effect ty amount a)
  == a_balance a + match ty with income => amount | expense => - amount end.
Proof.
  intros Hb Ha. destruct ty; cbn [apply_effect set_balance a_balance].
  - apply round2_cents. apply whole_cents_plus; assumption.
  - rewrite round2_cents by (apply whole_cents_minus; assumption). ring.
Qed.

Lemma reverse_effect_balance (ty : TxType) (amount : Q) (a : Account) :
  whole_cents (a_balance a) -> whole_cents amount ->
  a_balance (reverse_effect ty amount a)
  == a_balance a - match ty with income => amount | expense => - amount end.
Proof.
  intros Hb Ha. destruct ty; cbn [reverse_effect set_balance a_balance].
  - apply round2_cents. apply whole_cents_minus; assumption.
  - rewrite round2_cents by (apply whole_cents_plus; assumption). ring.
Qed.

Lemma apply_effect_cents (ty : TxType) (amount : Q) (a : Account) :
  whole_cents (a_balance (apply_effect ty amount a)).
Proof. destruct ty; apply round2_whole_cents. Qed.

Lemma reverse_effect_cents (ty : TxType) (amount : Q) (a : Account) :
  whole_cents (a_balance (reverse_effect ty amount a)).
Proof. destruct ty; apply round2_whole_cents. Qed.

Lemma apply_effect_validate (ty : TxType) (amount : Q) (a : Account) :
  AccountModel.validate (apply_effect ty amount a) = AccountModel.validate a.
Proof. destruct ty; reflexivity. Qed.

Lemma reverse_effect_validate (ty : TxType) (amount : Q) (a : Account) :
  AccountModel.validate (reverse_effect ty amount a) = AccountModel.validate a.
Proof. destruct ty; reflexivity. Qed.

Lemma in_replace_by (x : Account) (l : list Account) (a : Account) :
  In a (replace_by a_id x l) ->
  a = x \/ (In a l /\ a_id a <> a_id x).
Proof.
  unfold replace_by. intro H. apply in_map_iff in H. destruct H as [y [E Hy]].
  destruct (a_id y =? a_id x)%nat eqn:T.
  - left. symmetry. exact E.
  - right. subst a. split; [exact Hy | now apply Nat.eqb_neq].
Qed.

Lemma replace_by_keeps_other (x : Account) (l : list Account) (y : Account) :
  In y l -> a_id y <> a_id x -> In y (replace_by a_id x l).
Proof.
  intros Hy N. unfold replace_by. apply in_map_iff. exists y. split; [|exact Hy].
  apply Nat.eqb_neq in N. rewrite N. reflexivity.
Qed.

Lemma replace_by_puts (x0 x : Account) (l : list Account) :
  In x0 l -> a_id x = a_id x0 -> In x (replace_by a_id x l).
Proof.
  intros H0 E. unfold replace_by. apply in_map_iff. exists x0. split; [|exact H0].
  rewrite E, Nat.eqb_refl. reflexivity.
Qed.

(** Saving account [x'], a copy of the stored [x] whose balance has moved
    by [delta], moves the offset of that account by [delta]. *)
Lemma save_off (db db' : Db) (f : ObjectId -> Q) (x x' : Account) (delta : Q) :
  NoDup (map a_id (accounts db)) -> In x (accounts db) ->
  a_id x' = a_id x -> a_initialBalance x' = a_initialBalance x ->
  a_balance x' == a_balance x + delta ->
  AccountModel.save db x' = Some db' -> ledger_off db f ->
  ledger_off db' (fun i => f i - (if (i =? a_id x)%nat then delta else 0)).
Proof.
  intros ND Hx Eid Eib Eb Hsave Off. unfold AccountModel.save in Hsave.
  cbn [AccountModel.pre_save] in Hsave.
  destruct (AccountModel.validate x'); [|discriminate]. injection Hsave as <-.
  intros a Ha. cbn [accounts transactions with_accounts] in *.
  apply in_replace_by in Ha. destruct Ha as [->|[Ha N]].
  - rewrite Eid, Nat.eqb_refl, Eib. pose proof (Off x Hx) as O. lra.
  - rewrite Eid in N. apply Nat.eqb_neq in N. rewrite N.
    pose proof (Off a Ha) as O. lra.
Qed.

(** Changing the transactions while the accounts stay moves every offset
    by the change of the net sum. *)
Lemma transactions_off (db db1 : Db) (f g : ObjectId -> Q) :
  accounts db1 = accounts db ->
  (forall i, net i (transactions db1) == net i (transactions db) + g i) ->
  ledger_off db f -> ledger_off db1 (fun i => f i + g i).
Proof.
  intros Ea En Off a Ha. rewrite Ea in Ha.
  pose proof (Off a Ha) as O. pose proof (En (a_id a)) as N. lra.
Qed.

Lemma save_sound (db : Db) (x x' : Account) :
  sound db -> In x (accounts db) -> a_id x' = a_id x ->
  AccountModel.validate x' = true -> whole_cents (a_balance x') ->
  exists db',
    AccountModel.save db x' = Some db' /\ sound db'
    /\ nextId db' = nextId db /\ transactions db' = transactions db
    /\ accounts db' = replace_by a_id x' (accounts db).
Proof.
  intros [NDa [NDt [Fresh [Acc Txn]]]] Hx Eid Val Cents.
  unfold AccountModel.save. cbn [AccountModel.pre_save]. rewrite Val.
  exists (with_accounts db (replace_by a_id x' (accounts db))).
  split; [reflexivity|]. split; [|repeat split; reflexivity].
  unfold sound. cbn [accounts transactions nextId with_accounts].
  split; [|split; [|split; [|split]]].
  - rewrite map_replace_by; [exact NDa | intros; congruence].
  - exact NDt.
  - exact Fresh.
  - intros a H. apply in_replace_by in H.
    destruct H as [->|[H _]]; [split; assumption | apply (Acc a H)].
  - intros t H. split; [apply (Txn t H)|].
    destruct (Txn t H) as [_ [a [Ha Ea]]].
    destruct (Nat.eq_dec (a_id a) (a_id x')) as [E|N].
    + exists x'. split; [|congruence].
      apply (replace_by_puts x); assumption.
    + exists a. split; [|exact Ea]. apply replace_by_keeps_other; assumption.
Qed.

Lemma insert_sound (db : Db) (t : Transaction) (a : Account) :
  sound db -> whole_cents (t_amount t) -> In a (accounts db) -> a_id a = t_accountId t ->
  sound (bump (with_transactions db (transactions db ++ [with_id (nextId db) t]))).
Proof.
  intros [NDa [NDt [Fresh [Acc Txn]]]] Cents Ha Ea.
  unfold sound. cbn [accounts transactions nextId bump with_transactions].
  split; [exact NDa|]. split; [|split; [|split; [exact Acc|]]].
  - rewrite map_app. cbn [map with_id t_id]. apply NoDup_app. repeat split.
    + exact NDt.
    + repeat constructor. intros [].
    + intros i Hi [Hj|[]]. subst i. apply in_map_iff in Hi.
      destruct Hi as [t0 [E0 H0]]. specialize (Fresh t0 H0). lia.
  - intros t0 H0. apply in_app_or in H0. destruct H0 as [H0|[<-|[]]].
    + specialize (Fresh t0 H0). lia.
    + cbn. lia.
  - intros t0 H. apply in_app_or in H. destruct H as [H|[<-|[]]]; [apply (Txn t0 H)|].
    split; [exact Cents|]. exists a. split; [exact Ha | exact Ea].
Qed.

Lemma replace_sound (db : Db) (e u : Transaction) (a : Account) :
  sound db -> In e (transactions db) -> t_id u = t_id e ->
  whole_cents (t_amount u) -> In a (accounts db) -> a_id a = t_accountId u ->
  sound (with_transactions db (replace_by t_id u (transactions db))).
Proof.
  intros [NDa [NDt [Fresh [Acc Txn]]]] He Eid Cents Ha Ea.
  unfold sound. cbn [accounts transactions nextId with_transactions].
  assert (R : forall t, In t (replace_by t_id u (transactions db)) ->
                        t = u \/ In t (transactions db)).
  { intros t H. unfold replace_by in H. apply in_map_iff in H.
    destruct H as [y [E Hy]]. destruct (t_id y =? t_id u)%nat; [left|right]; congruence. }
  split; [exact NDa|]. split; [|split; [|split; [exact Acc|]]].
  - unfold replace_by. rewrite map_map.
    rewrite (map_ext_in _ t_id); [exact NDt|].
    intros y Hy. destruct (t_id y =? t_id u)%nat eqn:T; [|reflexivity].
    apply Nat.eqb_eq in T. congruence.
  - intros t H. destruct (R t H) as [->|H']; [rewrite Eid|]; apply Fresh; assumption.
  - intros t H. destruct (R t H) as [->|H']; [|apply (Txn t H')].
    split; [exact Cents|]. exists a. split; assumption.
Qed.

Lemma remove_sound (db : Db) (i : ObjectId) :
  sound db -> sound (findByIdAndDelete db i).
Proof.
  intros [NDa [NDt [Fresh [Acc Txn]]]].
  unfold sound, findByIdAndDelete. cbn [accounts transactions nextId with_transactions].
  assert (R : forall t, In t (remove_by t_id i (transactions db)) -> In t (transactions db)).
  { intros t H. unfold remove_by in H. apply filter_In in H. apply H. }
  split; [exact NDa|]. split; [|split; [|split; [exact Acc|]]].
  - unfold remove_by. clear - NDt. induction (transactions db) as [|t l IH]; [constructor|].
    cbn [map] in NDt. inversion NDt as [|? ? Hnot ND']; subst. cbn [filter].
    destruct (negb (t_id t =? i)%nat); [|now apply IH].
    cbn [map]. constructor; [|now apply IH].
    intro H. apply Hnot. apply in_map_iff in H. destruct H as [y [E Hy]].
    apply filter_In in Hy. rewrite <- E. apply in_map. apply Hy.
  - intros t H. apply Fresh. exact (R t H).
  - intros t H. apply (Txn t (R t H)).
Qed.

Lemma findById_exists (db : Db) (a : Account) :
  In a (accounts db) ->
  exists x, AccountModel.findById db (a_id a) = Some x
            /\ In x (accounts db) /\ a_id x = a_id a.
Proof.
  intro Ha. unfold AccountModel.findById.
  destruct (find _ (accounts db)) as [x|] eqn:F.
  - exists x. split; [reflexivity|]. apply find_some in F.
    destruct F as [Hx E]. split; [exact Hx | now apply Nat.eqb_eq].
  - pose proof (find_none _ _ F a Ha) as N. cbn in N.
    rewrite Nat.eqb_refl in N. discriminate N.
Qed.

End LedgerSteps.

Section LedgerCreateDelete.

Import Ledger TransactionModel TransactionController.

Lemma ledger_ok_zero (db : Db) : ledger_ok db <-> ledger_off db (fun _ => 0).
Proof. symmetry. apply ledger_ok_off. intro i. reflexivity. Qed.

(** Creating a transaction with an amount in whole cents keeps the
    balances equal to initial balance plus income minus expenses. *)
Lemma createTransaction_ledger (db : Db) (user : ObjectId) (body : Obj) :
  sound db -> ledger_ok db ->
  (forall q, get body "amount" = JNum q -> whole_cents q) ->
  sound (snd (createTransaction db user body))
  /\ ledger_ok (snd (createTransaction db user body)).
Proof.
  intros S L Hq. unfold createTransaction.
  destruct (negb (createTransactionValidation body)) eqn:Val; [split; assumption|].
  destruct (AccountModel.findOne db _) as [account|] eqn:Ha; [|split; assumption].
  destruct (CategoryModel.findOne db _) as [category|]; [|split; assumption].
  destruct (Number (get body "amount")) as [n|] eqn:Hn; [|split; assumption].
  destruct (TxType_of_js _) as [ty|]; [|split; assumption].
  destruct (id_of (get body "accountId")) as [acc_id|] eqn:Hacc; [|split; assumption].
  destruct (id_of (get body "categoryId")) as [cat_id|]; [|split; assumption].
  destruct (text_of _) as [description|]; [|split; assumption].
  destruct (date_of _) as [date|]; [|split; assumption].
  destruct (leb (Math_abs n) 0); [split; assumption|].
  cbn [construct i_date i_userId i_accountId i_categoryId i_amount i_description
       i_type i_tags].
  (* the amount has passed the validator: it is a number, in whole cents *)
  assert (Cn : whole_cents n).
  { apply negb_false_iff in Val. unfold createTransactionValidation in Val.
    repeat (apply andb_true_iff in Val; destruct Val as [Val ?]).
    destruct (get body "amount") as [| | |q| | | |] eqn:G;
      try discriminate. cbn in Hn. injection Hn as <-. apply Hq. reflexivity. }
  apply find_some in Ha. destruct Ha as [Hin Hp].
  try rewrite Hacc in Hp. cbn beta iota in Hp.
  apply andb_true_iff in Hp. destruct Hp as [Hp _].
  apply andb_true_iff in Hp. destruct Hp as [Hid _]. apply Nat.eqb_eq in Hid.
  set (amount := Math_abs n).
  assert (Ca : whole_cents amount) by (apply whole_cents_abs; exact Cn).
  set (t := mkTransaction 0 user acc_id cat_id (round2 amount) (trim description)
                          date ty (clean_tags (get body "tags"))).
  unfold save_new. destruct (validate t); [|split; assumption].
  set (t' := with_id (nextId db) t).
  set (db1 := bump (with_transactions db (transactions db ++ [t']))).
  assert (S1 : sound db1).
  { apply (insert_sound db t account S); [apply round2_whole_cents | exact Hin | exact Hid]. }
  destruct S as [NDa [NDt [Fresh [Acc Txn]]]].
  destruct (Acc account Hin) as [Va Cb].
  destruct (save_sound db1 account (apply_effect ty amount account) S1 Hin
              (proj1 (apply_effect_frame ty amount account))
              (eq_trans (apply_effect_validate ty amount account) Va)
              (apply_effect_cents ty amount account))
    as [db2 [Hsave [S2 _]]].
  rewrite Hsave. cbn [snd]. split; [exact S2|].
  apply ledger_ok_zero in L.
  assert (O1 : ledger_off db1 (fun i => 0 + effect_on i t')).
  { apply (transactions_off db db1); [reflexivity | | exact L].
    intro i. cbn [db1 transactions bump with_transactions].
    rewrite net_app, net_cons, net_nil. ring. }
  pose proof (save_off db1 db2 _ account (apply_effect ty amount account) _
                NDa Hin (proj1 (apply_effect_frame ty amount account))
                (proj2 (apply_effect_frame ty amount account))
                (apply_effect_balance ty amount account Cb Ca) Hsave O1) as O2.
  apply (ledger_ok_off db2 _) in O2; [exact O2|].
  intro i. cbn beta. rewrite effect_on_spec. cbn [t' with_id t t_accountId t_type t_amount].
  rewrite <- Hid. destruct (i =? a_id account)%nat.
  - pose proof (round2_cents amount Ca) as R. destruct ty; lra.
  - ring.
Qed.

(** Deleting a transaction keeps them equal. *)
Lemma deleteTransaction_ledger (db : Db) (user transactionId : ObjectId) :
  sound db -> ledger_ok db ->
  sound (snd (deleteTransaction db user transactionId))
  /\ ledger_ok (snd (deleteTransaction db user transactionId)).
Proof.
  intros S L. unfold deleteTransaction.
  destruct (findOne db _) as [transaction|] eqn:Ht; [|split; assumption].
  apply find_some in Ht. destruct Ht as [Hin _].
  pose proof S as [NDa [NDt [Fresh [Acc Txn]]]].
  destruct (Txn transaction Hin) as [Ct [a [Ha Ea]]].
  destruct (findById_exists db a Ha) as [account [F [Hacc Eid]]].
  rewrite Ea in F, Eid. rewrite F.
  destruct (Acc account Hacc) as [Val Cb].
  set (ty := t_type transaction). set (amount := t_amount transaction).
  destruct (save_sound db account (reverse_effect ty amount account) S Hacc
              (proj1 (reverse_effect_frame ty amount account))
              (eq_trans (reverse_effect_validate ty amount account) Val)
              (reverse_effect_cents ty amount account))
    as [db1 [Hsave [S1 [_ [Et _]]]]].
  rewrite Hsave. cbn [snd]. split; [apply remove_sound; exact S1|].
  apply ledger_ok_zero in L.
  pose proof (save_off db db1 _ account (reverse_effect ty amount account) _
                NDa Hacc (proj1 (reverse_effect_frame ty amount account))
                (proj2 (reverse_effect_frame ty amount account))
                (reverse_effect_balance ty amount account Cb Ct) Hsave L) as O1.
  assert (O2 : ledger_off (findByIdAndDelete db1 (t_id transaction))
                 (fun i => (0 - (if (i =? a_id account)%nat
                                 then - match ty with income => amount | expense => - amount end
                                 else 0))
                           + - effect_on i transaction)).
  { apply (transactions_off db1); [reflexivity | | exact O1].
    intro i. unfold findByIdAndDelete. cbn [transactions with_transactions].
    rewrite Et. rewrite (net_remove i transaction (transactions db) NDt Hin). ring. }
  apply (ledger_ok_off _ _) in O2; [exact O2|].
  intro i. cbn beta. rewrite effect_on_spec, Eid.
  fold ty amount. destruct (i =? t_accountId transaction)%nat; destruct ty; ring.
Qed.

End LedgerCreateDelete.

Section LedgerUpdate.

Import Ledger TransactionModel TransactionController.

Lemma transaction_assign_frame (t t' : Transaction) (key : string) (v : JsVal) :
  assign t (key, v) = Some t' ->
  (key <> "_id" -> t_id t' = t_id t)
  /\ (whole_cents (t_amount t) -> whole_cents (t_amount t'))
  /\ (t_accountId t' = t_accountId t
      \/ (key = "accountId" /\ id_of v = Some (t_accountId t'))).
Proof.
  unfold assign.
  repeat match goal with
         | |- context [if String.eqb key ?k then _ else _] =>
             let E := fresh "E" in
             destruct (String.eqb key k) eqn:E;
             [apply String.eqb_eq in E; subst key|]
         end.
  all: repeat match goal with
              | |- context [match ?x with _ => _ end] => destruct x eqn:?
              end.
  all: intro H; try discriminate H; injection H as <-; cbn.
  all: split; [intro N; try reflexivity; exfalso; apply N; reflexivity|].
  all: split; [intro W; try exact W; apply round2_whole_cents|].
  all: first [left; reflexivity | right; split; reflexivity].
Qed.

Lemma transaction_assign_all_frame (updates : Obj) (t t' : Transaction) :
  assign_all t updates = Some t' ->
  (has updates "_id" = false -> t_id t' = t_id t)
  /\ (whole_cents (t_amount t) -> whole_cents (t_amount t'))
  /\ (t_accountId t' = t_accountId t
      \/ exists v, In ("accountId", v) updates /\ id_of v = Some (t_accountId t')).
Proof.
  revert t. induction updates as [|[k v] updates IH]; intros t H; cbn [assign_all] in H.
  - injection H as <-. repeat split; [tauto | left; reflexivity].
  - destruct (assign t (k, v)) as [t1|] eqn:E; [|discriminate].
    destruct (transaction_assign_frame _ _ _ _ E) as [I1 [C1 A1]].
    destruct (IH _ H) as [I2 [C2 A2]].
    split; [|split; [tauto|]].
    + unfold has. simpl. intro N. apply orb_false_iff in N. destruct N as [N1 N2].
      rewrite (I2 N2). apply I1. intro K. subst k. simpl in N1. discriminate.
    + destruct A2 as [A2|[w [Hw Ew]]].
      * destruct A1 as [A1|[-> A1]].
        -- left. congruence.
        -- right. exists v. split; [left; reflexivity | congruence].
      * right. exists w. split; [right; exact Hw | exact Ew].
Qed.

(** Updating a transaction keeps the balances equal to initial balance
    plus income minus expenses. *)
Lemma updateTransaction_ledger (db : Db) (user transactionId : ObjectId) (updates : Obj) :
  sound db -> ledger_ok db -> NoDup (keys updates) ->
  Payload.names_only Payload.transaction_paths updates = true ->
  sound (snd (updateTransaction db user transactionId updates))
  /\ ledger_ok (snd (updateTransaction db user transactionId updates)).
Proof.
  intros S L NDk Paths. unfold updateTransaction.
  destruct (negb (updateTransactionValidation updates)); [split; assumption|].
  destruct (findOne db _) as [existing|] eqn:Hex; [|split; assumption].
  match goal with |- context [if negb ?c then _ else _] => destruct c eqn:AOK end;
    cbn [negb]; [|split; assumption].
  match goal with |- context [if negb ?c then _ else _] => destruct c end;
    cbn [negb]; [|split; assumption].
  destruct (assign_all existing updates) as [updated|] eqn:E; [|split; assumption].
  apply find_some in Hex. destruct Hex as [Hin _].
  pose proof S as [NDa [NDt [Fresh [Acc Txn]]]].
  destruct (Txn existing Hin) as [Ce [a0 [Ha0 Ea0]]].
  destruct (transaction_assign_all_frame _ _ _ E) as [Eid [Cu Au]].
  specialize (Cu Ce). specialize (Eid (transaction_paths_no_id _ Paths)).
  (* the account of the updated transaction is stored *)
  assert (New : exists a, In a (accounts db) /\ a_id a = t_accountId updated).
  { destruct Au as [Au|[v [Hv Ev]]]; [exists a0; split; congruence|].
    rewrite (get_In _ _ _ NDk Hv) in AOK.
    destruct v; try discriminate Ev. cbn in Ev. injection Ev as Ev.
    cbn [truthy differs_from andb id_of] in AOK.
    destruct (n =? t_accountId existing)%nat eqn:T; cbn [negb] in AOK.
    - apply Nat.eqb_eq in T. exists a0. split; congruence.
    - destruct (AccountModel.findOne db _) as [acc|] eqn:F; [|discriminate].
      apply find_some in F. destruct F as [Hacc Hp].
      apply andb_true_iff in Hp. destruct Hp as [Hp _].
      apply andb_true_iff in Hp. destruct Hp as [Hp _]. apply Nat.eqb_eq in Hp.
      exists acc. split; congruence. }
  destruct New as [a1 [Ha1 Ea1]].
  rewrite (transaction_save_changes_same db existing updated Eid).
  unfold save. destruct (validate updated); [|split; assumption].
  cbv zeta.
  set (db1 := with_transactions db (replace_by t_id updated (transactions db))).
  assert (S1 : sound db1) by (apply (replace_sound db existing updated a1); assumption).
  apply ledger_ok_zero in L.
  assert (O1 : ledger_off db1
                 (fun i => 0 + (- effect_on i existing + effect_on i updated))).
  { apply (transactions_off db db1); [reflexivity | | exact L].
    intro i. cbn [db1 transactions with_transactions].
    rewrite (net_replace i existing updated _ NDt Hin Eid). ring. }
  set (se := match t_type existing with
             | income => t_amount existing | expense => - t_amount existing end).
  set (su := match t_type updated with
             | income => t_amount updated | expense => - t_amount updated end).
  destruct (findById_exists db a0 Ha0) as [oldAccount [Fo [Ho Eo]]].
  rewrite Ea0 in Fo, Eo.
  change (AccountModel.findById db1 (t_accountId existing))
    with (AccountModel.findById db (t_accountId existing)).
  rewrite Fo.
  destruct (Acc oldAccount Ho) as [Vo Co].
  destruct (t_accountId existing =? t_accountId updated)%nat eqn:Same.
  - apply Nat.eqb_eq in Same.
    set (mid := reverse_effect (t_type existing) (t_amount existing) oldAccount).
    set (new := apply_effect (t_type updated) (t_amount updated) mid).
    assert (Nid : a_id new = a_id oldAccount).
    { unfold new, mid. rewrite (proj1 (apply_effect_frame _ _ _)).
      apply reverse_effect_frame. }
    assert (Nib : a_initialBalance new = a_initialBalance oldAccount).
    { unfold new, mid. rewrite (proj2 (apply_effect_frame _ _ _)).
      apply reverse_effect_frame. }
    assert (Nb : a_balance new == a_balance oldAccount + (su - se)).
    { unfold new.
      rewrite (apply_effect_balance _ _ mid (reverse_effect_cents _ _ _) Cu).
      unfold mid. rewrite (reverse_effect_balance _ _ _ Co Ce). fold se su. ring. }
    destruct (save_sound db1 oldAccount new S1 Ho Nid
                (eq_trans (apply_effect_validate _ _ _)
                          (eq_trans (reverse_effect_validate _ _ _) Vo))
                (apply_effect_cents _ _ _))
      as [db2 [Hsave [S2 _]]].
    fold mid. fold new. rewrite Hsave. cbn [snd]. split; [exact S2|].
    pose proof (save_off db1 db2 _ oldAccount new _ NDa Ho Nid Nib Nb Hsave O1) as O2.
    apply (ledger_ok_off db2 _) in O2; [exact O2|].
    intro i. cbn beta. rewrite !effect_on_spec, <- Same, Eo. fold se su.
    destruct (i =? t_accountId existing)%nat; ring.
  - apply Nat.eqb_neq in Same.
    destruct (findById_exists db a1 Ha1) as [newAccount [Fn [Hn En]]].
    rewrite Ea1 in Fn, En.
    change (AccountModel.findById db1 (t_accountId updated))
      with (AccountModel.findById db (t_accountId updated)).
    rewrite Fn.
    destruct (Acc newAccount Hn) as [Vn Cn].
    set (old' := reverse_effect (t_type existing) (t_amount existing) oldAccount).
    set (new' := apply_effect (t_type updated) (t_amount updated) newAccount).
    destruct (save_sound db1 oldAccount old' S1 Ho
                (proj1 (reverse_effect_frame _ _ _))
                (eq_trans (reverse_effect_validate _ _ _) Vo)
                (reverse_effect_cents _ _ _))
      as [db2 [Hsave2 [S2 [_ [_ Eacc2]]]]].
    rewrite Hsave2.
    assert (Hn2 : In newAccount (accounts db2)).
    { rewrite Eacc2. apply replace_by_keeps_other; [exact Hn|].
      unfold old'. rewrite (proj1 (reverse_effect_frame _ _ _)). congruence. }
    destruct (save_sound db2 newAccount new' S2 Hn2
                (proj1 (apply_effect_frame _ _ _))
                (eq_trans (apply_effect_validate _ _ _) Vn)
                (apply_effect_cents _ _ _))
      as [db3 [Hsave3 [S3 _]]].
    rewrite Hsave3. cbn [snd]. split; [exact S3|].
    assert (Bo : a_balance old' == a_balance oldAccount + - se).
    { unfold old'. rewrite (reverse_effect_balance _ _ _ Co Ce). fold se. ring. }
    pose proof (save_off db1 db2 _ oldAccount old' (- se) NDa Ho
                  (proj1 (reverse_effect_frame _ _ _))
                  (proj2 (reverse_effect_frame _ _ _)) Bo Hsave2 O1) as O2.
    pose proof (save_off db2 db3 _ newAccount new' su (proj1 S2) Hn2
                  (proj1 (apply_effect_frame _ _ _))
                  (proj2 (apply_effect_frame _ _ _))
                  (apply_effect_balance _ _ _ Cn Cu) Hsave3 O2) as O3.
    apply (ledger_ok_off db3 _) in O3; [exact O3|].
    intro i. cbn beta. rewrite !effect_on_spec, Eo, En. fold se su.
    destruct (i =? t_accountId existing)%nat;
      destruct (i =? t_accountId updated)%nat; ring.
Qed.

End LedgerUpdate.

Section LedgerRun.

Import Ledger Api.

Lemma ledger_ok_step (db : Db) (r : Request) :
  sound db -> ledger_ok db -> plain_transaction_request r ->
  sound (step db r) /\ ledger_ok (step db r).
Proof.
  intros S L P. destruct r; cbn [step plain_transaction_request] in *; try contradiction.
  - apply createTransaction_ledger; assumption.
  - destruct P as [NDk Paths]. apply updateTransaction_ledger; assumption.
  - apply deleteTransaction_ledger; assumption.
Qed.

(** X1: over every sequence of transaction creations with amounts in whole
    cents, transaction updates whose payload names paths of the transaction
    record only, and transaction deletions, from a database whose balances
    agree with its transactions, the balance of every account stays its
    initial balance plus the income minus the expenses linked to it. *)
Lemma ledger_ok_run (requests : list Request) (db : Db) :
  sound db -> ledger_ok db -> Forall plain_transaction_request requests ->
  sound (run db requests) /\ ledger_ok (run db requests).
Proof.
  revert db. induction requests as [|r requests IH]; intros db S L P.
  - split; assumption.
  - inversion P as [|? ? Pr Prest]; subst.
    destruct (ledger_ok_step db r S L Pr) as [S' L'].
    exact (IH (step db r) S' L' Prest).
Qed.

Lemma sound_fresh : sound Scenario.fresh.
Proof.
  unfold sound. cbn. repeat split.
  - repeat constructor. intros [].
  - constructor.
  - intros t [].
  - destruct H as [<-|[]]. reflexivity.
  - destruct H as [<-|[]]. apply whole_cents_0.
  - destruct H.
  - destruct H.
Qed.

(** A create, an update that turns the expense into an income on another
    amount, a second create and a delete, all in whole cents: the balance
    agrees with the transactions at the end. *)
Lemma ledger_ok_after_requests :
  ledger_ok (run Scenario.fresh
               [CreateTransaction Scenario.alice (Scenario.create_with_amount (1250 # 100));
                UpdateTransaction Scenario.alice 10
                  [("type", JStr "income"); ("categoryId", JId 3); ("amount", JNum 40)];
                CreateTransaction Scenario.alice (Scenario.create_with_amount 7);
                DeleteTransaction Scenario.alice 10]).
Proof.
  apply ledger_ok_run.
  - exact sound_fresh.
  - intros a [<-|[]]. vm_compute. reflexivity.
  - apply Forall_cons;
      [cbn; intros q H; injection H as <-; exists 1250%Z; reflexivity|].
    apply Forall_cons;
      [cbn; split; [repeat constructor; cbn; intuition discriminate | reflexivity]|].
    apply Forall_cons;
      [cbn; intros q H; injection H as <-; exists 700%Z; reflexivity|].
    apply Forall_cons; [exact I | constructor].
Defined.

End LedgerRun.

(* ================================================================== *)
(** ** The guards at work on the scenarios *)
(* ================================================================== *)

Section GuardsAtWork.

Import TransactionModel TransactionController BudgetController BudgetSpec
       CategorySpec UploadController.

Lemma no_overlap_nil : no_overlap [].
Proof. intros i j x y Hi. destruct i; discriminate Hi. Qed.

(** After the two budget requests of the scenario no two windows meet. *)
Lemma createBudget_no_overlap_two_budgets : no_overlap (budgets Scenario.two_budgets).
Proof.
  unfold Scenario.two_budgets.
  apply createBudget_no_overlap, createBudget_no_overlap. exact no_overlap_nil.
Defined.

(** With January [100, 200] stored, a request for [150, 250] on the same
    category is turned down and stores nothing. *)
Lemma createBudget_rejects_overlap_january :
  let db := snd (createBudget Scenario.fresh Scenario.alice
                   (Scenario.budget_request "January" 100 200)) in
  let r := createBudget db Scenario.alice (Scenario.budget_request "Mid" 150 250) in
  snd r = db /\ status (fst r) <> 201%nat.
Proof.
  cbv zeta.
  apply (createBudget_rejects_overlap _ Scenario.alice
           (Scenario.budget_request "Mid" 150 250) 2%nat 150%Z 250%Z
           (mkBudget 10%nat Scenario.alice 2%nat "January" 300 "monthly" 100%Z 200%Z 80 true));
    try reflexivity; try (left; reflexivity); cbn; lia.
Defined.

(** The expense created on the fresh database is linked to the expense
    category Food. *)
Lemma createTransaction_category_type_fresh :
  exists t c,
    transactions (snd (createTransaction Scenario.fresh Scenario.alice
                         (Scenario.create_with_amount 7)))
    = (transactions Scenario.fresh ++ [t])%list
    /\ In c (categories Scenario.fresh) /\ c_id c = t_categoryId t
    /\ c_type c = t_type t /\ c_userId c = Scenario.alice /\ c_isActive c = true.
Proof.
  apply (createTransaction_category_type Scenario.fresh Scenario.alice
           (Scenario.create_with_amount 7)).
  reflexivity.
Defined.

(** A stored CSV file whose stream fails is removed all the same. *)
Lemma csv_upload_removes_file_on_error :
  exists_in (snd (uploadTransactions unit (fun _ => [])
                    [("uploads/file-1.CSV", StreamError "bad quote")]
                    (Some (mkStored "statement.CSV" "uploads/file-1.CSV"))))
            "uploads/file-1.CSV" = false.
Proof.
  apply (csv_upload_removes_file unit (fun _ => [])
           [("uploads/file-1.CSV", StreamError "bad quote")]
           "statement.CSV" "uploads/file-1.CSV").
  reflexivity.
Defined.

End GuardsAtWork.

(* ================================================================== *)
(** ** The balance history and the balance static *)
(* ================================================================== *)

Section BalanceHistory.

Import Ledger Flows TransactionController AnalyticsController
       AccountHandlers TransactionQueries.

Lemma signed_total_cons (t : Transaction) (l : list Transaction) :
  signed_total (t :: l) = formattedAmount t + signed_total l.
Proof. reflexivity. Qed.

Lemma fold_left_step_balance (l : list Transaction) (r : Q) :
  fold_left step_balance l r == r + signed_total l.
Proof.
  revert r. induction l as [|t l IH]; intro r; cbn [fold_left].
  - unfold signed_total. cbn. ring.
  - rewrite IH, signed_total_cons. unfold step_balance, formattedAmount.
    destruct (t_type t); ring.
Qed.

Lemma signed_total_insert (t : Transaction) (l : list Transaction) :
  signed_total (insert_by_date t l) == formattedAmount t + signed_total l.
Proof.
  induction l as [|x l IH]; cbn [insert_by_date].
  - reflexivity.
  - destruct (t_date t <=? t_date x)%Z.
    + reflexivity.
    + rewrite !signed_total_cons, IH. ring.
Qed.

Lemma signed_total_sort (l : list Transaction) :
  signed_total (sort_date_asc l) == signed_total l.
Proof.
  induction l as [|t l IH]; [reflexivity|].
  unfold sort_date_asc in *. cbn [fold_right].
  rewrite signed_total_insert, signed_total_cons, IH. reflexivity.
Qed.

Lemma last_cons_default {A : Type} (l : list A) (x d : A) : last (x :: l) d = last l x.
Proof.
  revert x d. induction l as [|y l IH]; intros x d; [reflexivity|].
  change (last (x :: y :: l) d) with (last (y :: l) d). rewrite !IH. reflexivity.
Qed.

Lemma last_daily_balances (l : list Transaction) (r : Q) :
  last (map p_balance (daily_balances r l)) r == r + signed_total l.
Proof.
  revert r. induction l as [|t l IH]; intro r.
  - cbn. unfold signed_total. cbn. ring.
  - cbn [daily_balances map p_balance]. rewrite last_cons_default, IH, signed_total_cons.
    unfold step_balance, formattedAmount. destruct (t_type t); ring.
Qed.

(** Splitting a selection at an instant splits its signed total. *)
Lemma signed_total_split (p : Transaction -> bool) (d : Z) (l : list Transaction) :
  signed_total (filter (fun t => p t && (d <=? t_date t)%Z) l)
  + signed_total (filter (fun t => p t && (t_date t <? d)%Z) l)
  == signed_total (filter p l).
Proof.
  induction l as [|t l IH]; [reflexivity|]. cbn [filter].
  destruct (p t); cbn [andb]; [|exact IH].
  destruct (Z.leb_spec d (t_date t)) as [H|H].
  - apply Z.ltb_ge in H. rewrite H, !signed_total_cons, <- IH. ring.
  - apply Z.ltb_lt in H. rewrite H, !signed_total_cons, <- IH. ring.
Qed.

Lemma net_signed_total (i : ObjectId) (l : list Transaction) :
  net i l == signed_total (filter (fun t => (t_accountId t =? i)%nat) l).
Proof.
  induction l as [|t l IH]; [reflexivity|].
  rewrite net_cons, IH. unfold effect_on. cbn [filter].
  destruct (t_accountId t =? i)%nat.
  - rewrite signed_total_cons. unfold formattedAmount. destruct (t_type t); ring.
  - ring.
Qed.

(** The transactions of an account, read with the owner's name on the
    query, are the transactions of the account. *)
Lemma own_transactions (db : Db) (a : Account) :
  owners_agree db -> In a (accounts db) ->
  filter (fun t => (t_accountId t =? a_id a)%nat && (t_userId t =? a_userId a)%nat)
         (transactions db)
  = filter (fun t => (t_accountId t =? a_id a)%nat) (transactions db).
Proof.
  intros O Ha. apply filter_ext_in. intros t Ht.
  destruct (t_accountId t =? a_id a)%nat eqn:E; [|reflexivity].
  apply Nat.eqb_eq in E. rewrite (O t a Ht Ha E), Nat.eqb_refl. reflexivity.
Qed.

Lemma findOne_owned (db : Db) (user accountId : ObjectId) (a : Account) :
  AccountModel.findOne db (fun a => (a_id a =? accountId)%nat && (a_userId a =? user)%nat)
  = Some a ->
  In a (accounts db) /\ a_id a = accountId /\ a_userId a = user.
Proof.
  intro F. apply find_some in F. destruct F as [Hin Hp].
  apply andb_true_iff in Hp. destruct Hp as [H1 H2].
  apply Nat.eqb_eq in H1, H2. auto.
Qed.

(** The books with one expense of 20 are in whole units. *)
Lemma one_expense_exact : exact_sums Scenario.one_expense.
Proof.
  split; [|split].
  - intros a [<-|[]]. split; reflexivity.
  - intros t [<-|[]]. reflexivity.
  - vm_compute. discriminate.
Qed.

(** X10: the balance history of an account ends at the balance of the
    account.  On books in whole units of the currency, of a volume within
    [exact_size] - where the running sum that the handler computes without
    rounding is exact - when every balance agrees with its transactions
    and the transactions of the account are its owner's, the last point of
    the history - the opening balance run through the earlier transactions and
    then through those of the window, in date order - holds the current
    balance that the answer reports beside it; the first point is dated at
    the start of the window and carries no transaction. *)
Theorem getAccountBalanceHistory_ends_at_balance
    (db : Db) (user accountId : ObjectId) (startDate : Date)
    (r : Response) (h : BalanceHistory) :
  exact_sums db -> ledger_ok db -> owners_agree db ->
  getAccountBalanceHistory db user accountId (Some startDate) = (r, Some h) ->
  last (map p_balance (history h)) 0 == currentBalance h
  /\ (exists b, hd_error (history h) = Some (mkPoint startDate b None))
  /\ (exists a, In a (accounts db) /\ a_id a = accountId /\ a_userId a = user
                /\ currentBalance h = a_balance a).
Proof.
  intros _ L O. unfold getAccountBalanceHistory.
  destruct (AccountModel.findOne db _) as [account|] eqn:F; [|discriminate].
  intro H. injection H as _ <-.
  destruct (findOne_owned db user accountId account F) as (Hin & Hid & Hu).
  cbn [history currentBalance]. split; [|split].
  - cbn [map p_balance]. rewrite last_cons_default, last_daily_balances.
    rewrite signed_total_sort, fold_left_step_balance.
    pose proof (signed_total_split
                  (fun t => (t_accountId t =? accountId)%nat && (t_userId t =? user)%nat)
                  startDate (transactions db)) as S.
    pose proof (own_transactions db account O Hin) as E. rewrite Hid, Hu in E.
    rewrite E in S.
    pose proof (net_signed_total accountId (transactions db)) as N.
    unfold net in N.
    pose proof (L account Hin) as B. unfold balanced in B.
    rewrite Hid in B. cbv beta in S. lra.
  - eexists. reflexivity.
  - exists account. auto.
Qed.

(** On the account with one expense of 20, the history from instant 100 on
    ends at the balance -20. *)
Lemma getAccountBalanceHistory_one_expense :
  exists r h,
    getAccountBalanceHistory Scenario.one_expense Scenario.alice 1 (Some 100%Z) = (r, Some h)
    /\ last (map p_balance (history h)) 0 == currentBalance h.
Proof.
  eexists. eexists. split; [reflexivity|].
  refine (proj1 (getAccountBalanceHistory_ends_at_balance
                   Scenario.one_expense Scenario.alice 1%nat 100%Z _ _ _ _ _ _)).
  - exact one_expense_exact.
  - intros a [<-|[]]. vm_compute. reflexivity.
  - intros t a [<-|[]] [<-|[]] _. reflexivity.
  - reflexivity.
Defined.

Lemma sum_of_fold_right (l : list Transaction) (acc : Q) :
  fold_left (fun sum x => sum + t_amount x) l acc
  == acc + fold_right (fun t s => t_amount t + s) 0 l.
Proof.
  revert acc. induction l as [|t l IH]; intro acc; cbn [fold_left fold_right].
  - ring.
  - rewrite IH. ring.
Qed.

Lemma total_of_group (docs : list Transaction) (ty : TxType) :
  total_of (group_by_type docs) ty
  == fold_right (fun t s => t_amount t + s) 0
       (filter (fun t => TxType_eqb (t_type t) ty) docs).
Proof.
  unfold total_of, group_by_type.
  destruct (filter (fun t => TxType_eqb (t_type t) income) docs) as [|i li] eqn:Ei;
    destruct (filter (fun t => TxType_eqb (t_type t) expense) docs) as [|e le] eqn:Ee;
    destruct ty; cbn [app find fst snd TxType_eqb];
    rewrite ?Ei, ?Ee; try reflexivity;
    unfold sum_of; rewrite sum_of_fold_right; ring.
Qed.

Lemma signed_total_by_type (l : list Transaction) :
  signed_total l
  == fold_right (fun t s => t_amount t + s) 0
       (filter (fun t => TxType_eqb (t_type t) income) l)
     - fold_right (fun t s => t_amount t + s) 0
         (filter (fun t => TxType_eqb (t_type t) expense) l).
Proof.
  induction l as [|t l IH]; [reflexivity|].
  rewrite signed_total_cons, IH. unfold formattedAmount. cbn [filter].
  destruct (t_type t); cbn [TxType_eqb fold_right]; ring.
Qed.

(** X11: the balance static agrees with the stored balance.  On books in
    whole units of the currency, of a volume within [exact_size] - where
    the sums that the aggregation computes without rounding are exact - when every
    balance agrees with its transactions and the transactions of an account
    are its owner's, the balance of the account is its initial balance plus
    what [getUserBalance] computes, called with the ObjectIds of the owner
    and of the account. *)
Theorem getUserBalance_agrees_with_balance (db : Db) (a : Account) :
  exact_sums db -> ledger_ok db -> owners_agree db -> In a (accounts db) ->
  a_balance a == a_initialBalance a + getUserBalance db (a_userId a) (Some (a_id a)).
Proof.
  intros _ L O Ha. unfold getUserBalance.
  rewrite !total_of_group, <- signed_total_by_type.
  assert (E : filter (fun t => (t_userId t =? a_userId a)%nat && (t_accountId t =? a_id a)%nat)
                     (transactions db)
              = filter (fun t => (t_accountId t =? a_id a)%nat) (transactions db)).
  { rewrite <- (own_transactions db a O Ha). apply filter_ext. intro t. apply andb_comm. }
  rewrite E, <- net_signed_total.
  pose proof (L a Ha) as B. unfold balanced in B. unfold net. lra.
Qed.

(** On the account with one expense of 20, the static gives -20 and the
    balance is 0 + -20. *)
Lemma getUserBalance_one_expense :
  let a := mkAccount 1%nat Scenario.alice "Main" checking (-20) 0 None true 0 in
  a_balance a == a_initialBalance a
                 + getUserBalance Scenario.one_expense (a_userId a) (Some (a_id a)).
Proof.
  cbv zeta.
  apply (getUserBalance_agrees_with_balance Scenario.one_expense
           (mkAccount 1%nat Scenario.alice "Main" checking (-20) 0 None true 0)).
  - exact one_expense_exact.
  - intros a [<-|[]]. vm_compute. reflexivity.
  - intros t a [<-|[]] [<-|[]] _. reflexivity.
  - left. reflexivity.
Defined.

End BalanceHistory.

(* ================================================================== *)
(** ** Deleting an account *)
(* ================================================================== *)

Section AccountDeletion.

Import Ledger Flows TransactionController AccountHandlers.

(** Filtering a collection keeps its ObjectIds distinct. *)
Lemma filter_keeps_ids_distinct {Doc : Type} (id : Doc -> ObjectId) (keep : Doc -> bool)
    (docs : list Doc) :
  NoDup (map id docs) -> NoDup (map id (filter keep docs)).
Proof.
  intro Distinct. induction docs as [|doc docs IH]; cbn [filter]; [constructor|].
  cbn [map] in Distinct. apply NoDup_cons_iff in Distinct. destruct Distinct as [Fresh Rest].
  destruct (keep doc); [|exact (IH Rest)].
  cbn [map]. apply NoDup_cons; [|exact (IH Rest)].
  intro Again. apply Fresh. apply in_map_iff in Again. destruct Again as [other [Same Kept]].
  apply filter_In in Kept. rewrite <- Same. apply in_map. exact (proj1 Kept).
Qed.

Lemma count_zero (db : Db) (p : Transaction -> bool) (t : Transaction) :
  (0 <? countDocuments db p)%nat = false -> In t (transactions db) -> p t = false.
Proof.
  unfold countDocuments. intros H Ht. apply Nat.ltb_ge in H.
  destruct (p t) eqn:E; [|reflexivity].
  assert (I : In t (filter p (transactions db))) by (apply filter_In; auto).
  destruct (filter p (transactions db)); [contradiction | cbn in H; lia].
Qed.

Lemma deleteAccount_books (db : Db) (user accountId : ObjectId) :
  sound db -> ledger_ok db -> owners_agree db ->
  sound (snd (deleteAccount db user accountId))
  /\ ledger_ok (snd (deleteAccount db user accountId))
  /\ transactions (snd (deleteAccount db user accountId)) = transactions db
  /\ (forall a, In a (accounts db) -> a_id a <> accountId ->
                In a (accounts (snd (deleteAccount db user accountId))))
  /\ (forall a, In a (accounts db) -> a_userId a <> user ->
                In a (accounts (snd (deleteAccount db user accountId)))).
Proof.
  intros S L O. unfold deleteAccount.
  destruct (AccountModel.findOne db _) as [account|] eqn:F;
    [|cbn [snd]; split; [exact S|split; [exact L|split; [reflexivity|split; auto]]]].
  destruct (findOne_owned db user accountId account F) as (Hin & Hid & Hu).
  assert (Other : forall a, In a (accounts db) -> a_userId a <> user -> a_id a <> accountId).
  { intros a Ha Hn E. apply Hn. rewrite <- Hu. f_equal.
    destruct S as [NDa _]. apply (NoDup_map_inj a_id (accounts db)); congruence. }
  destruct (0 <? countDocuments db _)%nat eqn:C.
  - destruct S as [NDa [NDt [Fresh [Acc Txn]]]].
    destruct (save_sound db account (set_isActive account false)
                (conj NDa (conj NDt (conj Fresh (conj Acc Txn)))) Hin eq_refl
                (proj1 (Acc account Hin)) (proj2 (Acc account Hin)))
      as (db1 & Hs & S1 & _ & T1 & A1).
    rewrite Hs. cbn [snd].
    assert (Keep : forall a, In a (accounts db) -> a_id a <> accountId -> In a (accounts db1)).
    { intros a Ha Hn. rewrite A1. apply replace_by_keeps_other; [exact Ha|].
      cbn [set_isActive a_id]. congruence. }
    split; [exact S1|]. split; [|split; [exact T1|split; [exact Keep|]]].
    + intros a Ha. rewrite A1 in Ha. unfold balanced. rewrite T1.
      apply in_replace_by in Ha. destruct Ha as [->|[Ha _]].
      * exact (L account Hin).
      * exact (L a Ha).
    + intros a Ha Hn. apply Keep; [exact Ha | now apply Other].
  - cbn [snd]. unfold findByIdAndDelete.
    assert (Sub : forall a, In a (remove_by a_id accountId (accounts db)) -> In a (accounts db)).
    { intros a H. unfold remove_by in H. apply filter_In in H. apply H. }
    assert (Keep : forall a, In a (accounts db) -> a_id a <> accountId ->
                             In a (remove_by a_id accountId (accounts db))).
    { intros a Ha Hn. unfold remove_by. apply filter_In. split; [exact Ha|].
      apply Nat.eqb_neq in Hn. rewrite Hn. reflexivity. }
    destruct S as [NDa [NDt [Fresh [Acc Txn]]]].
    split; [|split; [|split; [reflexivity|split]]].
    + unfold sound. cbn [accounts transactions nextId with_accounts].
      split; [|split; [exact NDt|split; [exact Fresh|split]]].
      * unfold remove_by. apply filter_keeps_ids_distinct. exact NDa.
      * intros a Ha. apply Acc. exact (Sub a Ha).
      * intros t Ht. split; [apply (Txn t Ht)|].
        destruct (Txn t Ht) as [_ [a [Ha Ea]]]. exists a. split; [|exact Ea].
        apply Keep; [exact Ha|]. intro E.
        pose proof (count_zero db _ t C Ht) as Z. cbn beta in Z.
        assert (a = account) as -> by (apply (NoDup_map_inj a_id (accounts db)); congruence).
        rewrite <- Ea, Hid, Nat.eqb_refl in Z.
        rewrite (O t account Ht Hin (eq_sym Ea)), Hu, Nat.eqb_refl in Z. discriminate Z.
    + intros a Ha. cbn [accounts with_accounts] in Ha. exact (L a (Sub a Ha)).
    + cbn [accounts with_accounts]. exact Keep.
    + cbn [accounts with_accounts]. intros a Ha Hn. apply Keep; [exact Ha | now apply Other].
Qed.

(** X9: deleting an account never strands a transaction.  From a database
    whose balances agree with its transactions and whose transactions are
    their account owners', [deleteAccount] leaves the transactions as they
    were, every transaction still linked to a stored account (an account
    with transactions is deactivated, not removed), every balance still in
    agreement, and every account other than the named one - so every
    account of another user - in place. *)
Theorem deleteAccount_keeps_ledger (db : Db) (user accountId : ObjectId) :
  sound db -> ledger_ok db -> owners_agree db ->
  sound (snd (deleteAccount db user accountId))
  /\ ledger_ok (snd (deleteAccount db user accountId))
  /\ transactions (snd (deleteAccount db user accountId)) = transactions db
  /\ (forall a, In a (accounts db) -> a_id a <> accountId ->
                In a (accounts (snd (deleteAccount db user accountId))))
  /\ (forall a, In a (accounts db) -> a_userId a <> user ->
                In a (accounts (snd (deleteAccount db user accountId)))).
Proof. exact (deleteAccount_books db user accountId). Qed.

Lemma owners_agree_one_expense : owners_agree Scenario.one_expense.
Proof. intros t a [<-|[]] [<-|[]] _. reflexivity. Qed.

Lemma sound_one_expense : sound Scenario.one_expense.
Proof.
  unfold sound. cbn. repeat split.
  - repeat constructor. intros [].
  - repeat constructor. intros [].
  - intros t [<-|[]]. cbn. lia.
  - destruct H as [<-|[]]. reflexivity.
  - destruct H as [<-|[]]. exists (-2000)%Z. reflexivity.
  - destruct H as [<-|[]]. exists 2000%Z. reflexivity.
  - destruct H as [<-|[]]. eexists. split; [left; reflexivity | reflexivity].
Qed.

Lemma ledger_ok_one_expense : ledger_ok Scenario.one_expense.
Proof. intros a [<-|[]]. vm_compute. reflexivity. Qed.

(** The account with one expense is deactivated; its transaction stays and
    stays linked to it. *)
Lemma deleteAccount_one_expense :
  sound (snd (deleteAccount Scenario.one_expense Scenario.alice 1))
  /\ map a_isActive (accounts (snd (deleteAccount Scenario.one_expense Scenario.alice 1)))
     = [false].
Proof.
  split; [|reflexivity].
  exact (proj1 (deleteAccount_keeps_ledger Scenario.one_expense Scenario.alice 1%nat
                  sound_one_expense ledger_ok_one_expense owners_agree_one_expense)).
Defined.

End AccountDeletion.

(* ================================================================== *)
(** ** Creating a transaction and deleting it again *)
(* ================================================================== *)

Section CreateThenDelete.

Import Ledger Flows TransactionModel TransactionController.

Lemma same_account_refl (a : Account) : same_account a a.
Proof. unfold same_account. repeat split; reflexivity. Qed.

Lemma find_app_last {A : Type} (p : A -> bool) (l : list A) (x : A) :
  (forall y, In y l -> p y = false) -> p x = true -> find p (l ++ [x]) = Some x.
Proof.
  intros N Hx. induction l as [|y l IH]; cbn [app find].
  - rewrite Hx. reflexivity.
  - rewrite (N y (or_introl eq_refl)). apply IH. intros z Hz. apply N. right. exact Hz.
Qed.

Lemma find_replace_by (x0 x : Account) (l : list Account) :
  NoDup (map a_id l) -> In x0 l -> a_id x = a_id x0 ->
  find (fun a => (a_id a =? a_id x0)%nat) (replace_by a_id x l) = Some x.
Proof.
  intros ND Hin E. induction l as [|y l IH]; [contradiction|].
  cbn [map] in ND. inversion ND as [|? ? Hnot ND']; subst.
  unfold replace_by. cbn [map find]. fold (replace_by a_id x l).
  destruct Hin as [->|Hin].
  - rewrite E, Nat.eqb_refl, E, Nat.eqb_refl. reflexivity.
  - destruct (a_id y =? a_id x)%nat eqn:T.
    + apply Nat.eqb_eq in T. exfalso. apply Hnot. rewrite T, E. now apply in_map.
    + rewrite <- E, T. rewrite E. now apply IH.
Qed.

Lemma replace_twice (x0 x1 x2 : Account) (l : list Account) :
  (forall y, In y l -> a_id y = a_id x0 -> y = x0) ->
  a_id x1 = a_id x0 -> a_id x2 = a_id x0 -> same_account x2 x0 ->
  Forall2 same_account (replace_by a_id x2 (replace_by a_id x1 l)) l.
Proof.
  intros U E1 E2 Same. induction l as [|y l IH]; [constructor|].
  unfold replace_by. cbn [map]. fold (replace_by a_id x1 l).
  fold (replace_by a_id x2 (replace_by a_id x1 l)).
  constructor; [|apply IH; intros z Hz; apply U; right; exact Hz].
  rewrite E1, E2. destruct (a_id y =? a_id x0)%nat eqn:T.
  - rewrite E1, Nat.eqb_refl. apply Nat.eqb_eq in T.
    rewrite (U y (or_introl eq_refl) T). exact Same.
  - rewrite T. apply same_account_refl.
Qed.

Lemma remove_last (t : Transaction) (l : list Transaction) :
  (forall y, In y l -> t_id y <> t_id t) ->
  remove_by t_id (t_id t) (l ++ [t]) = l.
Proof.
  intro N. unfold remove_by. rewrite filter_app. cbn [filter].
  rewrite Nat.eqb_refl. cbn [negb]. rewrite app_nil_r.
  apply (remove_by_absent t_id (t_id t) l N).
Qed.

(** What a successful creation has done. *)
Lemma createTransaction_created (db : Db) (user : ObjectId) (body : Obj) :
  status (fst (createTransaction db user body)) = 201%nat ->
  exists account n t,
    In account (accounts db) /\ a_userId account = user
    /\ get body "amount" = JNum n
    /\ t_id t = nextId db /\ t_userId t = user /\ t_accountId t = a_id account
    /\ t_amount t = round2 (Math_abs n)
    /\ snd (createTransaction db user body)
       = with_accounts (bump (with_transactions db (transactions db ++ [t])))
           (replace_by a_id (apply_effect (t_type t) (Math_abs n) account) (accounts db)).
Proof.
  unfold createTransaction.
  destruct (negb (createTransactionValidation body)) eqn:Val; [discriminate|].
  destruct (AccountModel.findOne db _) as [account|] eqn:Ha; [|discriminate].
  destruct (CategoryModel.findOne db _) as [category|]; [|discriminate].
  destruct (Number (get body "amount")) as [n|] eqn:Hn; [|discriminate].
  destruct (TxType_of_js _) as [ty|]; [|discriminate].
  destruct (id_of (get body "accountId")) as [acc_id|] eqn:Hacc; [|discriminate].
  destruct (id_of (get body "categoryId")) as [cat_id|]; [|discriminate].
  destruct (text_of _) as [description|]; [|discriminate].
  destruct (date_of _) as [date|]; [|discriminate].
  destruct (leb (Math_abs n) 0); [discriminate|].
  cbn [construct i_date i_userId i_accountId i_categoryId i_amount i_description
       i_type i_tags].
  unfold save_new.
  match goal with
  | |- context [if validate ?t then _ else _] => destruct (validate t)
  end; [|discriminate].
  unfold AccountModel.save. cbn [AccountModel.pre_save].
  match goal with
  | |- context [if AccountModel.validate ?a then _ else _] =>
      destruct (AccountModel.validate a)
  end; [|discriminate].
  intros _. cbn [snd].
  apply find_some in Ha. destruct Ha as [Hin Hp].
  try rewrite Hacc in Hp. cbn beta iota in Hp.
  apply andb_true_iff in Hp. destruct Hp as [Hp _].
  apply andb_true_iff in Hp. destruct Hp as [Hid Hu]. apply Nat.eqb_eq in Hid, Hu.
  assert (G : get body "amount" = JNum n).
  { apply negb_false_iff in Val. unfold createTransactionValidation in Val.
    repeat (apply andb_true_iff in Val; destruct Val as [Val ?]).
    destruct (get body "amount") as [| | |q| | | |] eqn:G; try discriminate.
    cbn in Hn. injection Hn as <-. reflexivity. }
  exists account, n,
    (with_id (nextId db)
       (mkTransaction 0 user acc_id cat_id (round2 (Math_abs n)) (trim description)
                      date ty (clean_tags (get body "tags")))).
  split; [exact Hin|]. split; [exact Hu|]. split; [exact G|].
  split; [|split; [|split; [|split; [|reflexivity]]]]; cbn; congruence.
Qed.

Lemma round_trip_balance (ty : TxType) (amount : Q) (a : Account) :
  whole_cents (a_balance a) -> whole_cents amount ->
  same_account (reverse_effect ty (round2 amount) (apply_effect ty amount a)) a.
Proof.
  intros Cb Ca. unfold same_account.
  repeat match goal with |- _ /\ _ => split end; try (destruct ty; reflexivity).
  pose proof (round2_cents amount Ca) as Ra.
  destruct ty; cbn [reverse_effect apply_effect set_balance a_balance].
  - pose proof (round2_cents (a_balance a + amount) (whole_cents_plus _ _ Cb Ca)) as R1.
    rewrite (round2_comp (round2 (a_balance a + amount) - round2 amount) (a_balance a))
      by lra.
    apply round2_cents. exact Cb.
  - pose proof (round2_cents (a_balance a - amount) (whole_cents_minus _ _ Cb Ca)) as R1.
    rewrite (round2_comp (round2 (a_balance a - amount) + round2 amount) (a_balance a))
      by lra.
    apply round2_cents. exact Cb.
Qed.

(** X7: creating a transaction and deleting it again restores the books.
    After a creation with an amount in whole cents has succeeded, deleting
    the new transaction (whose ObjectId is the one that was next) succeeds,
    and leaves the transactions as they were before and every account with
    all its fields and the balance it had. *)
Theorem createTransaction_then_deleteTransaction (db : Db) (user : ObjectId) (body : Obj) :
  sound db ->
  (forall q, get body "amount" = JNum q -> whole_cents q) ->
  status (fst (createTransaction db user body)) = 201%nat ->
  status (fst (deleteTransaction (snd (createTransaction db user body)) user (nextId db)))
  = 200%nat
  /\ transactions (snd (deleteTransaction (snd (createTransaction db user body))
                          user (nextId db)))
     = transactions db
  /\ Forall2 same_account
       (accounts (snd (deleteTransaction (snd (createTransaction db user body))
                         user (nextId db))))
       (accounts db).
Proof.
  intros [NDa [NDt [Fresh [Acc Txn]]]] Hq Created.
  destruct (createTransaction_created db user body Created)
    as (account & n & t & Hin & Hu & G & Tid & Tu & Tacc & Tam & ->).
  assert (Old : forall y, In y (transactions db) -> t_id y <> t_id t).
  { intros y Hy. specialize (Fresh y Hy). lia. }
  destruct (Acc account Hin) as [Va Cb].
  assert (Ca : whole_cents (Math_abs n)) by (apply whole_cents_abs, Hq, G).
  unfold deleteTransaction, findOne.
  cbn [transactions accounts with_accounts bump with_transactions].
  rewrite (find_app_last _ (transactions db) t).
  2:{ intros y Hy. apply andb_false_iff. left. apply Nat.eqb_neq. rewrite <- Tid.
      exact (Old y Hy). }
  2:{ rewrite Tid, Tu, !Nat.eqb_refl. reflexivity. }
  unfold AccountModel.findById. cbn [accounts with_accounts]. rewrite Tacc.
  rewrite (find_replace_by account _ (accounts db) NDa Hin
             (proj1 (apply_effect_frame (t_type t) (Math_abs n) account))).
  unfold AccountModel.save. cbn [AccountModel.pre_save].
  rewrite reverse_effect_validate, apply_effect_validate, Va.
  cbn [fst snd status]. split; [reflexivity|].
  unfold findByIdAndDelete.
  cbn [transactions accounts with_accounts bump with_transactions].
  split; [apply remove_last; exact Old|].
  apply (replace_twice account).
  - intros y Hy E. apply (NoDup_map_inj a_id (accounts db)); assumption.
  - apply apply_effect_frame.
  - rewrite (proj1 (reverse_effect_frame _ _ _)). apply apply_effect_frame.
  - rewrite Tam. apply round_trip_balance; assumption.
Qed.

(** On the fresh database: an expense of 12.50 is created and deleted, and
    the account is back at 0 with no transaction. *)
Lemma createTransaction_then_deleteTransaction_fresh :
  let body := Scenario.create_with_amount (1250 # 100) in
  let db1 := snd (createTransaction Scenario.fresh Scenario.alice body) in
  status (fst (deleteTransaction db1 Scenario.alice (nextId Scenario.fresh))) = 200%nat
  /\ transactions (snd (deleteTransaction db1 Scenario.alice (nextId Scenario.fresh)))
     = transactions Scenario.fresh
  /\ Forall2 same_account
       (accounts (snd (deleteTransaction db1 Scenario.alice (nextId Scenario.fresh))))
       (accounts Scenario.fresh).
Proof.
  cbv zeta.
  apply (createTransaction_then_deleteTransaction Scenario.fresh Scenario.alice
           (Scenario.create_with_amount (1250 # 100))).
  - exact sound_fresh.
  - intros q H. injection H as <-. exists 1250%Z. reflexivity.
  - reflexivity.
Defined.

End CreateThenDelete.

(* ================================================================== *)
(** ** The range of the health scores *)
(* ================================================================== *)

Section HealthRange.

Import AnalyticsController.

Lemma fold_sum_nonneg {A : Type} (f : A -> Q) (l : list A) (acc : Q) :
  0 <= acc -> (forall x, In x l -> 0 <= f x) ->
  0 <= fold_left (fun sum x => sum + f x) l acc.
Proof.
  revert acc. induction l as [|x l IH]; intros acc Ha H; cbn [fold_left]; [exact Ha|].
  apply IH.
  - pose proof (H x (or_introl eq_refl)). lra.
  - intros y Hy. apply H. right. exact Hy.
Qed.

Lemma sum_of_nonneg {A : Type} (f : A -> Q) (l : list A) :
  (forall x, In x l -> 0 <= f x) -> 0 <= sum_of f l.
Proof. intro H. unfold sum_of. apply fold_sum_nonneg; [lra | exact H]. Qed.

Lemma total_of_nonneg (docs : list Transaction) (ty : TxType) :
  (forall t, In t docs -> 0 <= t_amount t) -> 0 <= total_of (group_by_type docs) ty.
Proof.
  intro H. rewrite total_of_group.
  induction docs as [|t docs IH]; cbn [filter fold_right]; [lra|].
  assert (IH' : 0 <= fold_right (fun t s => t_amount t + s) 0
                       (filter (fun t => TxType_eqb (t_type t) ty) docs)).
  { apply IH. intros x Hx. apply H. right. exact Hx. }
  destruct (TxType_eqb (t_type t) ty); [|exact IH'].
  cbn [fold_right]. pose proof (H t (or_introl eq_refl)). lra.
Qed.

Lemma div_nonneg (x y : Q) : 0 <= x -> 0 < y -> 0 <= x / y.
Proof. intros Hx Hy. apply Qle_shift_div_l; [exact Hy | lra]. Qed.

Lemma budgetScore_range (db : Db) (user : ObjectId) (budgets : list Budget) :
  (forall b, In b budgets -> 0 < b_amount b) ->
  0 <= budgetScore db user budgets <= 100.
Proof.
  intro H. unfold budgetScore. destruct budgets as [|b0 rest]; [lra|].
  set (l := b0 :: rest) in *.
  set (total := fold_left _ l 0).
  assert (T : 0 <= total).
  { unfold total.
    apply (fold_sum_nonneg
             (fun budget => Math_abs (spent_on db user budget - b_amount budget)
                            / b_amount budget)); [lra|].
    intros b Hb. apply div_nonneg; [apply Qabs_nonneg | exact (H b Hb)]. }
  assert (N : 0 < inject_Z (Z.of_nat (List.length l))).
  { change 0 with (inject_Z 0). rewrite <- Zlt_Qlt. cbn [l List.length]. lia. }
  pose proof (div_nonneg total _ T N) as D.
  set (avg := total / inject_Z (Z.of_nat (List.length l))) in *.
  minmax_cases; lra.
Qed.

Lemma Math_round_range (x : Q) : 0 <= x <= 100 -> (0 <= Math_round x <= 100)%Z.
Proof.
  intros [L U]. unfold Math_round. split.
  - change 0%Z with (Qfloor 0). apply Qfloor_resp_le. lra.
  - change 100%Z with (Qfloor (100 + (1 # 2))). apply Qfloor_resp_le. lra.
Qed.

Lemma Math_round_le_100 (x : Q) : x <= 100 -> (Math_round x <= 100)%Z.
Proof.
  intro U. unfold Math_round.
  change 100%Z with (Qfloor (100 + (1 # 2))). apply Qfloor_resp_le. lra.
Qed.

(** X13: the range of the health scores.  When the stored amounts are not
    negative and the budgets have positive amounts, the sub-scores for
    savings, budget adherence, expense control and debt lie between 0 and
    100, the emergency-fund sub-score and the overall score are at most
    100, and both are at least 0 as soon as the balances of the active
    accounts do not sum below zero. *)
Theorem getFinancialHealth_scores_in_range
    (db : Db) (user : ObjectId) (currentDate lastMonth thisMonth : Date) :
  (forall t, In t (transactions db) -> 0 <= t_amount t) ->
  (forall b, In b (budgets db) -> 0 < b_amount b) ->
  let h := getFinancialHealth db user currentDate lastMonth thisMonth in
  (overallScore h <= 100)%Z
  /\ 0 <= s_savingsRate (scores h) <= 100
  /\ (0 <= s_budgetAdherence (scores h) <= 100)%Z
  /\ s_emergencyFund (scores h) <= 100
  /\ 0 <= s_expenseControl (scores h) <= 100
  /\ 0 <= s_debtManagement (scores h) <= 100
  /\ (0 <= sum_of a_balance (active_accounts db user) ->
      0 <= s_emergencyFund (scores h) /\ (0 <= overallScore h)%Z).
Proof.
  intros Amounts Budgets h. unfold h, getFinancialHealth, lastMonthData.
  cbn [overallScore scores].
  set (docs := filter _ (transactions db)).
  assert (Docs : forall t, In t docs -> 0 <= t_amount t).
  { intros t Ht. apply Amounts. unfold docs in Ht. apply filter_In in Ht. apply Ht. }
  pose proof (total_of_nonneg docs income Docs) as I.
  pose proof (total_of_nonneg docs expense Docs) as E.
  set (inc := total_of (group_by_type docs) income) in *.
  set (expenses := total_of (group_by_type docs) expense) in *.
  set (totalBalance := sum_of a_balance (active_accounts db user)).
  set (totalDebt := sum_of (fun acc => Math_abs (a_balance acc))
                      (creditAccounts (active_accounts db user))).
  assert (D : 0 <= totalDebt).
  { unfold totalDebt. apply sum_of_nonneg. intros a _. apply Qabs_nonneg. }
  assert (B : 0 <= budgetScore db user (current_budgets db user currentDate) <= 100).
  { apply budgetScore_range. intros b Hb. apply Budgets.
    unfold current_budgets in Hb. apply filter_In in Hb. apply Hb. }
  set (bs := budgetScore db user (current_budgets db user currentDate)) in *.
  pose proof (Math_round_range bs B) as RB.
  (* the three ratios that divide by the income or by the expenses *)
  assert (X : 0 <= expenseRatio inc expenses).
  { unfold expenseRatio. destruct (gtb inc 0) eqn:G; [|lra].
    apply gtb_gt in G. pose proof (div_nonneg expenses inc E G). lra. }
  assert (T : 0 <= debtToIncomeRatio inc totalDebt).
  { unfold debtToIncomeRatio. destruct (gtb inc 0) eqn:G; [|lra].
    apply gtb_gt in G. pose proof (div_nonneg totalDebt inc D G). lra. }
  assert (F : 0 <= totalBalance -> 0 <= emergencyFundRatio totalBalance expenses).
  { intro H. unfold emergencyFundRatio. destruct (gtb expenses 0) eqn:G; [|lra].
    apply gtb_gt in G. apply div_nonneg; lra. }
  set (sr := savingsRate inc expenses) in *.
  set (xr := expenseRatio inc expenses) in *.
  set (dr := debtToIncomeRatio inc totalDebt) in *.
  set (er := emergencyFundRatio totalBalance expenses) in *.
  unfold weighted, scores_of.
  cbn [s_savingsRate s_budgetAdherence s_emergencyFund s_expenseControl s_debtManagement].
  assert (RBq : 0 <= inject_Z (Math_round bs) <= 100).
  { split.
    - change 0 with (inject_Z 0). rewrite <- Zle_Qle. apply RB.
    - change 100 with (inject_Z 100). rewrite <- Zle_Qle. apply RB. }
  set (ba := inject_Z (Math_round bs)) in *.
  assert (S1 : 0 <= Math_min 100 (Math_max 0 (sr * 5)) <= 100) by (minmax_cases; lra).
  assert (S3 : Math_min 100 (er * 100) <= 100) by (minmax_cases; lra).
  assert (S4 : 0 <= Math_max 0 (100 - xr) <= 100) by (minmax_cases; lra).
  assert (S5 : 0 <= Math_max 0 (100 - dr * 2) <= 100) by (minmax_cases; lra).
  assert (S3' : 0 <= totalBalance -> 0 <= Math_min 100 (er * 100)).
  { intro H. specialize (F H). minmax_cases; lra. }
  set (s1 := Math_min 100 (Math_max 0 (sr * 5))) in *.
  set (s3 := Math_min 100 (er * 100)) in *.
  set (s4 := Math_max 0 (100 - xr)) in *.
  set (s5 := Math_max 0 (100 - dr * 2)) in *.
  split; [apply Math_round_le_100; lra|].
  split; [exact S1|]. split; [exact RB|]. split; [exact S3|].
  split; [exact S4|]. split; [exact S5|].
  intro H. specialize (S3' H). split; [exact S3'|].
  apply Math_round_range. lra.
Qed.

(** On the healthy scenario the hypotheses hold and the overall score, 88,
    is within the range. *)
Lemma getFinancialHealth_scores_in_range_healthy :
  let h := getFinancialHealth Scenario.healthy Scenario.alice 210%Z 100%Z 200%Z in
  (overallScore h <= 100)%Z
  /\ 0 <= s_savingsRate (scores h) <= 100
  /\ (0 <= s_budgetAdherence (scores h) <= 100)%Z
  /\ s_emergencyFund (scores h) <= 100
  /\ 0 <= s_expenseControl (scores h) <= 100
  /\ 0 <= s_debtManagement (scores h) <= 100
  /\ (0 <= sum_of a_balance (active_accounts Scenario.healthy Scenario.alice) ->
      0 <= s_emergencyFund (scores h) /\ (0 <= overallScore h)%Z).
Proof.
  apply (getFinancialHealth_scores_in_range Scenario.healthy Scenario.alice
           210%Z 100%Z 200%Z).
  - intros t [<-|[<-|[<-|[<-|[]]]]]; cbn; lra.
  - intros b [].
Defined.

End HealthRange.

(* ================================================================== *)
(** ** What the category handlers keep *)
(* ================================================================== *)

Section CategoryInvariants.

Import CategoryWrites CategoryController AuthController CategoryRules.

Lemma in_replace_by_id {A : Type} (id : A -> ObjectId) (x : A) (l : list A) (a : A) :
  In a (replace_by id x l) -> a = x \/ (In a l /\ id a <> id x).
Proof.
  unfold replace_by. intro H. apply in_map_iff in H. destruct H as [y [E Hy]].
  destruct (id y =? id x)%nat eqn:T.
  - left. symmetry. exact E.
  - right. subst a. split; [exact Hy | now apply Nat.eqb_neq].
Qed.

Lemma map_id_replace_by {A : Type} (id : A -> ObjectId) (x : A) (l : list A) :
  map id (replace_by id x l) = map id l.
Proof.
  unfold replace_by. rewrite map_map. apply map_ext.
  intro y. destruct (id y =? id x)%nat eqn:E; [|reflexivity].
  apply Nat.eqb_eq in E. congruence.
Qed.

Lemma replaced_id_stored {A : Type} (id : A -> ObjectId) (x : A) (l : list A) :
  In x (replace_by id x l) -> In (id x) (map id l).
Proof. intro H. rewrite <- (map_id_replace_by id x l). now apply in_map. Qed.

(** The unique index at work: a document that is no duplicate shares owner
    and name only with the document of its own ObjectId. *)
Lemma not_duplicate (db : Db) (c d : Category) :
  duplicate db c = false -> In d (categories db) ->
  c_userId d = c_userId c -> c_name d = c_name c -> c_id d = c_id c.
Proof.
  unfold duplicate. intros H Hd Hu Hn.
  destruct (Nat.eq_dec (c_id d) (c_id c)) as [Eq|Ne]; [exact Eq|].
  exfalso.
  match type of H with
  | ?e = false => assert (T : e = true)
  end.
  { apply existsb_exists. exists d. split; [exact Hd|].
    apply Nat.eqb_neq in Ne.
    rewrite Ne, Hu, Hn, Nat.eqb_refl, String.eqb_refl. reflexivity. }
  rewrite T in H. discriminate H.
Qed.

Lemma pre_save_ok_spec (c : Category) :
  pre_save_ok c = true -> c_isDefault c = true -> c_isActive c = true.
Proof.
  unfold pre_save_ok. intros H D. rewrite D in H.
  destruct (c_isActive c); [reflexivity | discriminate].
Qed.

(** Appending a document with the next ObjectId that the index accepts. *)
Lemma append_ok (db : Db) (c : Category) :
  ok db -> c_id c = nextId db -> duplicate db c = false ->
  (c_isDefault c = true -> c_isActive c = true) ->
  ok (bump (with_categories db (categories db ++ [c]))).
Proof.
  intros [[ND Fresh] [Names Defaults]] Hid Dup Act.
  unfold ok, ids_ok, names_unique, defaults_active.
  cbn [categories nextId bump with_categories].
  split; [split|split].
  - rewrite map_app. cbn [map]. apply NoDup_app. repeat split.
    + exact ND.
    + repeat constructor. intros [].
    + intros i Hi [Hj|[]]. subst i. apply in_map_iff in Hi.
      destruct Hi as [d [E Hd]]. specialize (Fresh d Hd). lia.
  - intros d Hd. apply in_app_or in Hd. destruct Hd as [Hd|[<-|[]]].
    + specialize (Fresh d Hd). lia.
    + lia.
  - intros x y Hx Hy Hu Hn. apply in_app_or in Hx, Hy.
    destruct Hx as [Hx|[<-|[]]], Hy as [Hy|[<-|[]]].
    + exact (Names x y Hx Hy Hu Hn).
    + exact (not_duplicate db c x Dup Hx Hu Hn).
    + symmetry. exact (not_duplicate db c y Dup Hy (eq_sym Hu) (eq_sym Hn)).
    + reflexivity.
  - intros x Hx. apply in_app_or in Hx. destruct Hx as [Hx|[<-|[]]].
    + exact (Defaults x Hx).
    + exact Act.
Qed.

Lemma save_new_ok (db db' : Db) (c : Category) :
  ok db -> save_new db c = Saved db' -> ok db'.
Proof.
  intros Ok. unfold save_new.
  destruct (negb (validate _)); [discriminate|].
  destruct (negb (pre_save_ok _)) eqn:P; [discriminate|].
  destruct (duplicate db _) eqn:D; [discriminate|].
  intro H. injection H as <-.
  apply append_ok; [exact Ok | reflexivity | exact D|].
  apply pre_save_ok_spec. now apply negb_false_iff.
Qed.

Lemma save_ok (db db' : Db) (c : Category) :
  ok db -> save db c = Saved db' -> ok db'.
Proof.
  intros [[ND Fresh] [Names Defaults]]. unfold save.
  destruct (negb (validate c)); [discriminate|].
  destruct (negb (pre_save_ok c)) eqn:P; [discriminate|].
  destruct (duplicate db c) eqn:D; [discriminate|].
  intro H. injection H as <-.
  unfold ok, ids_ok, names_unique, defaults_active.
  cbn [categories nextId with_categories].
  split; [split|split].
  - rewrite map_id_replace_by. exact ND.
  - intros d Hd. pose proof Hd as Hd'. apply in_replace_by_id in Hd'.
    destruct Hd' as [->|[Hd' _]].
    + pose proof (replaced_id_stored c_id c (categories db) Hd) as I.
      apply in_map_iff in I. destruct I as [d [E Hd']]. rewrite <- E.
      exact (Fresh d Hd').
    + exact (Fresh d Hd').
  - intros x y Hx Hy Hu Hn.
    apply in_replace_by_id in Hx, Hy.
    destruct Hx as [->|[Hx _]], Hy as [->|[Hy _]].
    + reflexivity.
    + symmetry. exact (not_duplicate db c y D Hy (eq_sym Hu) (eq_sym Hn)).
    + exact (not_duplicate db c x D Hx Hu Hn).
    + exact (Names x y Hx Hy Hu Hn).
  - intros x Hx. apply in_replace_by_id in Hx. destruct Hx as [->|[Hx _]].
    + apply pre_save_ok_spec. now apply negb_false_iff.
    + exact (Defaults x Hx).
Qed.

Lemma delete_ok (db : Db) (i : ObjectId) : ok db -> ok (findByIdAndDelete db i).
Proof.
  intros [[ND Fresh] [Names Defaults]].
  assert (Sub : forall c, In c (remove_by c_id i (categories db)) -> In c (categories db)).
  { intros c H. unfold remove_by in H. apply filter_In in H. apply H. }
  unfold ok, ids_ok, names_unique, defaults_active, findByIdAndDelete.
  cbn [categories nextId with_categories].
  split; [split|split].
  - unfold remove_by. apply filter_keeps_ids_distinct. exact ND.
  - intros c Hc. exact (Fresh c (Sub c Hc)).
  - intros x y Hx Hy. exact (Names x y (Sub x Hx) (Sub y Hy)).
  - intros x Hx. exact (Defaults x (Sub x Hx)).
Qed.

Lemma insert_ordered_ok (docs : list Category) (db : Db) :
  ok db -> (forall c, In c docs -> c_isDefault c = true -> c_isActive c = true) ->
  ok (fst (insert_ordered db docs)).
Proof.
  revert db. induction docs as [|c docs IH]; intros db Ok Act; [exact Ok|].
  cbn [insert_ordered].
  destruct (duplicate db (with_id (nextId db) c)) eqn:D; [exact Ok|].
  apply IH.
  - apply append_ok; [exact Ok | reflexivity | exact D|].
    cbn [with_id c_isDefault c_isActive]. apply Act. left. reflexivity.
  - intros x Hx. apply Act. right. exact Hx.
Qed.

Lemma createDefaultCategories_ok (db : Db) (userId : ObjectId) :
  ok db -> ok (fst (createDefaultCategories db userId)).
Proof.
  intro Ok. unfold createDefaultCategories, insertMany.
  destruct (forallb validate _); [|exact Ok].
  apply insert_ordered_ok; [exact Ok|].
  intros c Hc _. apply in_map_iff in Hc. destruct Hc as [c0 [<- Hc0]].
  apply in_map_iff in Hc0. destruct Hc0 as [p [<- _]]. reflexivity.
Qed.

Variable other_paths_ok : Obj -> bool.

Lemma createCategory_ok (db : Db) (user : ObjectId) (body : Obj) :
  ok db -> ok (snd (createCategory other_paths_ok db user body)).
Proof.
  intro Ok. unfold createCategory.
  destruct (negb (createCategoryValidation body)); [exact Ok|].
  destruct (TransactionController.text_of _) as [name|]; [|exact Ok].
  destruct (TransactionController.TxType_of_js _) as [type|]; [|exact Ok].
  destruct (CategoryModel.findOne db _); [exact Ok|].
  destruct (truthy (get body "parentCategory"));
    [destruct (TransactionController.id_of _) as [p|];
       [destruct (CategoryModel.findOne db _)|]|];
    try exact Ok.
  all: destruct (negb (other_paths_ok body)); [exact Ok|].
  all: destruct (save_new db _) as [db1| |] eqn:S; try exact Ok.
  all: exact (save_new_ok db db1 _ Ok S).
Qed.

(** A payload that does not name [_id] leaves the document its ObjectId,
    and its changes are written to the document itself. *)
Lemma category_assign_all_id (updates : Obj) (c c' : Category) :
  has updates "_id" = false -> assign_all c updates = Some c' -> c_id c' = c_id c.
Proof.
  revert c. induction updates as [|[k v] updates IH]; intros c N H; cbn [assign_all] in H.
  - injection H as <-. reflexivity.
  - unfold has in N. cbn [keys map fst existsb] in N. apply orb_false_iff in N.
    destruct N as [N1 N2].
    destruct (assign c (k, v)) as [c1|] eqn:E; [|discriminate].
    rewrite (IH c1 N2 H). clear H IH.
    unfold assign in E.
    repeat match type of E with
           | context [if String.eqb k ?key then _ else _] =>
               let T := fresh "T" in
               destruct (String.eqb k key) eqn:T
           end.
    all: repeat match type of E with
                | context [match ?x with _ => _ end] => destruct x
                end.
    all: try discriminate E; injection E as <-; try reflexivity.
    match goal with
    | T : String.eqb k "_id" = true |- _ =>
        apply String.eqb_eq in T; subst k; discriminate N1
    end.
Qed.

Lemma category_save_changes_same (db : Db) (before after : Category) :
  c_id after = c_id before -> save_changes db before after = save db after.
Proof. intro E. unfold save_changes. rewrite E, Nat.eqb_refl. reflexivity. Qed.

Lemma updateCategory_ok (db : Db) (user categoryId : ObjectId) (updates : Obj) :
  has updates "_id" = false ->
  ok db -> ok (snd (updateCategory other_paths_ok db user categoryId updates)).
Proof.
  intros NoId Ok. unfold updateCategory.
  destruct (negb (updateCategoryValidation updates)); [exact Ok|].
  destruct (CategoryModel.findOne db _) as [category|]; [|exact Ok].
  destruct (c_isDefault category && _); [exact Ok|].
  match goal with |- context [if ?b then (mkResponse 400 "Category with this name already exists", db) else _] => destruct b end; [exact Ok|].
  match goal with |- context [if negb ?b then (mkResponse 400 "Invalid parent category", db) else _] => destruct (negb b) end; [exact Ok|].
  destruct (assign_all category updates) as [c'|] eqn:A; [|exact Ok].
  destruct (negb (other_paths_ok updates)); [exact Ok|].
  rewrite (category_save_changes_same db category c'
             (category_assign_all_id updates category c' NoId A)).
  destruct (save db c') as [db1| |] eqn:S; try exact Ok.
  exact (save_ok db db1 c' Ok S).
Qed.

Lemma deleteCategory_ok (db : Db) (user categoryId : ObjectId) :
  ok db -> ok (snd (deleteCategory db user categoryId)).
Proof.
  intro Ok. unfold deleteCategory.
  destruct (CategoryModel.findOne db _) as [category|]; [|exact Ok].
  destruct (c_isDefault category); [exact Ok|].
  destruct (0 <? _)%nat.
  - destruct (save db _) as [db1| |] eqn:S; try exact Ok.
    exact (save_ok db db1 _ Ok S).
  - apply delete_ok. exact Ok.
Qed.

(** X14: over every sequence of category creations, updates whose payload
    does not name [_id], deletions and seedings of a new user's defaults,
    no owner comes to hold two categories of one name - whatever their
    types and whether or not they are active - and no stored category is a
    default and inactive. *)
Theorem category_rules_kept (requests : list Request) (db : Db) :
  Forall plain requests ->
  ok db -> ok (run other_paths_ok db requests).
Proof.
  revert db. induction requests as [|r requests IH]; intros db P Ok; [exact Ok|].
  inversion P as [|? ? Pr Prest]; subst.
  cbn [run fold_left]. apply (IH _ Prest). destruct r; cbn [step plain] in *.
  - apply createCategory_ok. exact Ok.
  - apply updateCategory_ok; assumption.
  - apply deleteCategory_ok. exact Ok.
  - apply createDefaultCategories_ok. exact Ok.
Qed.

End CategoryInvariants.

Section CategoryRulesAtWork.

Import CategoryRules.

Lemma ok_fresh : ok Scenario.fresh.
Proof.
  unfold ok, ids_ok, names_unique, defaults_active. cbn. repeat split.
  - repeat constructor; cbn; intuition discriminate.
  - intros c [<-|[<-|[]]]; cbn; lia.
  - intros c d [<-|[<-|[]]] [<-|[<-|[]]] _ N; try reflexivity; discriminate N.
  - intros c [<-|[<-|[]]] D; discriminate D.
Qed.

(** Defaults for a second user, a second Food for the first (turned down
    by the handler), the salary category deactivated and the food category
    deleted: the rules hold at the end. *)
Lemma category_rules_kept_fresh :
  ok (run (fun _ => true) Scenario.fresh
        [Register 8%nat;
         Create Scenario.alice
           [("name", JStr " Food "); ("type", JStr "income"); ("color", JStr "#abc")];
         Update Scenario.alice 3%nat [("isActive", JBool false)];
         Delete Scenario.alice 2%nat]).
Proof.
  apply category_rules_kept; [|exact ok_fresh].
  repeat (apply Forall_cons; [cbn; try exact I; reflexivity|]). constructor.
Defined.

End CategoryRulesAtWork.

(* ================================================================== *)
(** ** Default categories, names and links *)
(* ================================================================== *)

Section CategoryGuards.

Import TransactionController CategoryWrites CategoryController AuthController CategoryRules.

Lemma findOne_own_category (db : Db) (user : ObjectId) (c : Category) :
  NoDup (map c_id (categories db)) -> In c (categories db) -> c_userId c = user ->
  CategoryModel.findOne db (fun x => (c_id x =? c_id c)%nat && (c_userId x =? user)%nat)
  = Some c.
Proof.
  intros ND Hin Hu. unfold CategoryModel.findOne.
  destruct (find _ (categories db)) as [x|] eqn:F.
  - apply find_some in F. destruct F as [Hx Hp].
    apply andb_true_iff in Hp. destruct Hp as [Hid _]. apply Nat.eqb_eq in Hid.
    f_equal. apply (NoDup_map_inj c_id (categories db)); assumption.
  - pose proof (find_none _ _ F c Hin) as N. cbn beta in N.
    rewrite Hu, !Nat.eqb_refl in N. discriminate N.
Qed.

Variable other_paths_ok : Obj -> bool.

(** X15: a default category is neither deleted nor renamed nor given another
    type.  A delete request of its owner is answered 400, and so is every
    update request whose payload has a name or a type; both leave the
    database as it was. *)
Theorem default_category_protected (db : Db) (c : Category) (updates : Obj) :
  NoDup (map c_id (categories db)) -> In c (categories db) -> c_isDefault c = true ->
  deleteCategory db (c_userId c) (c_id c)
  = (mkResponse 400 "Cannot delete default categories", db)
  /\ (truthy (get updates "name") || truthy (get updates "type") = true ->
      status (fst (updateCategory other_paths_ok db (c_userId c) (c_id c) updates)) = 400%nat
      /\ snd (updateCategory other_paths_ok db (c_userId c) (c_id c) updates) = db).
Proof.
  intros ND Hin D. split.
  - unfold deleteCategory. rewrite (findOne_own_category db _ c ND Hin eq_refl), D.
    reflexivity.
  - intro T. unfold updateCategory.
    destruct (negb (updateCategoryValidation updates)); [split; reflexivity|].
    rewrite (findOne_own_category db _ c ND Hin eq_refl), D, T. split; reflexivity.
Qed.

(** X16: deleting a category never strands a transaction.  When every
    transaction is linked to a stored category of its owner, it still is
    after [deleteCategory]: a category with transactions of the requester is
    deactivated, not removed; and the transactions are as they were. *)
Theorem deleteCategory_keeps_links (db : Db) (user categoryId : ObjectId) :
  NoDup (map c_id (categories db)) -> linked db ->
  linked (snd (deleteCategory db user categoryId))
  /\ transactions (snd (deleteCategory db user categoryId)) = transactions db.
Proof.
  intros ND L. unfold deleteCategory.
  destruct (CategoryModel.findOne db _) as [category|] eqn:F; [|split; [exact L|reflexivity]].
  apply find_some in F. destruct F as [Hin Hp].
  apply andb_true_iff in Hp. destruct Hp as [Hid Hu]. apply Nat.eqb_eq in Hid, Hu.
  destruct (c_isDefault category); [split; [exact L|reflexivity]|].
  destruct (0 <? _)%nat eqn:C.
  - unfold save.
    destruct (negb (validate _)); [split; [exact L|reflexivity]|].
    destruct (negb (pre_save_ok _)); [split; [exact L|reflexivity]|].
    destruct (duplicate db _); [split; [exact L|reflexivity]|].
    cbn [snd]. split; [|reflexivity].
    intros t Ht. cbn [transactions categories with_categories] in *.
    destruct (L t Ht) as (c & Hc & Ec & Uc).
    destruct (Nat.eq_dec (c_id c) (c_id category)) as [E|N].
    + assert (c = category) as -> by (apply (NoDup_map_inj c_id (categories db)); assumption).
      eexists. split.
      { unfold replace_by. apply in_map_iff. exists category. split; [|exact Hin].
        cbn [c_id]. rewrite Nat.eqb_refl. reflexivity. }
      split; [exact Ec | exact Uc].
    + exists c. split; [|split; assumption].
      unfold replace_by. apply in_map_iff. exists c. split; [|exact Hc].
      cbn [c_id]. apply Nat.eqb_neq in N. rewrite N. reflexivity.
  - cbn [snd]. split; [|reflexivity].
    intros t Ht. cbn [transactions categories with_categories findByIdAndDelete] in *.
    destruct (L t Ht) as (c & Hc & Ec & Uc).
    exists c. split; [|split; assumption].
    unfold remove_by. apply filter_In. split; [exact Hc|].
    apply negb_true_iff. apply Nat.eqb_neq. intro E.
    pose proof (count_zero db _ t C Ht) as Z. cbn beta in Z.
    assert (c = category) as -> by (apply (NoDup_map_inj c_id (categories db)); congruence).
    rewrite <- Ec, Hid, Nat.eqb_refl, <- Uc, Hu, Nat.eqb_refl in Z. discriminate Z.
Qed.

End CategoryGuards.

Section CategoryGuardsAtWork.

Import TransactionController CategoryWrites CategoryController CategoryRules.

(** A user's default category Salary: the delete request and a rename are
    both turned down. *)
Lemma default_category_protected_salary :
  let c := mkCategory 1%nat Scenario.alice "Salary" income true true in
  let db := mkDb [] [] [c] [] 2%nat in
  deleteCategory db Scenario.alice 1%nat
  = (mkResponse 400 "Cannot delete default categories", db)
  /\ (truthy (get [("name", JStr "Wages")] "name")
      || truthy (get [("name", JStr "Wages")] "type") = true ->
      status (fst (updateCategory (fun _ => true) db Scenario.alice 1%nat
                     [("name", JStr "Wages")])) = 400%nat
      /\ snd (updateCategory (fun _ => true) db Scenario.alice 1%nat
                [("name", JStr "Wages")]) = db).
Proof.
  cbv zeta.
  apply (default_category_protected (fun _ => true)
           (mkDb [] [] [mkCategory 1%nat Scenario.alice "Salary" income true true] [] 2%nat)
           (mkCategory 1%nat Scenario.alice "Salary" income true true)
           [("name", JStr "Wages")]).
  - repeat constructor. intros [].
  - left. reflexivity.
  - reflexivity.
Defined.

Lemma linked_one_expense : linked Scenario.one_expense.
Proof.
  intros t [<-|[]]. exists Scenario.food. split; [left; reflexivity|]. split; reflexivity.
Qed.

(** The food category, with one expense on it, is deactivated by the delete
    request and the expense stays linked to it. *)
Lemma deleteCategory_keeps_links_food :
  linked (snd (deleteCategory Scenario.one_expense Scenario.alice 2%nat))
  /\ transactions (snd (deleteCategory Scenario.one_expense Scenario.alice 2%nat))
     = transactions Scenario.one_expense.
Proof.
  apply (deleteCategory_keeps_links Scenario.one_expense Scenario.alice 2%nat).
  - repeat constructor; cbn; intuition discriminate.
  - exact linked_one_expense.
Defined.

End CategoryGuardsAtWork.

Section CategoryNames.

Import TransactionController CategoryWrites CategoryController CategoryRules.

Variable other_paths_ok : Obj -> bool.

Lemma nonempty_length (s : string) : (1 <= String.length s)%nat -> nonempty s = true.
Proof. destruct s; cbn; [lia | reflexivity]. Qed.

(** X17: a category name is the owner's alone.  A creation request with a
    name of ASCII characters that
    passes the validators, names no parent and has acceptable optional
    fields is answered 201 exactly when the requester holds no category
    with the trimmed name - the categories of other users do not count,
    the requester's categories of the other type and the inactive ones do.
    On success the collection grows by the new category, not a default and
    active, under the next ObjectId. *)
Theorem createCategory_iff_name_free (db : Db) (user : ObjectId) (body : Obj) (name : string) :
  ids_ok db ->
  createCategoryValidation body = true -> get body "name" = JStr name ->
  UploadParsing.every UploadParsing.is_ascii name = true ->
  truthy (get body "parentCategory") = false -> other_paths_ok body = true ->
  (status (fst (createCategory other_paths_ok db user body)) = 201%nat
   <-> forall c, In c (categories db) -> c_userId c = user -> c_name c <> trim name)
  /\ (status (fst (createCategory other_paths_ok db user body)) = 201%nat ->
      exists ty,
        TxType_of_js (get body "type") = Some ty
        /\ categories (snd (createCategory other_paths_ok db user body))
           = (categories db ++ [mkCategory (nextId db) user (trim name) ty false true])%list).
Proof.
  intros [ND Fresh] Val Hname _ Hparent Hother.
  unfold createCategory. rewrite Val, Hname, Hparent, Hother. cbn [negb text_of].
  assert (V := Val). unfold createCategoryValidation in V. rewrite Hname in V.
  apply andb_true_iff in V. destruct V as [V _].
  apply andb_true_iff in V. destruct V as [V _].
  apply andb_true_iff in V. destruct V as [Vn Vt].
  unfold isIn_type in Vt.
  destruct (TxType_of_js (get body "type")) as [ty|]; [|discriminate Vt].
  unfold isLength_trimmed in Vn. apply andb_true_iff in Vn. destruct Vn as [V1 V2].
  apply Nat.leb_le in V1.
  unfold save_new, validate, pre_save_ok, strlen_le, with_id.
  cbn [c_name c_isDefault c_isActive c_userId c_type c_id andb negb].
  rewrite (nonempty_length _ V1), V2. cbn [andb negb].
  destruct (CategoryModel.findOne db _) as [existing|] eqn:F.
  - cbn [fst snd status]. split.
    + split; [discriminate|]. intro Free. exfalso.
      apply find_some in F. destruct F as [Hin Hp].
      apply andb_true_iff in Hp. destruct Hp as [Hp _].
      apply andb_true_iff in Hp. destruct Hp as [Hp _].
      apply andb_true_iff in Hp. destruct Hp as [Hu Hn].
      apply Nat.eqb_eq in Hu. apply String.eqb_eq in Hn.
      exact (Free existing Hin Hu Hn).
    + discriminate.
  - destruct (duplicate db _) eqn:D.
    + cbn [fst snd status]. split.
      * split; [discriminate|]. intro Free. exfalso.
        unfold duplicate in D. apply existsb_exists in D. destruct D as [d [Hd Hp]].
        cbn [c_id c_userId c_name] in Hp.
        apply andb_true_iff in Hp. destruct Hp as [Hp Hn].
        apply andb_true_iff in Hp. destruct Hp as [_ Hu].
        apply Nat.eqb_eq in Hu. apply String.eqb_eq in Hn.
        exact (Free d Hd Hu Hn).
      * discriminate.
    + cbn [fst snd status categories bump with_categories]. split.
      * split; [|reflexivity]. intros _ c Hc Hu Hn.
        pose proof (not_duplicate db _ c D Hc) as N. cbn [c_userId c_name c_id] in N.
        specialize (N Hu Hn). specialize (Fresh c Hc). lia.
      * intros _. exists ty. split; reflexivity.
Qed.

End CategoryNames.

Section CategoryNamesAtWork.

Import TransactionController CategoryWrites CategoryController CategoryRules.

(** On the fresh database Alice holds Food and Salary: a request for Rent
    is answered 201 exactly because neither is called Rent. *)
Lemma createCategory_iff_name_free_rent :
  let body := [("name", JStr " Rent "); ("type", JStr "expense"); ("color", JStr "#00ff00")] in
  status (fst (createCategory (fun _ => true) Scenario.fresh Scenario.alice body)) = 201%nat
  <-> forall c, In c (categories Scenario.fresh) -> c_userId c = Scenario.alice ->
                c_name c <> trim " Rent ".
Proof.
  cbv zeta.
  refine (proj1 (createCategory_iff_name_free (fun _ => true) Scenario.fresh Scenario.alice
                   [("name", JStr " Rent "); ("type", JStr "expense");
                    ("color", JStr "#00ff00")] " Rent " _ _ _ _ _ _)).
  - exact (proj1 ok_fresh).
  - reflexivity.
  - reflexivity.
  - reflexivity.
  - reflexivity.
  - reflexivity.
Defined.

End CategoryNamesAtWork.

(* ================================================================== *)
(** ** What a new user starts with *)
(* ================================================================== *)

Section Defaults.

Import Ledger Api CategoryWrites AuthController CategoryRules.

Lemma insert_ordered_fresh (u : ObjectId) (docs : list Category) (db : Db) :
  (forall c, In c docs -> c_userId c = u) -> NoDup (map c_name docs) ->
  (forall d, In d (categories db) -> c_userId d = u -> ~ In (c_name d) (map c_name docs)) ->
  snd (insert_ordered db docs) = true
  /\ categories (fst (insert_ordered db docs))
     = (categories db ++ numbered (nextId db) docs)%list
  /\ accounts (fst (insert_ordered db docs)) = accounts db
  /\ transactions (fst (insert_ordered db docs)) = transactions db.
Proof.
  revert db. induction docs as [|c docs IH]; intros db Hu ND Free.
  - cbn. rewrite app_nil_r. auto.
  - cbn [insert_ordered].
    cbn [map] in ND. inversion ND as [|? ? Hnot ND']; subst.
    destruct (duplicate db (with_id (nextId db) c)) eqn:D.
    + exfalso. unfold duplicate in D. apply existsb_exists in D.
      destruct D as [d [Hd Hp]]. cbn [with_id c_id c_userId c_name] in Hp.
      apply andb_true_iff in Hp. destruct Hp as [Hp Hn].
      apply andb_true_iff in Hp. destruct Hp as [_ Hud].
      apply Nat.eqb_eq in Hud. apply String.eqb_eq in Hn.
      apply (Free d Hd).
      * rewrite Hud. apply Hu. left. reflexivity.
      * left. symmetry. exact Hn.
    + specialize (IH (bump (with_categories db (categories db ++ [with_id (nextId db) c])))).
      destruct IH as (I1 & I2 & I3 & I4).
      * intros x Hx. apply Hu. right. exact Hx.
      * exact ND'.
      * cbn [categories bump with_categories]. intros d Hd Hud Hin.
        apply in_app_or in Hd. destruct Hd as [Hd|[<-|[]]].
        -- apply (Free d Hd Hud). right. exact Hin.
        -- apply Hnot. exact Hin.
      * split; [exact I1|]. split; [|split; [exact I3 | exact I4]].
        rewrite I2. cbn [categories nextId bump with_categories numbered].
        rewrite <- app_assoc. reflexivity.
Qed.

(** X18: a new user gets all fourteen default categories.  For a user who
    holds no category yet, [createDefaultCategories] writes every entry of
    its list - the unique index turns none down -, in order, under the next
    ObjectIds, each a default, active and the user's; accounts and
    transactions stay as they were. *)
Theorem createDefaultCategories_new_user (db : Db) (userId : ObjectId) :
  (forall d, In d (categories db) -> c_userId d <> userId) ->
  snd (createDefaultCategories db userId) = true
  /\ categories (fst (createDefaultCategories db userId))
     = (categories db
        ++ numbered (nextId db)
             (map (fun cat => mkCategory 0%nat userId (fst cat) (snd cat) true true)
                  defaultCategories))%list
  /\ accounts (fst (createDefaultCategories db userId)) = accounts db
  /\ transactions (fst (createDefaultCategories db userId)) = transactions db.
Proof.
  intro New. unfold createDefaultCategories, insertMany.
  change (map cast (map (fun cat => mkCategory 0%nat userId (fst cat) (snd cat) true true)
                        defaultCategories))
    with (map (fun cat => mkCategory 0%nat userId (fst cat) (snd cat) true true)
              defaultCategories).
  change (forallb validate
            (map (fun cat => mkCategory 0%nat userId (fst cat) (snd cat) true true)
                 defaultCategories))
    with true.
  cbv iota.
  apply (insert_ordered_fresh userId).
  - intros c Hc. apply in_map_iff in Hc. destruct Hc as [p [<- _]]. reflexivity.
  - rewrite map_map. cbn [map defaultCategories c_name fst].
    repeat (constructor; [cbn [In]; intuition discriminate|]). constructor.
  - intros d Hd Hu _. exact (New d Hd Hu).
Qed.

(** On the fresh database user 8 holds no category and gets the fourteen. *)
Lemma createDefaultCategories_new_user_fresh :
  snd (createDefaultCategories Scenario.fresh 8%nat) = true
  /\ List.length (categories (fst (createDefaultCategories Scenario.fresh 8%nat))) = 16%nat.
Proof.
  destruct (createDefaultCategories_new_user Scenario.fresh 8%nat) as (F & C & _).
  - intros d [<-|[<-|[]]]; cbn; discriminate.
  - split; [exact F|]. rewrite C. reflexivity.
Defined.

Lemma net_absent (i : ObjectId) (l : list Transaction) :
  (forall t, In t l -> t_accountId t <> i) -> net i l == 0.
Proof.
  intro H. induction l as [|t l IH]; [reflexivity|].
  rewrite net_cons, IH by (intros x Hx; apply H; right; exact Hx).
  unfold effect_on. pose proof (H t (or_introl eq_refl)) as N.
  apply Nat.eqb_neq in N. rewrite N. ring.
Qed.

Lemma createDefaultAccounts_books (db : Db) (userId : ObjectId) :
  sound db -> well_formed db -> ledger_ok db ->
  snd (createDefaultAccounts db userId) = true
  /\ sound (fst (createDefaultAccounts db userId))
  /\ ledger_ok (fst (createDefaultAccounts db userId))
  /\ exists a b,
       accounts (fst (createDefaultAccounts db userId)) = (accounts db ++ [a; b])%list
       /\ a_name a = "Main Checking" /\ a_name b = "Savings"
       /\ a_userId a = userId /\ a_userId b = userId
       /\ a_balance a == 0 /\ a_balance b == 0
       /\ a_initialBalance a == 0 /\ a_initialBalance b == 0.
Proof.
  intros [NDa [NDt [Fresh [Acc Txn]]]] [_ Old] L.
  unfold createDefaultAccounts, Account_insertMany.
  change (forallb AccountModel.validate
            [default_account userId "Main Checking" checking 0;
             default_account userId "Savings" savings 0])
    with true.
  cbv iota. cbn [fst snd insert_accounts].
  set (a := mkAccount (nextId db) userId "Main Checking" checking (round2 0) 0 None true 0).
  set (b := mkAccount (S (nextId db)) userId "Savings" savings (round2 0) 0 None true 0).
  assert (Shape :
    insert_accounts db [default_account userId "Main Checking" checking 0;
                        default_account userId "Savings" savings 0]
    = mkDb (accounts db ++ [a; b]) (transactions db) (categories db) (budgets db)
           (S (S (nextId db)))).
  { cbn [insert_accounts]. unfold bump, with_accounts.
    cbn [accounts transactions categories budgets nextId].
    rewrite <- app_assoc. reflexivity. }
  cbn [insert_accounts] in Shape. rewrite Shape. clear Shape.
  assert (Unlinked : forall i, (nextId db <= i)%nat ->
                               forall t, In t (transactions db) -> t_accountId t <> i).
  { intros i Hi t Ht. destruct (Txn t Ht) as [_ [x [Hx Ex]]].
    specialize (Old x Hx). lia. }
  split; [reflexivity|]. split; [|split].
  - unfold sound. cbn [accounts transactions nextId].
    split; [|split; [exact NDt|split; [|split]]].
    + rewrite map_app. cbn [map a b a_id]. apply NoDup_app. repeat split.
      * exact NDa.
      * repeat constructor; cbn [In]; [intros [H|[]]; lia | intros []].
      * intros i Hi Hj. apply in_map_iff in Hi. destruct Hi as [x [E Hx]].
        specialize (Old x Hx). destruct Hj as [Hj|[Hj|[]]]; lia.
    + intros t Ht. specialize (Fresh t Ht). lia.
    + intros x Hx. apply in_app_or in Hx.
      destruct Hx as [Hx|[<-|[<-|[]]]]; [exact (Acc x Hx) | |];
        (split; [reflexivity | exists 0%Z; reflexivity]).
    + intros t Ht. split; [apply (Txn t Ht)|].
      destruct (Txn t Ht) as [_ [x [Hx Ex]]]. exists x. split; [|exact Ex].
      apply in_or_app. left. exact Hx.
  - intros x Hx. cbn [accounts] in Hx. unfold balanced. cbn [transactions].
    apply in_app_or in Hx. destruct Hx as [Hx|[<-|[<-|[]]]].
    + exact (L x Hx).
    + pose proof (net_absent (nextId db) (transactions db)
                    (Unlinked _ (Nat.le_refl _))) as N.
      unfold net in N. cbn [a a_balance a_initialBalance a_id].
      assert (R : round2 0 == 0) by reflexivity. lra.
    + pose proof (net_absent (S (nextId db)) (transactions db)
                    (Unlinked _ (Nat.le_succ_diag_r _))) as N.
      unfold net in N. cbn [b a_balance a_initialBalance a_id].
      assert (R : round2 0 == 0) by reflexivity. lra.
  - exists a, b. cbn [accounts a b a_name a_userId a_balance a_initialBalance].
    repeat split; reflexivity.
Qed.

(** X19: the two default accounts leave the books in order.  From a database
    whose balances agree with its transactions, [createDefaultAccounts]
    appends Main Checking and Savings for the user, both at balance and
    initial balance 0, and every balance still agrees with the transactions
    linked to its account. *)
Theorem createDefaultAccounts_keeps_ledger (db : Db) (userId : ObjectId) :
  sound db -> well_formed db -> ledger_ok db ->
  snd (createDefaultAccounts db userId) = true
  /\ sound (fst (createDefaultAccounts db userId))
  /\ ledger_ok (fst (createDefaultAccounts db userId))
  /\ exists a b,
       accounts (fst (createDefaultAccounts db userId)) = (accounts db ++ [a; b])%list
       /\ a_name a = "Main Checking" /\ a_name b = "Savings"
       /\ a_userId a = userId /\ a_userId b = userId
       /\ a_balance a == 0 /\ a_balance b == 0
       /\ a_initialBalance a == 0 /\ a_initialBalance b == 0.
Proof. exact (createDefaultAccounts_books db userId). Qed.

(** On the fresh database the accounts become Main, Main Checking and
    Savings, and the balances still agree. *)
Lemma createDefaultAccounts_keeps_ledger_fresh :
  snd (createDefaultAccounts Scenario.fresh 8%nat) = true
  /\ sound (fst (createDefaultAccounts Scenario.fresh 8%nat))
  /\ ledger_ok (fst (createDefaultAccounts Scenario.fresh 8%nat)).
Proof.
  destruct (createDefaultAccounts_keeps_ledger Scenario.fresh 8%nat
              sound_fresh well_formed_fresh) as (F & S & L & _).
  - intros a [<-|[]]. vm_compute. reflexivity.
  - split; [exact F|]. split; [exact S | exact L].
Defined.

End Defaults.

(* ================================================================== *)
(** ** The pages of the transaction listing *)
(* ================================================================== *)

Section ListingPages.

Import TransactionController TransactionQueries AnalyticsController.

Variable regex : string -> option (string -> bool).
Variable sort_by : string -> bool -> list Transaction -> list Transaction.

(** The server's sort returns the documents it was given. *)
Hypothesis sort_by_length :
  forall field ascending l, List.length (sort_by field ascending l) = List.length l.

Lemma Qeq_bool_eq (x y : Q) : Qeq_bool x y = true -> x == y.
Proof. apply Qeq_bool_iff. Qed.


Lemma stats_count (docs : list Transaction) :
  fold_left (fun sum s => (sum + g_count s)%nat) (stats_by_type docs) 0%nat
  = List.length docs.
Proof.
  assert (Split : (List.length (filter (fun t => TxType_eqb (t_type t) income) docs)
                   + List.length (filter (fun t => TxType_eqb (t_type t) expense) docs)
                   = List.length docs)%nat).
  { induction docs as [|t docs IH]; [reflexivity|]. cbn [filter].
    destruct (t_type t); cbn [TxType_eqb List.length]; lia. }
  unfold stats_by_type.
  destruct (filter (fun t => TxType_eqb (t_type t) income) docs) as [|i li];
    destruct (filter (fun t => TxType_eqb (t_type t) expense) docs) as [|e le];
    cbn [app fold_left g_count List.length] in *; lia.
Qed.



End ListingPages.

Section ListingPagesAtWork.

Import TransactionController TransactionQueries.


End ListingPagesAtWork.

(* ================================================================== *)
(** ** Bulk import and the balances *)
(* ================================================================== *)

Section BulkLedger.

Import TransactionModel TransactionController Ledger.

(** The sum of what the documents [ts] add to the balance of account [i]. *)
Lemma insert_all_net (ts : list Transaction) (db : Db) (i : ObjectId) :
  net i (transactions (fst (insert_all db ts)))
  == net i (transactions db) + fold_right (fun t s => effect_on i t + s) 0 ts.
Proof.
  revert db. induction ts as [|t ts IH]; intro db.
  - cbn. ring.
  - cbn [insert_all].
    specialize (IH (bump (with_transactions db (transactions db ++ [with_id (nextId db) t])))).
    destruct (insert_all _ ts) as [db2 ins]. cbn [fst] in *.
    rewrite IH. cbn [transactions bump with_transactions fold_right].
    rewrite net_app, net_cons, net_nil. unfold effect_on. cbn [with_id t_accountId t_type t_amount].
    ring.
Qed.

Lemma insert_all_sound (ts : list Transaction) (db : Db) (a : Account) :
  sound db -> In a (accounts db) ->
  (forall t, In t ts -> whole_cents (t_amount t) /\ t_accountId t = a_id a) ->
  sound (fst (insert_all db ts)).
Proof.
  revert db. induction ts as [|t ts IH]; intros db S Ha H; [exact S|].
  cbn [insert_all].
  specialize (IH (bump (with_transactions db (transactions db ++ [with_id (nextId db) t])))).
  destruct (insert_all _ ts) as [db2 ins]. cbn [fst] in *.
  destruct (H t (or_introl eq_refl)) as [C E].
  apply IH.
  - apply (insert_sound db t a S C Ha). symmetry. exact E.
  - exact Ha.
  - intros x Hx. apply H. right. exact Hx.
Qed.

(** The documents made from the valid rows carry the rows' accounts, types
    and, for amounts in whole cents, amounts. *)
Lemma construct_all_effect (valid : list TxnInput) (ts : list Transaction) (i : ObjectId) :
  construct_all valid = Some ts ->
  (forall v, In v valid -> whole_cents (i_amount v)) ->
  fold_right (fun t s => effect_on i t + s) 0 ts == signed_sum i valid
  /\ (forall a, (forall v, In v valid -> i_accountId v = a) ->
                forall t, In t ts -> whole_cents (t_amount t) /\ t_accountId t = a).
Proof.
  revert ts. induction valid as [|v valid IH]; intros ts C W.
  - injection C as <-. split; [reflexivity | intros a _ t []].
  - cbn [construct_all] in C. unfold construct in C.
    destruct (i_date v) as [d|]; [|discriminate C].
    destruct (construct_all valid) as [ts'|]; [|discriminate C].
    injection C as <-.
    destruct (IH ts' eq_refl (fun x Hx => W x (or_intror Hx))) as [E A].
    pose proof (round2_cents _ (W v (or_introl eq_refl))) as R.
    split.
    + cbn [fold_right]. rewrite E. unfold signed_sum, effect_on, signed. cbn [filter].
      cbn [t_accountId t_type t_amount].
      destruct (i_accountId v =? i)%nat; [|ring].
      cbn [fold_right]. destruct (i_type v); lra.
    + intros a Ha t [<-|Ht].
      * cbn [t_amount t_accountId]. split; [apply round2_whole_cents|].
        apply Ha. left. reflexivity.
      * apply (A a); [|exact Ht]. intros x Hx. apply Ha. right. exact Hx.
Qed.

Lemma inc_off (db : Db) (f : ObjectId -> Q) (k : ObjectId) (v : Q) :
  NoDup (map a_id (accounts db)) -> ledger_off db f ->
  ledger_off (AccountModel.findByIdAndUpdate_inc db k v)
             (fun i => f i - (if (i =? k)%nat then round2 v else 0)).
Proof.
  intros ND Off. unfold AccountModel.findByIdAndUpdate_inc.
  destruct (AccountModel.findById db k) as [x|] eqn:F.
  - apply findById_In in F. destruct F as [Hx Ex].
    intros a Ha. cbn [accounts transactions with_accounts] in *.
    apply in_replace_by in Ha. destruct Ha as [->|[Ha N]].
    + cbn [inc_balance a_id a_balance a_initialBalance]. rewrite Ex, Nat.eqb_refl.
      pose proof (Off x Hx) as O. rewrite Ex in O. lra.
    + cbn [inc_balance a_id] in N. rewrite Ex in N. apply Nat.eqb_neq in N. rewrite N.
      pose proof (Off a Ha) as O. lra.
  - intros a Ha. destruct (a_id a =? k)%nat eqn:E.
    + apply Nat.eqb_eq in E. exfalso.
      pose proof (find_none _ _ F a Ha) as N. cbn beta in N.
      rewrite E, Nat.eqb_refl in N. discriminate N.
    + pose proof (Off a Ha) as O. lra.
Qed.

Lemma inc_sound (db : Db) (k : ObjectId) (v : Q) :
  sound db -> sound (AccountModel.findByIdAndUpdate_inc db k v).
Proof.
  intros S. unfold AccountModel.findByIdAndUpdate_inc.
  destruct (AccountModel.findById db k) as [x|] eqn:F; [|exact S].
  apply findById_In in F. destruct F as [Hx Ex].
  pose proof S as [NDa [NDt [Fresh [Acc Txn]]]].
  destruct (Acc x Hx) as [Vx Cx].
  destruct (save_sound db x (inc_balance x (round2 v)) S Hx eq_refl Vx
              (whole_cents_plus _ _ Cx (round2_whole_cents v))) as (db' & Hs & S' & _).
  unfold AccountModel.save in Hs. cbn [AccountModel.pre_save] in Hs.
  change (AccountModel.validate (inc_balance x (round2 v)))
    with (AccountModel.validate x) in Hs.
  rewrite Vx in Hs. injection Hs as <-. exact S'.
Qed.

Lemma apply_updates_off (m : UpdateMap) (db : Db) (f : ObjectId -> Q) :
  NoDup (map a_id (accounts db)) -> NoDup (map fst m) -> ledger_off db f ->
  ledger_off (apply_updates db m)
             (fun i => f i - match Map_get m i with Some v => round2 v | None => 0 end).
Proof.
  revert db f. induction m as [|[k v] m IH]; intros db f ND NDm Off.
  - cbn. intros a Ha. pose proof (Off a Ha) as O. lra.
  - cbn [map fst] in NDm. inversion NDm as [|? ? Hnot NDm']; subst.
    unfold apply_updates. cbn [fold_left fst snd]. fold (apply_updates
      (AccountModel.findByIdAndUpdate_inc db k v) m).
    pose proof (inc_off db f k v ND Off) as O1.
    pose proof (keeps_NoDup _ _ (inc_keeps db k v ND) ND) as ND1.
    pose proof (IH _ _ ND1 NDm' O1) as O2.
    intros a Ha. pose proof (O2 a Ha) as O. cbn beta in O. cbn [Map_get].
    rewrite (Nat.eqb_sym k (a_id a)).
    destruct (a_id a =? k)%nat eqn:E.
    + apply Nat.eqb_eq in E.
      destruct (Map_get m (a_id a)) as [w|] eqn:G.
      * exfalso. apply Hnot. rewrite <- E.
        clear - G. induction m as [|[k' v'] m IH]; [discriminate G|].
        cbn [Map_get] in G. cbn [map fst].
        destruct (k' =? a_id a)%nat eqn:T;
          [left; now apply Nat.eqb_eq | right; now apply IH].
      * lra.
    + lra.
Qed.

Lemma apply_updates_sound (m : UpdateMap) (db : Db) :
  sound db -> sound (apply_updates db m).
Proof.
  revert db. induction m as [|[k v] m IH]; intros db S; [exact S|].
  unfold apply_updates. cbn [fold_left fst snd].
  apply IH. apply inc_sound. exact S.
Qed.

Lemma apply_updates_transactions (m : UpdateMap) (db : Db) :
  transactions (apply_updates db m) = transactions db.
Proof.
  revert db. induction m as [|[k v] m IH]; intro db; [reflexivity|].
  unfold apply_updates. cbn [fold_left fst snd].
  fold (apply_updates (AccountModel.findByIdAndUpdate_inc db k v) m). rewrite IH.
  unfold AccountModel.findByIdAndUpdate_inc.
  destruct (AccountModel.findById db k); reflexivity.
Qed.

Lemma signed_sum_cents (k : ObjectId) (l : list TxnInput) :
  (forall v, In v l -> whole_cents (i_amount v)) -> whole_cents (signed_sum k l).
Proof.
  intro W. unfold signed_sum. induction l as [|v l IH]; [apply whole_cents_0|].
  cbn [filter].
  assert (IH' := IH (fun x Hx => W x (or_intror Hx))).
  destruct (i_accountId v =? k)%nat; [|exact IH'].
  cbn [fold_right]. apply whole_cents_plus; [|exact IH'].
  unfold signed. destruct (i_type v);
    [|apply whole_cents_opp]; apply (W v); left; reflexivity.
Qed.

Lemma whole_is_cents (q : Q) : whole q = true -> whole_cents q.
Proof.
  intro H. apply Qeq_bool_iff in H. exists (Qfloor q * 100)%Z.
  rewrite inject_Z_mult. rewrite H at 1. field.
Qed.

(** A valid row of whole numbers carries the absolute value of the number
    its row gives. *)
Lemma process_row_amount (user : ObjectId) (cats : list Category) (account : Account)
    (i : nat) (txn : Obj) (v : TxnInput) :
  whole_amount (get txn "amount") ->
  process_row user cats account i txn = inl v ->
  exists q, get txn "amount" = JNum q /\ whole q = true /\ i_amount v = Math_abs q.
Proof.
  unfold process_row. intro W.
  destruct (get txn "amount") as [| | |q| | | |]; cbn [truthy negb orb];
    try discriminate; try contradiction.
  destruct (_ || _); [discriminate|]. cbn [parseFloat].
  intro H. exists q. split; [reflexivity|]. split; [exact W|].
  repeat match type of H with
         | context [if ?c then _ else _] => destruct c
         | context [match ?x with _ => _ end] => destruct x
         end; try discriminate H; injection H as <-; reflexivity.
Qed.

Lemma process_rows_amount (user : ObjectId) (cats : list Category) (account : Account)
    (rows : list Obj) (i : nat) (v : TxnInput) :
  (forall row, In row rows -> whole_amount (get row "amount")) ->
  In v (fst (process_rows user cats account i rows)) -> whole_cents (i_amount v).
Proof.
  intro W. revert i. induction rows as [|txn rows IH]; intros i H; [contradiction|].
  cbn [process_rows] in H.
  destruct (process_rows user cats account (S i) rows) as [valid errs] eqn:E.
  specialize (IH (fun row Hr => W row (or_intror Hr)) (S i)). rewrite E in IH.
  destruct (process_row user cats account i txn) as [w|e] eqn:R; cbn [fst] in H.
  - destruct H as [<-|H]; [|exact (IH H)].
    destruct (process_row_amount _ _ _ _ _ _ (W txn (or_introl eq_refl)) R)
      as (q & G & Wq & ->).
    apply whole_cents_abs, whole_is_cents. exact Wq.
  - exact (IH H).
Qed.

Lemma bulkImportTransactions_books (db : Db) (user : ObjectId) (rows : list Obj) :
  sound db -> ledger_ok db ->
  (forall row, In row rows -> whole_amount (get row "amount")) ->
  sound (snd (bulkImportTransactions db user (Some rows)))
  /\ ledger_ok (snd (bulkImportTransactions db user (Some rows))).
Proof.
  intros S L W. unfold bulkImportTransactions.
  destruct rows as [|row rows]; [split; assumption|].
  destruct (AccountModel.find_all db _) as [|account others] eqn:Hacc; [split; assumption|].
  assert (Hin : In account (accounts db)).
  { assert (I : In account (AccountModel.find_all db
                    (fun a => (a_userId a =? user)%nat && a_isActive a)))
      by (rewrite Hacc; left; reflexivity).
    unfold AccountModel.find_all in I. apply filter_In in I. apply I. }
  destruct (process_rows user _ account 0 (row :: rows)) as [valid errs] eqn:P.
  match type of P with
  | process_rows _ ?cats _ _ _ = _ =>
      pose proof (process_rows_account user cats account (row :: rows) 0) as Acc;
      pose proof (fun v => process_rows_amount user cats account (row :: rows) 0 v W) as Am
  end.
  rewrite P in Acc, Am. cbn [fst] in Acc, Am.
  destruct valid as [|v0 valid0]; [split; assumption|].
  set (valid := v0 :: valid0) in *.
  unfold insertMany. destruct (construct_all valid) as [ts|] eqn:C; [|split; assumption].
  destruct (forallb validate ts); [|split; assumption].
  pose proof (fun i => proj1 (construct_all_effect valid ts i C Am)) as Eff.
  pose proof (proj2 (construct_all_effect valid ts 0%nat C Am) (a_id account) Acc) as Shape.
  pose proof (insert_all_sound ts db account S Hin Shape) as S1.
  pose proof (fun i => insert_all_net ts db i) as N1.
  destruct (insert_all_frame ts db) as [A1 _].
  destruct (insert_all db ts) as [db1 inserted]. cbn [fst snd] in *.
  assert (Agg : aggregates (accountUpdates valid) valid).
  { apply (accountUpdates_fold valid [] []).
    split; [constructor|]. split.
    - intro k. split; [intros [] | intros [t [[] _]]].
    - intros k w G. discriminate G. }
  destruct Agg as (NDm & Keys & Vals).
  split; [apply apply_updates_sound; assumption|].
  pose proof S as [NDa _]. apply ledger_ok_zero in L.
  assert (O1 : ledger_off db1 (fun i => 0 + signed_sum i valid)).
  { apply (transactions_off db db1); [exact A1 | | exact L].
    intro i. rewrite N1, Eff. reflexivity. }
  assert (ND1 : NoDup (map a_id (accounts db1))) by (rewrite A1; exact NDa).
  pose proof (apply_updates_off _ db1 _ ND1 NDm O1) as O2.
  apply (ledger_ok_off _ _) in O2; [exact O2|].
  intro i. cbn beta.
  destruct (Map_get (accountUpdates valid) i) as [w|] eqn:G.
  - pose proof (Vals i w G) as Ew.
    rewrite (round2_comp _ _ Ew).
    rewrite (round2_cents _ (signed_sum_cents i valid Am)). ring.
  - rewrite signed_sum_absent; [ring|].
    intros t Ht E. apply (Map_get_None _ _ G). apply Keys. exists t. auto.
Qed.

(** X6: a bulk import keeps the books.  From a database whose balances
    agree with its transactions, after [bulkImportTransactions] on rows
    that add up exactly on the balance of the user's first active account -
    amounts and balance in whole numbers -, every account still has its
    initial balance plus the income minus the expenses linked to it: the
    one increment of the import adds exactly what the inserted transactions
    add. *)
Theorem bulkImportTransactions_ledger (db : Db) (user : ObjectId) (rows : list Obj)
    (account : Account) (others : list Account) :
  sound db -> ledger_ok db ->
  AccountModel.find_all db (fun a => (a_userId a =? user)%nat && a_isActive a)
    = account :: others ->
  adds_exactly (a_balance account) rows ->
  sound (snd (bulkImportTransactions db user (Some rows)))
  /\ ledger_ok (snd (bulkImportTransactions db user (Some rows))).
Proof.
  intros S L _ (_ & W & _). exact (bulkImportTransactions_books db user rows S L W).
Qed.

(** Two rows in whole numbers imported on the fresh database: the balance
    of the account, 88, agrees with the two transactions. *)
Lemma bulkImportTransactions_ledger_fresh :
  ledger_ok (snd (bulkImportTransactions Scenario.fresh Scenario.alice
                    (Some [[("amount", JNum 100); ("description", JStr "Pay");
                            ("date", JDate 5)];
                           [("amount", JNum (- 12)); ("description", JStr "Lunch");
                            ("date", JDate 6); ("category", JStr "food")]]))).
Proof.
  apply (bulkImportTransactions_ledger Scenario.fresh Scenario.alice _
           Scenario.main_account []).
  - exact sound_fresh.
  - intros a [<-|[]]. vm_compute. reflexivity.
  - reflexivity.
  - split; [reflexivity|]. split.
    + intros row [<-|[<-|[]]]; reflexivity.
    + vm_compute. discriminate.
Defined.

End BulkLedger.

(* ================================================================== *)
(** ** Bulk import: the example batch and the one increment *)
(* ================================================================== *)

Section BulkImportClaim.

Import TransactionModel TransactionController Ledger Flows.

(** A map whose keys are all [i] has one entry at most. *)
Lemma one_key (m : UpdateMap) (i : ObjectId) :
  NoDup (map fst m) -> (forall k, In k (map fst m) -> k = i) ->
  m = [] \/ exists w, m = [(i, w)].
Proof.
  intros ND K. destruct m as [|[k w] m]; [left; reflexivity|]. right.
  assert (Ek : k = i) by (apply K; left; reflexivity). subst k.
  destruct m as [|[k' w'] m]; [exists w; reflexivity|].
  exfalso. cbn [map fst] in ND. inversion ND as [|? ? Hnot _]; subst.
  apply Hnot. left. apply K. right. left. reflexivity.
Qed.

(** The valid rows of an import all go to one account, so the map of
    balance changes is empty, when no row is valid, or holds the one sum. *)
Lemma accountUpdates_one (valid : list TxnInput) (i : ObjectId) :
  (forall v, In v valid -> i_accountId v = i) ->
  (valid = [] /\ accountUpdates valid = [])
  \/ (exists w, accountUpdates valid = [(i, w)] /\ w == signed_sum i valid).
Proof.
  intro Acc. destruct (accountUpdates_spec valid) as (ND & Keys & Vals).
  assert (K : forall k, In k (map fst (accountUpdates valid)) -> k = i).
  { intros k Hk. apply in_map_iff in Hk. destruct Hk as [[k' w] [E Hkw]].
    cbn [fst] in E. subst k'. destruct (Vals k w Hkw) as [_ [t [Ht Et]]].
    rewrite <- Et. apply Acc. exact Ht. }
  destruct (one_key _ i ND K) as [E|[w E]].
  - left. split; [|exact E]. destruct valid as [|v valid]; [reflexivity|].
    exfalso. pose proof (Keys v (or_introl eq_refl)) as H. rewrite E in H. exact H.
  - right. exists w. split; [exact E|]. apply (Vals i w). rewrite E. left. reflexivity.
Qed.

Lemma replace_by_self (a : Account) (l : list Account) :
  NoDup (map a_id l) -> In a l -> replace_by a_id a l = l.
Proof.
  intros ND Hin. unfold replace_by. rewrite <- (map_id l) at 2. apply map_ext_in.
  intros y Hy. destruct (a_id y =? a_id a)%nat eqn:E; [|reflexivity].
  apply Nat.eqb_eq in E. symmetry. apply (NoDup_map_inj a_id l); assumption.
Qed.

Lemma construct_all_length (valid : list TxnInput) (ts : list Transaction) :
  construct_all valid = Some ts -> List.length ts = List.length valid.
Proof.
  revert ts. induction valid as [|x l IH]; intros ts C.
  - injection C as <-. reflexivity.
  - cbn [construct_all] in C. destruct (construct x); [|discriminate C].
    destruct (construct_all l) as [ts'|]; [|discriminate C].
    injection C as <-. cbn [List.length]. f_equal. apply IH. reflexivity.
Qed.

Lemma insert_all_lengths (ts : list Transaction) (db : Db) :
  List.length (snd (insert_all db ts)) = List.length ts
  /\ List.length (transactions (fst (insert_all db ts)))
     = (List.length (transactions db) + List.length ts)%nat.
Proof.
  revert db. induction ts as [|t ts IH]; intro db; [cbn; split; [reflexivity | lia]|].
  cbn [insert_all].
  specialize (IH (bump (with_transactions db (transactions db ++ [with_id (nextId db) t])))).
  destruct (insert_all _ ts) as [db2 ins]. cbn [fst snd List.length] in *.
  destruct IH as [L1 L2]. split; [f_equal; exact L1|].
  rewrite L2. cbn [transactions bump with_transactions]. rewrite length_app. cbn. lia.
Qed.

Lemma process_row_user (user : ObjectId) (cats : list Category) (account : Account)
    (i : nat) (txn : Obj) (v : TxnInput) :
  process_row user cats account i txn = inl v -> i_userId v = user.
Proof.
  unfold process_row.
  repeat match goal with
         | |- context [if ?c then _ else _] => destruct c
         | |- context [match ?x with _ => _ end] => destruct x
         end; intro H; try discriminate H; injection H as <-; reflexivity.
Qed.

Lemma process_rows_user (user : ObjectId) (cats : list Category) (account : Account)
    (rows : list Obj) (i : nat) (v : TxnInput) :
  In v (fst (process_rows user cats account i rows)) -> i_userId v = user.
Proof.
  revert i. induction rows as [|txn rows IH]; intros i H; [contradiction|].
  cbn [process_rows] in H.
  destruct (process_rows user cats account (S i) rows) as [valid errs] eqn:E.
  specialize (IH (S i)). rewrite E in IH.
  destruct (process_row user cats account i txn) as [w|e] eqn:R; cbn [fst] in H.
  - destruct H as [<-|H]; [exact (process_row_user _ _ _ _ _ _ R) | exact (IH H)].
  - exact (IH H).
Qed.

(** The documents cast from the valid rows of one user on one account are
    that user's, on that account, and their signed total is the signed sum
    of the rows. *)
Lemma construct_all_total (valid : list TxnInput) (ts : list Transaction)
    (user i : ObjectId) :
  construct_all valid = Some ts ->
  (forall v, In v valid -> i_userId v = user /\ i_accountId v = i) ->
  (forall t, In t ts -> t_userId t = user /\ t_accountId t = i)
  /\ ((forall v, In v valid -> whole_cents (i_amount v)) ->
      signed_total ts == signed_sum i valid).
Proof.
  revert ts. induction valid as [|v valid IH]; intros ts C W.
  - injection C as <-. split; [intros t []|]. intros _. reflexivity.
  - cbn [construct_all] in C. unfold construct in C.
    destruct (i_date v) as [d|]; [|discriminate C].
    destruct (construct_all valid) as [ts'|]; [|discriminate C].
    injection C as <-.
    destruct (IH ts' eq_refl (fun x Hx => W x (or_intror Hx))) as [Own Tot].
    destruct (W v (or_introl eq_refl)) as [Wu Wa].
    split.
    + intros t [<-|Ht]; [split; assumption | exact (Own t Ht)].
    + intro Cents. unfold signed_total, signed_sum. cbn [fold_right filter].
      rewrite Wa, Nat.eqb_refl. cbn [fold_right].
      fold (signed_total ts'). fold (signed_sum i valid).
      pose proof (Tot (fun x Hx => Cents x (or_intror Hx))) as T.
      pose proof (round2_cents _ (Cents v (or_introl eq_refl))) as R.
      unfold TransactionQueries.formattedAmount, signed. cbn [t_type t_amount].
      destruct (i_type v); lra.
Qed.

(** What [insertMany] appends to the collection: the documents it was
    given, each under a fresh ObjectId. *)
Lemma insert_all_appends (ts : list Transaction) (db : Db) :
  transactions (fst (insert_all db ts)) = (transactions db ++ snd (insert_all db ts))%list
  /\ signed_total (snd (insert_all db ts)) = signed_total ts
  /\ (forall t, In t (snd (insert_all db ts)) ->
        exists x, In x ts /\ t_userId t = t_userId x /\ t_accountId t = t_accountId x).
Proof.
  revert db. induction ts as [|x ts IH]; intro db.
  - cbn [insert_all fst snd]. rewrite app_nil_r. split; [reflexivity|].
    split; [reflexivity | intros t []].
  - cbn [insert_all].
    specialize (IH (bump (with_transactions db (transactions db ++ [with_id (nextId db) x])))).
    destruct (insert_all _ ts) as [db2 ins]. cbn [fst snd] in *.
    destruct IH as (A & T & O). split; [|split].
    + rewrite A. cbn [transactions bump with_transactions].
      rewrite <- app_assoc. reflexivity.
    + unfold signed_total in *. cbn [fold_right]. rewrite T. reflexivity.
    + intros t [<-|Ht].
      * exists x. split; [left; reflexivity | split; reflexivity].
      * destruct (O t Ht) as [y [Hy E]]. exists y. split; [right; exact Hy | exact E].
Qed.

(** C3, as the code has it.  The two-row batch of the example, for a user
    who has an active account and an active income category, reports one
    row imported and one in error, inserts the first row alone, as an
    income of 100 of the user on the user's first active account, and
    changes that account alone, and only its balance: by 100 exactly where
    the balance is a whole number.  In general the map of balance changes
    has each account once, with the sum of the signed amounts of the valid
    rows destined to it, and one entry at most when the rows are destined
    to one account; and an import that is answered with its counts reports
    every row as imported or in error, appends one transaction of the user
    on the user's first active account for every imported row, and changes
    that account alone, and only its balance: by the signed total of the
    appended transactions where the rows and the balance add up
    exactly. *)
Theorem bulkImportTransactions_example_and_aggregation :
  (forall (db : Db) (user : ObjectId) (d : Z) (account : Account) (others : list Account),
      NoDup (map a_id (accounts db)) ->
      AccountModel.find_all db (fun a => (a_userId a =? user)%nat && a_isActive a)
        = account :: others ->
      (exists c, In c (categories db) /\ c_userId c = user /\ c_isActive c = true
                 /\ c_type c = income) ->
      exists t a',
        fst (bulkImportTransactions db user (Some (Scenario.two_rows d)))
          = BulkDone (mkBulkData 1 1 2 [(2%nat, "Missing required fields")])
        /\ transactions (snd (bulkImportTransactions db user (Some (Scenario.two_rows d))))
           = (transactions db ++ [t])%list
        /\ t_userId t = user /\ t_accountId t = a_id account /\ t_type t = income
        /\ t_amount t == 100 /\ t_description t = "Pay" /\ t_date t = d
        /\ accounts (snd (bulkImportTransactions db user (Some (Scenario.two_rows d))))
           = replace_by a_id a' (accounts db)
        /\ balance_apart a' account
        /\ (adds_exactly (a_balance account) (Scenario.two_rows d) ->
            a_balance a' == a_balance account + 100)
        /\ (forall a, In a (accounts db) -> a_id a <> a_id account ->
              In a (accounts (snd (bulkImportTransactions db user
                                     (Some (Scenario.two_rows d)))))))
  /\ (forall validTransactions : list TxnInput,
         NoDup (map fst (accountUpdates validTransactions))
         /\ (forall t, In t validTransactions ->
                       In (i_accountId t) (map fst (accountUpdates validTransactions)))
         /\ (forall k v, In (k, v) (accountUpdates validTransactions) ->
                         v == signed_sum k validTransactions
                         /\ exists t, In t validTransactions /\ i_accountId t = k)
         /\ (forall i, (forall t, In t validTransactions -> i_accountId t = i) ->
                       (List.length (accountUpdates validTransactions) <= 1)%nat))
  /\ (forall (db db' : Db) (user : ObjectId) (rows : list Obj) (data : BulkData)
             (account : Account) (others : list Account),
         NoDup (map a_id (accounts db)) ->
         AccountModel.find_all db (fun a => (a_userId a =? user)%nat && a_isActive a)
           = account :: others ->
         bulkImportTransactions db user (Some rows) = (BulkDone data, db') ->
         exists inserted a',
           (imported data + errors data)%nat = total data
           /\ total data = List.length rows
           /\ transactions db' = (transactions db ++ inserted)%list
           /\ List.length inserted = imported data
           /\ (forall t, In t inserted -> t_userId t = user /\ t_accountId t = a_id account)
           /\ accounts db' = replace_by a_id a' (accounts db)
           /\ balance_apart a' account
           /\ (adds_exactly (a_balance account) rows ->
               a_balance a' == a_balance account + signed_total inserted)
           /\ (forall a, In a (accounts db) -> a_id a <> a_id account ->
                 In a (accounts db'))).
Proof.
  split; [|split].
  - intros db user d account others ND Hacc [c [Hc [Hu [Ha Hty]]]].
    assert (Hcat : In c (CategoryModel.find_all db
                           (fun c => (c_userId c =? user)%nat && c_isActive c))).
    { unfold CategoryModel.find_all. apply filter_In. split; [exact Hc|].
      rewrite Hu, Ha, Nat.eqb_refl. reflexivity. }
    destruct (process_row_pay user _ account d c Hcat Hty) as [category R].
    assert (Hin : In account (accounts db)).
    { assert (I : In account (AccountModel.find_all db
                      (fun a => (a_userId a =? user)%nat && a_isActive a)))
        by (rewrite Hacc; left; reflexivity).
      unfold AccountModel.find_all in I. apply filter_In in I. apply I. }
    exists (mkTransaction (nextId db) user (a_id account) (c_id category)
                          (round2 100) "Pay" d income []),
           (inc_balance account (round2 (0 + 100))).
    unfold bulkImportTransactions, Scenario.two_rows. rewrite Hacc.
    cbn [process_rows]. rewrite R.
    change (process_row user _ account 1
              [("amount", JNum (-1)); ("description", JStr ""); ("date", JStr "")])
      with (@inr TxnInput _ (2%nat, "Missing required fields")).
    cbn [insertMany construct_all construct i_date i_userId i_accountId i_categoryId
         i_amount i_description i_type i_tags].
    change (forallb validate _) with true.
    cbn [insert_all with_id fst snd List.length accountUpdates fold_left
         accountUpdates_step Map_get Map_set apply_updates i_accountId i_type i_amount
         t_userId t_accountId t_categoryId t_amount t_description t_date t_type t_tags].
    unfold AccountModel.findByIdAndUpdate_inc.
    assert (F : forall db1, accounts db1 = accounts db ->
                AccountModel.findById db1 (a_id account) = Some account).
    { intros db1 E. unfold AccountModel.findById. rewrite E.
      apply (findById_unique db account ND Hin). }
    match goal with
    | |- context [AccountModel.findById ?d (a_id account)] => rewrite (F d eq_refl)
    end.
    cbn [fst snd accounts transactions with_accounts with_transactions bump
         inc_balance a_id a_initialBalance a_balance].
    assert (R100 : round2 (0 + 100) == 100) by reflexivity.
    repeat split; try reflexivity.
    + intros _. rewrite R100. reflexivity.
    + intros a Hin' Hne. apply replace_by_keeps_other; assumption.
  - intro valid. destruct (accountUpdates_spec valid) as (ND & Keys & Vals).
    split; [exact ND|]. split; [exact Keys|]. split; [exact Vals|].
    intros i Acc.
    destruct (accountUpdates_one valid i Acc) as [[_ E]|[w [E _]]]; rewrite E; cbn; lia.
  - intros db db' user rows data account others ND Hacc H.
    unfold bulkImportTransactions in H. rewrite Hacc in H.
    destruct rows as [|row rows]; [discriminate H|].
    assert (Hin : In account (accounts db)).
    { assert (I : In account (AccountModel.find_all db
                      (fun a => (a_userId a =? user)%nat && a_isActive a)))
        by (rewrite Hacc; left; reflexivity).
      unfold AccountModel.find_all in I. apply filter_In in I. apply I. }
    destruct (process_rows user _ account 0 (row :: rows)) as [valid errs] eqn:P.
    match type of P with
    | process_rows _ ?cats _ _ _ = _ =>
        pose proof (process_rows_account user cats account (row :: rows) 0) as Acc;
        pose proof (process_rows_user user cats account (row :: rows) 0) as Usr;
        pose proof (process_rows_lengths user cats account (row :: rows) 0) as Len;
        pose proof (fun W v => process_rows_amount user cats account (row :: rows) 0 v W)
          as Am
    end.
    rewrite P in Acc, Usr, Len, Am. cbn [fst snd] in Acc, Usr, Len, Am.
    destruct (accountUpdates_one valid (a_id account) Acc) as [[Ev Em]|[w [Em Ew]]].
    + subst valid. injection H as <- <-. exists [], account.
      cbn [imported errors total List.length] in *. rewrite app_nil_r.
      repeat split; try reflexivity; try lia.
      * contradiction.
      * contradiction.
      * symmetry. apply replace_by_self; assumption.
      * intros _. unfold signed_total. cbn. ring.
      * intros a Ha _. exact Ha.
    + destruct valid as [|v valid]; [discriminate Em|].
      destruct (insertMany db (v :: valid)) as [[db1 inserted]|] eqn:I; [|discriminate H].
      injection H as <- <-. unfold insertMany in I.
      destruct (construct_all (v :: valid)) as [ts|] eqn:C; [|discriminate I].
      destruct (forallb validate ts); [|discriminate I].
      injection I as I.
      destruct (insert_all_lengths ts db) as [L1 _].
      destruct (insert_all_frame ts db) as [A1 _].
      destruct (insert_all_appends ts db) as (T1 & T2 & T3).
      rewrite I in L1, A1, T1, T2, T3. cbn [fst snd] in L1, A1, T1, T2, T3.
      pose proof (construct_all_length _ _ C) as L0.
      destruct (construct_all_total _ ts user (a_id account) C
                  (fun x Hx => conj (Usr x Hx) (Acc x Hx))) as [Own Tot].
      exists inserted, (inc_balance account (round2 w)).
      rewrite Em. unfold apply_updates. cbn [fold_left fst snd].
      unfold AccountModel.findByIdAndUpdate_inc.
      assert (F : AccountModel.findById db1 (a_id account) = Some account).
      { unfold AccountModel.findById. rewrite A1.
        apply (findById_unique db account ND Hin). }
      rewrite F. cbn [accounts transactions with_accounts imported errors total
                      inc_balance a_balance].
      rewrite A1, T1, L1, L0.
      repeat split; try reflexivity; try lia.
      * cbn [List.length] in *. lia.
      * destruct (T3 t H) as [x [Hx [E _]]]. rewrite E. apply (Own x Hx).
      * destruct (T3 t H) as [x [Hx [_ E]]]. rewrite E. apply (Own x Hx).
      * intros (_ & W & _).
        rewrite (round2_comp _ _ Ew).
        rewrite (round2_cents _ (signed_sum_cents _ _ (Am W))).
        rewrite T2, (Tot (Am W)). reflexivity.
      * intros a Ha Hne. apply replace_by_keeps_other; assumption.
Qed.

End BulkImportClaim.

Section BulkImportAtWork.

Import TransactionModel TransactionController Ledger.

(** The example on the fresh database, whose one account holds 0: one row
    imported, one in error, and a balance of 100. *)
Lemma bulkImportTransactions_example_fresh :
  exists t a',
    fst (bulkImportTransactions Scenario.fresh Scenario.alice (Some (Scenario.two_rows 5)))
      = BulkDone (mkBulkData 1 1 2 [(2%nat, "Missing required fields")])
    /\ transactions (snd (bulkImportTransactions Scenario.fresh Scenario.alice
                            (Some (Scenario.two_rows 5))))
       = (transactions Scenario.fresh ++ [t])%list
    /\ t_userId t = Scenario.alice /\ t_accountId t = a_id Scenario.main_account
    /\ t_type t = income /\ t_amount t == 100 /\ t_description t = "Pay" /\ t_date t = 5%Z
    /\ accounts (snd (bulkImportTransactions Scenario.fresh Scenario.alice
                        (Some (Scenario.two_rows 5))))
       = replace_by a_id a' (accounts Scenario.fresh)
    /\ balance_apart a' Scenario.main_account
    /\ (adds_exactly (a_balance Scenario.main_account) (Scenario.two_rows 5) ->
        a_balance a' == a_balance Scenario.main_account + 100)
    /\ (forall a, In a (accounts Scenario.fresh) -> a_id a <> a_id Scenario.main_account ->
          In a (accounts (snd (bulkImportTransactions Scenario.fresh Scenario.alice
                                 (Some (Scenario.two_rows 5)))))).
Proof.
  apply (proj1 bulkImportTransactions_example_and_aggregation
           Scenario.fresh Scenario.alice 5%Z Scenario.main_account []).
  - repeat constructor. intros [].
  - reflexivity.
  - exists Scenario.salary. repeat split. right. left. reflexivity.
Defined.

(** C3 as stated fails for a user who has no active income category: the
    first row of the example is turned down too, nothing is imported and
    no balance moves. *)
Lemma bulkImportTransactions_example_without_income_category :
  let r := bulkImportTransactions Scenario.no_income Scenario.alice
             (Some (Scenario.two_rows 5)) in
  fst r = BulkDone (mkBulkData 0 2 2 [(1%nat, "No income category found");
                                      (2%nat, "Missing required fields")])
  /\ imported (mkBulkData 0 2 2 [(1%nat, "No income category found");
                                 (2%nat, "Missing required fields")]) <> 1%nat
  /\ snd r = Scenario.no_income.
Proof. repeat split. discriminate. Qed.

End BulkImportAtWork.

(* ================================================================== *)
(** ** Column names of an uploaded file *)
(* ================================================================== *)

Section ColumnNames.

Import UploadController UploadParsing Columns.

Lemma lower_char_not_upper (c : ascii) : is_upper (lower_char c) = false.
Proof. destruct c as [[] [] [] [] [] [] [] []]; reflexivity. Qed.

Lemma lower_char_fixed (c : ascii) : is_upper c = false -> lower_char c = c.
Proof. unfold lower_char. intro H. rewrite H. reflexivity. Qed.

Lemma toLowerCase_not_upper (s : string) :
  every (fun c => negb (is_upper c)) (toLowerCase s) = true.
Proof.
  induction s as [|c s IH]; [reflexivity|]. cbn [toLowerCase every].
  rewrite lower_char_not_upper, IH. reflexivity.
Qed.

Lemma every_trimStart (p : ascii -> bool) (s : string) :
  every p s = true -> every p (trimStart s) = true.
Proof.
  induction s as [|c s IH]; intro H; [reflexivity|]. cbn [trimStart].
  destruct (is_space c); [|exact H].
  cbn [every] in H. apply andb_true_iff in H. apply IH, H.
Qed.

Lemma every_trimEnd (p : ascii -> bool) (s : string) :
  every p s = true -> every p (trimEnd s) = true.
Proof.
  induction s as [|c s IH]; intro H; [reflexivity|].
  cbn [every] in H. apply andb_true_iff in H. destruct H as [Hc Hs].
  specialize (IH Hs). cbn [trimEnd].
  destruct (trimEnd s) as [|d r].
  - destruct (is_space c); [reflexivity|]. cbn [every]. rewrite Hc. reflexivity.
  - cbn [every] in *. rewrite Hc. exact IH.
Qed.

Lemma every_trim (p : ascii -> bool) (s : string) :
  every p s = true -> every p (trim s) = true.
Proof. intro H. unfold trim. apply every_trimEnd, every_trimStart, H. Qed.

Lemma replace_runs_clean (b : bool) (s : string) :
  every (fun c => negb (is_upper c)) s = true -> every clean (replace_runs b s) = true.
Proof.
  revert b. induction s as [|c s IH]; intros b H; [reflexivity|].
  cbn [every] in H. apply andb_true_iff in H. destruct H as [Hc Hs].
  cbn [replace_runs]. destruct (is_space c) eqn:Sp.
  - destruct b; [apply IH, Hs|]. cbn [every]. rewrite (IH true Hs). reflexivity.
  - cbn [every]. unfold clean at 1. rewrite Sp, Hc, (IH false Hs). reflexivity.
Qed.

Lemma clean_parts (s : string) :
  every clean s = true ->
  every (fun c => negb (is_upper c)) s = true /\ every (fun c => negb (is_space c)) s = true.
Proof.
  induction s as [|c s IH]; intro H; [split; reflexivity|].
  cbn [every] in *. apply andb_true_iff in H. destruct H as [Hc Hs].
  unfold clean in Hc. apply andb_true_iff in Hc. destruct Hc as [H1 H2].
  destruct (IH Hs) as [I1 I2]. rewrite H1, H2, I1, I2. split; reflexivity.
Qed.

Lemma toLowerCase_fixed (s : string) :
  every (fun c => negb (is_upper c)) s = true -> toLowerCase s = s.
Proof.
  induction s as [|c s IH]; intro H; [reflexivity|].
  cbn [every] in H. apply andb_true_iff in H. destruct H as [Hc Hs].
  cbn [toLowerCase]. rewrite (IH Hs), lower_char_fixed; [reflexivity|].
  now apply negb_true_iff.
Qed.

Lemma trim_fixed (s : string) :
  every (fun c => negb (is_space c)) s = true -> trim s = s.
Proof.
  intro H. unfold trim.
  assert (S : trimStart s = s).
  { destruct s as [|c s]; [reflexivity|]. cbn [every] in H.
    apply andb_true_iff in H. destruct H as [Hc _]. apply negb_true_iff in Hc.
    cbn [trimStart]. rewrite Hc. reflexivity. }
  rewrite S. clear S. induction s as [|c s IH]; [reflexivity|].
  cbn [every] in H. apply andb_true_iff in H. destruct H as [Hc Hs].
  apply negb_true_iff in Hc. cbn [trimEnd]. rewrite (IH Hs), Hc.
  destruct s; reflexivity.
Qed.

Lemma replace_runs_fixed (b : bool) (s : string) :
  every (fun c => negb (is_space c)) s = true -> replace_runs b s = s.
Proof.
  revert b. induction s as [|c s IH]; intros b H; [reflexivity|].
  cbn [every] in H. apply andb_true_iff in H. destruct H as [Hc Hs].
  apply negb_true_iff in Hc. cbn [replace_runs]. rewrite Hc, (IH false Hs). reflexivity.
Qed.

(** X21: the normal form of a column name.  The name a column of an uploaded
    CSV file is stored under has no white space and no capital letter, and
    normalising it again changes nothing. *)
Theorem normalizedKey_normal_form (key : string) :
  every is_ascii key = true ->
  every clean (normalizedKey key) = true
  /\ normalizedKey (normalizedKey key) = normalizedKey key.
Proof.
  intros _.
  assert (C : every clean (normalizedKey key) = true).
  { unfold normalizedKey. apply replace_runs_clean, every_trim, toLowerCase_not_upper. }
  split; [exact C|].
  destruct (clean_parts _ C) as [U S].
  set (k := normalizedKey key) in *. unfold normalizedKey.
  rewrite (toLowerCase_fixed k U), (trim_fixed k S), (replace_runs_fixed false k S).
  reflexivity.
Qed.

(** The column ' Transaction   Date ' is stored as transaction_date. *)
Lemma normalizedKey_normal_form_date :
  normalizedKey " Transaction   Date " = "transaction_date"
  /\ every clean (normalizedKey " Transaction   Date ") = true
  /\ normalizedKey (normalizedKey " Transaction   Date ") = normalizedKey " Transaction   Date ".
Proof.
  split; [reflexivity|].
  apply (normalizedKey_normal_form " Transaction   Date "). reflexivity.
Defined.

Lemma lookup_set (o : CsvRow) (k v k' : string) :
  lookup (set o k v) k' = if String.eqb k k' then Some v else lookup o k'.
Proof.
  induction o as [|[k0 v0] o IH]; cbn [set lookup].
  - reflexivity.
  - destruct (String.eqb k0 k) eqn:E.
    + apply String.eqb_eq in E. subst k0. cbn [lookup].
      destruct (String.eqb k k'); reflexivity.
    + cbn [lookup]. destruct (String.eqb k0 k') eqn:E'.
      * apply String.eqb_eq in E'. subst k0. rewrite String.eqb_sym, E. reflexivity.
      * exact IH.
Qed.

Lemma set_keys (o : CsvRow) (k v k' : string) :
  In k' (map fst (set o k v)) <-> k' = k \/ In k' (map fst o).
Proof.
  induction o as [|[k0 v0] o IH]; cbn [set map fst In].
  - intuition.
  - destruct (String.eqb k0 k) eqn:E.
    + apply String.eqb_eq in E. subst k0. cbn [map fst In]. intuition.
    + cbn [map fst In]. rewrite IH. intuition.
Qed.

Lemma set_NoDup (o : CsvRow) (k v : string) :
  NoDup (map fst o) -> NoDup (map fst (set o k v)).
Proof.
  induction o as [|[k0 v0] o IH]; intro ND; cbn [set map fst].
  - repeat constructor. intros [].
  - cbn [map fst] in ND. inversion ND as [|? ? Hnot ND']; subst.
    destruct (String.eqb k0 k) eqn:E.
    + apply String.eqb_eq in E. subst k0. cbn [map fst]. constructor; assumption.
    + cbn [map fst]. constructor; [|apply IH, ND'].
      intro H. apply set_keys in H. destruct H as [H|H]; [|exact (Hnot H)].
      subst k0. rewrite String.eqb_refl in E. discriminate E.
Qed.

(** A row none of whose column names spells an array index has its
    properties in the order of its columns. *)
Lemma own_properties_plain (data : CsvRow) :
  (forall kv, In kv data -> array_index (fst kv) = None) -> own_properties data = data.
Proof.
  intro P. unfold own_properties.
  assert (F : forall l,
            fold_left (fun l kv => match array_index (fst kv) with
                                   | Some i => insert_index i kv l
                                   | None => l
                                   end) data l = l).
  { induction data as [|kv data IH]; intro l; [reflexivity|]. cbn [fold_left].
    rewrite (P kv (or_introl eq_refl)). apply IH.
    intros x Hx. apply P. right. exact Hx. }
  rewrite F. cbn [map app].
  induction data as [|kv data IH]; [reflexivity|]. cbn [filter].
  rewrite (P kv (or_introl eq_refl)). f_equal. apply IH.
  - intros x Hx. apply P. right. exact Hx.
  - intro l. specialize (F l). cbn [fold_left] in F.
    rewrite (P kv (or_introl eq_refl)) in F. exact F.
Qed.

(** X22: reading a normalised row.  For a row object of the parser whose
    property names are in ASCII and spell no array index, the row handed on
    by [parseCsvFile] has each name once, and under a name it holds the
    value of the last property of the parser's row, in the order of their
    creation, whose name normalises to it - names that differ only in case
    or spacing fall together, the later one winning -, and nothing under a
    name that no property normalises to. *)
Theorem normalizedData_lookup (data : CsvRow) (k : string) :
  plain_names data ->
  lookup (normalizedData data) k = last_value data k
  /\ NoDup (map fst (normalizedData data)).
Proof.
  intros P. unfold normalizedData, last_value.
  rewrite (own_properties_plain data (fun kv H => proj1 (proj2 (proj2 P kv H)))).
  clear P.
  assert (G : forall o found, lookup o k = found -> NoDup (map fst o) ->
    lookup (fold_left (fun n kv => set n (normalizedKey (fst kv)) (snd kv)) data o) k
    = fold_left (fun f kv => if String.eqb (normalizedKey (fst kv)) k then Some (snd kv)
                             else f) data found
    /\ NoDup (map fst (fold_left (fun n kv => set n (normalizedKey (fst kv)) (snd kv))
                                 data o))).
  { induction data as [|[h v] data IH]; intros o found L ND; cbn [fold_left].
    - split; assumption.
    - apply IH.
      + cbn [fst snd]. rewrite lookup_set, L. reflexivity.
      + apply set_NoDup, ND. }
  apply G; [reflexivity | constructor].
Qed.

(** Two names that fall together: the later value is the one read. *)
Lemma normalizedData_lookup_amount :
  lookup (normalizedData [("Amount", "12.50"); ("Date", "2024-01-15"); ("amount ", "99")])
         "amount"
  = last_value [("Amount", "12.50"); ("Date", "2024-01-15"); ("amount ", "99")] "amount"
  /\ NoDup (map fst (normalizedData
                       [("Amount", "12.50"); ("Date", "2024-01-15"); ("amount ", "99")])).
Proof.
  apply (normalizedData_lookup
           [("Amount", "12.50"); ("Date", "2024-01-15"); ("amount ", "99")] "amount").
  split.
  - repeat constructor; cbn; intuition discriminate.
  - intros kv [<-|[<-|[<-|[]]]];
      (split; [reflexivity | split; [reflexivity | discriminate]]).
Defined.

End ColumnNames.

(* ================================================================== *)
(** ** Requests and the documents of other users *)
(* ================================================================== *)

Section OtherUsers.

Import TransactionModel TransactionController AccountController Ledger Flows Api Tenancy.

Lemma others_kept_refl (user : ObjectId) (db : Db) : others_kept user db db.
Proof. split; auto. Qed.

Lemma others_kept_trans (user : ObjectId) (db1 db2 db3 : Db) :
  others_kept user db1 db2 -> others_kept user db2 db3 -> others_kept user db1 db3.
Proof. intros [A1 T1] [A2 T2]. split; auto. Qed.

Lemma others_kept_of_lists (user : ObjectId) (db db' : Db) :
  accounts db' = accounts db ->
  (forall t, In t (transactions db) -> t_userId t <> user -> In t (transactions db')) ->
  others_kept user db db'.
Proof. intros A T. split; [rewrite A; auto | exact T]. Qed.

(** Saving a copy of an account of [user] leaves the accounts of the
    others in place. *)
Lemma account_save_others (user : ObjectId) (db db' : Db) (x0 x : Account) :
  NoDup (map a_id (accounts db)) -> In x0 (accounts db) -> a_userId x0 = user ->
  a_id x = a_id x0 -> AccountModel.save db x = Some db' ->
  others_kept user db db'
  /\ accounts db' = replace_by a_id x (accounts db)
  /\ transactions db' = transactions db.
Proof.
  intros ND H0 Hu Eid Hs. unfold AccountModel.save in Hs.
  cbn [AccountModel.pre_save] in Hs.
  destruct (AccountModel.validate x); [|discriminate]. injection Hs as <-.
  split; [|split; reflexivity].
  split; cbn [accounts transactions with_accounts]; [|auto].
  intros a Ha Hn. apply replace_by_keeps_other; [exact Ha|].
  intro E. apply Hn. rewrite <- Hu. f_equal.
  apply (NoDup_map_inj a_id (accounts db)); congruence.
Qed.

Lemma NoDup_replace_by (x : Account) (l : list Account) :
  NoDup (map a_id l) -> NoDup (map a_id (replace_by a_id x l)).
Proof. intro ND. rewrite map_replace_by; [exact ND | intros; congruence]. Qed.

Lemma createTransaction_others (db : Db) (user : ObjectId) (body : Obj) :
  NoDup (map a_id (accounts db)) ->
  others_kept user db (snd (createTransaction db user body)).
Proof.
  intro ND. unfold createTransaction.
  destruct (negb (createTransactionValidation body)); [apply others_kept_refl|].
  destruct (AccountModel.findOne db _) as [account|] eqn:Ha; [|apply others_kept_refl].
  destruct (CategoryModel.findOne db _) as [category|]; [|apply others_kept_refl].
  destruct (Number (get body "amount")) as [n|]; [|apply others_kept_refl].
  destruct (TxType_of_js _) as [ty|]; [|apply others_kept_refl].
  destruct (id_of (get body "accountId")) as [acc_id|] eqn:Hacc; [|apply others_kept_refl].
  destruct (id_of (get body "categoryId")) as [cat_id|]; [|apply others_kept_refl].
  destruct (text_of _) as [description|]; [|apply others_kept_refl].
  destruct (date_of _) as [date|]; [|apply others_kept_refl].
  destruct (leb (Math_abs n) 0); [apply others_kept_refl|].
  cbn [construct i_date i_userId i_accountId i_categoryId i_amount i_description
       i_type i_tags].
  apply find_some in Ha. destruct Ha as [Hin Hp].
  try rewrite Hacc in Hp. cbn beta iota in Hp.
  apply andb_true_iff in Hp. destruct Hp as [Hp _].
  apply andb_true_iff in Hp. destruct Hp as [_ Hu]. apply Nat.eqb_eq in Hu.
  unfold save_new.
  match goal with
  | |- context [if validate ?t then _ else _] => destruct (validate t)
  end; [|apply others_kept_refl].
  match goal with
  | |- context [AccountModel.save ?d ?x] =>
      assert (K1 : others_kept user db d)
        by (apply others_kept_of_lists;
            [reflexivity
            | intros t Ht _; cbn [transactions bump with_transactions];
              apply in_or_app; left; exact Ht]);
      destruct (AccountModel.save d x) as [db2|] eqn:Hs; [|exact K1];
      destruct (account_save_others user d db2 account x ND Hin Hu
                  (proj1 (apply_effect_frame _ _ _)) Hs) as [K2 _]
  end.
  exact (others_kept_trans _ _ _ _ K1 K2).
Qed.

Lemma remove_keeps_others (user : ObjectId) (db : Db) (e : Transaction) :
  NoDup (map t_id (transactions db)) -> In e (transactions db) -> t_userId e = user ->
  others_kept user db (findByIdAndDelete db (t_id e)).
Proof.
  intros ND He Hu. apply others_kept_of_lists; [reflexivity|].
  intros t Ht Hn. unfold findByIdAndDelete. cbn [transactions with_transactions].
  unfold remove_by. apply filter_In. split; [exact Ht|].
  apply negb_true_iff. apply Nat.eqb_neq. intro E. apply Hn. rewrite <- Hu. f_equal.
  apply (NoDup_map_inj t_id (transactions db)); assumption.
Qed.

Lemma deleteTransaction_others (db : Db) (user transactionId : ObjectId) :
  NoDup (map a_id (accounts db)) -> NoDup (map t_id (transactions db)) ->
  owners_agree db ->
  others_kept user db (snd (deleteTransaction db user transactionId)).
Proof.
  intros NDa NDt O. unfold deleteTransaction.
  destruct (findOne db _) as [transaction|] eqn:Ht; [|apply others_kept_refl].
  apply find_some in Ht. destruct Ht as [Hin Hp].
  apply andb_true_iff in Hp. destruct Hp as [_ Hu]. apply Nat.eqb_eq in Hu.
  destruct (AccountModel.findById db (t_accountId transaction)) as [account|] eqn:F.
  - apply findById_In in F. destruct F as [Ha Ea].
    pose proof (O transaction account Hin Ha (eq_sym Ea)) as Own.
    destruct (AccountModel.save db _) as [db1|] eqn:Hs; [|apply others_kept_refl].
    destruct (account_save_others user db db1 account _ NDa Ha
                (eq_trans (eq_sym Own) Hu) (proj1 (reverse_effect_frame _ _ _)) Hs)
      as (K1 & _ & T1).
    cbn [snd]. apply (others_kept_trans _ _ _ _ K1).
    apply remove_keeps_others; try rewrite T1; assumption.
  - cbn [snd]. apply remove_keeps_others; assumption.
Qed.

Lemma transaction_save_others (user : ObjectId) (db db1 : Db) (e u : Transaction) :
  NoDup (map t_id (transactions db)) -> In e (transactions db) -> t_userId e = user ->
  t_id u = t_id e -> save db u = Some db1 ->
  others_kept user db db1 /\ accounts db1 = accounts db.
Proof.
  intros ND He Hu Eid Hs. unfold save in Hs.
  destruct (validate u); [|discriminate]. injection Hs as <-.
  split; [|reflexivity]. apply others_kept_of_lists; [reflexivity|].
  intros t Ht Hn. cbn [transactions with_transactions].
  unfold replace_by. apply in_map_iff. exists t. split; [|exact Ht].
  destruct (t_id t =? t_id u)%nat eqn:E; [|reflexivity].
  apply Nat.eqb_eq in E. exfalso. apply Hn. rewrite <- Hu. f_equal.
  apply (NoDup_map_inj t_id (transactions db)); congruence.
Qed.

Lemma updateTransaction_others (db : Db) (user transactionId : ObjectId) (updates : Obj) :
  NoDup (map a_id (accounts db)) -> NoDup (map t_id (transactions db)) ->
  owners_agree db -> NoDup (keys updates) ->
  Payload.names_only Payload.transaction_paths updates = true ->
  others_kept user db (snd (updateTransaction db user transactionId updates)).
Proof.
  intros NDa NDt O NDk Paths. unfold updateTransaction.
  destruct (negb (updateTransactionValidation updates)); [apply others_kept_refl|].
  destruct (findOne db _) as [existing|] eqn:Ht; [|apply others_kept_refl].
  apply find_some in Ht. destruct Ht as [Hin Hp].
  apply andb_true_iff in Hp. destruct Hp as [_ Hu]. apply Nat.eqb_eq in Hu.
  match goal with |- context [if negb ?c then _ else _] => destruct c eqn:AccOk end;
    cbn [negb]; [|apply others_kept_refl].
  match goal with |- context [if negb ?c then _ else _] => destruct c end;
    cbn [negb]; [|apply others_kept_refl].
  destruct (TransactionController.assign_all existing updates) as [updated|] eqn:As;
    [|apply others_kept_refl].
  destruct (transaction_assign_all_frame _ _ _ As) as (Eid & _ & Eacc).
  specialize (Eid (transaction_paths_no_id _ Paths)).
  rewrite (transaction_save_changes_same db existing updated Eid).
  destruct (save db updated) as [db1|] eqn:Hs; [|apply others_kept_refl].
  cbv zeta.
  destruct (transaction_save_others user db db1 existing updated NDt Hin Hu Eid Hs)
    as [K1 A1].
  destruct (AccountModel.findById db1 (t_accountId existing)) as [oldAccount|] eqn:Hold;
    [|exact K1].
  apply findById_In in Hold. destruct Hold as [HinOld HidOld].
  assert (OwnOld : a_userId oldAccount = user).
  { rewrite A1 in HinOld.
    rewrite <- Hu. symmetry. apply (O existing oldAccount Hin HinOld). congruence. }
  assert (ND1 : NoDup (map a_id (accounts db1))) by (rewrite A1; exact NDa).
  destruct (t_accountId existing =? t_accountId updated)%nat eqn:Same.
  - destruct (AccountModel.save db1 _) as [db2|] eqn:Hsave; [|exact K1].
    destruct (account_save_others user db1 db2 oldAccount _ ND1 HinOld OwnOld
                (eq_trans (proj1 (apply_effect_frame _ _ _))
                          (proj1 (reverse_effect_frame _ _ _))) Hsave) as [K2 _].
    exact (others_kept_trans _ _ _ _ K1 K2).
  - destruct (AccountModel.findById db1 (t_accountId updated)) as [newAccount|] eqn:Hnew;
      [|exact K1].
    apply findById_In in Hnew. destruct Hnew as [HinNew HidNew].
    apply Nat.eqb_neq in Same.
    (* the new account has passed the owner check of the handler *)
    assert (OwnNew : a_userId newAccount = user).
    { destruct Eacc as [E|[v [Hv Ev]]]; [congruence|].
      rewrite (get_In updates "accountId" v NDk Hv) in AccOk.
      destruct v as [| | | |i| | |]; try discriminate Ev. cbn [id_of] in Ev.
      injection Ev as Ei. cbn [truthy differs_from id_of andb] in AccOk.
      assert (D : negb (i =? t_accountId existing)%nat = true).
      { apply negb_true_iff. apply Nat.eqb_neq. congruence. }
      rewrite D in AccOk.
      destruct (AccountModel.findOne db _) as [found|] eqn:F; [|discriminate AccOk].
      apply find_some in F. destruct F as [Hf Hp].
      apply andb_true_iff in Hp. destruct Hp as [Hp _].
      apply andb_true_iff in Hp. destruct Hp as [Hfi Hfu].
      apply Nat.eqb_eq in Hfi, Hfu.
      rewrite A1 in HinNew.
      assert (newAccount = found)
        by (apply (NoDup_map_inj a_id (accounts db)); congruence).
      congruence. }
    destruct (AccountModel.save db1 _) as [db2|] eqn:Hsave; [|exact K1].
    destruct (account_save_others user db1 db2 oldAccount _ ND1 HinOld OwnOld
                (proj1 (reverse_effect_frame _ _ _)) Hsave) as (K2 & A2 & _).
    pose proof (others_kept_trans _ _ _ _ K1 K2) as K12.
    destruct (AccountModel.save db2 _) as [db3|] eqn:Hsave2; [|exact K12].
    assert (ND2 : NoDup (map a_id (accounts db2)))
      by (rewrite A2; apply NoDup_replace_by; exact ND1).
    assert (HinNew2 : In newAccount (accounts db2)).
    { rewrite A2. apply replace_by_keeps_other; [exact HinNew|].
      rewrite (proj1 (reverse_effect_frame _ _ _)). congruence. }
    destruct (account_save_others user db2 db3 newAccount _ ND2 HinNew2 OwnNew
                (proj1 (apply_effect_frame _ _ _)) Hsave2) as [K3 _].
    exact (others_kept_trans _ _ _ _ K12 K3).
Qed.

Lemma insert_all_keeps (ts : list Transaction) (db : Db) (t : Transaction) :
  In t (transactions db) -> In t (transactions (fst (insert_all db ts))).
Proof.
  revert db. induction ts as [|x ts IH]; intros db H; [exact H|].
  cbn [insert_all].
  specialize (IH (bump (with_transactions db (transactions db ++ [with_id (nextId db) x])))).
  destruct (insert_all _ ts) as [db2 ins]. cbn [fst] in *.
  apply IH. cbn [transactions bump with_transactions]. apply in_or_app. left. exact H.
Qed.

Lemma apply_updates_others (user : ObjectId) (i : ObjectId) (m : UpdateMap) (db : Db) :
  NoDup (map a_id (accounts db)) ->
  (exists x0, In x0 (accounts db) /\ a_id x0 = i /\ a_userId x0 = user) ->
  (forall k, In k (map fst m) -> k = i) ->
  others_kept user db (apply_updates db m).
Proof.
  revert db. induction m as [|[k v] m IH]; intros db ND Own Keys; [apply others_kept_refl|].
  unfold apply_updates. cbn [fold_left fst snd].
  fold (apply_updates (AccountModel.findByIdAndUpdate_inc db k v) m).
  assert (Ek : k = i) by (apply Keys; left; reflexivity). subst k.
  destruct Own as (x0 & H0 & E0 & U0).
  unfold AccountModel.findByIdAndUpdate_inc.
  rewrite <- E0, (findById_unique db x0 ND H0).
  set (db1 := with_accounts db (replace_by a_id (inc_balance x0 (round2 v)) (accounts db))).
  assert (K1 : others_kept user db db1).
  { split; cbn [db1 accounts transactions with_accounts]; [|auto].
    intros a Ha Hn. apply replace_by_keeps_other; [exact Ha|].
    cbn [inc_balance a_id]. intro E. apply Hn. rewrite <- U0. f_equal.
    apply (NoDup_map_inj a_id (accounts db)); assumption. }
  apply (others_kept_trans _ _ _ _ K1). apply IH.
  - cbn [db1 accounts with_accounts]. apply NoDup_replace_by. exact ND.
  - exists (inc_balance x0 (round2 v)). cbn [db1 accounts with_accounts inc_balance a_id a_userId].
    split; [|split; [exact E0 | exact U0]].
    apply (replace_by_puts x0); [exact H0 | reflexivity].
  - intros k Hk. apply Keys. right. exact Hk.
Qed.

Lemma bulkImportTransactions_others (db : Db) (user : ObjectId) (rows : option (list Obj)) :
  NoDup (map a_id (accounts db)) ->
  others_kept user db (snd (bulkImportTransactions db user rows)).
Proof.
  intro ND. unfold bulkImportTransactions.
  destruct rows as [[|row rows]|]; try apply others_kept_refl.
  destruct (AccountModel.find_all db _) as [|account others] eqn:Hacc;
    [apply others_kept_refl|].
  assert (I : In account (AccountModel.find_all db
                  (fun a => (a_userId a =? user)%nat && a_isActive a)))
    by (rewrite Hacc; left; reflexivity).
  unfold AccountModel.find_all in I. apply filter_In in I. destruct I as [Hin Hp].
  apply andb_true_iff in Hp. destruct Hp as [Hu _]. apply Nat.eqb_eq in Hu.
  destruct (process_rows user _ account 0 (row :: rows)) as [valid errs] eqn:P.
  match type of P with
  | process_rows _ ?cats _ _ _ = _ =>
      pose proof (process_rows_account user cats account (row :: rows) 0) as Acc
  end.
  rewrite P in Acc. cbn [fst] in Acc.
  destruct valid as [|v0 valid0]; [apply others_kept_refl|].
  unfold insertMany. destruct (construct_all _) as [ts|]; [|apply others_kept_refl].
  destruct (forallb validate ts); [|apply others_kept_refl].
  destruct (insert_all_frame ts db) as [A1 _].
  pose proof (insert_all_keeps ts db) as T1.
  destruct (insert_all db ts) as [db1 inserted]. cbn [fst snd] in *.
  assert (K1 : others_kept user db db1)
    by (apply others_kept_of_lists; [exact A1 | intros t Ht _; exact (T1 t Ht)]).
  apply (others_kept_trans _ _ _ _ K1).
  apply (apply_updates_others user (a_id account)).
  - rewrite A1. exact ND.
  - exists account. rewrite A1. auto.
  - intros k Hk.
    destruct (accountUpdates_spec (v0 :: valid0)) as (_ & _ & Vals).
    apply in_map_iff in Hk. destruct Hk as [[k' w] [E Hkw]]. cbn [fst] in E. subst k'.
    destruct (Vals k w Hkw) as [_ [t [Ht Et]]]. rewrite <- Et. apply Acc. exact Ht.
Qed.

(** X8: a request touches no document of another user.  From a database
    in which ObjectIds are unique and every transaction sits on an account
    of its owner, whatever an account or transaction request of a user
    does - creation, update with a payload that names paths of the record
    only, deletion, bulk import -, every account and every transaction of
    every other user is still stored afterwards, unchanged. *)
Theorem request_keeps_others (db : Db) (r : Request) :
  NoDup (map a_id (accounts db)) -> NoDup (map t_id (transactions db)) ->
  owners_agree db -> plain_payload r ->
  others_kept (sender r) db (step db r).
Proof.
  intros NDa NDt O P. destruct r; cbn [step sender plain_payload] in *.
  - destruct (createAccount db user body) as [[resp [saved|]] db'] eqn:C.
    + destruct (createAccount_spec _ _ _ _ _ _ C) as (_ & _ & _ & _ & _ & A & T & _).
      cbn [snd]. split; [|rewrite T; auto].
      intros a Ha _. rewrite A. apply in_or_app. left. exact Ha.
    + pose proof (createAccount_unchanged db user body) as U. rewrite C in U.
      cbn [fst snd] in *. rewrite (U eq_refl). apply others_kept_refl.
  - unfold updateAccount.
    destruct (negb (updateAccountValidation updates)); [apply others_kept_refl|].
    destruct (AccountModel.findOne db _) as [account|] eqn:Ha; [|apply others_kept_refl].
    match goal with |- context [if ?c then (mkResponse 400 _, _) else _] => destruct c end;
      [apply others_kept_refl|].
    destruct (AccountController.assign_all account updates) as [account'|] eqn:E;
      [|apply others_kept_refl].
    destruct (account_assign_all_frame _ _ _ E) as [Eid _].
    specialize (Eid (account_paths_no_id _ P)).
    rewrite (account_save_changes_same db account account' Eid).
    destruct (AccountModel.save db account') as [db1|] eqn:Hsave; [|apply others_kept_refl].
    destruct (findOne_owned db user accountId account Ha) as (Hin & _ & Hu).
    exact (proj1 (account_save_others user db db1 account account' NDa Hin Hu Eid Hsave)).
  - apply createTransaction_others. exact NDa.
  - destruct P as [NDk Paths]. apply updateTransaction_others; assumption.
  - apply deleteTransaction_others; assumption.
  - apply bulkImportTransactions_others. exact NDa.
Qed.

End OtherUsers.

Section OtherUsersAtWork.

Import Api Tenancy.

(** Alice moves her expense to 30 beside Bob's account and Bob's income:
    both are still there, as they were. *)
Lemma request_keeps_others_shared :
  let r := UpdateTransaction Scenario.alice 5%nat [("amount", JNum 30)] in
  others_kept Scenario.alice Scenario.shared (step Scenario.shared r)
  /\ accounts (step Scenario.shared r) <> accounts Scenario.shared.
Proof.
  split.
  - apply (request_keeps_others Scenario.shared
             (UpdateTransaction Scenario.alice 5%nat [("amount", JNum 30)])).
    + repeat constructor; cbn; intuition discriminate.
    + repeat constructor; cbn; intuition discriminate.
    + intros t a [<-|[<-|[]]] [<-|[<-|[]]] E; try reflexivity; discriminate E.
    + split; [repeat constructor; intros [] | reflexivity].
  - vm_compute. discriminate.
Defined.

End OtherUsersAtWork.

(* ================================================================== *)
(** ** Who owns what, after each request *)
(* ================================================================== *)

Section Owners.

Import TransactionModel TransactionController AccountController Ledger Flows Api.

(** Replacing an account by a copy with its ObjectId and owner. *)
Lemma owners_replace (db db' : Db) (x0 x : Account) :
  In x0 (accounts db) -> a_id x = a_id x0 -> a_userId x = a_userId x0 ->
  accounts db' = replace_by a_id x (accounts db) ->
  transactions db' = transactions db ->
  owners_agree db -> owners_agree db'.
Proof.
  intros H0 Eid Eu A T O t a Ht Ha E. rewrite T in Ht. rewrite A in Ha.
  apply in_replace_by in Ha. destruct Ha as [->|[Ha _]].
  - rewrite Eu. apply (O t x0 Ht H0). congruence.
  - exact (O t a Ht Ha E).
Qed.

Lemma owners_save (db db' : Db) (x0 x : Account) :
  In x0 (accounts db) -> a_id x = a_id x0 -> a_userId x = a_userId x0 ->
  AccountModel.save db x = Some db' -> owners_agree db -> owners_agree db'.
Proof.
  intros H0 Eid Eu Hs. unfold AccountModel.save in Hs. cbn [AccountModel.pre_save] in Hs.
  destruct (AccountModel.validate x); [|discriminate]. injection Hs as <-.
  apply (owners_replace db _ x0 x H0 Eid Eu); reflexivity.
Qed.

Lemma apply_effect_user (ty : TxType) (amount : Q) (a : Account) :
  a_userId (apply_effect ty amount a) = a_userId a.
Proof. destruct ty; reflexivity. Qed.

Lemma reverse_effect_user (ty : TxType) (amount : Q) (a : Account) :
  a_userId (reverse_effect ty amount a) = a_userId a.
Proof. destruct ty; reflexivity. Qed.

(** Changing the transactions while the accounts stay. *)
Lemma owners_transactions (db db' : Db) :
  accounts db' = accounts db ->
  (forall t, In t (transactions db') ->
     In t (transactions db)
     \/ forall a, In a (accounts db) -> t_accountId t = a_id a -> t_userId t = a_userId a) ->
  owners_agree db -> owners_agree db'.
Proof.
  intros A T O t a Ht Ha E. rewrite A in Ha.
  destruct (T t Ht) as [Hold|Hnew]; [exact (O t a Hold Ha E) | exact (Hnew a Ha E)].
Qed.

(** A document on an account of the user is its owner's wherever the
    account is stored. *)
Lemma owned_by (db : Db) (account : Account) (user : ObjectId) (t : Transaction) :
  NoDup (map a_id (accounts db)) -> In account (accounts db) -> a_userId account = user ->
  t_accountId t = a_id account -> t_userId t = user ->
  forall a, In a (accounts db) -> t_accountId t = a_id a -> t_userId t = a_userId a.
Proof.
  intros ND Hin Hu Ea Eu a Ha E.
  assert (a = account) by (apply (NoDup_map_inj a_id (accounts db)); congruence).
  congruence.
Qed.

Lemma createTransaction_owners (db : Db) (user : ObjectId) (body : Obj) :
  NoDup (map a_id (accounts db)) -> owners_agree db ->
  owners_agree (snd (createTransaction db user body)).
Proof.
  intros ND O. unfold createTransaction.
  destruct (negb (createTransactionValidation body)); [exact O|].
  destruct (AccountModel.findOne db _) as [account|] eqn:Ha; [|exact O].
  destruct (CategoryModel.findOne db _) as [category|]; [|exact O].
  destruct (Number (get body "amount")) as [n|]; [|exact O].
  destruct (TxType_of_js _) as [ty|]; [|exact O].
  destruct (id_of (get body "accountId")) as [acc_id|] eqn:Hacc; [|exact O].
  destruct (id_of (get body "categoryId")) as [cat_id|]; [|exact O].
  destruct (text_of _) as [description|]; [|exact O].
  destruct (date_of _) as [date|]; [|exact O].
  destruct (leb (Math_abs n) 0); [exact O|].
  cbn [construct i_date i_userId i_accountId i_categoryId i_amount i_description
       i_type i_tags].
  apply find_some in Ha. destruct Ha as [Hin Hp].
  try rewrite Hacc in Hp. cbn beta iota in Hp.
  apply andb_true_iff in Hp. destruct Hp as [Hp _].
  apply andb_true_iff in Hp. destruct Hp as [Hid Hu]. apply Nat.eqb_eq in Hid, Hu.
  unfold save_new.
  match goal with
  | |- context [if validate ?t then _ else _] => destruct (validate t)
  end; [|exact O].
  match goal with
  | |- context [AccountModel.save ?d ?x] =>
      assert (O1 : owners_agree d);
      [|destruct (AccountModel.save d x) as [db2|] eqn:Hs; [|exact O1];
        exact (owners_save d db2 account x Hin (proj1 (apply_effect_frame _ _ _))
                 (apply_effect_user _ _ _) Hs O1)]
  end.
  apply (owners_transactions db); [reflexivity | | exact O].
  intros t Ht. cbn [transactions bump with_transactions] in Ht.
  apply in_app_or in Ht. destruct Ht as [Ht|[<-|[]]]; [left; exact Ht|]. right.
  apply (owned_by db account user); try assumption; cbn; congruence.
Qed.

Lemma deleteTransaction_owners (db : Db) (user transactionId : ObjectId) :
  owners_agree db -> owners_agree (snd (deleteTransaction db user transactionId)).
Proof.
  intro O. unfold deleteTransaction.
  destruct (findOne db _) as [transaction|]; [|exact O].
  assert (R : forall db1, owners_agree db1 ->
                          owners_agree (findByIdAndDelete db1 (t_id transaction))).
  { intros db1 O1. apply (owners_transactions db1); [reflexivity | | exact O1].
    intros t Ht. left. unfold findByIdAndDelete in Ht.
    cbn [transactions with_transactions] in Ht. unfold remove_by in Ht.
    apply filter_In in Ht. apply Ht. }
  destruct (AccountModel.findById db (t_accountId transaction)) as [account|] eqn:F.
  - apply findById_In in F. destruct F as [Ha _].
    destruct (AccountModel.save db _) as [db1|] eqn:Hs; [|exact O].
    cbn [snd]. apply R.
    exact (owners_save db db1 account _ Ha (proj1 (reverse_effect_frame _ _ _))
             (reverse_effect_user _ _ _) Hs O).
  - cbn [snd]. apply R. exact O.
Qed.

Lemma transaction_assign_user (t t' : Transaction) (key : string) (v : JsVal) :
  TransactionController.assign t (key, v) = Some t' -> key <> "userId" ->
  t_userId t' = t_userId t.
Proof.
  unfold TransactionController.assign.
  repeat match goal with
         | |- context [if String.eqb key ?k then _ else _] =>
             let E := fresh "E" in
             destruct (String.eqb key k) eqn:E;
             [apply String.eqb_eq in E; subst key|]
         end.
  all: repeat match goal with
              | |- context [match ?x with _ => _ end] => destruct x
              end.
  all: intros H N; try discriminate H; try (exfalso; apply N; reflexivity).
  all: injection H as <-; reflexivity.
Qed.

Lemma transaction_assign_all_user (updates : Obj) (t t' : Transaction) :
  TransactionController.assign_all t updates = Some t' -> has updates "userId" = false ->
  t_userId t' = t_userId t.
Proof.
  revert t. induction updates as [|[k v] updates IH]; intros t H N;
    cbn [TransactionController.assign_all] in H.
  - injection H as <-. reflexivity.
  - destruct (TransactionController.assign t (k, v)) as [t1|] eqn:E; [|discriminate].
    unfold has in N. cbn [keys map fst existsb] in N.
    apply orb_false_iff in N. destruct N as [N1 N2].
    rewrite (IH _ H N2). apply (transaction_assign_user _ _ _ _ E).
    intro K. subst k. cbn in N1. discriminate N1.
Qed.

Lemma account_assign_user (a a' : Account) (key : string) (v : JsVal) :
  AccountController.assign a (key, v) = Some a' -> key <> "userId" ->
  a_userId a' = a_userId a.
Proof.
  unfold AccountController.assign.
  repeat match goal with
         | |- context [if String.eqb key ?k then _ else _] =>
             let E := fresh "E" in
             destruct (String.eqb key k) eqn:E;
             [apply String.eqb_eq in E; subst key|]
         end.
  all: repeat match goal with
              | |- context [match ?x with _ => _ end] => destruct x
              end.
  all: intros H N; try discriminate H; try (exfalso; apply N; reflexivity).
  all: injection H as <-; reflexivity.
Qed.

Lemma account_assign_all_user (updates : Obj) (a a' : Account) :
  AccountController.assign_all a updates = Some a' -> has updates "userId" = false ->
  a_userId a' = a_userId a.
Proof.
  revert a. induction updates as [|[k v] updates IH]; intros a H N;
    cbn [AccountController.assign_all] in H.
  - injection H as <-. reflexivity.
  - destruct (AccountController.assign a (k, v)) as [a1|] eqn:E; [|discriminate].
    unfold has in N. cbn [keys map fst existsb] in N.
    apply orb_false_iff in N. destruct N as [N1 N2].
    rewrite (IH _ H N2). apply (account_assign_user _ _ _ _ E).
    intro K. subst k. cbn in N1. discriminate N1.
Qed.

Lemma updateTransaction_owners (db : Db) (user transactionId : ObjectId) (updates : Obj) :
  NoDup (map a_id (accounts db)) -> owners_agree db ->
  NoDup (keys updates) -> has updates "userId" = false ->
  Payload.names_only Payload.transaction_paths updates = true ->
  owners_agree (snd (updateTransaction db user transactionId updates)).
Proof.
  intros NDa O NDk NoUser Paths. unfold updateTransaction.
  destruct (negb (updateTransactionValidation updates)); [exact O|].
  destruct (findOne db _) as [existing|] eqn:Ht; [|exact O].
  apply find_some in Ht. destruct Ht as [Hin Hp].
  apply andb_true_iff in Hp. destruct Hp as [_ Hu]. apply Nat.eqb_eq in Hu.
  match goal with |- context [if negb ?c then _ else _] => destruct c eqn:AccOk end;
    cbn [negb]; [|exact O].
  match goal with |- context [if negb ?c then _ else _] => destruct c end;
    cbn [negb]; [|exact O].
  destruct (TransactionController.assign_all existing updates) as [updated|] eqn:As;
    [|exact O].
  destruct (transaction_assign_all_frame _ _ _ As) as (Eid & _ & Eacc).
  pose proof (transaction_assign_all_user _ _ _ As NoUser) as Euser.
  specialize (Eid (transaction_paths_no_id _ Paths)).
  rewrite (transaction_save_changes_same db existing updated Eid).
  destruct (save db updated) as [db1|] eqn:Hs; [|exact O].
  cbv zeta.
  assert (A1 : accounts db1 = accounts db) by apply (transaction_save_frame _ _ _ Hs).
  assert (O1 : owners_agree db1).
  { apply (owners_transactions db); [exact A1 | | exact O].
    intros t Ht. unfold save in Hs. destruct (validate updated); [|discriminate Hs].
    injection Hs as <-. cbn [transactions with_transactions] in Ht.
    unfold replace_by in Ht. apply in_map_iff in Ht. destruct Ht as [y [E Hy]].
    destruct (t_id y =? t_id updated)%nat; [|left; congruence].
    subst t. right. intros a Ha Ea.
    destruct Eacc as [Same|[v [Hv Ev]]].
    - rewrite Euser. apply (O existing a Hin Ha). congruence.
    - rewrite (get_In updates "accountId" v NDk Hv) in AccOk.
      destruct v as [| | | |i| | |]; try discriminate Ev. cbn [id_of] in Ev.
      injection Ev as Ei. cbn [truthy differs_from id_of andb] in AccOk.
      destruct (negb (i =? t_accountId existing)%nat) eqn:D.
      + destruct (AccountModel.findOne db _) as [found|] eqn:F; [|discriminate AccOk].
        apply find_some in F. destruct F as [Hf Hp].
        apply andb_true_iff in Hp. destruct Hp as [Hp _].
        apply andb_true_iff in Hp. destruct Hp as [Hfi Hfu].
        apply Nat.eqb_eq in Hfi, Hfu.
        assert (a = found) by (apply (NoDup_map_inj a_id (accounts db)); congruence).
        congruence.
      + apply negb_false_iff in D. apply Nat.eqb_eq in D.
        rewrite Euser. apply (O existing a Hin Ha). congruence. }
  destruct (AccountModel.findById db1 (t_accountId existing)) as [oldAccount|] eqn:Hold;
    [|exact O1].
  apply findById_In in Hold. destruct Hold as [HinOld _].
  destruct (t_accountId existing =? t_accountId updated)%nat.
  - destruct (AccountModel.save db1 _) as [db2|] eqn:Hsave; [|exact O1].
    apply (owners_save db1 db2 oldAccount _ HinOld
             (eq_trans (proj1 (apply_effect_frame _ _ _))
                       (proj1 (reverse_effect_frame _ _ _)))
             (eq_trans (apply_effect_user _ _ _) (reverse_effect_user _ _ _)) Hsave O1).
  - destruct (AccountModel.findById db1 (t_accountId updated)) as [newAccount|] eqn:Hnew;
      [|exact O1].
    apply findById_In in Hnew. destruct Hnew as [HinNew HidNew].
    destruct (AccountModel.save db1 _) as [db2|] eqn:Hsave; [|exact O1].
    pose proof (owners_save db1 db2 oldAccount _ HinOld
                  (proj1 (reverse_effect_frame _ _ _)) (reverse_effect_user _ _ _)
                  Hsave O1) as O2.
    destruct (AccountModel.save db2 _) as [db3|] eqn:Hsave2; [|exact O2].
    (* the new account, read before the old one was saved, is saved over the
       stored document of its ObjectId *)
    unfold AccountModel.save in Hsave, Hsave2. cbn [AccountModel.pre_save] in Hsave, Hsave2.
    destruct (AccountModel.validate (reverse_effect _ _ oldAccount));
      [|discriminate Hsave].
    injection Hsave as <-.
    destruct (AccountModel.validate (apply_effect _ _ newAccount)); [|discriminate Hsave2].
    injection Hsave2 as <-.
    intros t a Ht Ha E. cbn [transactions accounts with_accounts] in Ht, Ha.
    apply in_replace_by in Ha. destruct Ha as [->|[Ha _]].
    + rewrite apply_effect_user. apply (O1 t newAccount Ht HinNew).
      rewrite E. apply apply_effect_frame.
    + apply (O2 t a); [exact Ht | exact Ha | exact E].
Qed.

End Owners.

(* ================================================================== *)
(** ** The books over every sequence of requests *)
(* ================================================================== *)

Section BooksInOrder.

Import TransactionModel TransactionController AccountController AccountHandlers
       AuthController Ledger Flows Api Books.

(** No transaction sits on an ObjectId that is not yet given out. *)
Lemma unlinked_fresh (db : Db) (i : ObjectId) (t : Transaction) :
  sound db -> well_formed db -> (nextId db <= i)%nat ->
  In t (transactions db) -> t_accountId t <> i.
Proof.
  intros [_ [_ [_ [_ Txn]]]] [_ Old] Hi Ht.
  destruct (Txn t Ht) as [_ [x [Hx Ex]]]. specialize (Old x Hx). lia.
Qed.

Lemma createAccount_books (db : Db) (user : ObjectId) (body : Obj) :
  in_order db -> in_order (snd (createAccount db user body)).
Proof.
  intros Ord. pose proof Ord as (S & L & O & WF).
  assert (WF' : well_formed (snd (createAccount db user body))).
  { exact (proj1 (step_initials db (CreateAccount user body) WF eq_refl)). }
  revert WF'. unfold createAccount.
  destruct (negb (createAccountValidation body)); [intros _; exact Ord|].
  destruct (text_of _) as [name|]; [|intros _; exact Ord].
  destruct (AccountType_of_js _) as [type|]; [|intros _; exact Ord].
  destruct (AccountModel.findOne db _); [intros _; exact Ord|].
  destruct (Number (default_to _ _)) as [bal|]; [|intros _; exact Ord].
  destruct (optional_trim _) as [description|]; [|intros _; exact Ord].
  match goal with |- context [match ?x with Some _ => _ | None => _ end] =>
    destruct x as [limit|] end; [|intros _; exact Ord].
  unfold AccountModel.save_new. cbn [AccountModel.pre_save].
  match goal with |- context [if AccountModel.validate ?a then _ else _] =>
    destruct (AccountModel.validate a) eqn:V end; [|intros _; exact Ord].
  cbn [snd]. intro WF'.
  match goal with |- in_order (bump (with_accounts db (accounts db ++ [?a]))) =>
    set (new := a) in * end.
  pose proof S as [NDa [NDt [Fresh [Acc Txn]]]].
  assert (Unl : forall t, In t (transactions db) -> t_accountId t <> a_id new).
  { intros t Ht. apply (unlinked_fresh db); try assumption. cbn. lia. }
  split; [|split; [|split; [|exact WF']]].
  - unfold sound. cbn [accounts transactions nextId bump with_accounts].
    split; [apply WF'|]. split; [exact NDt|]. split; [|split].
    + intros t Ht. specialize (Fresh t Ht). lia.
    + intros a Ha. apply in_app_or in Ha. destruct Ha as [Ha|[<-|[]]]; [exact (Acc a Ha)|].
      split; [exact V | apply round2_whole_cents].
    + intros t Ht. split; [apply (Txn t Ht)|].
      destruct (Txn t Ht) as [_ [x [Hx Ex]]]. exists x. split; [|exact Ex].
      apply in_or_app. left. exact Hx.
  - intros a Ha. cbn [accounts bump with_accounts] in Ha. unfold balanced.
    cbn [transactions bump with_accounts].
    apply in_app_or in Ha. destruct Ha as [Ha|[<-|[]]]; [exact (L a Ha)|].
    pose proof (net_absent (a_id new) (transactions db) Unl) as N. unfold net in N.
    cbn [new a_balance a_initialBalance set_balance set_initialBalance] in *. lra.
  - intros t a Ht Ha E. cbn [accounts transactions bump with_accounts] in Ht, Ha.
    apply in_app_or in Ha. destruct Ha as [Ha|[<-|[]]]; [exact (O t a Ht Ha E)|].
    exfalso. exact (Unl t Ht E).
Qed.

Lemma updateAccount_books (db : Db) (user accountId : ObjectId) (updates : Obj) :
  has updates "balance" = false -> has updates "initialBalance" = false ->
  has updates "userId" = false ->
  Payload.names_only Payload.account_paths updates = true ->
  in_order db -> in_order (snd (updateAccount db user accountId updates)).
Proof.
  intros NoB NoI NoU Paths Ord. pose proof Ord as (S & L & O & WF).
  assert (WF' : well_formed (snd (updateAccount db user accountId updates))).
  { exact (proj1 (step_initials db (UpdateAccount user accountId updates) WF NoI)). }
  revert WF'. unfold updateAccount.
  destruct (negb (updateAccountValidation updates)); [intros _; exact Ord|].
  destruct (AccountModel.findOne db _) as [account|] eqn:Ha; [|intros _; exact Ord].
  match goal with |- context [if ?c then (mkResponse 400 _, _) else _] => destruct c end;
    [intros _; exact Ord|].
  destruct (AccountController.assign_all account updates) as [account'|] eqn:E;
    [|intros _; exact Ord].
  destruct (account_assign_all_frame _ _ _ E) as (Eid & Eib & Eb).
  specialize (Eid (account_paths_no_id _ Paths)).
  rewrite (account_save_changes_same db account account' Eid).
  destruct (AccountModel.save db account') as [db1|] eqn:Hsave; [|intros _; exact Ord].
  cbn [snd]. intro WF'.
  apply find_some in Ha. destruct Ha as [Hin _].
  pose proof (account_assign_all_user _ _ _ E NoU) as Eu.
  pose proof S as [NDa [NDt [Fresh [Acc Txn]]]].
  assert (V : AccountModel.validate account' = true).
  { unfold AccountModel.save in Hsave. cbn [AccountModel.pre_save] in Hsave.
    destruct (AccountModel.validate account'); [reflexivity | discriminate Hsave]. }
  assert (C : whole_cents (a_balance account')).
  { rewrite (Eb NoB). apply (Acc account Hin). }
  destruct (save_sound db account account' S Hin Eid V C) as (db' & Hs & S' & _ & T' & A').
  rewrite Hsave in Hs. injection Hs as <-.
  split; [exact S'|]. split; [|split; [|exact WF']].
  - intros a Ha. rewrite A' in Ha. unfold balanced. rewrite T'.
    apply in_replace_by in Ha. destruct Ha as [->|[Ha _]]; [|exact (L a Ha)].
    rewrite (Eb NoB), (Eib NoI), Eid. exact (L account Hin).
  - exact (owners_save db db1 account account' Hin Eid Eu Hsave O).
Qed.

Lemma deleteAccount_owners (db : Db) (user accountId : ObjectId) :
  owners_agree db -> owners_agree (snd (deleteAccount db user accountId)).
Proof.
  intro O. unfold deleteAccount.
  destruct (AccountModel.findOne db _) as [account|] eqn:F; [|exact O].
  apply find_some in F. destruct F as [Hin _].
  destruct (0 <? _)%nat.
  - destruct (AccountModel.save db _) as [db1|] eqn:Hs; [|exact O].
    exact (owners_save db db1 account (set_isActive account false) Hin eq_refl eq_refl
             Hs O).
  - cbn [snd]. intros t a Ht Ha E. apply (O t a Ht); [|exact E].
    unfold findByIdAndDelete in Ha. cbn [accounts with_accounts] in Ha.
    unfold remove_by in Ha. apply filter_In in Ha. apply Ha.
Qed.

Lemma deleteAccount_well_formed (db : Db) (user accountId : ObjectId) :
  well_formed db -> well_formed (snd (deleteAccount db user accountId)).
Proof.
  intros [ND Old]. unfold deleteAccount.
  destruct (AccountModel.findOne db _) as [account|] eqn:F; [|split; assumption].
  apply find_some in F. destruct F as [Hin _].
  destruct (0 <? _)%nat.
  - unfold AccountModel.save. cbn [AccountModel.pre_save].
    destruct (AccountModel.validate _); [|split; assumption].
    cbn [snd]. split; cbn [accounts nextId with_accounts].
    + apply NoDup_replace_by. exact ND.
    + intros a Ha. apply in_replace_by in Ha. destruct Ha as [->|[Ha _]].
      * exact (Old account Hin).
      * exact (Old a Ha).
  - cbn [snd]. unfold findByIdAndDelete. split; cbn [accounts nextId with_accounts].
    + unfold remove_by. apply filter_keeps_ids_distinct. exact ND.
    + intros a Ha. unfold remove_by in Ha. apply filter_In in Ha. apply Old, Ha.
Qed.

Lemma createDefaultAccounts_rest (db : Db) (userId : ObjectId) :
  sound db -> well_formed db -> owners_agree db ->
  owners_agree (fst (createDefaultAccounts db userId))
  /\ well_formed (fst (createDefaultAccounts db userId)).
Proof.
  intros Snd WF O. pose proof WF as [ND Old].
  unfold createDefaultAccounts, Account_insertMany.
  change (forallb AccountModel.validate
            [default_account userId "Main Checking" checking 0;
             default_account userId "Savings" savings 0])
    with true.
  cbv iota. cbn [fst insert_accounts bump with_accounts accounts transactions categories
                 budgets nextId].
  split.
  - intros t a Ht Ha E. cbn [transactions accounts] in Ht, Ha.
    apply in_app_or in Ha. destruct Ha as [Ha|[<-|[]]].
    + apply in_app_or in Ha. destruct Ha as [Ha|[<-|[]]]; [exact (O t a Ht Ha E)|].
      exfalso. apply (unlinked_fresh db (nextId db) t Snd WF (Nat.le_refl _) Ht). exact E.
    + exfalso.
      apply (unlinked_fresh db (S (nextId db)) t Snd WF (Nat.le_succ_diag_r _) Ht). exact E.
  - split; cbn [accounts nextId bump with_accounts].
    + rewrite !map_app. cbn [map a_id]. rewrite <- app_assoc. cbn [app].
      apply NoDup_app. repeat split.
      * exact ND.
      * repeat constructor; cbn [In]; [intros [H|[]]; lia | intros []].
      * intros i Hi Hj. apply in_map_iff in Hi. destruct Hi as [x [E Hx]].
        specialize (Old x Hx). destruct Hj as [Hj|[Hj|[]]]; lia.
    + intros a Ha. apply in_app_or in Ha. destruct Ha as [Ha|[<-|[]]].
      * apply in_app_or in Ha. destruct Ha as [Ha|[<-|[]]];
          [specialize (Old a Ha); lia | cbn; lia].
      * cbn. lia.
Qed.

Lemma in_order_step (db : Db) (r : Request) :
  in_order db -> plain r -> in_order (step db r).
Proof.
  intros Ord P. pose proof Ord as (S & L & O & WF). pose proof S as [NDa _].
  destruct r as [[user body|user accountId updates|user body|user tid updates|user tid
                 |user rows]|user accountId|userId];
    cbn [step Api.step plain] in *.
  - apply createAccount_books. exact Ord.
  - destruct P as (NoB & NoI & NoU & Paths). apply updateAccount_books; assumption.
  - destruct (createTransaction_ledger db user body S L P) as [S' L'].
    split; [exact S'|]. split; [exact L'|]. split.
    + apply createTransaction_owners; assumption.
    + exact (proj1 (step_initials db (CreateTransaction user body) WF eq_refl)).
  - destruct P as (NDk & NoU & Paths).
    destruct (updateTransaction_ledger db user tid updates S L NDk Paths) as [S' L'].
    split; [exact S'|]. split; [exact L'|]. split.
    + apply updateTransaction_owners; assumption.
    + exact (proj1 (step_initials db (UpdateTransaction user tid updates) WF eq_refl)).
  - destruct (deleteTransaction_ledger db user tid S L) as [S' L'].
    split; [exact S'|]. split; [exact L'|]. split.
    + apply deleteTransaction_owners; assumption.
    + exact (proj1 (step_initials db (DeleteTransaction user tid) WF eq_refl)).
  - contradiction.
  - destruct (deleteAccount_books db user accountId S L O) as (S' & L' & _).
    split; [exact S'|]. split; [exact L'|]. split.
    + apply deleteAccount_owners. exact O.
    + apply deleteAccount_well_formed. exact WF.
  - destruct (createDefaultAccounts_books db userId S WF L) as (_ & S' & L' & _).
    destruct (createDefaultAccounts_rest db userId S WF O) as [O' WF'].
    split; [exact S'|]. split; [exact L'|]. split; [exact O' | exact WF'].
Qed.

(** X23: the books stay in order over every sequence of requests.  From a
    database in order - unique ObjectIds, valid documents in whole cents,
    every transaction on a stored account of its owner, every balance the
    initial balance plus the income minus the expenses linked to the
    account - every sequence of account creations, updates and deletions,
    default accounts for a new user, and transaction creations, updates and
    deletions leaves it in order, as long as the amounts sent are in whole
    cents, update payloads name paths of the record only, and none names
    the owner of the document or, for an account, one of its balances. *)
Theorem in_order_run (requests : list Request) (db : Db) :
  in_order db -> Forall plain requests -> in_order (run db requests).
Proof.
  revert db. induction requests as [|r requests IH]; intros db Ord P; [exact Ord|].
  inversion P as [|? ? Pr Prest]; subst.
  cbn [run fold_left]. apply IH; [|exact Prest]. apply in_order_step; assumption.
Qed.

End BooksInOrder.

Section BooksAtWork.

Import Api Books.

Lemma in_order_fresh : in_order Scenario.fresh.
Proof.
  split; [exact sound_fresh|]. split; [|split; [|exact well_formed_fresh]].
  - intros a [<-|[]]. vm_compute. reflexivity.
  - intros t a [].
Qed.

(** A second account, an expense, its move to the second account as an
    income, a new name, and the closing of the first account: the books are
    in order at the end. *)
Lemma in_order_after_requests :
  in_order (run Scenario.fresh
              [Of (CreateAccount Scenario.alice
                     [("name", JStr "Cash"); ("type", JStr "cash"); ("balance", JNum 20)]);
               Of (CreateTransaction Scenario.alice (Scenario.create_with_amount (1250 # 100)));
               Of (UpdateTransaction Scenario.alice 11%nat
                     [("accountId", JId 10); ("type", JStr "income"); ("categoryId", JId 3)]);
               Of (UpdateAccount Scenario.alice 10%nat [("name", JStr "Wallet")]);
               DeleteAccount Scenario.alice 1%nat;
               DefaultAccounts 8%nat]).
Proof.
  apply in_order_run; [exact in_order_fresh|].
  apply Forall_cons; [exact I|].
  apply Forall_cons; [intros q H; injection H as <-; exists 1250%Z; reflexivity|].
  apply Forall_cons;
    [split; [repeat constructor; cbn; intuition discriminate | split; reflexivity]|].
  apply Forall_cons; [repeat split|].
  apply Forall_cons; [exact I|].
  apply Forall_cons; [exact I|].
  apply Forall_nil.
Defined.

End BooksAtWork.

(* ================================================================== *)
(** ** The page of an account and the preview of an upload *)
(* ================================================================== *)

Section AccountPage.

Import Ledger Flows TransactionQueries AccountPages.

Variable sort_by : string -> bool -> list Transaction -> list Transaction.

Lemma stats_total (docs : list Transaction) (ty : TxType) :
  match find (fun s => TxType_eqb (g_id s) ty) (stats_by_type docs) with
  | Some s => g_total s
  | None => 0
  end
  == fold_right (fun t s => t_amount t + s) 0
       (filter (fun t => TxType_eqb (t_type t) ty) docs).
Proof.
  unfold stats_by_type.
  destruct (filter (fun t => TxType_eqb (t_type t) income) docs) as [|i li] eqn:Ei;
    destruct (filter (fun t => TxType_eqb (t_type t) expense) docs) as [|e le] eqn:Ee;
    destruct ty; cbn [app find g_id g_total TxType_eqb];
    rewrite ?Ei, ?Ee; try reflexivity;
    unfold AnalyticsController.sum_of; rewrite sum_of_fold_right; ring.
Qed.

(** X24: the page of an account is consistent.  On books in whole units
    of the currency, of a volume within [exact_size] - where the totals
    that the aggregation computes without rounding are exact - when every balance
    agrees with its transactions and the transactions of the account are
    its owner's, the balance shown by [getAccount] is the initial balance plus
    the total income minus the total expenses of the statistics shown
    beside it; the count of the statistics is the number of transactions
    linked to the account; and at most five recent transactions are
    listed. *)
Theorem getAccount_stats_agree (db : Db) (user accountId : ObjectId)
    (r : Response) (page : Page) :
  exact_sums db -> ledger_ok db -> owners_agree db ->
  getAccount sort_by db user accountId = (r, Some page) ->
  a_balance (account page)
  == a_initialBalance (account page)
     + totalIncome (stats page) - totalExpenses (stats page)
  /\ transactionCount (stats page)
     = List.length (filter (fun t => (t_accountId t =? accountId)%nat) (transactions db))
  /\ (List.length (recentTransactions page) <= 5)%nat
  /\ In (account page) (accounts db) /\ a_id (account page) = accountId
  /\ a_userId (account page) = user.
Proof.
  intros _ L O. unfold getAccount.
  destruct (AccountModel.findOne db _) as [acc|] eqn:F; [|discriminate].
  intro H. apply (f_equal snd) in H. cbv beta iota delta [snd] in H.
  apply (f_equal (fun o => match o with Some x => x | None => page end)) in H.
  cbv beta iota in H. subst page.
  destruct (findOne_owned db user accountId acc F) as (Hin & Hid & Hu).
  cbv beta iota zeta delta [account stats recentTransactions totalIncome totalExpenses
                            transactionCount].
  pose proof (own_transactions db acc O Hin) as E. rewrite Hu in E. rewrite E.
  split; [|split; [|split; [|auto]]].
  - rewrite Hid.
    set (docs := filter (fun t => (t_accountId t =? accountId)%nat) (transactions db)).
    pose proof (stats_total docs income) as I.
    pose proof (stats_total docs expense) as X.
    pose proof (signed_total_by_type docs) as T.
    pose proof (net_signed_total accountId (transactions db)) as N. fold docs in N.
    pose proof (L acc Hin) as B. unfold balanced in B. rewrite Hid in B.
    unfold net in N. lra.
  - rewrite stats_count, Hid. reflexivity.
  - rewrite length_firstn. apply Nat.le_min_l.
Qed.

End AccountPage.

Section AccountPageAtWork.

Import AccountPages.

(** The page of the account with one expense of 20: balance -20, no income,
    expenses 20, one transaction. *)
Lemma getAccount_stats_agree_one_expense :
  exists r page,
    getAccount (fun _ _ l => l) Scenario.one_expense Scenario.alice 1%nat = (r, Some page)
    /\ a_balance (account page)
       == a_initialBalance (account page)
          + totalIncome (stats page) - totalExpenses (stats page).
Proof.
  eexists. eexists. split; [reflexivity|].
  refine (proj1 (getAccount_stats_agree (fun _ _ l => l) Scenario.one_expense
                   Scenario.alice 1%nat _ _ one_expense_exact ledger_ok_one_expense
                   owners_agree_one_expense eq_refl)).
Defined.

End AccountPageAtWork.

Section Preview.

Import UploadController UploadMapping.

Variable parseFloat_text : string -> option Q.
Variable Date_of_text : string -> option Date.
Variable today : string.
Variable numeral : nat -> string.

Lemma map_from_length (csvData : list CsvRow) (index : nat) :
  List.length (map_from parseFloat_text Date_of_text today numeral index csvData)
  = List.length csvData.
Proof.
  revert index. induction csvData as [|row rest IH]; intro index; [reflexivity|].
  cbn [map_from List.length]. rewrite IH. reflexivity.
Qed.

Lemma map_from_amounts (csvData : list CsvRow) (index : nat) (m : Mapped) (a : Q) :
  In m (map_from parseFloat_text Date_of_text today numeral index csvData) ->
  m_amount m = Some a -> 0 <= a.
Proof.
  revert index. induction csvData as [|row rest IH]; intros index H E; [contradiction|].
  cbn [map_from] in H. destruct H as [<-|H]; [|exact (IH _ H E)].
  unfold map_row in E. cbn [m_amount] in E.
  destruct (parseFloat_text _) as [x|]; [|discriminate E].
  injection E as <-. apply Qabs_nonneg.
Qed.

(** X25: the preview of an upload has every row of the file.  Mapping the
    rows of a CSV file drops none, whatever a row holds - a row without a
    readable amount is listed with the amount NaN -, and gives no negative
    amount; so the upload of a stored CSV file that parses is answered
    'No valid transactions found in file' exactly when the file has no
    row. *)
Theorem mapCsvToTransactions_keeps_rows (fs : Fs) (originalname path : string)
    (csvData : list CsvRow) :
  toLowerCase (extname originalname) = ".csv" ->
  parseCsvFile fs path = Rows csvData ->
  List.length (mapCsvToTransactions parseFloat_text Date_of_text today numeral csvData)
  = List.length csvData
  /\ (forall m a,
        In m (mapCsvToTransactions parseFloat_text Date_of_text today numeral csvData) ->
        m_amount m = Some a -> 0 <= a)
  /\ (fst (uploadTransactions Mapped
             (mapCsvToTransactions parseFloat_text Date_of_text today numeral)
             fs (Some (mkStored originalname path)))
      = mkResponse 400 "No valid transactions found in file"
      <-> csvData = [])
  /\ (status (fst (uploadTransactions Mapped
                     (mapCsvToTransactions parseFloat_text Date_of_text today numeral)
                     fs (Some (mkStored originalname path)))) = 200%nat
      <-> csvData <> []).
Proof.
  intros Hext Hparse. unfold mapCsvToTransactions.
  split; [apply map_from_length|]. split; [apply map_from_amounts|].
  unfold uploadTransactions. cbn [file_path file_originalname].
  rewrite Hext, Hparse. cbn [String.eqb Ascii.eqb Bool.eqb].
  destruct csvData as [|row rest]; cbn [map_from fst status].
  - split; split; intro H; try reflexivity; try discriminate H. exfalso. apply H. reflexivity.
  - split; split; intro H; try reflexivity; try discriminate H. intro N. discriminate N.
Qed.

End Preview.

Section PreviewAtWork.

Import UploadController UploadMapping.

(** A stored file of two rows, the second without an amount the runtime
    can read: the preview has two entries. *)
Lemma mapCsvToTransactions_keeps_rows_two :
  let rows := [[("date", "2024-01-15"); ("amount", "-85.50")];
               [("date", "2024-01-16"); ("amount", "n/a")]] in
  List.length (mapCsvToTransactions (fun _ => None) (fun _ => None) "2024-01-17"
                 (fun _ => "1") rows)
  = List.length rows.
Proof.
  cbv zeta.
  refine (proj1 (mapCsvToTransactions_keeps_rows (fun _ => None) (fun _ => None)
                   "2024-01-17" (fun _ => "1")
                   [("uploads/file-1.csv",
                     Rows [[("date", "2024-01-15"); ("amount", "-85.50")];
                           [("date", "2024-01-16"); ("amount", "n/a")]])]
                   "statement.csv" "uploads/file-1.csv" _ _ _)).
  - reflexivity.
  - reflexivity.
Defined.

End PreviewAtWork.

(* ================================================================== *)
(** ** The totals of the spending analytics *)
(* ================================================================== *)

Section AnalyticsTotals.

Import Ledger AnalyticsController SpendingAnalytics Totals.

Variable round_2 : Q -> Q.
Variable sort_by_totalAmount : list CategoryRow -> list CategoryRow.

(** The server rounds a number of whole cents to itself, and sorting
    rearranges the rows. *)
Hypothesis round_2_cents : forall x, whole_cents x -> round_2 x == x.
Hypothesis sort_rearranges : forall rows, Permutation (sort_by_totalAmount rows) rows.

Lemma sum_of_rows (rows : list CategoryRow) : sum_of totalAmount rows == row_total rows.
Proof.
  unfold sum_of.
  assert (G : forall acc, fold_left (fun sum x => sum + totalAmount x) rows acc
                          == acc + row_total rows).
  { induction rows as [|r rows IH]; intro acc; cbn [fold_left row_total fold_right].
    - ring.
    - rewrite IH. unfold row_total. ring. }
  rewrite G. ring.
Qed.

Lemma row_total_rearranged (rows rows' : list CategoryRow) :
  Permutation rows rows' -> row_total rows == row_total rows'.
Proof.
  intro P. unfold row_total. induction P; cbn [fold_right].
  - reflexivity.
  - rewrite IHP. reflexivity.
  - set (s := fold_right _ 0 l). lra.
  - rewrite IHP1. exact IHP2.
Qed.

Lemma add_to_groups_total (groups : list CategoryGroup) (t : Transaction) :
  group_total (add_to_groups groups t) == group_total groups + t_amount t.
Proof.
  unfold group_total.
  induction groups as [|g groups IH]; cbn [add_to_groups fold_right cg_totalAmount].
  - ring.
  - destruct (cg_id g =? t_categoryId t)%nat; cbn [fold_right cg_totalAmount].
    + ring.
    + rewrite IH. ring.
Qed.

Lemma add_to_groups_ids (groups : list CategoryGroup) (t : Transaction) (g : CategoryGroup) :
  In g (add_to_groups groups t) ->
  cg_id g = t_categoryId t \/ In (cg_id g) (map cg_id groups).
Proof.
  induction groups as [|h groups IH]; cbn [add_to_groups]; intro H.
  - destruct H as [<-|[]]. left. reflexivity.
  - destruct (cg_id h =? t_categoryId t)%nat eqn:E.
    + destruct H as [<-|H].
      * right. left. reflexivity.
      * right. right. apply in_map. exact H.
    + destruct H as [<-|H].
      * right. left. reflexivity.
      * destruct (IH H) as [K|K]; [left; exact K | right; right; exact K].
Qed.

Lemma add_to_groups_distinct (groups : list CategoryGroup) (t : Transaction) :
  NoDup (map cg_id groups) -> NoDup (map cg_id (add_to_groups groups t)).
Proof.
  induction groups as [|h groups IH]; cbn [add_to_groups map]; intro N.
  - constructor; [intros [] | constructor].
  - inversion N as [|? ? Hh Nr]; subst.
    destruct (cg_id h =? t_categoryId t)%nat eqn:E; cbn [map cg_id].
    + constructor; assumption.
    + constructor; [|exact (IH Nr)].
      intro K. apply in_map_iff in K. destruct K as [g [Eg Hg]].
      destruct (add_to_groups_ids groups t g Hg) as [K|K].
      * apply Nat.eqb_neq in E. congruence.
      * apply Hh. rewrite <- Eg. exact K.
Qed.

Lemma add_to_groups_cents (groups : list CategoryGroup) (t : Transaction) :
  whole_cents (t_amount t) ->
  (forall g, In g groups -> whole_cents (cg_totalAmount g)) ->
  forall g, In g (add_to_groups groups t) -> whole_cents (cg_totalAmount g).
Proof.
  intros Wt. induction groups as [|h groups IH]; cbn [add_to_groups]; intros W g H.
  - destruct H as [<-|[]]. cbn [cg_totalAmount].
    apply whole_cents_plus; [apply whole_cents_0 | exact Wt].
  - destruct (cg_id h =? t_categoryId t)%nat.
    + destruct H as [<-|H].
      * cbn [cg_totalAmount]. apply whole_cents_plus; [|exact Wt].
        apply W. left. reflexivity.
      * apply W. right. exact H.
    + destruct H as [<-|H].
      * apply W. left. reflexivity.
      * apply IH; [|exact H]. intros g' Hg'. apply W. right. exact Hg'.
Qed.

Lemma fold_groups (db : Db) (docs : list Transaction) (groups : list CategoryGroup) :
  (forall t, In t docs -> whole_cents (t_amount t)
                          /\ exists c, In c (categories db) /\ c_id c = t_categoryId t) ->
  groups_fine db groups ->
  groups_fine db (fold_left add_to_groups docs groups)
  /\ group_total (fold_left add_to_groups docs groups)
     == group_total groups + fold_right (fun t s => t_amount t + s) 0 docs.
Proof.
  revert groups. induction docs as [|t docs IH]; intros groups D F; cbn [fold_left fold_right].
  - split; [exact F | ring].
  - destruct (D t (or_introl eq_refl)) as [Wt [c [Hc Ec]]].
    destruct F as [N G].
    assert (F' : groups_fine db (add_to_groups groups t)).
    { split; [apply add_to_groups_distinct; exact N|].
      intros g Hg. split.
      - apply (add_to_groups_cents groups t Wt); [|exact Hg].
        intros g' Hg'. apply (G g' Hg').
      - destruct (add_to_groups_ids groups t g Hg) as [K|K].
        + exists c. split; [exact Hc | congruence].
        + apply in_map_iff in K. destruct K as [g' [Eg' Hg']].
          destruct (G g' Hg') as [_ [c' [Hc' Ec']]].
          exists c'. split; [exact Hc' | congruence]. }
    destruct (IH (add_to_groups groups t) (fun t' H' => D t' (or_intror H')) F') as [F2 T2].
    split; [exact F2|].
    rewrite T2, add_to_groups_total. ring.
Qed.

Lemma the_one_category (l : list Category) (c : Category) :
  NoDup (map c_id l) -> In c l ->
  filter (fun x => (c_id x =? c_id c)%nat) l = [c].
Proof.
  induction l as [|x l IH]; intros N H; [destruct H|].
  inversion N as [|? ? Hx Nl]; subst. cbn [filter].
  destruct H as [->|H].
  - rewrite Nat.eqb_refl. f_equal.
    assert (K : forall l', ~ In (c_id c) (map c_id l') ->
                           filter (fun x => (c_id x =? c_id c)%nat) l' = []).
    { induction l' as [|y l' IH']; intro K; [reflexivity|]. cbn [filter].
      destruct (c_id y =? c_id c)%nat eqn:E.
      - exfalso. apply K. left. apply Nat.eqb_eq. exact E.
      - apply IH'. intro K'. apply K. right. exact K'. }
    apply K. exact Hx.
  - destruct (c_id x =? c_id c)%nat eqn:E.
    + exfalso. apply Hx. apply Nat.eqb_eq in E. rewrite E. apply in_map. exact H.
    + apply IH; assumption.
Qed.

Lemma joined_total (db : Db) (type : TxType) (groups : list CategoryGroup) :
  NoDup (map c_id (categories db)) ->
  (forall g, In g groups ->
     whole_cents (cg_totalAmount g)
     /\ exists c, In c (categories db) /\ c_id c = cg_id g) ->
  row_total
    (flat_map (fun g =>
                 map (fun category =>
                        mkCategoryRow (cg_id g) (c_name category)
                          (round_2 (cg_totalAmount g)) (cg_transactionCount g)
                          (match type with
                           | expense =>
                               Some (round_2 (cg_totalAmount g
                                              / inject_Z (Z.of_nat (cg_transactionCount g))))
                           | income => None
                           end))
                     (filter (fun c => (c_id c =? cg_id g)%nat) (categories db)))
              groups)
  == group_total groups.
Proof.
  intros N. induction groups as [|g groups IH]; intro G; cbn [flat_map group_total fold_right].
  - reflexivity.
  - destruct (G g (or_introl eq_refl)) as [W [c [Hc Ec]]].
    rewrite <- Ec, (the_one_category _ c N Hc). cbn [map app row_total fold_right totalAmount].
    unfold row_total, group_total in IH.
    rewrite (IH (fun g' H' => G g' (or_intror H'))).
    rewrite (round_2_cents _ W). reflexivity.
Qed.

Lemma by_category_total (db : Db) (userId : ObjectId) (type : TxType) (dateRange : DateRange) :
  NoDup (map c_id (categories db)) ->
  categories_stored db ->
  (forall t, In t (transactions db) -> whole_cents (t_amount t)) ->
  sum_of totalAmount (by_category round_2 sort_by_totalAmount db userId type dateRange)
  == amount_of db userId type dateRange.
Proof.
  intros N St W. unfold by_category, amount_of.
  set (matched := filter _ (transactions db)).
  assert (D : forall t, In t matched ->
                whole_cents (t_amount t)
                /\ exists c, In c (categories db) /\ c_id c = t_categoryId t).
  { intros t Ht. apply filter_In in Ht. destruct Ht as [Ht _].
    split; [apply W; exact Ht | apply St; exact Ht]. }
  assert (F0 : groups_fine db []).
  { split; [constructor | intros g []]. }
  destruct (fold_groups db matched [] D F0) as [[_ G] T].
  rewrite sum_of_rows, (row_total_rearranged _ _ (sort_rearranges _)).
  rewrite (joined_total db type _ N G).
  unfold group_by_category in *. rewrite T. cbn [group_total fold_right]. ring.
Qed.

Lemma amount_of_cents (db : Db) (userId : ObjectId) (type : TxType) (dateRange : DateRange) :
  (forall t, In t (transactions db) -> whole_cents (t_amount t)) ->
  whole_cents (amount_of db userId type dateRange).
Proof.
  intro W. unfold amount_of.
  assert (G : forall docs, (forall t, In t docs -> whole_cents (t_amount t)) ->
                whole_cents (fold_right (fun t s => t_amount t + s) 0 docs)).
  { induction docs as [|t docs IH]; intro D; cbn [fold_right]; [apply whole_cents_0|].
    apply whole_cents_plus; [apply D; left; reflexivity|].
    apply IH. intros t' H'. apply D. right. exact H'. }
  apply G. intros t Ht. apply filter_In in Ht. apply W. apply Ht.
Qed.

(** X26: when category ObjectIds are unique, the category of every stored
    transaction is stored and the amounts are in whole cents, the summary
    of the spending analytics totals exactly the user's income and the
    user's expenses of the date range, and their difference: no matching
    transaction is lost or counted twice by the grouping and the join with
    the categories. *)
Theorem getSpendingAnalytics_totals (db : Db) (userId : ObjectId) (dateRange : DateRange) :
  NoDup (map c_id (categories db)) ->
  categories_stored db ->
  (forall t, In t (transactions db) -> whole_cents (t_amount t)) ->
  let s := summary (getSpendingAnalytics round_2 sort_by_totalAmount db userId dateRange) in
  totalIncome s == amount_of db userId income dateRange
  /\ totalExpenses s == amount_of db userId expense dateRange
  /\ netIncome s == amount_of db userId income dateRange
                    - amount_of db userId expense dateRange.
Proof.
  intros N St W. cbv zeta. unfold getSpendingAnalytics.
  cbn [summary totalIncome totalExpenses netIncome].
  pose proof (by_category_total db userId income dateRange N St W) as I.
  pose proof (by_category_total db userId expense dateRange N St W) as E.
  pose proof (amount_of_cents db userId income dateRange W) as WI.
  pose proof (amount_of_cents db userId expense dateRange W) as WE.
  repeat split.
  - rewrite (round2_comp _ _ I). apply round2_cents. exact WI.
  - rewrite (round2_comp _ _ E). apply round2_cents. exact WE.
  - assert (D : sum_of totalAmount
                  (by_category round_2 sort_by_totalAmount db userId income dateRange)
                - sum_of totalAmount
                    (by_category round_2 sort_by_totalAmount db userId expense dateRange)
                == amount_of db userId income dateRange
                   - amount_of db userId expense dateRange)
      by (rewrite I, E; reflexivity).
    rewrite (round2_comp _ _ D). apply round2_cents.
    apply whole_cents_minus; assumption.
Qed.

End AnalyticsTotals.

Section AnalyticsTotalsAtWork.

Import Ledger AnalyticsController SpendingAnalytics Totals.

(** The healthy scenario from date 100 on, with the rounding of [round2]
    and the rows left in the order of the groups: the salary of 2000 counts,
    the older one does not, and the two expenses make 1600. *)
Lemma getSpendingAnalytics_totals_healthy :
  let s := summary (getSpendingAnalytics round2 (fun rows => rows)
                      Scenario.healthy Scenario.alice (Since 100%Z)) in
  totalIncome s == amount_of Scenario.healthy Scenario.alice income (Since 100%Z)
  /\ totalExpenses s == amount_of Scenario.healthy Scenario.alice expense (Since 100%Z)
  /\ netIncome s == amount_of Scenario.healthy Scenario.alice income (Since 100%Z)
                    - amount_of Scenario.healthy Scenario.alice expense (Since 100%Z).
Proof.
  apply (getSpendingAnalytics_totals round2 (fun rows => rows) round2_cents
           (fun rows => Permutation_refl rows)
           Scenario.healthy Scenario.alice (Since 100%Z)).
  - cbn. repeat constructor; cbn; intuition discriminate.
  - intros t H. cbn in H.
    destruct H as [<-|[<-|[<-|[<-|[]]]]]; cbn;
      [exists Scenario.salary | exists Scenario.food | exists Scenario.food
       | exists Scenario.salary]; split; cbn; auto.
  - intros t H. cbn in H.
    destruct H as [<-|[<-|[<-|[<-|[]]]]]; cbn;
      [exists 200000%Z | exists 100000%Z | exists 60000%Z | exists 140000%Z]; reflexivity.
Defined.

End AnalyticsTotalsAtWork.
